(* ===== verification/_CoqProject ===== *)
-Q . S2P
Prelude.v
Constants.v
Words.v
Utf8.v
Mask.v
Protocol.v
Http.v
Kernel.v
Driver.v
FdTable.v
SelectDriver.v
PollDriver.v
EpollDriver.v
KqueueDriver.v
Drivers.v
ConnState.v
Connection.v
ConnectionFacts.v
ConnectionSpec.v
Options.v
Frames.v
FramesSpec.v
World.v
Runtime.v
RuntimeFacts.v
WorldFacts.v
Server.v
Scenario.v
Termination.v
ServerInvariant.v
HandlerOrder.v
MemoryBounds.v
MessageSpec.v
HandshakeSpec.v
Ownership.v
CloseDelivery.v
TimeoutSpec.v
RejectionSpec.v
CodecTypes.v
AcceptSpec.v
Descriptors.v
