(* ===== verification/Prelude.v ===== *)
(** * A WebSocket server for PHP, verified

    This development models the PHP extension under [src/] and proves what makes it
    correct.  The program is a protocol codec (the class [WebSocket\Protocol]), an
    HTTP/1.1 upgrade parser, connection objects with a write queue, four
    readiness-notification drivers ([select], [poll], [epoll], [kqueue]) and a
    single-threaded event loop that accepts connections, performs handshakes, reads
    frames, calls the handlers of the PHP application and closes connections.

    ** The shape of the model

    Bytes are integers, byte strings ([zend_string], C buffers with a length) lists
    of them; integers are [Z] with the wrap-around of C written out where it can
    happen ([u8], [u64], [zend_long]).  Code with effects is a state transformer
    ([ST], in this file): the functions of [websocket_connection.c] over a
    connection, the driver and the kernel ([cstate]), those of the server over a
    [world].  The operating system is a script ([Kernel.v]): the answers to the
    system calls and the clock readings in order, and a trace of the descriptors it
    hands over and of what the program did to the outside.  Every theorem about the server quantifies over all scripts, so
    over all behaviours of clients and kernel.  PHP handlers are arbitrary finite
    trees of calls ([program], [World.v]): sends, closes, property reads, keeping and
    dropping references, [Server::stop], ending in a return or a throw; PHP variables
    that hold connections are the multiset [w_kept], and the reference count of each
    object is kept as the engine keeps it, so a connection can outlive its place in
    the server or be freed inside a handler.

    ** The files

    - [Prelude]: this header; bytes, lists and machine integers; the state monad with
      its program logic ([preserves], [relates], [hoare]), the database [pres] and the
      tactics.
    - [Constants] ([php_websocket.h]), [Words] (integers as byte strings).
    - The codec: [Utf8], [Mask], [Protocol] ([websocket_protocol.c]) with their
      theorems; [CodecTypes], the types of its values.
    - The upgrade: [Http] ([websocket_http.c]), the parser with its theorems.
    - The drivers: [Driver], the interface of [struct websocket_driver] as a type class
      [Driver] with the laws [DriverLaws] the rest relies on; [FdTable]; one file per
      driver of [drivers/]: [SelectDriver], [PollDriver], [EpollDriver],
      [KqueueDriver], each an instance of both; [Drivers], the choice in [websocket.c],
      and the abstract machine all of them implement.
    - Connections: [ConnState] (the C struct), [Connection] ([websocket_connection.c]),
      [ConnectionFacts] (what each function does), [ConnectionSpec] (the theorems).
    - The server's data: [Options] ([WebSocket\ServerOptions] and its readers),
      [Frames] (the frame parser and the read buffer of
      [websocket_server_runtime.c]), [FramesSpec] (its theorems), [World].
    - The server: [Runtime] ([websocket_server_runtime.c], one definition per function
      in the order of the file), [Server] (the classes of [websocket_server.c], with
      [Server::run]), [Scenario] (a concrete server, for the witnesses).
    - Steps of the server: [RuntimeFacts] and [WorldFacts] (what any step may do, one
      lemma per function, collected in [pres]), [Termination] (the loops end),
      [ServerInvariant], [HandlerOrder], [Ownership], [MemoryBounds], [CloseDelivery],
      [Descriptors] (the ledger of opened and closed descriptors).
    - Single operations of the server: [AcceptSpec], [HandshakeSpec], [RejectionSpec],
      [MessageSpec], [TimeoutSpec].

    The server's theorems are proved against the class [Driver] and hold for each of
    the four instances, and for the sum of them a build selects from.  Connections are
    used by the server through [on_conn], and what it relies on is [cs_step] and the
    specifications of [ConnectionFacts].

    ** What is shown

    - Of a whole run of [Server::run]: the handlers called for each connection are
      handshake, open, messages, close, in this order ([HandlerOrder]); with a close
      handler and no exception, whoever was opened is closed ([CloseDelivery]);
      however it ends, no connection, socket or listener is left, and every descriptor
      the kernel handed over was closed as often as it was opened ([Descriptors]).
    - Between two iterations of the event loop, by induction on [reachable]: the array
      of connections is well formed and within its limits, and only its members have
      sockets ([ServerInvariant]); what a client can make a connection hold is bounded
      ([MemoryBounds]).
    - Of the loops: each stops for a reason of its own ([Termination]).
    - Of a connection, over any sequence of operations: the invariant of the queue, the
      integrity of the byte stream, back-pressure, flushing, closing
      ([ConnectionSpec]).
    - Of one event: accepting on every branch ([AcceptSpec]); a request cut into any
      chunks completes the handshake ([HandshakeSpec]); a rejection is one response
      ([RejectionSpec]); fragments are the message they were cut from, refused where
      they exceed the limit, and a pong that cannot be sent ends the event loop
      ([MessageSpec]); silent peers are pinged and closed, and when, in terms of the
      options ([TimeoutSpec], [Options]).
    - Of the codec: packing and unpacking are inverse (but for the malformed close
      payloads packed raw, which are named), decoding is monotone in its
      input and well typed, UTF-8 validation is RFC 3629, masking by words is masking
      by bytes ([Utf8], [Mask], [Protocol], [CodecTypes]); of the server's stricter
      parser: what it accepts is a minimal masked frame within the limits, it reads
      what the codec writes, and more input does not change its answer ([FramesSpec]).
    - Of the upgrade: soundness on arbitrary bytes, completeness on rendered requests,
      independence of segmentation, and the response is one header block ([Http]).
    - Of the drivers: whichever is selected, any legal sequence of operations
      implements one abstract machine ([Drivers]).

    ** Fuel

    A loop that waits for the kernel has one more unit of fuel than answers are left:
    each iteration uses up an answer, and an exhausted script answers [EAGAIN], which
    ends it.  The loop over buffered frames has the length of the buffer (a frame has
    at least six bytes), the loops over the array its length, the UTF-8 and header
    loops the length of their text.  [Termination.loops_terminate] and the lemmas
    around it ([write_some_loop_fuel], [close_loop_fuel], [utf8_loop_fuel]) say that
    more fuel changes nothing; [grow_loop] doubles at most 64 times.

    ** Parameters

    [getaddrinfo], [getnameinfo], the address family of a [sockaddr], PHP's SHA-1,
    base64 and [zval_get_long] are arguments; the byte order of the machine is one of
    the codec, and so are the four random bytes of a mask key.  Hypotheses on them are
    stated where they are used: base64 text has no CR and no NUL
    ([Http.upgrade_response_one_block]); the kernel does not answer a send with 0 or
    [ENOBUFS] ([ConnectionSpec.stream_integrity]).

    ** Not modelled

    Registration of the module, its classes and constants, generated arginfo, the
    compatibility macros and PHP's own parameter parser have no logic of the program.
    Memory allocation does not fail.  Replacing a handler of the server from inside a
    handler, and the call cache of the open handler, are outside [program], and so is
    user code that does not terminate. *)

From Stdlib Require Export ZArith Lia ZifyBool Bool List.
From stdpp Require Export prelude.

#[global] Open Scope Z_scope.

(** ** Machine integers

    C's unsigned types are [Z] with the wrap-around written out. *)

Definition u8 (z : Z) : Z := z mod 2 ^ 8.
Definition u64 (z : Z) : Z := z mod 2 ^ 64.
Definition SIZE_MAX : Z := 2 ^ 64 - 1.

Lemma u64_range z : 0 <= u64 z < 2 ^ 64.
Proof. apply Z.mod_pos_bound. lia. Qed.

Lemma u64_small z : 0 <= z < 2 ^ 64 -> u64 z = z.
Proof. apply Z.mod_small. Qed.

Lemma u8_small z : 0 <= z < 256 -> u8 z = z.
Proof. apply Z.mod_small. Qed.

(** ** Bytes and byte strings

    A byte is a [Z] in [0, 256); a byte string ([zend_string], a C buffer with
    its length) is a list of them.  Sizes and indices are [Z]. *)

Abbreviation bytes := (list Z) (only parsing).

Definition byteb (b : Z) : bool := (0 <=? b) && (b <? 256).
Definition is_byte (b : Z) : Prop := 0 <= b < 256.
Definition is_bytes (l : bytes) : Prop := Forall is_byte l.

Definition zlen {A} (l : list A) : Z := Z.of_nat (length l).
Definition ztake {A} (n : Z) (l : list A) : list A := take (Z.to_nat n) l.
Definition zdrop {A} (n : Z) (l : list A) : list A := drop (Z.to_nat n) l.
(** [l[i]] of a C buffer; every use is guarded by a length test. *)
Definition zget (l : bytes) (i : Z) : Z := nth (Z.to_nat i) l 0.

(** The library's hint databases: [ws] closes side conditions about bytes and
    lengths, the rewrite base [zlen] normalises lengths. *)
Create HintDb ws.
Create Rewrite HintDb zlen.
Create Rewrite HintDb st.

#[export] Instance is_byte_dec b : Decision (is_byte b).
Proof. unfold is_byte. apply _. Defined.

#[export] Instance is_bytes_dec l : Decision (is_bytes l).
Proof. unfold is_bytes. apply _. Defined.

Section ZList.
Context {A : Type}.
Implicit Types (l k : list A) (n i : Z).

Lemma zlen_nil : zlen (@nil A) = 0.
Proof. reflexivity. Qed.

Lemma zlen_cons (x : A) l : zlen (x :: l) = 1 + zlen l.
Proof. unfold zlen. cbn [length]. lia. Qed.

Lemma zlen_app l k : zlen (l ++ k) = zlen l + zlen k.
Proof. unfold zlen. rewrite length_app. lia. Qed.

Lemma zlen_nonneg l : 0 <= zlen l.
Proof. unfold zlen. lia. Qed.

Lemma zlen_ztake n l : zlen (ztake n l) = Z.min (Z.max 0 n) (zlen l).
Proof. unfold zlen, ztake. rewrite length_take. lia. Qed.

Lemma zlen_zdrop n l : zlen (zdrop n l) = zlen l - Z.min (Z.max 0 n) (zlen l).
Proof. unfold zlen, zdrop. rewrite length_drop. lia. Qed.

Lemma zlen_0_inv l : zlen l = 0 -> l = [].
Proof. destruct l; [done|]. rewrite zlen_cons. pose proof (zlen_nonneg l). lia. Qed.

Lemma ztake_zdrop n l : ztake n l ++ zdrop n l = l.
Proof. apply take_drop. Qed.

Lemma ztake_app_exact l k : ztake (zlen l) (l ++ k) = l.
Proof. unfold ztake, zlen. rewrite Nat2Z.id. apply take_app_length. Qed.

Lemma zdrop_app_exact l k : zdrop (zlen l) (l ++ k) = k.
Proof. unfold zdrop, zlen. rewrite Nat2Z.id. apply drop_app_length. Qed.

Lemma ztake_ge n l : zlen l <= n -> ztake n l = l.
Proof. intros. apply take_ge. unfold zlen in *. lia. Qed.

Lemma ztake_app_le n l k : n <= zlen l -> ztake n (l ++ k) = ztake n l.
Proof. intros. apply take_app_le. unfold zlen in *. lia. Qed.

Lemma zdrop_app_le n l k : n <= zlen l -> zdrop n (l ++ k) = zdrop n l ++ k.
Proof. intros. apply drop_app_le. unfold zlen in *. lia. Qed.

Lemma zdrop_zdrop n i l : 0 <= n -> 0 <= i -> zdrop n (zdrop i l) = zdrop (i + n) l.
Proof. intros. unfold zdrop. rewrite drop_drop. f_equal. lia. Qed.

Lemma ztake_0 l : ztake 0 l = [].
Proof. reflexivity. Qed.

Lemma zdrop_0 l : zdrop 0 l = l.
Proof. reflexivity. Qed.

Lemma length_nonnil l : l <> [] -> (0 < length l)%nat.
Proof. destruct l; [done|]. cbn. lia. Qed.

Lemma ztake_neg n l : n <= 0 -> ztake n l = [].
Proof. intros. unfold ztake. by replace (Z.to_nat n) with 0%nat by lia. Qed.

(** Taking [n] and then [i] more is taking [n + i]. *)
Lemma ztake_zdrop_app n i l : 0 <= n -> 0 <= i -> ztake n l ++ ztake i (zdrop n l) = ztake (n + i) l.
Proof.
  intros. unfold ztake, zdrop. rewrite Z2Nat.inj_add by lia.
  generalize (Z.to_nat n) as a, (Z.to_nat i) as b. clear.
  induction l as [|x l IH]; intros [|a] b; cbn; rewrite ?take_nil; try done. by rewrite IH.
Qed.
End ZList.

#[export] Hint Rewrite @zlen_nil @zlen_cons @zlen_app @zlen_ztake @zlen_zdrop : zlen.

(** Length arithmetic: put lengths in normal form everywhere, then [lia]. *)
Ltac pose_zlen :=
  repeat match goal with
  | |- context [zlen ?l] =>
      lazymatch goal with
      | _ : 0 <= zlen l |- _ => fail
      | _ => pose proof (zlen_nonneg l)
      end
  | H : context [zlen ?l] |- _ =>
      lazymatch goal with
      | _ : 0 <= zlen l |- _ => fail
      | _ => pose proof (zlen_nonneg l)
      end
  end.
Ltac zlia := autorewrite with zlen in *; pose_zlen; unfold SIZE_MAX in *; lia.

(** [lia] splits on every boolean equation; those between two unknown booleans
    say nothing about integers and are dropped first. *)
Ltac clear_bools :=
  repeat match goal with
  | H : @eq bool ?a ?b |- _ =>
      lazymatch b with true => fail | false => fail | _ => clear H end
  end.
Ltac slia := clear_bools; lia.

(** Compute [take]/[drop] at literal offsets of an explicit buffer. *)
Ltac ztake_cbn :=
  unfold ztake, zdrop in *;
  repeat match goal with
  | |- context [Z.to_nat (Zpos ?p)] =>
      let v := eval vm_compute in (Z.to_nat (Zpos p)) in change (Z.to_nat (Zpos p)) with v
  end; cbn; rewrite ?take_0, ?drop_0; cbn.

Section ZGet.
Implicit Types (l k : bytes) (i : Z).

Lemma zget_cons_0 x l : zget (x :: l) 0 = x.
Proof. reflexivity. Qed.

Lemma zget_cons_pos x l i : 0 < i -> zget (x :: l) i = zget l (i - 1).
Proof.
  intros. unfold zget. replace (Z.to_nat i) with (S (Z.to_nat (i - 1))) by lia. done.
Qed.

Lemma zget_app_l l k i : 0 <= i < zlen l -> zget (l ++ k) i = zget l i.
Proof. intros. apply app_nth1. unfold zlen in *. lia. Qed.

Lemma zget_app_r l k i : zlen l <= i -> zget (l ++ k) i = zget k (i - zlen l).
Proof.
  intros. unfold zget. rewrite app_nth2 by (unfold zlen in *; lia).
  f_equal. unfold zlen in *. lia.
Qed.

Lemma zget_zdrop n l i : 0 <= n -> 0 <= i -> zget (zdrop n l) i = zget l (n + i).
Proof.
  intros. unfold zget, zdrop. rewrite Z2Nat.inj_add by lia.
  generalize (Z.to_nat n) as m, (Z.to_nat i) as j. clear.
  induction l as [|x l IH]; intros [|m] j; cbn; try done.
  by destruct j.
Qed.

Lemma ztake_S_zdrop (k : nat) i l :
  0 <= i < zlen l ->
  ztake (Z.of_nat (S k)) (zdrop i l) = zget l i :: ztake (Z.of_nat k) (zdrop (i + 1) l).
Proof.
  intros Hi. unfold ztake, zdrop, zget, zlen in *. rewrite !Nat2Z.id.
  replace (Z.to_nat (i + 1)) with (S (Z.to_nat i)) by lia.
  assert (Hj : (Z.to_nat i < length l)%nat) by lia. revert Hj.
  generalize (Z.to_nat i) as j. clear. induction l as [|x l IH]; intros j Hj; cbn in Hj; [lia|].
  destruct j as [|j]; [done|]. cbn [drop nth]. apply IH. lia.
Qed.

Lemma zget_byte l i : is_bytes l -> is_byte (zget l i).
Proof.
  intros Hl. unfold zget. destruct (decide (Z.to_nat i < length l)%nat) as [Hi|Hi].
  - eapply (proj1 (Forall_forall _ _) Hl). apply list_elem_of_In. by apply nth_In.
  - rewrite nth_overflow by lia. unfold is_byte. lia.
Qed.
End ZGet.

Lemma is_bytes_app l k : is_bytes (l ++ k) <-> is_bytes l /\ is_bytes k.
Proof. apply Forall_app. Qed.

Lemma is_bytes_cons b l : is_bytes (b :: l) <-> is_byte b /\ is_bytes l.
Proof. apply Forall_cons. Qed.

Lemma is_bytes_ztake n l : is_bytes l -> is_bytes (ztake n l).
Proof. apply Forall_take. Qed.

Lemma is_bytes_zdrop n l : is_bytes l -> is_bytes (zdrop n l).
Proof. apply Forall_drop. Qed.

#[export] Hint Resolve zlen_nonneg zget_byte is_bytes_ztake is_bytes_zdrop : ws.

(** A boolean property of the integers below a literal bound is decided by
    evaluating every case. *)
Lemma small_cases (n : nat) (P : Z -> bool) :
  forallb P (map Z.of_nat (seq 0 n)) = true -> forall z, 0 <= z < Z.of_nat n -> P z = true.
Proof.
  rewrite forallb_forall. intros HP z Hz. apply HP, in_map_iff.
  exists (Z.to_nat z). split; [lia|]. apply in_seq. lia.
Qed.

Lemma byte_cases (P : Z -> bool) :
  forallb P (map Z.of_nat (seq 0 256)) = true -> forall b, is_byte b -> P b = true.
Proof. exact (small_cases 256 P). Qed.

(** [byte_fact F b as H]: [H : F b = true] for the boolean function [F] of bytes. *)
Tactic Notation "byte_fact" uconstr(F) constr(b) "as" ident(H) :=
  assert (H : (F : Z -> bool) b = true)
    by (apply (byte_cases F); [vm_compute; reflexivity | unfold is_byte in *; lia]);
  cbv beta in H.

Lemma land_byte_range b m : 0 <= b -> 0 <= m -> 0 <= Z.land b m <= m.
Proof.
  intros. split; [apply Z.land_nonneg; lia|].
  apply Z.ldiff_le; [lia|].
  apply Z.bits_inj'; intros n Hn.
  rewrite Z.ldiff_spec, Z.land_spec, Z.bits_0.
  by destruct (Z.testbit b n), (Z.testbit m n).
Qed.

(** ** Counting

    A list as a multiset: how often [x] occurs, and removing one occurrence. *)
Definition occurrences (x : Z) (l : list Z) : Z := zlen (filter (fun y => y = x) l).

Fixpoint remove_one (x : Z) (l : list Z) : list Z :=
  match l with
  | [] => []
  | y :: l => if y =? x then l else y :: remove_one x l
  end.

Lemma occurrences_cons x y l : occurrences x (y :: l) = (if y =? x then 1 else 0) + occurrences x l.
Proof. unfold occurrences. rewrite filter_cons. destruct (decide (y = x)), (Z.eqb_spec y x); rewrite ?zlen_cons; lia. Qed.

Lemma occurrences_nonneg x l : 0 <= occurrences x l.
Proof. apply zlen_nonneg. Qed.

Lemma occurrences_pos x l : x ∈ l -> 1 <= occurrences x l.
Proof.
  induction l as [|y l IH]; [by intros ?%elem_of_nil|]. rewrite elem_of_cons, occurrences_cons.
  pose proof (occurrences_nonneg x l). intros [->|H1]; [rewrite Z.eqb_refl; lia|]. specialize (IH H1). case_match; lia.
Qed.

Lemma occurrences_none x l : x ∉ l -> occurrences x l = 0.
Proof.
  induction l as [|y l IH]; [done|]. rewrite not_elem_of_cons, occurrences_cons. intros [Hne Hn].
  destruct (Z.eqb_spec y x); [congruence|]. by rewrite IH.
Qed.

Lemma occurrences_remove_one x y l : x ∈ l ->
  occurrences y (remove_one x l) = occurrences y l - (if x =? y then 1 else 0).
Proof.
  induction l as [|z l IH]; [by intros ?%elem_of_nil|]. rewrite elem_of_cons, occurrences_cons. cbn [remove_one]. intros Hx.
  destruct (Z.eqb_spec z x) as [->|Hne]; [lia|]. destruct Hx as [->|Hx]; [done|]. rewrite occurrences_cons, IH by done. lia.
Qed.

Lemma elem_of_remove_one x y l : y ∈ remove_one x l -> y ∈ l.
Proof.
  induction l as [|z l IH]; cbn [remove_one]; [done|]. rewrite elem_of_cons. destruct (z =? x); [by right|].
  rewrite elem_of_cons. intros [?|?]; auto.
Qed.

(** ** Removing an entry of an array *)

Lemma delete_members {A} `{EqDecision A} i (x : A) l : l !! i = Some x ->
  (forall y, y ∈ l -> y ∈ delete i l \/ y = x) /\ (forall y, y ∈ delete i l -> y ∈ l) /\
  zlen l = zlen (delete i l) + 1.
Proof.
  intros Hi. pose proof (lookup_lt_Some _ _ _ Hi). split_and!.
  - intros y Hy. apply list_elem_of_lookup in Hy as [j Hj]. destruct (decide (j = i)) as [->|Hne]; [right; congruence|left].
    rewrite delete_take_drop. apply elem_of_app. destruct (decide (j < i)%nat).
    + left. apply list_elem_of_lookup. exists j. by rewrite lookup_take_lt.
    + right. apply list_elem_of_lookup. exists (j - S i)%nat. rewrite lookup_drop, <- Hj. f_equal. lia.
  - intros y. by apply list_elem_of_delete_inv.
  - unfold zlen. rewrite length_delete by done. lia.
Qed.

Lemma delete_NoDup {A} i (x : A) l : NoDup l -> l !! i = Some x -> (x ∉ delete i l) /\ NoDup (delete i l).
Proof.
  intros Hl Hi. rewrite <- (take_drop_middle _ i x Hi) in Hl. rewrite NoDup_app, NoDup_cons in Hl.
  destruct Hl as (N1 & N2 & N3 & N4). rewrite delete_take_drop, elem_of_app, NoDup_app. split.
  - intros [Hx|Hx]; [apply (N2 x Hx); left|done].
  - split_and!; [done| |done]. intros y Hy Hy2. apply (N2 y Hy). by right.
Qed.

(** ** Searching: [memchr]

    The offset of the first [c] of the buffer, [None] for C's [NULL]. *)
Fixpoint memchr (c : Z) (l : bytes) : option Z :=
  match l with
  | [] => None
  | x :: l => if x =? c then Some 0 else option_map Z.succ (memchr c l)
  end.

Lemma memchr_Some c l i :
  memchr c l = Some i ->
  0 <= i < zlen l /\ zget l i = c /\ Forall (fun x => x <> c) (ztake i l).
Proof.
  revert i. induction l as [|x l IH]; cbn [memchr]; intros i; [done|].
  destruct (Z.eqb_spec x c) as [->|Hx].
  - intros [= <-]. split; [zlia|]. split; [done|constructor].
  - destruct (memchr c l) as [j|] eqn:E; [|done]. intros [= <-].
    destruct (IH j eq_refl) as (Hj & Hg & Hf).
    split; [zlia|]. rewrite zget_cons_pos by lia.
    replace (Z.succ j - 1) with j by lia. split; [done|].
    unfold ztake in *. replace (Z.to_nat (Z.succ j)) with (S (Z.to_nat j)) by lia.
    by constructor.
Qed.

Lemma memchr_None c l : memchr c l = None <-> Forall (fun x => x <> c) l.
Proof.
  induction l as [|x l IH]; cbn [memchr]; [by split|].
  rewrite Forall_cons, <- IH. destruct (Z.eqb_spec x c); [split; [done|tauto]|].
  destruct (memchr c l); split; try done; by intros [_ ?].
Qed.

Lemma memchr_ztake c l n i : memchr c l = Some i -> i < n -> memchr c (ztake n l) = Some i.
Proof.
  revert n i. induction l as [|x l IH]; cbn; intros n i; [done|].
  destruct (x =? c) eqn:E.
  - intros [= <-] Hn. unfold ztake. replace (Z.to_nat n) with (S (Z.to_nat (n - 1))) by lia.
    cbn. by rewrite E.
  - destruct (memchr c l) as [j|] eqn:Ej; [|done]. intros [= <-] Hn.
    pose proof (memchr_Some _ _ _ Ej) as [Hj _].
    unfold ztake in *. replace (Z.to_nat n) with (S (Z.to_nat (n - 1))) by lia. cbn.
    rewrite E, (IH (n - 1) j) by (done || lia). done.
Qed.

Lemma memchr_app_miss c l k :
  Forall (fun x => x <> c) l -> memchr c (l ++ c :: k) = Some (zlen l).
Proof.
  induction l as [|x l IH]; cbn [memchr app]; intros H.
  - by rewrite Z.eqb_refl.
  - apply Forall_cons in H as [Hx Hl]. apply Z.eqb_neq in Hx as ->.
    rewrite (IH Hl). cbn. f_equal. zlia.
Qed.

(** ** A state monad

    The C functions that change state are computations of [ST S A]: they thread
    the state explicitly and return their C result. *)
Definition ST (S A : Type) : Type := S -> A * S.

Section StateMonad.
Context {S : Type}.
#[export] Instance ST_ret : MRet (ST S) := fun A x s => (x, s).
#[export] Instance ST_bind : MBind (ST S) :=
  fun A B (f : A -> ST S B) (m : ST S A) s => let '(x, s') := m s in f x s'.
#[export] Instance ST_fmap : FMap (ST S) :=
  fun A B (f : A -> B) (m : ST S A) s => let '(x, s') := m s in (f x, s').

Definition st_gets {A} (f : S -> A) : ST S A := fun s => (f s, s).
Definition st_modify (f : S -> S) : ST S () := fun s => ((), f s).

Lemma st_bind_run {A B} (m : ST S A) (f : A -> ST S B) s :
  (m ≫= f) s = f (m s).1 (m s).2.
Proof. unfold mbind, ST_bind. by destruct (m s). Qed.

Lemma st_ret_run {A} (x : A) (s : S) : (mret x : ST S A) s = (x, s).
Proof. done. Qed.

Lemma st_bind_assoc {A B C} (m : ST S A) (f : A -> ST S B) (g : B -> ST S C) s :
  ((m ≫= f) ≫= g) s = (m ≫= (fun x => f x ≫= g)) s.
Proof. by rewrite !st_bind_run. Qed.
End StateMonad.

#[export] Hint Rewrite @st_bind_run @st_ret_run : st.

(** *** Invariants of computations

    [preserves P m]: [m] keeps the invariant [P].  [relates R m]: [R] holds
    between the state before and after [m].  The hint database [pres] holds one
    rule per construct and, in each component, one lemma per operation. *)
Section Preserve.
Context {S : Type}.

Definition preserves {A} (P : S -> Prop) (m : ST S A) : Prop := forall s, P s -> P (m s).2.
Definition relates {A} (R : S -> S -> Prop) (m : ST S A) : Prop := forall s, R s (m s).2.

Lemma preserves_ret {A} P (x : A) : preserves P (mret x).
Proof. by intros s. Qed.

Lemma preserves_bind {A B} P (m : ST S A) (f : A -> ST S B) :
  preserves P m -> (forall x, preserves P (f x)) -> preserves P (m ≫= f).
Proof. intros Hm Hf s Hs. rewrite st_bind_run. by apply Hf, Hm. Qed.

Lemma preserves_gets {A} P (f : S -> A) : preserves P (st_gets f).
Proof. by intros s. Qed.

Lemma preserves_if {A} P (b : bool) (m1 m2 : ST S A) :
  preserves P m1 -> preserves P m2 -> preserves P (if b then m1 else m2).
Proof. by destruct b. Qed.

Lemma relates_ret {A} R `{!Reflexive R} (x : A) : relates R (mret x).
Proof. intros s. cbn. reflexivity. Qed.

Lemma relates_bind {A B} R `{!Transitive R} (m : ST S A) (f : A -> ST S B) :
  relates R m -> (forall x, relates R (f x)) -> relates R (m ≫= f).
Proof. intros Hm Hf s. rewrite st_bind_run. etransitivity; [apply Hm|apply Hf]. Qed.

Lemma relates_gets {A} R `{!Reflexive R} (f : S -> A) : relates R (st_gets f).
Proof. intros s. cbn. reflexivity. Qed.

Lemma relates_if {A} R (b : bool) (m1 m2 : ST S A) :
  relates R m1 -> relates R m2 -> relates R (if b then m1 else m2).
Proof. by destruct b. Qed.

(** [hoare P m Q]: from a state in [P], [m] ends in a result and a state in [Q]. *)
Definition hoare {A} (P : S -> Prop) (m : ST S A) (Q : A -> S -> Prop) : Prop :=
  forall s, P s -> Q (m s).1 (m s).2.

Lemma hoare_bind {A B} P R Q (m : ST S A) (f : A -> ST S B) :
  hoare P m R -> (forall x, hoare (R x) (f x) Q) -> hoare P (m ≫= f) Q.
Proof. intros Hm Hf s Hs. rewrite st_bind_run. by apply Hf, Hm. Qed.

Lemma hoare_ret {A} (P : S -> Prop) (Q : A -> S -> Prop) x : (forall s, P s -> Q x s) -> hoare P (mret x) Q.
Proof. intros H s. apply H. Qed.

Lemma hoare_gets {A} (P : S -> Prop) (Q : A -> S -> Prop) f :
  (forall s, P s -> Q (f s) s) -> hoare P (st_gets f) Q.
Proof. intros H s. apply H. Qed.

Lemma hoare_conseq {A} (P P' : S -> Prop) (Q Q' : A -> S -> Prop) (m : ST S A) :
  hoare P' m Q' -> (forall s, P s -> P' s) -> (forall x s, Q' x s -> Q x s) -> hoare P m Q.
Proof. intros H HP HQ s Hs. by apply HQ, H, HP. Qed.

(** A step that respects a relation keeps what the relation keeps. *)
Lemma hoare_relates {A} (R : S -> S -> Prop) (P : S -> Prop) (Q : A -> S -> Prop) (m : ST S A) :
  relates R m -> (forall x s s', P s -> R s s' -> Q x s') -> hoare P m Q.
Proof. intros H HQ s Hs. by eapply HQ. Qed.
End Preserve.

Create HintDb pres discriminated.
#[export] Hint Resolve preserves_ret preserves_gets : pres.
#[export] Hint Extern 1 (relates _ (mret _)) => apply relates_ret; apply _ : pres.
#[export] Hint Extern 1 (relates _ (st_gets _)) => apply relates_gets; apply _ : pres.

(** Walk through a computation, one construct at a time. *)
Ltac pres_step :=
  match goal with
  | |- preserves _ (_ ≫= _) => apply preserves_bind; [|intros ?]
  | |- preserves _ (if _ then _ else _) => apply preserves_if
  | |- relates _ (_ ≫= _) => apply relates_bind; [apply _| |intros ?]
  | |- relates _ (if _ then _ else _) => apply relates_if
  | |- preserves _ (match ?x with _ => _ end) => destruct x
  | |- relates _ (match ?x with _ => _ end) => destruct x
  | |- preserves _ (let '_ := ?x in _) => destruct x
  | |- _ => solve [eauto 2 with pres]
  end.
Ltac pres := cbv zeta; repeat (pres_step; cbv beta).

(** Results of operations that throw a PHP error. *)
Inductive result (E A : Type) : Type :=
| Ok (x : A)
| Err (e : E).
Arguments Ok {E A} _.
Arguments Err {E A} _.
