(* ===== verification/Constants.v ===== *)
(** * Constants of [php_websocket.h] and the [MessageType] enum. *)
From S2P Require Import Prelude.

Definition WEBSOCKET_HTTP_MAX_REQUEST_SIZE : Z := 8192.
Definition WEBSOCKET_DEFAULT_MAX_MESSAGE_SIZE : Z := 16 * 1024 * 1024.
Definition WEBSOCKET_DEFAULT_MAX_QUEUED_BYTES : Z := 16 * 1024 * 1024.
Definition WEBSOCKET_DEFAULT_MAX_CONNECTIONS : Z := 10000.
Definition WEBSOCKET_DEFAULT_HANDSHAKE_TIMEOUT_MS : Z := 10000.
Definition WEBSOCKET_DEFAULT_IDLE_TIMEOUT_MS : Z := 120000.
Definition WEBSOCKET_DEFAULT_PING_INTERVAL_MS : Z := 0.
Definition WEBSOCKET_DEFAULT_PONG_TIMEOUT_MS : Z := 10000.
Definition WEBSOCKET_CLOSE_REASON_MAX_LEN : Z := 123.

Definition WEBSOCKET_OPCODE_CONTINUATION : Z := 0x0.
Definition WEBSOCKET_OPCODE_TEXT : Z := 0x1.
Definition WEBSOCKET_OPCODE_BINARY : Z := 0x2.
Definition WEBSOCKET_OPCODE_CLOSE : Z := 0x8.
Definition WEBSOCKET_OPCODE_PING : Z := 0x9.
Definition WEBSOCKET_OPCODE_PONG : Z := 0xA.

Definition WEBSOCKET_FLAG_FIN : Z := Z.shiftl 1 0.
Definition WEBSOCKET_FLAG_COMPRESS : Z := Z.shiftl 1 1.
Definition WEBSOCKET_FLAG_RSV1 : Z := Z.shiftl 1 2.
Definition WEBSOCKET_FLAG_RSV2 : Z := Z.shiftl 1 3.
Definition WEBSOCKET_FLAG_RSV3 : Z := Z.shiftl 1 4.
Definition WEBSOCKET_FLAG_MASK : Z := Z.shiftl 1 5.
Definition WEBSOCKET_FLAGS_ALL : Z :=
  Z.lor WEBSOCKET_FLAG_FIN (Z.lor WEBSOCKET_FLAG_COMPRESS (Z.lor WEBSOCKET_FLAG_RSV1
    (Z.lor WEBSOCKET_FLAG_RSV2 (Z.lor WEBSOCKET_FLAG_RSV3 WEBSOCKET_FLAG_MASK)))).

Definition WEBSOCKET_CLOSE_NORMAL : Z := 1000.
Definition WEBSOCKET_CLOSE_PROTOCOL_ERROR : Z := 1002.
Definition WEBSOCKET_CLOSE_INVALID_PAYLOAD : Z := 1007.
Definition WEBSOCKET_CLOSE_MESSAGE_TOO_BIG : Z := 1009.

(** The cases of the PHP enum [WebSocket\MessageType]. *)
Inductive message_type : Type :=
| Continuation | Text | Binary | Ping | Pong | Close.

#[export] Instance message_type_eq_dec : EqDecision message_type.
Proof. solve_decision. Defined.

(** [websocket_protocol_message_type_opcode]: the enum case's opcode. *)
Definition websocket_protocol_message_type_opcode (t : message_type) : Z :=
  match t with
  | Continuation => WEBSOCKET_OPCODE_CONTINUATION
  | Text => WEBSOCKET_OPCODE_TEXT
  | Binary => WEBSOCKET_OPCODE_BINARY
  | Close => WEBSOCKET_OPCODE_CLOSE
  | Ping => WEBSOCKET_OPCODE_PING
  | Pong => WEBSOCKET_OPCODE_PONG
  end.

(** [websocket_protocol_message_type_from_opcode]: [None] for C's [NULL]. *)
Definition websocket_protocol_message_type_from_opcode (opcode : Z) : option message_type :=
  if opcode =? WEBSOCKET_OPCODE_CONTINUATION then Some Continuation
  else if opcode =? WEBSOCKET_OPCODE_TEXT then Some Text
  else if opcode =? WEBSOCKET_OPCODE_BINARY then Some Binary
  else if opcode =? WEBSOCKET_OPCODE_CLOSE then Some Close
  else if opcode =? WEBSOCKET_OPCODE_PING then Some Ping
  else if opcode =? WEBSOCKET_OPCODE_PONG then Some Pong
  else None.

Lemma message_type_opcode_roundtrip t :
  websocket_protocol_message_type_from_opcode (websocket_protocol_message_type_opcode t) = Some t.
Proof. by destruct t. Qed.

Lemma message_type_from_opcode_inv op t :
  websocket_protocol_message_type_from_opcode op = Some t ->
  websocket_protocol_message_type_opcode t = op.
Proof.
  unfold websocket_protocol_message_type_from_opcode.
  repeat match goal with |- context [?a =? ?b] => destruct (Z.eqb_spec a b) end;
    intros; simplify_eq; done.
Qed.
