(* ===== verification/Words.v ===== *)
(** * Machine words as byte strings

    Big-endian loads and stores, [memcpy] between a byte buffer and an integer
    object in either byte order, and XOR of whole words. *)
From S2P Require Import Prelude.

(** ** Loads and stores of machine words *)

Fixpoint be_load (l : bytes) : Z :=
  match l with
  | [] => 0
  | b :: l => b * 2 ^ (8 * zlen l) + be_load l
  end.

Fixpoint be_store (n : nat) (z : Z) : bytes :=
  match n with
  | O => []
  | S n => (z / 2 ^ (8 * Z.of_nat n)) mod 256 :: be_store n z
  end.

(** [memcpy(&word, p, n)] and [memcpy(p, &word, n)]. *)
Definition word_load (big : bool) (l : bytes) : Z := if big then be_load l else be_load (rev l).
Definition word_store (big : bool) (n : nat) (z : Z) : bytes :=
  if big then be_store n z else rev (be_store n z).

(** ** Words and bytewise XOR *)

Definition xor_bytes (a b : bytes) : bytes := zip_with Z.lxor a b.

Lemma be_load_range l : is_bytes l -> 0 <= be_load l < 2 ^ (8 * zlen l).
Proof.
  induction l as [|b l IH]; intros Hl; [done|].
  apply is_bytes_cons in Hl as [Hb Hl]. specialize (IH Hl). cbn [be_load].
  rewrite zlen_cons. pose proof (zlen_nonneg l).
  replace (8 * (1 + zlen l)) with (8 + 8 * zlen l) by lia.
  rewrite Z.pow_add_r by lia. unfold is_byte in Hb. nia.
Qed.

Lemma land_shiftl_small a k x : 0 <= k -> 0 <= x < 2 ^ k -> Z.land (Z.shiftl a k) x = 0.
Proof.
  intros Hk Hx. apply Z.bits_inj'. intros n Hn. rewrite Z.land_spec, Z.bits_0.
  destruct (Z.ltb_spec n k).
  - by rewrite Z.shiftl_spec_low by lia.
  - rewrite andb_comm. replace (Z.testbit x n) with false; [done|].
    symmetry. apply Z.testbit_false; [lia|]. rewrite Z.div_small; [done|].
    split; [lia|]. apply Z.lt_le_trans with (2 ^ k); [lia|]. apply Z.pow_le_mono_r; lia.
Qed.

Lemma add_lxor_high a k x : 0 <= k -> 0 <= x < 2 ^ k -> a * 2 ^ k + x = Z.lxor (Z.shiftl a k) x.
Proof.
  intros Hk Hx. rewrite <- Z.shiftl_mul_pow2 by lia.
  by apply Z.add_nocarry_lxor, land_shiftl_small.
Qed.

(** [(a << k) | x] is an addition when [x] has [k] bits. *)
Lemma lor_shiftl_add a k x : 0 <= k -> 0 <= x < 2 ^ k -> Z.lor (Z.shiftl a k) x = a * 2 ^ k + x.
Proof.
  intros Hk Hx. rewrite add_lxor_high by done. symmetry.
  by apply Z.lxor_lor, land_shiftl_small.
Qed.

Lemma lxor_byte a b : is_byte a -> is_byte b -> is_byte (Z.lxor a b).
Proof.
  unfold is_byte. intros Ha Hb. split.
  - apply Z.lxor_nonneg. lia.
  - destruct (Z.eq_dec (Z.lxor a b) 0) as [->|Hne]; [lia|].
    assert (0 < Z.lxor a b) by (assert (0 <= Z.lxor a b) by (apply Z.lxor_nonneg; lia); lia).
    apply (Z.log2_lt_pow2 _ 8); [done|].
    apply Z.le_lt_trans with (Z.max (Z.log2 a) (Z.log2 b)); [apply Z.log2_lxor; lia|].
    apply Z.max_lub_lt; (destruct (Z.eq_dec a 0) as [->|]; destruct (Z.eq_dec b 0) as [->|]; cbn; try lia;
      apply Z.log2_lt_pow2; lia).
Qed.

Lemma xor_bytes_bytes a b : is_bytes a -> is_bytes b -> is_bytes (xor_bytes a b).
Proof.
  intros Ha. revert b. induction Ha as [|x a Hx _ IH]; intros [|y b] Hb; try by constructor.
  apply is_bytes_cons in Hb as [Hy Hb]. apply is_bytes_cons.
  split; [by apply lxor_byte|by apply IH].
Qed.

Lemma zlen_xor_bytes a b : length a = length b -> zlen (xor_bytes a b) = zlen a.
Proof. intros H. unfold zlen, xor_bytes. rewrite length_zip_with. lia. Qed.

Lemma be_load_xor a b :
  is_bytes a -> is_bytes b -> length a = length b ->
  be_load (xor_bytes a b) = Z.lxor (be_load a) (be_load b).
Proof.
  intros Ha. revert b. induction Ha as [|x a Hx Ha IH]; intros [|y b] Hb Hlen; try done.
  apply is_bytes_cons in Hb as [Hy Hb]. cbn in Hlen.
  assert (Hl : length a = length b) by lia.
  cbn [be_load xor_bytes zip_with]. fold (xor_bytes a b).
  rewrite (zlen_xor_bytes a b) by done. rewrite IH by done.
  replace (zlen b) with (zlen a) by (unfold zlen; lia).
  pose proof (be_load_range a Ha) as Ra. pose proof (be_load_range b Hb) as Rb.
  replace (zlen b) with (zlen a) in Rb by (unfold zlen; lia).
  pose proof (zlen_nonneg a).
  assert (Rx : 0 <= Z.lxor (be_load a) (be_load b) < 2 ^ (8 * zlen a)).
  { rewrite <- IH, <- (zlen_xor_bytes a b) by done.
    by apply be_load_range, xor_bytes_bytes. }
  rewrite (add_lxor_high (Z.lxor x y)), (add_lxor_high x), (add_lxor_high y) by lia.
  rewrite Z.shiftl_lxor, !Z.lxor_assoc. f_equal.
  rewrite <- !Z.lxor_assoc. f_equal. apply Z.lxor_comm.
Qed.

Lemma be_store_load l : is_bytes l -> be_store (length l) (be_load l) = l.
Proof.
  assert (G : forall l k, is_bytes l -> 0 <= k ->
    be_store (length l) (k * 2 ^ (8 * zlen l) + be_load l) = l).
  { clear l. induction l as [|b l IH]; intros k Hl Hk; [done|].
    apply is_bytes_cons in Hl as [Hb Hl].
    pose proof (be_load_range l Hl). pose proof (zlen_nonneg l).
    cbn [be_store length be_load]. fold (zlen l).
    assert (Heq : k * 2 ^ (8 * zlen (b :: l)) + (b * 2 ^ (8 * zlen l) + be_load l)
                  = (k * 256 + b) * 2 ^ (8 * zlen l) + be_load l).
    { rewrite zlen_cons. replace (8 * (1 + zlen l)) with (8 + 8 * zlen l) by lia.
      rewrite Z.pow_add_r by lia. change (2 ^ 8) with 256. lia. }
    rewrite Heq, IH by (unfold is_byte in Hb; first [done | lia]). f_equal.
    rewrite Z.div_add_l, Z.div_small, Z.add_0_r by lia.
    rewrite Z.add_comm, Z_mod_plus_full. apply Z.mod_small. exact Hb. }
  intros Hl. apply (G l 0); [done|lia].
Qed.

Lemma be_load_app a b : be_load (a ++ b) = be_load a * 2 ^ (8 * zlen b) + be_load b.
Proof.
  induction a as [|x a IH]; [cbn; lia|]. cbn [app be_load]. rewrite IH, zlen_app.
  pose proof (zlen_nonneg a). pose proof (zlen_nonneg b).
  replace (8 * (zlen a + zlen b)) with (8 * zlen a + 8 * zlen b) by lia.
  rewrite Z.pow_add_r by lia. lia.
Qed.

Lemma is_bytes_rev l : is_bytes l -> is_bytes (rev l).
Proof. apply Forall_rev. Qed.

Lemma xor_bytes_app a b a' b' :
  length a = length b -> xor_bytes (a ++ a') (b ++ b') = xor_bytes a b ++ xor_bytes a' b'.
Proof. apply zip_with_app. Qed.

Lemma xor_bytes_rev a b : length a = length b -> xor_bytes (rev a) (rev b) = rev (xor_bytes a b).
Proof.
  revert b. induction a as [|x a IH]; intros [|y b] H; try done. cbn in *.
  rewrite xor_bytes_app, IH by (rewrite ?length_rev; lia). done.
Qed.

(** A load, an XOR of words and a store XOR the bytes, in either byte order. *)
Lemma word_xor big a b :
  is_bytes a -> is_bytes b -> length a = length b ->
  word_store big (length a) (Z.lxor (word_load big a) (word_load big b)) = xor_bytes a b.
Proof.
  intros Ha Hb Hlen.
  assert (Hl : forall a b, length a = length b -> length (xor_bytes a b) = length a)
    by (intros; unfold xor_bytes; rewrite length_zip_with; lia).
  destruct big; cbn.
  - rewrite <- be_load_xor by done. rewrite <- (Hl a b) by done.
    apply be_store_load. by apply xor_bytes_bytes.
  - assert (Hr : length (rev a) = length (rev b)) by (rewrite !length_rev; done).
    rewrite <- be_load_xor by (done || by apply is_bytes_rev).
    rewrite <- (length_rev a), <- (Hl (rev a) (rev b)) by done.
    rewrite be_store_load by (apply xor_bytes_bytes; by apply is_bytes_rev).
    rewrite xor_bytes_rev by done. apply rev_involutive.
Qed.

(** A store then a load keeps the value modulo its width. *)
Lemma be_load_store n z : 0 <= z -> be_load (be_store n z) = z mod 2 ^ (8 * Z.of_nat n).
Proof.
  intros Hz. induction n as [|n IH]; cbn [be_store be_load]; [by rewrite Z.mod_1_r|].
  assert (Hl : zlen (be_store n z) = Z.of_nat n).
  { clear. induction n; cbn [be_store]; [done|]. rewrite zlen_cons, IHn. lia. }
  rewrite IH, Hl, Nat2Z.inj_succ.
  replace (8 * Z.succ (Z.of_nat n)) with (8 * Z.of_nat n + 8) by lia.
  rewrite Z.pow_add_r by lia.
  rewrite Z.rem_mul_r by lia. change (2 ^ 8) with 256. lia.
Qed.

Lemma be_store_bytes n z : is_bytes (be_store n z).
Proof.
  induction n; cbn; [constructor|]. apply is_bytes_cons. split; [|done].
  apply Z.mod_pos_bound. lia.
Qed.

#[export] Hint Resolve be_store_bytes is_bytes_rev xor_bytes_bytes lxor_byte : ws.
