(* ===== verification/Utf8.v ===== *)
(** * UTF-8 validation

    [websocket_protocol_is_valid_utf8] of [websocket_protocol.c], its loop over
    the buffer index, and the specification it meets: a byte string is accepted
    exactly when it is the concatenation of the encodings (RFC 3629) of Unicode
    scalar values. *)
From S2P Require Import Prelude.

(** ** The code *)

(** The [while] loop, one unit of fuel per iteration. *)
Fixpoint utf8_loop (fuel : nat) (bytes : bytes) (payload_len i : Z) : bool :=
  match fuel with
  | O => false
  | S fuel =>
    if negb (i <? payload_len) then true else
    let c := zget bytes i in
    let b1 := zget bytes (i + 1) in
    let b2 := zget bytes (i + 2) in
    let b3 := zget bytes (i + 3) in
    let cont b := Z.land b 0xc0 =? 0x80 in
    if c <=? 0x7f then utf8_loop fuel bytes payload_len (i + 1)
    else if (0xc2 <=? c) && (c <=? 0xdf) then
      if (payload_len <=? i + 1) || negb (cont b1) then false
      else utf8_loop fuel bytes payload_len (i + 2)
    else if c =? 0xe0 then
      if (payload_len <=? i + 2) || (b1 <? 0xa0) || (0xbf <? b1) || negb (cont b2) then false
      else utf8_loop fuel bytes payload_len (i + 3)
    else if ((0xe1 <=? c) && (c <=? 0xec)) || ((0xee <=? c) && (c <=? 0xef)) then
      if (payload_len <=? i + 2) || negb (cont b1) || negb (cont b2) then false
      else utf8_loop fuel bytes payload_len (i + 3)
    else if c =? 0xed then
      if (payload_len <=? i + 2) || (b1 <? 0x80) || (0x9f <? b1) || negb (cont b2) then false
      else utf8_loop fuel bytes payload_len (i + 3)
    else if c =? 0xf0 then
      if (payload_len <=? i + 3) || (b1 <? 0x90) || (0xbf <? b1)
         || negb (cont b2) || negb (cont b3) then false
      else utf8_loop fuel bytes payload_len (i + 4)
    else if (0xf1 <=? c) && (c <=? 0xf3) then
      if (payload_len <=? i + 3) || negb (cont b1) || negb (cont b2) || negb (cont b3) then false
      else utf8_loop fuel bytes payload_len (i + 4)
    else if c =? 0xf4 then
      if (payload_len <=? i + 3) || (b1 <? 0x80) || (0x8f <? b1)
         || negb (cont b2) || negb (cont b3) then false
      else utf8_loop fuel bytes payload_len (i + 4)
    else false
  end.

Definition websocket_protocol_is_valid_utf8 (payload : bytes) : bool :=
  utf8_loop (S (length payload)) payload (zlen payload) 0.

(** ** The specification *)

(** Unicode scalar values: code points that are not surrogates. *)
Definition scalar_value (cp : Z) : Prop := 0 <= cp < 0xD800 \/ 0xE000 <= cp < 0x110000.

#[export] Instance scalar_value_dec cp : Decision (scalar_value cp).
Proof. unfold scalar_value. apply _. Defined.

Definition utf8_encode (cp : Z) : bytes :=
  if cp <? 0x80 then [cp]
  else if cp <? 0x800 then [0xC0 + cp / 64; 0x80 + cp mod 64]
  else if cp <? 0x10000 then
    [0xE0 + cp / 4096; 0x80 + (cp / 64) mod 64; 0x80 + cp mod 64]
  else [0xF0 + cp / 262144; 0x80 + (cp / 4096) mod 64; 0x80 + (cp / 64) mod 64; 0x80 + cp mod 64].

Definition utf8_encode_all (cps : list Z) : bytes := concat (map utf8_encode cps).

Definition utf8_text (l : bytes) : Prop :=
  exists cps, Forall scalar_value cps /\ l = utf8_encode_all cps.

(** ** The loop by suffixes *)

Lemma utf8_loop_shift fuel l n k i :
  0 <= k -> 0 <= i -> utf8_loop fuel l n (k + i) = utf8_loop fuel (zdrop k l) (n - k) i.
Proof.
  intros Hk. revert i. induction fuel as [|fuel IH]; intros i Hi; [done|].
  cbn [utf8_loop]. rewrite !zget_zdrop by lia.
  assert (Hrec : forall d, 0 <= d ->
    utf8_loop fuel l n (k + i + d) = utf8_loop fuel (zdrop k l) (n - k) (i + d)).
  { intros d Hd. rewrite <- IH by lia. f_equal. lia. }
  rewrite !Hrec by lia. rewrite !Z.add_assoc.
  replace (k + i <? n) with (i <? n - k) by lia.
  replace (n <=? k + i + 1) with (n - k <=? i + 1) by lia.
  replace (n <=? k + i + 2) with (n - k <=? i + 2) by lia.
  replace (n <=? k + i + 3) with (n - k <=? i + 3) by lia.
  reflexivity.
Qed.

(** The continuation-byte test of the code is a range test on bytes. *)
Lemma cont_byte b : is_byte b -> (Z.land b 0xc0 =? 0x80) = (0x80 <=? b) && (b <=? 0xbf).
Proof.
  intros Hb. apply eqb_prop.
  exact (byte_cases (fun b => Bool.eqb (Z.land b 0xc0 =? 0x80) ((0x80 <=? b) && (b <=? 0xbf)))
           ltac:(vm_compute; reflexivity) b Hb).
Qed.

(** The loop's guard on a whole prefix [s]: what one iteration accepts. *)
Definition utf8_head_ok (s : bytes) : Prop :=
  match s with
  | [c] => c <= 0x7f
  | [c; b1] => 0xc2 <= c <= 0xdf /\ 0x80 <= b1 <= 0xbf
  | [c; b1; b2] =>
      0xe0 <= c <= 0xef /\ 0x80 <= b1 <= 0xbf /\ 0x80 <= b2 <= 0xbf
      /\ (c = 0xe0 -> 0xa0 <= b1) /\ (c = 0xed -> b1 <= 0x9f)
  | [c; b1; b2; b3] =>
      0xf0 <= c <= 0xf4 /\ 0x80 <= b1 <= 0xbf /\ 0x80 <= b2 <= 0xbf /\ 0x80 <= b3 <= 0xbf
      /\ (c = 0xf0 -> 0x90 <= b1) /\ (c = 0xf4 -> b1 <= 0x8f)
  | _ => False
  end.

Lemma utf8_loop_unfold_suffix fuel l d :
  0 <= d -> utf8_loop fuel l (zlen l) d = utf8_loop fuel (zdrop d l) (zlen l - d) 0.
Proof. intros Hd. rewrite <- (utf8_loop_shift fuel l (zlen l) d 0) by lia. f_equal. lia. Qed.

Ltac split_ifs :=
  repeat match goal with
  | |- context [if ?b then _ else _] => destruct b eqn:?; try discriminate
  end.

(** One accepting iteration peels an accepted head off the buffer... *)
Lemma utf8_loop_step_inv fuel l :
  is_bytes l -> l <> [] -> utf8_loop (S fuel) l (zlen l) 0 = true ->
  exists s r, l = s ++ r /\ utf8_head_ok s /\ utf8_loop fuel r (zlen r) 0 = true.
Proof.
  intros Hl Hne.
  assert (Hg : forall i, is_byte (zget l i)) by auto with ws.
  cbn [utf8_loop]. rewrite !cont_byte by auto.
  replace (0 <? zlen l) with true by (destruct l; [done|]; zlia). cbn [negb].
  rewrite !(utf8_loop_unfold_suffix fuel l (0 + _)) by lia.
  intros H.
  assert (Hsplit : forall d, 0 < d <= zlen l -> utf8_head_ok (ztake d l) ->
    utf8_loop fuel (zdrop (0 + d) l) (zlen l - (0 + d)) 0 = true ->
    exists s r, l = s ++ r /\ utf8_head_ok s /\ utf8_loop fuel r (zlen r) 0 = true).
  { intros d Hd Hok Hr. exists (ztake d l), (zdrop d l).
    split; [by rewrite ztake_zdrop|]. split; [done|].
    rewrite zlen_zdrop, Z.min_l, Z.max_r by lia. exact Hr. }
  destruct l as [|c l]; [done|].
  pose proof (Hg 0) as Hc; rewrite zget_cons_0 in *; unfold is_byte in Hc.
  destruct (c <=? 0x7f) eqn:Hc1.
  { apply (Hsplit 1); [zlia|ztake_cbn; lia|exact H]. }
  destruct l as [|b1 l]; [exfalso; revert H; split_ifs; zlia|].
  change (zget (c :: b1 :: l) (0 + 1)) with b1 in H.
  destruct ((0xc2 <=? c) && (c <=? 0xdf)) eqn:Hc2.
  { revert H; split_ifs; intros H. apply (Hsplit 2); [zlia|ztake_cbn; lia|exact H]. }
  destruct l as [|b2 l]; [exfalso; revert H; split_ifs; zlia|].
  change (zget (c :: b1 :: b2 :: l) (0 + 2)) with b2 in H.
  destruct (decide (c <= 0xef)).
  { revert H; split_ifs; intros H; try lia;
      (apply (Hsplit 3); [zlia|ztake_cbn; lia|exact H]). }
  destruct l as [|b3 l]; [exfalso; revert H; split_ifs; zlia|].
  change (zget (c :: b1 :: b2 :: b3 :: l) (0 + 3)) with b3 in H.
  revert H; split_ifs; intros H; try lia;
    (apply (Hsplit 4); [zlia|ztake_cbn; lia|exact H]).
Qed.

(** ... and an accepted head is consumed by one iteration. *)
Lemma utf8_loop_step fuel s r :
  is_bytes s -> utf8_head_ok s ->
  utf8_loop (S fuel) (s ++ r) (zlen (s ++ r)) 0 = utf8_loop fuel r (zlen r) 0.
Proof.
  intros Hs Hok.
  assert (Hrest : forall d, 0 + d = zlen s ->
    utf8_loop fuel (s ++ r) (zlen (s ++ r)) (0 + d) = utf8_loop fuel r (zlen r) 0).
  { intros d ->. rewrite utf8_loop_unfold_suffix by zlia.
    rewrite zdrop_app_exact. f_equal. zlia. }
  destruct s as [|c [|b1 [|b2 [|b3 [|? ?]]]]]; cbn in Hok; try done;
    repeat match goal with H : is_bytes (_ :: _) |- _ => apply is_bytes_cons in H as [? H] end;
    cbn [app] in *; cbn [utf8_loop];
    change (zget (c :: ?x) 0) with c;
    try change (zget (c :: b1 :: ?x) (0 + 1)) with b1;
    try change (zget (c :: b1 :: b2 :: ?x) (0 + 2)) with b2;
    try change (zget (c :: b1 :: b2 :: b3 :: ?x) (0 + 3)) with b3;
    rewrite ?cont_byte by assumption;
    match goal with |- context [0 <? ?n] => replace (0 <? n) with true by zlia end;
    cbn [negb];
    first [rewrite (Hrest 1) by reflexivity | idtac];
    first [rewrite (Hrest 2) by reflexivity | idtac];
    first [rewrite (Hrest 3) by reflexivity | idtac];
    first [rewrite (Hrest 4) by reflexivity | idtac];
    split_ifs; try reflexivity; zlia.
Qed.

(** ** Encodings and accepted heads coincide *)

Lemma utf8_encode_head cp : scalar_value cp -> is_bytes (utf8_encode cp) /\ utf8_head_ok (utf8_encode cp).
Proof.
  unfold scalar_value, utf8_encode, is_bytes, is_byte. intros Hcp.
  repeat match goal with |- context [cp <? ?n] => destruct (Z.ltb_spec cp n) end;
    cbn; rewrite ?Forall_cons, ?Forall_nil; Z.div_mod_to_equations; lia.
Qed.

Lemma utf8_head_encode s :
  is_bytes s -> utf8_head_ok s -> exists cp, scalar_value cp /\ s = utf8_encode cp.
Proof.
  intros Hs Hok.
  destruct s as [|c [|b1 [|b2 [|b3 [|? ?]]]]]; cbn in Hok; try done;
    repeat match goal with H : is_bytes (_ :: _) |- _ => apply is_bytes_cons in H as [? H] end;
    unfold is_byte in *;
    [ exists c
    | exists ((c - 0xC0) * 64 + (b1 - 0x80))
    | exists ((c - 0xE0) * 4096 + (b1 - 0x80) * 64 + (b2 - 0x80))
    | exists ((c - 0xF0) * 262144 + (b1 - 0x80) * 4096 + (b2 - 0x80) * 64 + (b3 - 0x80)) ];
    unfold scalar_value, utf8_encode; (split; [lia|]);
    repeat match goal with
    | |- context [?cp <? ?n] => destruct (Z.ltb_spec cp n); try lia
    end;
    repeat f_equal; Z.div_mod_to_equations; lia.
Qed.

Lemma utf8_loop_encode_all fuel cps r :
  Forall scalar_value cps -> (length cps <= fuel)%nat ->
  utf8_loop fuel (utf8_encode_all cps ++ r) (zlen (utf8_encode_all cps ++ r)) 0
  = utf8_loop (fuel - length cps) r (zlen r) 0.
Proof.
  intros Hcps. revert fuel. induction Hcps as [|cp cps Hcp _ IH]; intros fuel Hf.
  - by rewrite Nat.sub_0_r.
  - destruct fuel as [|fuel]; cbn [length] in Hf; [lia|].
    unfold utf8_encode_all. cbn [map concat]. rewrite <- app_assoc.
    destruct (utf8_encode_head cp Hcp). rewrite utf8_loop_step by done.
    rewrite IH by lia. done.
Qed.

Lemma utf8_loop_sound fuel l :
  is_bytes l -> utf8_loop fuel l (zlen l) 0 = true -> utf8_text l.
Proof.
  revert l. induction fuel as [|fuel IH]; intros l Hl H; [done|].
  destruct (decide (l = [])) as [->|Hne]; [by exists []|].
  destruct (utf8_loop_step_inv fuel l Hl Hne H) as (s & r & -> & Hok & Hr).
  apply is_bytes_app in Hl as [Hs Hr'].
  destruct (utf8_head_encode s Hs Hok) as (cp & Hcp & ->).
  destruct (IH r Hr' Hr) as (cps & Hcps & ->).
  exists (cp :: cps). split; [by constructor|done].
Qed.

Lemma utf8_encode_all_length cps : (length cps <= length (utf8_encode_all cps))%nat.
Proof.
  unfold utf8_encode_all. induction cps as [|cp cps IH]; cbn; [lia|].
  rewrite length_app. assert (1 <= length (utf8_encode cp))%nat; [|lia].
  unfold utf8_encode. repeat case_match; cbn; lia.
Qed.

(** The fuel of the definition is enough: any larger amount agrees. *)
Lemma utf8_loop_fuel fuel l :
  is_bytes l -> (S (length l) <= fuel)%nat ->
  utf8_loop fuel l (zlen l) 0 = websocket_protocol_is_valid_utf8 l.
Proof.
  intros Hl Hf. apply eq_true_iff_eq. unfold websocket_protocol_is_valid_utf8.
  split; intros H; apply utf8_loop_sound in H as (cps & Hcps & ->); try done;
    pose proof (utf8_encode_all_length cps);
    rewrite <- (app_nil_r (utf8_encode_all cps));
    rewrite utf8_loop_encode_all; rewrite ?length_app; try done; try lia;
    match goal with |- utf8_loop ?n _ _ _ = _ => destruct n eqn:?; [cbn in *; lia|done] end.
Qed.

Lemma valid_utf8_text l : is_bytes l -> websocket_protocol_is_valid_utf8 l = true <-> utf8_text l.
Proof.
  intros Hl. split; [by apply utf8_loop_sound|].
  intros (cps & Hcps & ->). rewrite <- (utf8_loop_fuel (S (length (utf8_encode_all cps)))) by done.
  rewrite <- (app_nil_r (utf8_encode_all cps)) at 2 3.
  pose proof (utf8_encode_all_length cps).
  rewrite utf8_loop_encode_all by (done || lia).
  destruct (S _ - _)%nat eqn:?; [lia|done].
Qed.

(** C12.  [websocket_protocol_is_valid_utf8] accepts a byte string exactly when it
    is the concatenation of the UTF-8 encodings of Unicode scalar values: no
    overlong form, surrogate, code point above U+10FFFF, stray continuation byte
    or truncated sequence is accepted, and no well-formed text is refused. *)
Theorem is_valid_utf8_spec (payload : bytes) (Hpayload : is_bytes payload) :
  websocket_protocol_is_valid_utf8 payload = true <->
  exists cps, Forall scalar_value cps /\ payload = utf8_encode_all cps.
Proof. exact (valid_utf8_text payload Hpayload). Qed.

(** "h", e acute, the euro sign and an emoji. *)
Lemma is_valid_utf8_spec_witness :
  is_bytes [0x68; 0xC3; 0xA9; 0xE2; 0x82; 0xAC; 0xF0; 0x9F; 0x98; 0x80] /\
  exists cps, Forall scalar_value cps /\
    [0x68; 0xC3; 0xA9; 0xE2; 0x82; 0xAC; 0xF0; 0x9F; 0x98; 0x80] = utf8_encode_all cps.
Proof.
  assert (H : is_bytes [0x68; 0xC3; 0xA9; 0xE2; 0x82; 0xAC; 0xF0; 0x9F; 0x98; 0x80])
    by (apply (bool_decide_unpack _); vm_compute; exact I).
  split; [exact H|].
  apply (proj1 (is_valid_utf8_spec _ H)). vm_compute. reflexivity.
Defined.
