(* ===== verification/Mask.v ===== *)
(** * Payload masking

    [websocket_mask_payload_copy] of [websocket_protocol.c] XORs eight, then four,
    then one byte at a time; [websocket_server_mask_payload] of
    [websocket_server_runtime.c] XORs bytewise.  The multi-byte chunks go through
    [memcpy] into an integer, so the model is parametric in the byte order of the
    machine ([big]). *)
From S2P Require Import Prelude Words.

(** ** The code *)

(** [for (; i < len; i++) dst[i] = src[i] ^ mask[i & 3]] from index [i] on. *)
Fixpoint mask_bytes_from (src mask : bytes) (i : Z) : bytes :=
  match src with
  | [] => []
  | b :: src => Z.lxor b (zget mask (Z.land i 3)) :: mask_bytes_from src mask (i + 1)
  end.

Definition websocket_server_mask_payload (src mask : bytes) : bytes := mask_bytes_from src mask 0.

(** The loop over eight-byte chunks: the final [i] and the bytes [dst[0..i)]. *)
Fixpoint mask_chunks8 (big : bool) (fuel : nat) (src : bytes) (mask64 i : Z) (dst : bytes) : Z * bytes :=
  match fuel with
  | O => (i, dst)
  | S fuel =>
    if i + 8 <=? zlen src then
      let chunk := word_load big (ztake 8 (zdrop i src)) in
      mask_chunks8 big fuel src mask64 (i + 8) (dst ++ word_store big 8 (Z.lxor chunk mask64))
    else (i, dst)
  end.

Definition websocket_mask_payload_copy (big : bool) (src mask : bytes) : bytes :=
  let mask32 := word_load big mask in
  let mask64 := Z.lor (u64 (Z.shiftl mask32 32)) mask32 in
  let '(i, dst) := mask_chunks8 big (S (length src)) src mask64 0 [] in
  let '(i, dst) :=
    if i + 4 <=? zlen src then
      let chunk := word_load big (ztake 4 (zdrop i src)) in
      (i + 4, dst ++ word_store big 4 (Z.lxor chunk mask32))
    else (i, dst) in
  dst ++ mask_bytes_from (zdrop i src) mask i.

(** ** The masks as words *)

(** The 64-bit mask is the 32-bit mask twice. *)
Lemma word_load_mask64 big mask :
  is_bytes mask -> length mask = 4%nat ->
  Z.lor (u64 (Z.shiftl (word_load big mask) 32)) (word_load big mask) = word_load big (mask ++ mask).
Proof.
  intros Hm Hlen.
  assert (G : forall m, is_bytes m -> length m = 4%nat ->
    Z.lor (u64 (Z.shiftl (be_load m) 32)) (be_load m) = be_load (m ++ m)).
  { intros m Hb Hl. pose proof (be_load_range m Hb) as R.
    unfold zlen in R. rewrite Hl in R. change (2 ^ (8 * Z.of_nat 4)) with (2 ^ 32) in R.
    rewrite u64_small by (rewrite Z.shiftl_mul_pow2; lia).
    rewrite be_load_app. unfold zlen. rewrite Hl. change (8 * Z.of_nat 4) with 32.
    by apply lor_shiftl_add. }
  destruct big; cbn; [by apply G|].
  rewrite rev_app_distr. apply G; [by apply is_bytes_rev|]. by rewrite length_rev.
Qed.

(** ** Chunks of the bytewise loop *)

Lemma mask_bytes_from_app src src' mask i :
  mask_bytes_from (src ++ src') mask i
  = mask_bytes_from src mask i ++ mask_bytes_from src' mask (i + zlen src).
Proof.
  revert i. induction src as [|b src IH]; intros i; cbn [app mask_bytes_from].
  - by rewrite Z.add_0_r.
  - rewrite IH, zlen_cons. cbn [app]. do 3 f_equal. lia.
Qed.

Lemma length_mask_bytes_from src mask i : length (mask_bytes_from src mask i) = length src.
Proof. revert i. induction src; intros i; cbn; [done|]. by rewrite IHsrc. Qed.

Lemma land_3_mod i : Z.land i 3 = i mod 4.
Proof. exact (Z.land_ones i 2 ltac:(lia)). Qed.

(** A chunk that starts at a multiple of four meets the whole mask in order. *)
Lemma mask_bytes_from_chunk chunk mask i :
  i mod 4 = 0 -> length mask = 4%nat -> (length chunk <= 8)%nat ->
  mask_bytes_from chunk mask i = xor_bytes chunk (mask ++ mask).
Proof.
  intros Hi Hm Hc.
  destruct mask as [|m0 [|m1 [|m2 [|m3 [|? ?]]]]]; try done.
  assert (G : forall d, 0 <= d -> Z.land (i + d) 3 = d mod 4).
  { intros d Hd. rewrite land_3_mod, Z.add_mod, Hi by lia. rewrite Z.add_0_l. apply Z.mod_mod. lia. }
  do 9 (destruct chunk as [|? chunk];
    [cbn [mask_bytes_from]; rewrite <- ?Z.add_assoc; cbn [Z.add Pos.add Pos.succ];
     rewrite ?G by lia; rewrite ?land_3_mod, ?Hi; reflexivity
    |cbn in Hc; try lia]).
Qed.

(** ** The optimised loop computes the bytewise one *)

Section Copy.
Context (big : bool) (src mask : bytes).
Hypothesis (Hsrc : is_bytes src) (Hmask : is_bytes mask) (Hmask4 : length mask = 4%nat).

(** The chunk at [i] of [w] bytes, XORed as one word. *)
Lemma mask_word w k mm i :
  (w = 4%nat /\ mm = mask) \/ (w = 8%nat /\ mm = mask ++ mask) -> k = Z.of_nat w ->
  i mod 4 = 0 -> 0 <= i -> i + k <= zlen src ->
  word_store big w (Z.lxor (word_load big (ztake k (zdrop i src))) (word_load big mm))
  = mask_bytes_from (ztake k (zdrop i src)) mask i.
Proof.
  intros Hw Hk Hi4 Hi Hin.
  assert (Hlen : length (ztake k (zdrop i src)) = w).
  { apply Nat2Z.inj. change (zlen (ztake k (zdrop i src)) = Z.of_nat w). zlia. }
  rewrite mask_bytes_from_chunk by lia.
  rewrite <- Hlen at 1.
  destruct Hw as [[-> ->] | [-> ->]]; rewrite word_xor; auto with ws.
  - rewrite <- (app_nil_r (ztake _ _)) at 2. rewrite xor_bytes_app by lia.
    by rewrite app_nil_r.
  - lia.
  - by apply is_bytes_app.
  - rewrite length_app. lia.
Qed.

(** Invariant of the eight-byte loop: [dst] holds the masked prefix. *)
Lemma mask_chunks8_spec fuel i j dst :
  i mod 4 = 0 -> 0 <= i <= zlen src -> dst = mask_bytes_from (ztake i src) mask 0 ->
  forall dst', mask_chunks8 big fuel src (word_load big (mask ++ mask)) i dst = (j, dst') ->
  j mod 4 = 0 /\ i <= j <= zlen src /\ dst' = mask_bytes_from (ztake j src) mask 0.
Proof.
  revert i dst. induction fuel as [|fuel IH]; intros i dst Hi4 Hi Hd dst'; cbn [mask_chunks8].
  - intros [= <- <-]. split_and!; [done|lia|lia|done].
  - destruct (Z.leb_spec (i + 8) (zlen src)); [|intros [= <- <-]; split_and!; [done|lia|lia|done]].
    intros Hrun. apply IH in Hrun as (? & ? & ?).
    + split_and!; [done|lia|lia|done].
    + rewrite Z.add_mod, Hi4 by lia. done.
    + lia.
    + subst dst. pose proof (mask_word 8 8 _ i ltac:(auto) eq_refl Hi4 ltac:(lia) ltac:(lia)) as W.
      rewrite W.
      rewrite <- (ztake_zdrop i (ztake (i + 8) src)), mask_bytes_from_app.
      f_equal.
      * f_equal. unfold ztake. rewrite take_take. f_equal. lia.
      * f_equal; [|zlia]. unfold ztake, zdrop. rewrite skipn_firstn_comm. f_equal. lia.
Qed.

Lemma mask_payload_copy_bytewise :
  websocket_mask_payload_copy big src mask = websocket_server_mask_payload src mask.
Proof.
  unfold websocket_mask_payload_copy, websocket_server_mask_payload.
  rewrite word_load_mask64 by done.
  destruct (mask_chunks8 _ _ _ _ _ _) as [i dst] eqn:E.
  apply mask_chunks8_spec in E as (Hi4 & Hi & ->); [|done|zlia|done].
  assert (Hglue : forall j, 0 <= j <= zlen src ->
    mask_bytes_from (ztake j src) mask 0 ++ mask_bytes_from (zdrop j src) mask j
    = mask_bytes_from src mask 0).
  { intros j Hj. rewrite <- (ztake_zdrop j src) at 3. rewrite mask_bytes_from_app. do 2 f_equal. zlia. }
  destruct (Z.leb_spec (i + 4) (zlen src)); [|by apply Hglue].
  pose proof (mask_word 4 4 _ i ltac:(auto) eq_refl Hi4 ltac:(lia) ltac:(lia)) as W. rewrite W.
  rewrite <- (Hglue i) by lia. rewrite <- app_assoc. f_equal.
  rewrite <- (ztake_zdrop 4 (zdrop i src)) at 2. rewrite mask_bytes_from_app.
  rewrite zdrop_zdrop by lia. do 2 f_equal. zlia.
Qed.
End Copy.

(** ** Masking twice is the identity *)

Lemma mask_bytes_from_involutive src mask i :
  mask_bytes_from (mask_bytes_from src mask i) mask i = src.
Proof.
  revert i. induction src as [|b src IH]; intros i; cbn; [done|].
  by rewrite IH, Z.lxor_assoc, Z.lxor_nilpotent, Z.lxor_0_r.
Qed.

Lemma mask_bytes_from_bytes src mask i :
  is_bytes src -> is_bytes mask -> is_bytes (mask_bytes_from src mask i).
Proof.
  intros Hs Hm. revert i. induction Hs as [|b src Hb _ IH]; intros i; cbn; [constructor|].
  apply is_bytes_cons. split; [apply lxor_byte; auto with ws|apply IH].
Qed.

Lemma server_mask_involutive src mask :
  websocket_server_mask_payload (websocket_server_mask_payload src mask) mask = src.
Proof. apply mask_bytes_from_involutive. Qed.

(** C22. On either byte order, the eight/four/one-byte loops of
    [websocket_mask_payload_copy] compute exactly the bytewise XOR of
    [websocket_server_mask_payload], for every payload length and mask; the payload
    keeps its length, and masking it again, by either routine, restores it. *)
Theorem mask_payload_copy_equiv (big : bool) (src mask : bytes)
    (Hsrc : is_bytes src) (Hmask : is_bytes mask) (Hlen : length mask = 4%nat) :
  let dst := websocket_mask_payload_copy big src mask in
  dst = websocket_server_mask_payload src mask /\
  length dst = length src /\
  websocket_mask_payload_copy big dst mask = src /\
  websocket_server_mask_payload dst mask = src.
Proof.
  cbv zeta. pose proof (mask_bytes_from_bytes src mask 0 Hsrc Hmask) as Hdst.
  rewrite (mask_payload_copy_bytewise big src mask) by done. split_and!.
  - done.
  - apply length_mask_bytes_from.
  - rewrite mask_payload_copy_bytewise by done. apply server_mask_involutive.
  - apply server_mask_involutive.
Qed.

Lemma mask_payload_copy_equiv_witness :
  let src := map Z.of_nat (seq 0 15) in let mask := [0xAA; 0x55; 0x0F; 0xF1] in
  websocket_mask_payload_copy true src mask = websocket_server_mask_payload src mask /\
  websocket_mask_payload_copy false (websocket_mask_payload_copy false src mask) mask = src.
Proof.
  split; eapply mask_payload_copy_equiv;
    first [apply (bool_decide_unpack _); vm_compute; exact I | reflexivity].
Defined.
