(* ===== verification/Protocol.v ===== *)
(** * The protocol codec: [websocket_protocol.c]

    Opcode and close-code validity, frame encoding ([pack_payload],
    [close_payload]), the frame decoder ([unpack]) and the PHP methods
    [Protocol::encode], [Protocol::pack], [Protocol::decode]/[unpack] and the
    constructors of [Frame] and [CloseFrame].

    Parameters: [big] is the machine's byte order (for the masking loop); [rnd]
    is the outcome of [websocket_protocol_random_bytes], [None] when it fails. *)
From S2P Require Import Prelude Constants Words Utf8 Mask.

(** ** Validity of opcodes and close codes *)

Definition websocket_protocol_opcode_is_valid (opcode : Z) : bool :=
  (opcode =? WEBSOCKET_OPCODE_CONTINUATION) || (opcode =? WEBSOCKET_OPCODE_TEXT)
  || (opcode =? WEBSOCKET_OPCODE_BINARY) || (opcode =? WEBSOCKET_OPCODE_CLOSE)
  || (opcode =? WEBSOCKET_OPCODE_PING) || (opcode =? WEBSOCKET_OPCODE_PONG).

Definition websocket_protocol_opcode_is_control (opcode : Z) : bool :=
  (0x8 <=? opcode) && (opcode <=? 0xf).

Definition websocket_protocol_close_code_is_valid (code : Z) : bool :=
  if (code <? 1000) || (4999 <? code) then false
  else negb ((code =? 1004) || (code =? 1005) || (code =? 1006) || (code =? 1015)).

(** ** Data and errors *)

(** The PHP errors the codec throws, by the message of the C call. *)
Inductive proto_error : Type :=
| MaskKeyFailure            (* no randomness: [websocket_protocol_random_bytes] threw *)
| InvalidCloseCode          (* argument 1 must be a valid WebSocket close code *)
| ReasonTooLong             (* argument 2 must be at most 123 bytes *)
| ReasonNotUtf8             (* argument 2 must be valid UTF-8 *)
| TextNotUtf8               (* argument 1 must be valid UTF-8 for text frames *)
| BadDataType               (* argument 1 must be string|Frame|CloseFrame *)
| InvalidOpcode             (* argument 2 must be a valid WebSocket opcode *)
| ControlWithoutFin         (* argument 3 must include FIN for control frames *)
| ControlTooLong            (* control frame payload must be at most 125 bytes *)
| UnsupportedOpcode (op : Z)
| InvalidControlFrame
| InvalidCloseFrame
| CloseReasonUtf8
| TextFrameUtf8.

(** [WebSocket\Frame] and [WebSocket\CloseFrame]: their readonly properties. *)
Record Frame := mk_Frame {
  frame_type : message_type;
  frame_opcode : Z;
  frame_flags : Z;
  frame_payload : bytes;
  frame_final : bool;
  frame_bytesConsumed : Z
}.

Record CloseFrame := mk_CloseFrame {
  close_code : Z;
  close_reason : bytes;
  close_flags : Z;
  close_bytesConsumed : Z
}.

(** The first argument of [Protocol::pack]. *)
Inductive pack_data : Type :=
| DataString (s : bytes)
| DataFrame (f : Frame)
| DataCloseFrame (f : CloseFrame)
| DataOther.

(** What [Protocol::unpack] returns when it does not throw. *)
Inductive decoded : Type :=
| DNull
| DFrame (f : Frame)
| DCloseFrame (f : CloseFrame).

Definition decoded_consumed (d : decoded) : option Z :=
  match d with
  | DNull => None
  | DFrame f => Some (frame_bytesConsumed f)
  | DCloseFrame f => Some (close_bytesConsumed f)
  end.

(** [(zend_long) x] of an unsigned 64-bit value. *)
Definition zend_long (z : Z) : Z := if z <? 2 ^ 63 then z else z - 2 ^ 64.

(** [flags & FLAG] as a condition. *)
Definition has_flag (flags flag : Z) : bool := negb (Z.land flags flag =? 0).

(** ** Encoding *)

(** The first byte: opcode, FIN and the reserved bits. *)
Definition pack_byte0 (opcode flags : Z) : Z :=
  let b := Z.land opcode 0x0f in
  let b := if has_flag flags WEBSOCKET_FLAG_FIN then Z.lor b 0x80 else b in
  let b := if has_flag flags (Z.lor WEBSOCKET_FLAG_COMPRESS WEBSOCKET_FLAG_RSV1)
           then Z.lor b 0x40 else b in
  let b := if has_flag flags WEBSOCKET_FLAG_RSV2 then Z.lor b 0x20 else b in
  if has_flag flags WEBSOCKET_FLAG_RSV3 then Z.lor b 0x10 else b.

(** The payload length with the mask bit, in its shortest form. *)
Definition pack_length (masked : bool) (payload_len : Z) : bytes :=
  let m := if masked then 0x80 else 0 in
  if payload_len <? 126 then [Z.lor m (u8 payload_len)]
  else if payload_len <=? 0xffff then
    [Z.lor m 126; Z.land (Z.shiftr payload_len 8) 0xff; Z.land payload_len 0xff]
  else Z.lor m 127 ::
    map (fun i => Z.land (Z.shiftr payload_len (56 - Z.of_nat i * 8)) 0xff) (seq 0 8).

(** The size of the header the code allocates for. *)
Definition pack_header_len (payload_len : Z) : Z :=
  2 + (if (126 <=? payload_len) && (payload_len <=? 0xffff) then 2
       else if 0xffff <? payload_len then 8 else 0).

Definition websocket_protocol_pack_payload (big : bool) (rnd : option bytes)
    (payload : bytes) (opcode flags : Z) : option bytes :=
  let payload_len := zlen payload in
  let masked := has_flag flags WEBSOCKET_FLAG_MASK in
  match (if masked then rnd else Some []) with
  | None => None
  | Some mask =>
    Some (pack_byte0 opcode flags :: pack_length masked payload_len ++ mask ++
          (if masked then websocket_mask_payload_copy big payload mask else payload))
  end.

Definition websocket_protocol_close_payload (code : Z) (reason : bytes) : result proto_error bytes :=
  if negb (websocket_protocol_close_code_is_valid code) then Err InvalidCloseCode
  else if WEBSOCKET_CLOSE_REASON_MAX_LEN <? zlen reason then Err ReasonTooLong
  else if negb (websocket_protocol_is_valid_utf8 reason) then Err ReasonNotUtf8
  else Ok (Z.land (Z.shiftr code 8) 0xff :: Z.land code 0xff :: reason).

(** ** The PHP methods that build frames *)

Definition Frame_construct (type : message_type) (payload : bytes) (final : bool) : Frame :=
  {| frame_type := type;
     frame_opcode := websocket_protocol_message_type_opcode type;
     frame_flags := if final then WEBSOCKET_FLAG_FIN else 0;
     frame_payload := payload; frame_final := final; frame_bytesConsumed := 0 |}.

Definition CloseFrame_construct (code : Z) (reason : option bytes) : result proto_error CloseFrame :=
  let reason := default [] reason in
  if negb (websocket_protocol_close_code_is_valid code) then Err InvalidCloseCode
  else if WEBSOCKET_CLOSE_REASON_MAX_LEN <? zlen reason then Err ReasonTooLong
  else if negb (websocket_protocol_is_valid_utf8 reason) then Err ReasonNotUtf8
  else Ok {| close_code := code; close_reason := reason;
             close_flags := WEBSOCKET_FLAG_FIN; close_bytesConsumed := 0 |}.

Definition Protocol_encode (big : bool) (rnd : option bytes)
    (payload : bytes) (type : option message_type) (masked : bool) : result proto_error bytes :=
  let opcode := match type with
                | Some t => websocket_protocol_message_type_opcode t
                | None => WEBSOCKET_OPCODE_TEXT
                end in
  let flags := if masked then Z.lor WEBSOCKET_FLAG_FIN WEBSOCKET_FLAG_MASK else WEBSOCKET_FLAG_FIN in
  if (opcode =? WEBSOCKET_OPCODE_TEXT) && negb (websocket_protocol_is_valid_utf8 payload)
  then Err TextNotUtf8
  else match websocket_protocol_pack_payload big rnd payload opcode flags with
       | None => Err MaskKeyFailure
       | Some frame => Ok frame
       end.

(** The payload, opcode and flags [Protocol::pack] takes from its argument. *)
Definition pack_source (data : pack_data) (opcode flags : Z) : result proto_error (bytes * Z * Z) :=
  match data with
  | DataString s => Ok (s, opcode, flags)
  | DataFrame f => Ok (frame_payload f, frame_opcode f, frame_flags f)
  | DataCloseFrame f =>
      match websocket_protocol_close_payload (close_code f) (close_reason f) with
      | Ok payload => Ok (payload, WEBSOCKET_OPCODE_CLOSE, close_flags f)
      | Err e => Err e
      end
  | DataOther => Err BadDataType
  end.

Definition Protocol_pack (big : bool) (rnd : option bytes)
    (data : pack_data) (opcode flags : Z) : result proto_error bytes :=
  match pack_source data opcode flags with
  | Err e => Err e
  | Ok (payload, opcode, flags) =>
    if negb (websocket_protocol_opcode_is_valid opcode) then Err InvalidOpcode
    else if websocket_protocol_opcode_is_control opcode && negb (has_flag flags WEBSOCKET_FLAG_FIN)
    then Err ControlWithoutFin
    else if websocket_protocol_opcode_is_control opcode && (125 <? zlen payload)
    then Err ControlTooLong
    else if (opcode =? WEBSOCKET_OPCODE_TEXT) && has_flag flags WEBSOCKET_FLAG_FIN
            && negb (websocket_protocol_is_valid_utf8 payload)
    then Err TextNotUtf8
    else match websocket_protocol_pack_payload big rnd payload (u8 opcode)
                 (u8 (Z.land flags WEBSOCKET_FLAGS_ALL)) with
         | None => Err MaskKeyFailure
         | Some frame => Ok frame
         end
  end.

(** ** Decoding *)

(** [for (i = 0; i < 8; i++) payload_len = (payload_len << 8) | in[2 + i]]. *)
Fixpoint be64_loop (n : nat) (inp : bytes) (i payload_len : Z) : Z :=
  match n with
  | O => payload_len
  | S n => be64_loop n inp (i + 1) (Z.lor (u64 (Z.shiftl payload_len 8)) (zget inp (2 + i)))
  end.

(** The extended payload length: [(payload_len, pos)], or [None] for a return of
    [NULL]. *)
Definition unpack_length (inp : bytes) (payload_len : Z) : option (Z * Z) :=
  let len := zlen inp in
  if payload_len =? 126 then
    if len <? 4 then None
    else Some (Z.lor (Z.shiftl (zget inp 2) 8) (zget inp 3), 4)
  else if payload_len =? 127 then
    if len <? 10 then None else Some (be64_loop 8 inp 0 0, 10)
  else Some (payload_len, 2).

(** The [flags] of a decoded frame. *)
Definition unpack_flags (b0 b1 : Z) : Z :=
  let flags := if has_flag b0 0x80 then WEBSOCKET_FLAG_FIN else 0 in
  let flags := if has_flag b0 0x40 then Z.lor flags WEBSOCKET_FLAG_RSV1 else flags in
  let flags := if has_flag b0 0x20 then Z.lor flags WEBSOCKET_FLAG_RSV2 else flags in
  let flags := if has_flag b0 0x10 then Z.lor flags WEBSOCKET_FLAG_RSV3 else flags in
  if has_flag b1 0x80 then Z.lor flags WEBSOCKET_FLAG_MASK else flags.

(** From a complete frame on: the checks of the opcode and the payload. *)
Definition unpack_payload (opcode flags : Z) (final : bool) (payload : bytes) (consumed : Z)
    : result proto_error decoded :=
  let payload_len := zlen payload in
  if opcode =? WEBSOCKET_OPCODE_CLOSE then
    if 2 <=? payload_len then
      if negb (websocket_protocol_is_valid_utf8 (zdrop 2 payload)) then Err CloseReasonUtf8
      else Ok (DCloseFrame {|
        close_code := Z.lor (Z.shiftl (zget payload 0) 8) (zget payload 1);
        close_reason := zdrop 2 payload; close_flags := flags; close_bytesConsumed := consumed |})
    else Ok (DCloseFrame {| close_code := WEBSOCKET_CLOSE_NORMAL; close_reason := [];
                            close_flags := flags; close_bytesConsumed := consumed |})
  else match websocket_protocol_message_type_from_opcode opcode with
  | None => Err (UnsupportedOpcode opcode)
  | Some type =>
    if (opcode =? WEBSOCKET_OPCODE_TEXT) && final
       && negb (websocket_protocol_is_valid_utf8 payload)
    then Err TextFrameUtf8
    else Ok (DFrame {| frame_type := type; frame_opcode := opcode; frame_flags := flags;
                       frame_payload := payload; frame_final := final;
                       frame_bytesConsumed := consumed |})
  end.

Definition websocket_protocol_unpack (big : bool) (buffer : bytes) : result proto_error decoded :=
  let len := zlen buffer in
  if len <? 2 then Ok DNull else
  let b0 := zget buffer 0 in
  let b1 := zget buffer 1 in
  let final := has_flag b0 0x80 in
  let opcode := Z.land b0 0x0f in
  let masked := has_flag b1 0x80 in
  let flags := unpack_flags b0 b1 in
  match unpack_length buffer (Z.land b1 0x7f) with
  | None => Ok DNull
  | Some (payload_len, pos) =>
    if masked && (len <? pos + 4) then Ok DNull else
    let mask := if masked then ztake 4 (zdrop pos buffer) else [] in
    let pos := if masked then pos + 4 else pos in
    if (SIZE_MAX <? payload_len) || (SIZE_MAX - pos <? payload_len) || (len <? pos + payload_len)
    then Ok DNull
    else if negb (websocket_protocol_opcode_is_valid opcode) then Err (UnsupportedOpcode opcode)
    else if websocket_protocol_opcode_is_control opcode && (negb final || (125 <? payload_len))
    then Err InvalidControlFrame
    else if (opcode =? WEBSOCKET_OPCODE_CLOSE) && (payload_len =? 1) then Err InvalidCloseFrame
    else
      let raw := ztake payload_len (zdrop pos buffer) in
      let payload := if masked then websocket_mask_payload_copy big raw mask else raw in
      unpack_payload opcode flags final payload (zend_long (pos + payload_len))
  end.

Definition Protocol_decode := websocket_protocol_unpack.
Definition Protocol_unpack := websocket_protocol_unpack.

(** The vectors of tests/002 and tests/003. *)
Example encode_hello :
  Protocol_encode false None [0x68; 0x65; 0x6c; 0x6c; 0x6f] (Some Text) false
  = Ok [0x81; 0x05; 0x68; 0x65; 0x6c; 0x6c; 0x6f].
Proof. reflexivity. Qed.

Example pack_close_too_big :
  Protocol_pack false None
    (DataCloseFrame (mk_CloseFrame 1009 [0x74; 0x6f; 0x6f; 0x20; 0x62; 0x69; 0x67] 1 0)) 1 1
  = Ok [0x88; 0x09; 0x03; 0xf1; 0x74; 0x6f; 0x6f; 0x20; 0x62; 0x69; 0x67].
Proof. reflexivity. Qed.

Example unpack_short_close :
  Protocol_unpack false [0x88; 0x01; 0xff] = Err InvalidCloseFrame.
Proof. reflexivity. Qed.

(** ** Bits of the header bytes *)

Lemma land_255_mod z : Z.land z 0xff = z mod 256.
Proof. exact (Z.land_ones z 8 ltac:(lia)). Qed.

Lemma length_byte_bits (masked : bool) x :
  0 <= x < 128 ->
  Z.land (Z.lor (if masked then 0x80 else 0) x) 0x7f = x /\
  has_flag (Z.lor (if masked then 0x80 else 0) x) 0x80 = masked.
Proof.
  intros Hx. destruct masked.
  - byte_fact (fun x => negb (x <? 128) || (Z.land (Z.lor 0x80 x) 0x7f =? x)
      && has_flag (Z.lor 0x80 x) 0x80) x as H.
    destruct (has_flag (Z.lor 0x80 x) 0x80); [split; [lia|done]|lia].
  - byte_fact (fun x => negb (x <? 128) || (Z.land (Z.lor 0 x) 0x7f =? x)
      && negb (has_flag (Z.lor 0 x) 0x80)) x as H.
    destruct (has_flag (Z.lor 0 x) 0x80); [lia|split; [lia|done]].
Qed.

(** Opcodes are four bits, flags six: the first byte is computed by cases. *)
Definition byte0_ok (opcode flags : Z) : bool :=
  let b0 := pack_byte0 opcode flags in
  byteb b0 && (Z.land b0 0x0f =? opcode)
  && Bool.eqb (has_flag b0 0x80) (has_flag flags WEBSOCKET_FLAG_FIN)
  && Bool.eqb (has_flag b0 0x40) (has_flag flags (Z.lor WEBSOCKET_FLAG_COMPRESS WEBSOCKET_FLAG_RSV1))
  && Bool.eqb (has_flag b0 0x20) (has_flag flags WEBSOCKET_FLAG_RSV2)
  && Bool.eqb (has_flag b0 0x10) (has_flag flags WEBSOCKET_FLAG_RSV3).

Lemma pack_byte0_bits opcode flags :
  0 <= opcode < 16 -> 0 <= flags < 64 ->
  let b0 := pack_byte0 opcode flags in
  is_byte b0 /\ Z.land b0 0x0f = opcode /\
  has_flag b0 0x80 = has_flag flags WEBSOCKET_FLAG_FIN /\
  has_flag b0 0x40 = has_flag flags (Z.lor WEBSOCKET_FLAG_COMPRESS WEBSOCKET_FLAG_RSV1) /\
  has_flag b0 0x20 = has_flag flags WEBSOCKET_FLAG_RSV2 /\
  has_flag b0 0x10 = has_flag flags WEBSOCKET_FLAG_RSV3.
Proof.
  intros Hop Hfl b0. subst b0.
  assert (H : byte0_ok opcode flags = true).
  { pose proof (small_cases 16 (fun o => forallb (byte0_ok o) (map Z.of_nat (seq 0 64)))
      ltac:(vm_compute; reflexivity) opcode ltac:(lia)) as H. cbn beta in H.
    exact (small_cases 64 (byte0_ok opcode) H flags ltac:(lia)). }
  unfold byte0_ok in H. rewrite !andb_true_iff in H.
  destruct H as [[[[[H1 H2] H3] H4] H5] H6].
  unfold byteb in H1. unfold is_byte.
  apply eqb_prop in H3, H4, H5, H6. rewrite H3, H4, H5, H6. repeat split; lia.
Qed.

(** ** The length field *)

Lemma pack_length_64 n :
  0 <= n ->
  map (fun i => Z.land (Z.shiftr n (56 - Z.of_nat i * 8)) 0xff) (seq 0 8) = be_store 8 n.
Proof.
  intros Hn. cbn [seq map be_store]. rewrite !land_255_mod, !Z.shiftr_div_pow2 by lia. reflexivity.
Qed.

Lemma zlen_pack_length masked n : 1 + zlen (pack_length masked n) = pack_header_len n.
Proof.
  unfold pack_length, pack_header_len.
  assert (H8 : zlen (map (fun i => Z.land (Z.shiftr n (56 - Z.of_nat i * 8)) 0xff) (seq 0 8)) = 8)
    by reflexivity.
  destruct (Z.ltb_spec n 126), (Z.leb_spec n 0xffff); rewrite ?zlen_cons, ?H8, ?zlen_nil;
    repeat case_match; lia.
Qed.

Lemma pack_length_bytes masked n : 0 <= n < 2 ^ 64 -> is_bytes (pack_length masked n).
Proof.
  intros Hn. unfold pack_length.
  assert (Hm : forall x, 0 <= x < 128 -> is_byte (Z.lor (if masked then 0x80 else 0) x)).
  { intros x Hx. destruct masked; [|unfold is_byte; rewrite Z.lor_0_l; lia].
    byte_fact (fun x => negb (x <? 128) || byteb (Z.lor 0x80 x)) x as H.
    unfold byteb in H. unfold is_byte. lia. }
  rewrite pack_length_64, !land_255_mod by lia.
  destruct (Z.ltb_spec n 126).
  { apply is_bytes_cons. rewrite u8_small by lia. split; [apply Hm; lia|constructor]. }
  destruct (n <=? 0xffff); rewrite ?is_bytes_cons; split_and!; auto with ws;
    try (apply Hm; lia); try (apply Z.mod_pos_bound; lia). constructor.
Qed.

Lemma be64_loop_load k inp i acc :
  is_bytes inp -> (k <= 8)%nat -> 0 <= i -> 2 + i + Z.of_nat k <= zlen inp ->
  0 <= acc < 2 ^ (8 * Z.of_nat (8 - k)) ->
  be64_loop k inp i acc
  = acc * 2 ^ (8 * Z.of_nat k) + be_load (ztake (Z.of_nat k) (zdrop (2 + i) inp)).
Proof.
  intros Hin. revert i acc. induction k as [|k IH]; intros i acc Hk Hi Hlen Hacc.
  - change (acc = acc * 1 + 0). lia.
  - cbn [be64_loop].
    assert (Hb : is_byte (zget inp (2 + i))) by auto with ws. unfold is_byte in Hb.
    assert (Hacc64 : acc * 256 + 256 <= 2 ^ (8 * Z.of_nat (8 - k))).
    { replace (8 * Z.of_nat (8 - k)) with (8 * Z.of_nat (8 - S k) + 8) by lia.
      rewrite Z.pow_add_r by lia. change (2 ^ 8) with 256. nia. }
    assert (2 ^ (8 * Z.of_nat (8 - k)) <= 2 ^ 64) by (apply Z.pow_le_mono_r; lia).
    assert (Hor : Z.lor (u64 (Z.shiftl acc 8)) (zget inp (2 + i)) = acc * 256 + zget inp (2 + i)).
    { rewrite Z.shiftl_mul_pow2, u64_small by lia.
      rewrite <- Z.shiftl_mul_pow2, lor_shiftl_add by lia. done. }
    rewrite Hor, IH by lia. clear IH Hor.
    assert (Hcons : ztake (Z.of_nat (S k)) (zdrop (2 + i) inp)
                    = zget inp (2 + i) :: ztake (Z.of_nat k) (zdrop (2 + (i + 1)) inp)).
    { rewrite Z.add_assoc. apply ztake_S_zdrop; zlia. }
    rewrite Hcons. cbn [be_load]. rewrite zlen_ztake, zlen_zdrop.
    replace (Z.min (Z.max 0 (Z.of_nat k)) (zlen inp - Z.min (Z.max 0 (2 + (i + 1))) (zlen inp)))
      with (Z.of_nat k) by lia.
    rewrite Nat2Z.inj_succ. replace (8 * Z.succ (Z.of_nat k)) with (8 * Z.of_nat k + 8) by lia.
    rewrite Z.pow_add_r by lia. lia.
Qed.

(** Decoding an encoded length gives it back, with the size of the header. *)
Lemma unpack_length_pack b0 masked n tail inp :
  is_byte b0 -> is_bytes tail -> 0 <= n < 2 ^ 64 ->
  inp = b0 :: pack_length masked n ++ tail ->
  has_flag (zget inp 1) 0x80 = masked /\
  unpack_length inp (Z.land (zget inp 1) 0x7f) = Some (n, pack_header_len n).
Proof.
  intros Hb0 Htail Hn Heq.
  assert (Hinp : is_bytes inp).
  { subst. apply is_bytes_cons. split; [done|]. apply is_bytes_app. split; [by apply pack_length_bytes|done]. }
  pose proof (zlen_pack_length masked n) as Hlen. pose proof (zlen_nonneg tail).
  assert (Hil : zlen inp = pack_header_len n + zlen tail) by (subst inp; zlia).
  clear Hlen. unfold unpack_length, pack_header_len in *. unfold pack_length in Heq.
  rewrite pack_length_64 in Heq by lia.
  destruct (Z.ltb_spec n 126); [|destruct (Z.leb_spec n 0xffff)].
  - replace (zget inp 1) with (Z.lor (if masked then 0x80 else 0) (u8 n)) by (by subst inp).
    rewrite u8_small by lia. destruct (length_byte_bits masked n) as [-> ->]; [lia|]. split; [done|].
    replace (n =? 126) with false by lia. replace (n =? 127) with false by lia.
    by replace (126 <=? n) with false by lia; replace (0xffff <? n) with false by lia.
  - replace (zget inp 1) with (Z.lor (if masked then 0x80 else 0) 126) by (by subst inp).
    destruct (length_byte_bits masked 126) as [-> ->]; [lia|]. split; [done|].
    replace (126 <=? n) with true in * by lia. cbn [andb Z.eqb Pos.eqb] in *.
    replace (zlen inp <? 4) with false by lia.
    replace (zget inp 2) with (Z.land (Z.shiftr n 8) 255) by (by subst inp).
    replace (zget inp 3) with (Z.land n 255) by (by subst inp).
    rewrite !land_255_mod, Z.shiftr_div_pow2 by lia.
    rewrite lor_shiftl_add by (first [lia | apply Z.mod_pos_bound; lia]).
    do 2 f_equal. change (2 ^ 8) with 256. Z.div_mod_to_equations. lia.
  - replace (zget inp 1) with (Z.lor (if masked then 0x80 else 0) 127) by (by subst inp).
    destruct (length_byte_bits masked 127) as [-> ->]; [lia|]. split; [done|].
    replace (126 <=? n) with true in * by lia. replace (0xffff <? n) with true in * by lia.
    cbn [andb Z.eqb Pos.eqb] in *.
    replace (zlen inp <? 10) with false by lia.
    rewrite be64_loop_load by (first [done | lia]).
    replace (zdrop (2 + 0) inp) with (be_store 8 n ++ tail) by (by subst inp).
    change (Z.of_nat 8) with (zlen (be_store 8 n)) at 2. rewrite ztake_app_exact.
    rewrite be_load_store by lia. do 2 f_equal. change (8 * Z.of_nat 8) with 64.
    rewrite Z.mod_small by lia. lia.
Qed.

(** ** Decoding what the encoder wrote *)

(** The bytes of a frame: header, mask and (masked) payload. *)
Definition frame_wire (big : bool) (opcode flags : Z) (mask payload : bytes) : bytes :=
  let masked := has_flag flags WEBSOCKET_FLAG_MASK in
  pack_byte0 opcode flags :: pack_length masked (zlen payload) ++ mask ++
    (if masked then websocket_mask_payload_copy big payload mask else payload).

(** The flags that survive a round trip: COMPRESS is sent as RSV1. *)
Definition wire_flags (flags : Z) : Z :=
  let f := if has_flag flags WEBSOCKET_FLAG_FIN then WEBSOCKET_FLAG_FIN else 0 in
  let f := if has_flag flags (Z.lor WEBSOCKET_FLAG_COMPRESS WEBSOCKET_FLAG_RSV1)
           then Z.lor f WEBSOCKET_FLAG_RSV1 else f in
  let f := if has_flag flags WEBSOCKET_FLAG_RSV2 then Z.lor f WEBSOCKET_FLAG_RSV2 else f in
  let f := if has_flag flags WEBSOCKET_FLAG_RSV3 then Z.lor f WEBSOCKET_FLAG_RSV3 else f in
  if has_flag flags WEBSOCKET_FLAG_MASK then Z.lor f WEBSOCKET_FLAG_MASK else f.

(** The mask key of a frame: four bytes when the MASK flag is set, none otherwise. *)
Definition mask_ok (flags : Z) (mask : bytes) : Prop :=
  is_bytes mask /\ length mask = if has_flag flags WEBSOCKET_FLAG_MASK then 4%nat else 0%nat.

Lemma mask_copy_bytes big src mask :
  is_bytes src -> is_bytes mask -> length mask = 4%nat ->
  is_bytes (websocket_mask_payload_copy big src mask).
Proof. intros. rewrite mask_payload_copy_bytewise by done. by apply mask_bytes_from_bytes. Qed.

Lemma zlen_mask_copy big src mask :
  is_bytes src -> is_bytes mask -> length mask = 4%nat ->
  zlen (websocket_mask_payload_copy big src mask) = zlen src.
Proof.
  intros. rewrite mask_payload_copy_bytewise by done.
  unfold zlen, websocket_server_mask_payload. by rewrite length_mask_bytes_from.
Qed.

Lemma mask_copy_involutive big src mask :
  is_bytes src -> is_bytes mask -> length mask = 4%nat ->
  websocket_mask_payload_copy big (websocket_mask_payload_copy big src mask) mask = src.
Proof.
  intros. rewrite (mask_payload_copy_bytewise big (websocket_mask_payload_copy _ _ _))
    by auto using mask_copy_bytes.
  rewrite mask_payload_copy_bytewise by done. apply mask_bytes_from_involutive.
Qed.

Lemma pack_header_len_pos n : 2 <= pack_header_len n.
Proof. unfold pack_header_len. repeat case_match; lia. Qed.

Section Wire.
Context (big : bool) (opcode flags : Z) (mask payload : bytes).
Hypothesis (Hop : 0 <= opcode < 16) (Hfl : 0 <= flags < 64).
Hypothesis (Hmask : mask_ok flags mask) (Hpay : is_bytes payload).

Let masked := has_flag flags WEBSOCKET_FLAG_MASK.
Let body := if masked then websocket_mask_payload_copy big payload mask else payload.

Lemma wire_body_bytes : is_bytes body.
Proof using Hmask Hpay.
  unfold body, masked. destruct Hmask as [Hmb Hml].
  destruct (has_flag _ _); [by apply mask_copy_bytes|done].
Qed.

Lemma zlen_mask : zlen mask = if masked then 4 else 0.
Proof using Hmask.
  clear body. unfold zlen, masked. destruct Hmask as [_ ->]. by destruct (has_flag _ _).
Qed.

Lemma wire_body_len : zlen body = zlen payload.
Proof using Hmask Hpay.
  unfold body, masked. destruct Hmask as [Hmb Hml].
  destruct (has_flag _ _); [by apply zlen_mask_copy|done].
Qed.

Lemma wire_len :
  zlen (frame_wire big opcode flags mask payload)
  = pack_header_len (zlen payload) + (if masked then 4 else 0) + zlen payload.
Proof using Hmask Hpay.
  unfold frame_wire. fold masked body. rewrite zlen_cons, !zlen_app, wire_body_len.
  pose proof (zlen_pack_length masked (zlen payload)).
  rewrite zlen_mask. destruct masked; lia.
Qed.

Lemma wire_bytes : zlen payload < 2 ^ 64 -> is_bytes (frame_wire big opcode flags mask payload).
Proof using Hmask Hpay Hop Hfl.
  intros Hn. unfold frame_wire. fold masked body. rewrite is_bytes_cons, !is_bytes_app.
  pose proof (zlen_nonneg payload).
  split_and!; [by apply pack_byte0_bits|by apply pack_length_bytes|by apply Hmask|apply wire_body_bytes].
Qed.

Lemma wire_flags_eq b1 :
  has_flag b1 0x80 = masked -> unpack_flags (pack_byte0 opcode flags) b1 = wire_flags flags.
Proof using Hop Hfl.
  intros Hb1. destruct (pack_byte0_bits opcode flags Hop Hfl) as (_ & _ & F1 & F2 & F3 & F4).
  unfold unpack_flags, wire_flags. by rewrite F1, F2, F3, F4, Hb1.
Qed.

(** The decoder on an encoded frame followed by anything: every outcome. *)
Lemma unpack_wire rest :
  is_bytes rest -> zlen (frame_wire big opcode flags mask payload ++ rest) < 2 ^ 63 ->
  websocket_protocol_unpack big (frame_wire big opcode flags mask payload ++ rest)
  = if negb (websocket_protocol_opcode_is_valid opcode) then Err (UnsupportedOpcode opcode)
    else if websocket_protocol_opcode_is_control opcode
            && (negb (has_flag flags WEBSOCKET_FLAG_FIN) || (125 <? zlen payload))
    then Err InvalidControlFrame
    else if (opcode =? WEBSOCKET_OPCODE_CLOSE) && (zlen payload =? 1) then Err InvalidCloseFrame
    else unpack_payload opcode (wire_flags flags) (has_flag flags WEBSOCKET_FLAG_FIN) payload
           (zlen (frame_wire big opcode flags mask payload)).
Proof using Hmask Hpay Hop Hfl.
  intros Hrest Hlen. rewrite zlen_app in Hlen. pose proof (zlen_nonneg rest).
  pose proof wire_len as Hwl. pose proof (zlen_nonneg payload).
  pose proof (pack_header_len_pos (zlen payload)) as Hph.
  destruct (pack_byte0_bits opcode flags Hop Hfl) as (Hb0 & Hopb & Hfin & _).
  set (inp := frame_wire _ _ _ _ _ ++ rest).
  assert (Hinp : inp = pack_byte0 opcode flags :: pack_length masked (zlen payload)
                       ++ (mask ++ body ++ rest)).
  { subst inp. unfold frame_wire. fold masked body. cbn [app]. by rewrite <- !app_assoc. }
  assert (Hil : zlen inp = zlen (frame_wire big opcode flags mask payload) + zlen rest)
    by (subst inp; apply zlen_app).
  destruct (unpack_length_pack _ masked (zlen payload) (mask ++ body ++ rest) inp Hb0)
    as [Hm Hul]; [|destruct masked; lia|done|].
  { rewrite !is_bytes_app. split_and!; [by apply Hmask|apply wire_body_bytes|done]. }
  assert (Hd : zdrop (pack_header_len (zlen payload)) inp = mask ++ body ++ rest).
  { rewrite Hinp, <- (zlen_pack_length masked), app_comm_cons.
    rewrite <- (zlen_cons (pack_byte0 opcode flags)). apply zdrop_app_exact. }
  unfold websocket_protocol_unpack.
  replace (zget inp 0) with (pack_byte0 opcode flags) by (by rewrite Hinp).
  rewrite Hm, Hul, (wire_flags_eq _ Hm), Hopb, Hfin. fold inp in Hlen.
  pose proof zlen_mask as Hml.
  set (hl := pack_header_len (zlen payload)) in *.
  assert (Hpos : (if masked then hl + 4 else hl) = hl + zlen mask) by (destruct masked; lia).
  rewrite Hpos.
  replace (zlen inp <? 2) with false by (destruct masked; lia).
  replace (masked && (zlen inp <? hl + 4)) with false by (destruct masked; lia).
  replace ((SIZE_MAX <? zlen payload) || (SIZE_MAX - (hl + zlen mask) <? zlen payload)
           || (zlen inp <? hl + zlen mask + zlen payload)) with false
    by (unfold SIZE_MAX; destruct masked; lia).
  assert (Hbody : ztake (zlen payload) (zdrop (hl + zlen mask) inp) = body).
  { rewrite <- zdrop_zdrop by lia. rewrite Hd, zdrop_app_exact, <- wire_body_len.
    apply ztake_app_exact. }
  rewrite Hbody.
  assert (Hunmask : (if masked then websocket_mask_payload_copy big body
      (if masked then ztake 4 (zdrop hl inp) else []) else body) = payload).
  { unfold body. destruct masked eqn:Em; [|done]. rewrite Hd.
    replace 4 with (zlen mask) by (rewrite Hml; done). rewrite ztake_app_exact.
    destruct Hmask as [Hmb Hmlen]. fold masked in Hmlen. rewrite Em in Hmlen.
    by apply mask_copy_involutive. }
  assert (Hcons : zend_long (hl + zlen mask + zlen payload)
                  = zlen (frame_wire big opcode flags mask payload)).
  { unfold zend_long. rewrite Hwl, Hml. by replace (_ <? _) with true by (destruct masked; lia). }
  by rewrite Hunmask, Hcons.
Qed.
End Wire.

(** ** Incremental decoding: a decided answer never changes *)

Lemma unpack_length_app inp rest l7 r :
  unpack_length inp l7 = Some r -> unpack_length (inp ++ rest) l7 = Some r.
Proof.
  unfold unpack_length. pose proof (zlen_nonneg rest). rewrite !zlen_app.
  destruct (l7 =? 126).
  - destruct (Z.ltb_spec (zlen inp) 4); [done|]. replace (_ + _ <? 4) with false by lia.
    by rewrite !zget_app_l by lia.
  - destruct (l7 =? 127); [|done].
    destruct (Z.ltb_spec (zlen inp) 10); [done|]. replace (_ + _ <? 10) with false by lia.
    cbn [be64_loop]. by rewrite !zget_app_l by lia.
Qed.

Lemma be16_range inp i : is_bytes inp -> 0 <= Z.lor (Z.shiftl (zget inp i) 8) (zget inp (i + 1)) < 2 ^ 16.
Proof.
  intros H. pose proof (zget_byte inp i H) as H1. pose proof (zget_byte inp (i + 1) H) as H2.
  unfold is_byte in *. rewrite lor_shiftl_add by lia. lia.
Qed.

Lemma be64_range inp : is_bytes inp -> 10 <= zlen inp -> 0 <= be64_loop 8 inp 0 0 < 2 ^ 64.
Proof.
  intros H Hl. rewrite be64_loop_load by (first [done | lia]).
  pose proof (be_load_range (ztake (Z.of_nat 8) (zdrop (2 + 0) inp))) as R.
  rewrite zlen_ztake, zlen_zdrop in R.
  replace (Z.min _ (zlen inp - _)) with 8 in R by lia.
  specialize (R ltac:(auto with ws)). change (2 ^ (8 * 8)) with (2 ^ 64) in R. lia.
Qed.

Lemma unpack_length_range inp l7 n pos :
  is_bytes inp -> 0 <= l7 < 128 -> unpack_length inp l7 = Some (n, pos) ->
  2 <= pos /\ 0 <= n < 2 ^ 64.
Proof.
  intros Hb Hl. unfold unpack_length. pose proof (be16_range inp 2 Hb) as R.
  change (2 + 1) with 3 in R.
  destruct (l7 =? 126); [|destruct (l7 =? 127)]; repeat case_match; intros; simplify_eq; try lia.
  split; [lia|]. apply be64_range; [done|lia].
Qed.

(** Sizes below 2^63 (a PHP string's limit) survive the cast to [zend_long]. *)
Lemma unpack_payload_consumed opcode flags final payload c d :
  unpack_payload opcode flags final payload c = Ok d -> decoded_consumed d = Some c.
Proof. unfold unpack_payload. repeat case_match; intros; simplify_eq; done. Qed.

Lemma unpack_stable_bounds big buf rest r :
  is_bytes buf -> zlen (buf ++ rest) < 2 ^ 63 ->
  websocket_protocol_unpack big buf = r -> r <> Ok DNull ->
  websocket_protocol_unpack big (buf ++ rest) = r /\
  (forall d, r = Ok d -> exists c, decoded_consumed d = Some c /\ 2 <= c <= zlen buf).
Proof.
  intros Hb. pose proof (zlen_nonneg rest). rewrite zlen_app. intros Hlen.
  unfold websocket_protocol_unpack. rewrite zlen_app.
  destruct (Z.ltb_spec (zlen buf) 2); [by intros <-|].
  replace (zlen buf + zlen rest <? 2) with false by lia.
  rewrite !zget_app_l by lia.
  destruct (unpack_length buf _) as [[n pos]|] eqn:Hul; [|by intros <-].
  rewrite (unpack_length_app _ _ _ _ Hul).
  apply unpack_length_range in Hul as [Hpos Hn];
    [|done|pose proof (land_byte_range (zget buf 1) 0x7f);
           pose proof (zget_byte buf 1 Hb); unfold is_byte in *; lia].
  set (masked := has_flag _ _).
  destruct (masked && (zlen buf <? pos + 4)) eqn:Hm; [by intros <-|].
  replace (masked && (zlen buf + zlen rest <? pos + 4)) with false by (destruct masked; lia).
  set (p := if masked then pos + 4 else pos).
  assert (Hp : pos <= p <= zlen buf \/ p = pos) by (subst p; destruct masked; lia).
  assert (Hmask : (zlen buf <? p + n) = false ->
     (if masked then ztake 4 (zdrop pos (buf ++ rest)) else [])
     = if masked then ztake 4 (zdrop pos buf) else []).
  { intros _. destruct masked; [|done]. rewrite zdrop_app_le by lia.
    rewrite ztake_app_le; [done|]. rewrite zlen_zdrop. lia. }
  destruct ((SIZE_MAX <? n) || (SIZE_MAX - p <? n)) eqn:Hs; cbn [orb]; [by intros <-|].
  destruct (Z.ltb_spec (zlen buf) (p + n)); [by intros <-|].
  rewrite Hmask by lia.
  replace (zlen buf + zlen rest <? p + n) with false by lia.
  assert (Hraw : ztake n (zdrop p (buf ++ rest)) = ztake n (zdrop p buf)).
  { rewrite zdrop_app_le by lia. apply ztake_app_le. rewrite zlen_zdrop. lia. }
  rewrite Hraw. intros Hr Hd. split; [done|]. intros d ->.
  repeat (case_match; [discriminate|]).
  apply unpack_payload_consumed in Hr. exists (p + n). split; [|subst p; destruct masked; lia].
  rewrite Hr. f_equal. unfold zend_long. by replace (_ <? _) with true by (subst p; destruct masked; lia).
Qed.

(** ** [Protocol::pack], its output and its errors *)

Lemma has_flag_all flags F :
  Z.land WEBSOCKET_FLAGS_ALL F = F ->
  has_flag (u8 (Z.land flags WEBSOCKET_FLAGS_ALL)) F = has_flag flags F.
Proof.
  intros HF. unfold has_flag, u8.
  change WEBSOCKET_FLAGS_ALL with (Z.ones 6) in *. rewrite (Z.land_ones flags 6) by lia.
  rewrite Z.mod_small by (pose proof (Z.mod_pos_bound flags (2 ^ 6)); lia).
  by rewrite <- Z.land_ones, <- Z.land_assoc, HF by lia.
Qed.

Lemma flags_all_range flags : 0 <= u8 (Z.land flags WEBSOCKET_FLAGS_ALL) < 64.
Proof.
  change WEBSOCKET_FLAGS_ALL with (Z.ones 6). rewrite Z.land_ones by lia.
  pose proof (Z.mod_pos_bound flags (2 ^ 6)). rewrite u8_small by lia. lia.
Qed.

Lemma opcode_valid_range op : websocket_protocol_opcode_is_valid op = true -> 0 <= op < 16.
Proof.
  unfold websocket_protocol_opcode_is_valid, WEBSOCKET_OPCODE_CONTINUATION, WEBSOCKET_OPCODE_TEXT,
    WEBSOCKET_OPCODE_BINARY, WEBSOCKET_OPCODE_CLOSE, WEBSOCKET_OPCODE_PING, WEBSOCKET_OPCODE_PONG. lia.
Qed.

Lemma opcode_valid_type op :
  websocket_protocol_opcode_is_valid op = true ->
  exists t, websocket_protocol_message_type_from_opcode op = Some t.
Proof.
  unfold websocket_protocol_opcode_is_valid, websocket_protocol_message_type_from_opcode.
  intros H. repeat case_match; eauto. exfalso. lia.
Qed.

Lemma valid_close_code_range code :
  websocket_protocol_close_code_is_valid code = true -> 1000 <= code <= 4999.
Proof. unfold websocket_protocol_close_code_is_valid. case_match; [done|lia]. Qed.

(** The mask key a frame with [flags] carries, of the four bytes drawn. *)
Definition frame_mask (flags : Z) (key : bytes) : bytes :=
  if has_flag flags WEBSOCKET_FLAG_MASK then key else [].

Lemma frame_mask_ok flags key : is_bytes key -> length key = 4%nat -> mask_ok flags (frame_mask flags key).
Proof. intros. unfold mask_ok, frame_mask. case_match; split; done || constructor. Qed.

Definition pack_payload_flags (flags : Z) : Z := u8 (Z.land flags WEBSOCKET_FLAGS_ALL).

Lemma Protocol_pack_Ok big key data opcode flags bs :
  Protocol_pack big (Some key) data opcode flags = Ok bs ->
  exists payload op fl,
    pack_source data opcode flags = Ok (payload, op, fl) /\
    websocket_protocol_opcode_is_valid op = true /\
    (websocket_protocol_opcode_is_control op = true ->
       has_flag fl WEBSOCKET_FLAG_FIN = true /\ zlen payload <= 125) /\
    (op = WEBSOCKET_OPCODE_TEXT -> has_flag fl WEBSOCKET_FLAG_FIN = true ->
       websocket_protocol_is_valid_utf8 payload = true) /\
    bs = frame_wire big op (pack_payload_flags fl) (frame_mask (pack_payload_flags fl) key) payload.
Proof.
  unfold Protocol_pack. destruct (pack_source _ _ _) as [[[payload op] fl]|]; [|done].
  intros H. exists payload, op, fl. split; [done|]. revert H.
  destruct (websocket_protocol_opcode_is_valid op) eqn:Hv; cbn [negb]; [|done].
  destruct (websocket_protocol_opcode_is_control op) eqn:Hc; cbn [andb];
    [destruct (has_flag fl WEBSOCKET_FLAG_FIN) eqn:Hf; cbn [negb]; [|done];
     destruct (Z.ltb_spec 125 (zlen payload)); [done|]|];
    (case_match eqn:Ht; [done|]);
    rewrite (u8_small op) by (apply opcode_valid_range in Hv; lia);
    fold (pack_payload_flags fl); unfold websocket_protocol_pack_payload, frame_wire, frame_mask;
    (split; [done|]); (split; [split_and?; done || lia|]); (split; [intros ->|];
       [intros; destruct (websocket_protocol_is_valid_utf8 payload); [done|];
        rewrite ?Hf in *; simplify_eq; lia|]);
    destruct (has_flag (pack_payload_flags fl) WEBSOCKET_FLAG_MASK); simplify_eq; done.
Qed.

(** What a decoder should see of the bytes of a CLOSE frame given raw, as a string or
    a [Frame]: no code and no reason, or a big-endian code and a UTF-8 reason. *)
Definition raw_close_decode (payload : bytes) (flags consumed : Z) : result proto_error decoded :=
  match payload with
  | [] => Ok (DCloseFrame (mk_CloseFrame WEBSOCKET_CLOSE_NORMAL [] flags consumed))
  | [_] => Err InvalidCloseFrame
  | hi :: lo :: reason =>
    if websocket_protocol_is_valid_utf8 reason
    then Ok (DCloseFrame (mk_CloseFrame (256 * hi + lo) reason flags consumed))
    else Err CloseReasonUtf8
  end.

(** What a decoder should see of the argument of [Protocol::pack]. *)
Definition expected_decode (data : pack_data) (opcode flags consumed : Z) : result proto_error decoded :=
  match pack_source data opcode flags with
  | Err e => Err e
  | Ok (payload, op, fl) =>
    let fl' := wire_flags (pack_payload_flags fl) in
    match data with
    | DataCloseFrame f => Ok (DCloseFrame (mk_CloseFrame (close_code f) (close_reason f) fl' consumed))
    | _ =>
      if op =? WEBSOCKET_OPCODE_CLOSE then raw_close_decode payload fl' consumed else
      match websocket_protocol_message_type_from_opcode op with
      | Some t => Ok (DFrame (mk_Frame t op fl' payload (has_flag fl WEBSOCKET_FLAG_FIN) consumed))
      | None => Err (UnsupportedOpcode op)
      end
    end
  end.

(** The bytes a [pack] argument carries. *)
Definition data_bytes (data : pack_data) : bytes :=
  match data with
  | DataString s => s
  | DataFrame f => frame_payload f
  | DataCloseFrame f => close_reason f
  | DataOther => []
  end.

(** A raw close frame is packed without any check of its payload. *)
Definition raw_close (data : pack_data) (opcode : Z) : Prop :=
  match data with
  | DataString _ => opcode = WEBSOCKET_OPCODE_CLOSE
  | DataFrame f => frame_opcode f = WEBSOCKET_OPCODE_CLOSE
  | _ => False
  end.

(** A CLOSE payload no decoder accepts: a lone byte, or a reason that is not UTF-8. *)
Definition malformed_close (payload : bytes) : Prop :=
  zlen payload = 1 \/ 2 <= zlen payload /\ websocket_protocol_is_valid_utf8 (zdrop 2 payload) = false.

Lemma raw_close_decode_malformed payload flags consumed : is_bytes payload ->
  match raw_close_decode payload flags consumed with
  | Ok d => decoded_consumed d = Some consumed /\ ~ malformed_close payload
  | Err _ => malformed_close payload
  end.
Proof.
  intros Hb. unfold malformed_close. destruct payload as [|hi [|lo reason]]; cbn [raw_close_decode].
  - split; [done|]. intros [?|[? _]]; done.
  - by left.
  - change (zdrop 2 (hi :: lo :: reason)) with reason. pose proof (zlen_nonneg reason). rewrite !zlen_cons.
    destruct (websocket_protocol_is_valid_utf8 reason); [split; [done|]|].
    + intros [?|[_ ?]]; [lia|done].
    + right. split; [lia|done].
Qed.

Lemma close_payload_Ok code reason payload :
  websocket_protocol_close_payload code reason = Ok payload ->
  websocket_protocol_close_code_is_valid code = true /\ zlen reason <= 123 /\
  websocket_protocol_is_valid_utf8 reason = true /\
  payload = code / 256 :: code mod 256 :: reason.
Proof.
  unfold websocket_protocol_close_payload, WEBSOCKET_CLOSE_REASON_MAX_LEN.
  destruct (websocket_protocol_close_code_is_valid code) eqn:Hv; cbn [negb]; [|done].
  destruct (Z.ltb_spec 123 (zlen reason)); [done|].
  destruct (websocket_protocol_is_valid_utf8 reason); cbn [negb]; [|done].
  intros [= <-]. split_and!; [done|lia|done|].
  apply valid_close_code_range in Hv.
  rewrite !land_255_mod, Z.shiftr_div_pow2 by lia. change (2 ^ 8) with 256.
  f_equal. apply Z.mod_small. Z.div_mod_to_equations. lia.
Qed.

Lemma close_code_bytes code : 0 <= code < 65536 ->
  Z.lor (Z.shiftl (code / 256) 8) (code mod 256) = code.
Proof.
  intros. rewrite lor_shiftl_add by (first [lia | apply Z.mod_pos_bound; lia]).
  change (2 ^ 8) with 256. Z.div_mod_to_equations. lia.
Qed.

Lemma pack_source_bytes data opcode flags payload op fl :
  is_bytes (data_bytes data) -> pack_source data opcode flags = Ok (payload, op, fl) -> is_bytes payload.
Proof.
  intros Hb. destruct data as [s|f|f|]; cbn in *; intros; simplify_eq; try done.
  destruct (websocket_protocol_close_payload _ _) as [p|] eqn:E; simplify_eq.
  apply close_payload_Ok in E as (Hv & _ & _ & ->). apply valid_close_code_range in Hv.
  rewrite !is_bytes_cons. unfold is_byte. split_and!; try done; Z.div_mod_to_equations; lia.
Qed.

(** The decoder on a raw CLOSE payload. *)
Lemma unpack_raw_close fl final payload c : is_bytes payload -> zlen payload <> 1 ->
  unpack_payload WEBSOCKET_OPCODE_CLOSE fl final payload c = raw_close_decode payload fl c.
Proof.
  intros Hb H1. unfold unpack_payload. rewrite Z.eqb_refl.
  destruct payload as [|hi [|lo reason]]; [done|done|]. cbn [raw_close_decode].
  pose proof (zlen_nonneg reason). replace (2 <=? zlen _) with true by (rewrite !zlen_cons; lia).
  change (zdrop 2 (_ :: _ :: reason)) with reason.
  change (zget (hi :: _) 0) with hi. change (zget (hi :: lo :: reason) 1) with lo.
  destruct (websocket_protocol_is_valid_utf8 reason); cbn [negb]; [|done].
  apply is_bytes_cons in Hb as [Hhi Hb]. apply is_bytes_cons in Hb as [Hlo _]. unfold is_byte in *.
  rewrite lor_shiftl_add by lia. do 3 f_equal. lia.
Qed.

(** The payload checks of the decoder on what [pack] emits. *)
Lemma unpack_payload_packed data opcode flags payload op fl c :
  pack_source data opcode flags = Ok (payload, op, fl) -> is_bytes payload ->
  websocket_protocol_opcode_is_valid op = true ->
  (op = WEBSOCKET_OPCODE_TEXT -> has_flag fl WEBSOCKET_FLAG_FIN = true ->
     websocket_protocol_is_valid_utf8 payload = true) ->
  (if (op =? WEBSOCKET_OPCODE_CLOSE) && (zlen payload =? 1) then Err InvalidCloseFrame
   else unpack_payload op (wire_flags (pack_payload_flags fl)) (has_flag fl WEBSOCKET_FLAG_FIN) payload c)
  = expected_decode data opcode flags c.
Proof.
  intros Hsrc Hb Hv Htext. unfold expected_decode. rewrite Hsrc. cbv zeta.
  set (fl' := wire_flags _). set (final := has_flag fl _) in *.
  assert (Hraw : (if (op =? WEBSOCKET_OPCODE_CLOSE) && (zlen payload =? 1) then Err InvalidCloseFrame
     else unpack_payload op fl' final payload c)
    = if op =? WEBSOCKET_OPCODE_CLOSE then raw_close_decode payload fl' c else
      match websocket_protocol_message_type_from_opcode op with
      | Some t => Ok (DFrame (mk_Frame t op fl' payload final c))
      | None => Err (UnsupportedOpcode op)
      end).
  { destruct (Z.eqb_spec op WEBSOCKET_OPCODE_CLOSE) as [->|Hne]; cbn [andb].
    - destruct (Z.eqb_spec (zlen payload) 1) as [H1|H1]; [|by apply unpack_raw_close].
      destruct payload as [|x [|y l]]; [done|done|]. pose proof (zlen_nonneg l). rewrite !zlen_cons in H1. lia.
    - unfold unpack_payload. replace (op =? WEBSOCKET_OPCODE_CLOSE) with false by lia.
      case_match; [|done]. destruct (Z.eqb_spec op WEBSOCKET_OPCODE_TEXT); [|done].
      destruct final; [|done]. by rewrite Htext. }
  rewrite Hraw. destruct data as [s|f|f|]; cbn in Hsrc; simplify_eq; [done..|]. clear Hraw.
  destruct (websocket_protocol_close_payload _ _) as [p|] eqn:E; simplify_eq.
  apply close_payload_Ok in E as (Hc & _ & Hu & ->). apply valid_close_code_range in Hc.
  rewrite Z.eqb_refl. cbn [raw_close_decode]. rewrite Hu. do 3 f_equal. Z.div_mod_to_equations. lia.
Qed.

Section Pack.
Context (big : bool) (key : bytes) (data : pack_data) (opcode flags : Z) (bs : bytes).
Hypothesis (Hpack : Protocol_pack big (Some key) data opcode flags = Ok bs).
Hypothesis (Hdata : is_bytes (data_bytes data)) (Hkey : is_bytes key) (Hkey4 : length key = 4%nat).

(** What [pack] wrote: a frame with the opcode, flags and payload of its argument. *)
Lemma Protocol_pack_wire : exists payload op fl,
  pack_source data opcode flags = Ok (payload, op, fl) /\ is_bytes payload /\
  websocket_protocol_opcode_is_valid op = true /\
  (websocket_protocol_opcode_is_control op = true -> has_flag fl WEBSOCKET_FLAG_FIN = true /\ zlen payload <= 125) /\
  (op = WEBSOCKET_OPCODE_TEXT -> has_flag fl WEBSOCKET_FLAG_FIN = true ->
     websocket_protocol_is_valid_utf8 payload = true) /\
  0 <= pack_payload_flags fl < 64 /\
  mask_ok (pack_payload_flags fl) (frame_mask (pack_payload_flags fl) key) /\
  bs = frame_wire big op (pack_payload_flags fl) (frame_mask (pack_payload_flags fl) key) payload.
Proof using All.
  apply Protocol_pack_Ok in Hpack as (payload & op & fl & Hsrc & Hv & Hctl & Htext & ->).
  exists payload, op, fl. split_and!; try done.
  - by eapply pack_source_bytes.
  - apply flags_all_range.
  - apply flags_all_range.
  - by apply frame_mask_ok.
Qed.

Lemma pack_unpack_wire rest : is_bytes rest -> zlen (bs ++ rest) < 2 ^ 63 ->
  websocket_protocol_unpack big (bs ++ rest) = expected_decode data opcode flags (zlen bs).
Proof using All.
  intros Hr Hlen. destruct Protocol_pack_wire as (payload & op & fl & Hsrc & Hpb & Hv & Hctl & Htext & Hfl & Hm & ->).
  pose proof (opcode_valid_range op Hv) as Hop.
  assert (Hfin : has_flag (pack_payload_flags fl) WEBSOCKET_FLAG_FIN = has_flag fl WEBSOCKET_FLAG_FIN)
    by (by apply has_flag_all).
  rewrite unpack_wire by done. rewrite Hv, Hfin. cbn [negb].
  assert (Hc : websocket_protocol_opcode_is_control op
     && (negb (has_flag fl WEBSOCKET_FLAG_FIN) || (125 <? zlen payload)) = false).
  { destruct (websocket_protocol_opcode_is_control op); [|done].
    destruct (Hctl eq_refl) as [-> ?]. cbn. lia. }
  rewrite Hc. by apply unpack_payload_packed.
Qed.

(** A decoder that answers has the whole frame. *)
Lemma packed_prefix_null p q : bs = p ++ q -> q <> [] -> zlen bs < 2 ^ 63 ->
  websocket_protocol_unpack big p = Ok DNull.
Proof using All.
  intros Hpq Hq Hlen. destruct Protocol_pack_wire as (payload & op & fl & _ & Hpb & Hv & _ & _ & Hfl & Hm & Hbs).
  pose proof (opcode_valid_range op Hv) as Hop. pose proof (zlen_nonneg payload).
  set (fl' := pack_payload_flags fl) in *. set (mask := frame_mask fl' key) in *.
  pose proof (wire_len big op fl' mask payload Hm Hpb) as Hwl. rewrite <- Hbs in Hwl.
  pose proof (pack_header_len_pos (zlen payload)).
  assert (Hn : zlen payload < 2 ^ 64) by (destruct (has_flag fl' WEBSOCKET_FLAG_MASK); lia).
  set (masked := has_flag fl' WEBSOCKET_FLAG_MASK) in *.
  destruct (unpack_length_pack (pack_byte0 op fl') masked (zlen payload)
    (mask ++ (if masked then websocket_mask_payload_copy big payload mask else payload)) bs) as [Hmb Hul].
  - by apply pack_byte0_bits.
  - apply is_bytes_app. split; [by apply Hm|by apply (wire_body_bytes big fl' mask payload)].
  - lia.
  - by rewrite Hbs.
  - assert (zlen p < zlen bs).
    { rewrite Hpq, zlen_app. destruct q; [done|]. rewrite zlen_cons. pose proof (zlen_nonneg q). lia. }
    unfold websocket_protocol_unpack. destruct (Z.ltb_spec (zlen p) 2); [done|].
    assert (Hb1 : zget p 1 = zget bs 1) by (rewrite Hpq, zget_app_l by lia; done).
    rewrite Hb1, Hmb. cbv zeta.
    destruct (unpack_length p _) as [[n pos]|] eqn:E; [|done].
    apply (unpack_length_app _ q) in E. rewrite <- Hpq, Hul in E. injection E as <- <-.
    destruct masked; cbn [andb].
    + destruct (_ <? _ + 4); [done|]. replace (zlen p <? _ + 4 + _) with true by lia. by rewrite !orb_true_r.
    + replace (zlen p <? _ + _) with true by lia. by rewrite !orb_true_r.
Qed.
End Pack.

(** ** Properties *)

(** C10. Round trip. Whatever [Protocol::pack] accepts (a string, a [Frame] or a
    [CloseFrame]; any opcode, any flags, masked or not, any length form) decodes, on
    either byte order and with any bytes following it, to the same type, opcode,
    payload, FIN bit, close code and reason, with [bytesConsumed] the length of the
    encoding; the COMPRESS flag comes back as RSV1.  A CLOSE frame given raw, as a
    string or [Frame], comes back as the [CloseFrame] its payload spells (1000 when it
    is empty).  The decoder refuses nothing else than a raw CLOSE frame whose payload
    is a lone byte or has a reason that is not UTF-8, which [pack] does not check. *)
Theorem pack_unpack_roundtrip (big : bool) (key : bytes) (data : pack_data) (opcode flags : Z)
    (bs rest : bytes)
    (Hpack : Protocol_pack big (Some key) data opcode flags = Ok bs)
    (Hdata : is_bytes (data_bytes data)) (Hkey : is_bytes key) (Hkey4 : length key = 4%nat)
    (Hrest : is_bytes rest) (Hlen : zlen (bs ++ rest) < 2 ^ 63) :
  Protocol_unpack big (bs ++ rest) = expected_decode data opcode flags (zlen bs) /\
  match expected_decode data opcode flags (zlen bs) with
  | Ok d => decoded_consumed d = Some (zlen bs) /\ ~ (raw_close data opcode /\ malformed_close (data_bytes data))
  | Err _ => raw_close data opcode /\ malformed_close (data_bytes data)
  end.
Proof.
  split; [by apply (pack_unpack_wire big key)|].
  apply Protocol_pack_Ok in Hpack as (payload & op & fl & Hsrc & Hv & _).
  unfold expected_decode. rewrite Hsrc. destruct (opcode_valid_type op Hv) as [t ->].
  destruct data as [s|f|f|]; cbn in Hsrc, Hdata |- *; simplify_eq.
  3: by split; [|intros [? _]].
  all: match goal with |- context [?x =? WEBSOCKET_OPCODE_CLOSE] => destruct (Z.eqb_spec x WEBSOCKET_OPCODE_CLOSE) end;
    [|by split; [|intros [? _]]].
  all: match goal with |- context [raw_close_decode ?p ?f ?c] =>
         pose proof (raw_close_decode_malformed p f c Hdata); destruct (raw_close_decode p f c) end; tauto.
Qed.

(** A masked binary frame, and the raw CLOSE frames of a byte and of a code. *)
Lemma pack_unpack_roundtrip_witness :
  Protocol_unpack false ([0x82; 0x82; 1; 2; 3; 4; 0x69; 0x6b] ++ [0xff])
    = Ok (DFrame (mk_Frame Binary 2 33 [0x68; 0x69] true 8)) /\
  Protocol_unpack false ([0x88; 1; 3] ++ []) = Err InvalidCloseFrame /\
  Protocol_unpack true ([0x88; 3; 3; 0xe9; 0x78] ++ [])
    = Ok (DCloseFrame (mk_CloseFrame 1001 [0x78] 1 5)).
Proof.
  split; [|split].
  - refine (proj1 (pack_unpack_roundtrip false [1; 2; 3; 4] (DataString [0x68; 0x69]) 2 33
      [0x82; 0x82; 1; 2; 3; 4; 0x69; 0x6b] [0xff] _ _ _ _ _ _));
      first [apply (bool_decide_unpack _); vm_compute; exact I | reflexivity].
  - refine (proj1 (pack_unpack_roundtrip false [1; 2; 3; 4] (DataString [3]) 8 1 [0x88; 1; 3] [] _ _ _ _ _ _));
      first [apply (bool_decide_unpack _); vm_compute; exact I | reflexivity].
  - refine (proj1 (pack_unpack_roundtrip true [1; 2; 3; 4] (DataString [3; 0xe9; 0x78]) 8 1
      [0x88; 3; 3; 0xe9; 0x78] [] _ _ _ _ _ _));
      first [apply (bool_decide_unpack _); vm_compute; exact I | reflexivity].
Defined.

(** C31.  The decoder is incremental: once it returns a frame or throws on some
    bytes, it gives the same answer whatever follows them, and a decoded frame
    spans at least two bytes and at most the buffer.  So only [NULL] ever means
    "wait for more input". *)
Theorem unpack_monotone (big : bool) (buf rest : bytes) (r : result proto_error decoded)
    (Hbuf : is_bytes buf) (Hlen : zlen (buf ++ rest) < 2 ^ 63)
    (Hr : Protocol_unpack big buf = r) (Hdone : r <> Ok DNull) :
  Protocol_unpack big (buf ++ rest) = r /\
  (forall d, r = Ok d -> exists c, decoded_consumed d = Some c /\ 2 <= c <= zlen buf).
Proof. exact (unpack_stable_bounds big buf rest r Hbuf Hlen Hr Hdone). Qed.

Lemma unpack_monotone_witness :
  Protocol_unpack true ([0x88; 0x01; 0xff] ++ [0; 1; 2]) = Err InvalidCloseFrame /\
  (forall d, Err InvalidCloseFrame = Ok d -> exists c, decoded_consumed d = Some c /\ 2 <= c <= 3).
Proof.
  apply (unpack_monotone true [0x88; 0x01; 0xff] [0; 1; 2]);
    [apply (bool_decide_unpack _); vm_compute; exact I|vm_compute; reflexivity
    |vm_compute; reflexivity|discriminate].
Defined.

(** C32. No premature answer: every proper prefix of anything [Protocol::pack] wrote,
    raw CLOSE frames included, decodes to [NULL]: no frame and no error before the
    last byte. *)
Theorem unpack_prefix_null (big : bool) (key : bytes) (data : pack_data) (opcode flags : Z)
    (p q : bytes)
    (Hpack : Protocol_pack big (Some key) data opcode flags = Ok (p ++ q)) (Hq : q <> [])
    (Hdata : is_bytes (data_bytes data)) (Hkey : is_bytes key) (Hkey4 : length key = 4%nat)
    (Hlen : zlen (p ++ q) < 2 ^ 63) :
  Protocol_unpack big p = Ok DNull.
Proof. by apply (packed_prefix_null big key data opcode flags (p ++ q) Hpack Hdata Hkey Hkey4 p q). Qed.

Lemma unpack_prefix_null_witness :
  Protocol_unpack false [0x81; 0x02; 0x68] = Ok DNull /\ Protocol_unpack false [0x88; 1] = Ok DNull.
Proof.
  split.
  - apply (unpack_prefix_null false [1; 2; 3; 4] (DataString [0x68; 0x69]) 1 1 _ [0x69]);
    [vm_compute; reflexivity|discriminate
    |apply (bool_decide_unpack _); vm_compute; exact I
    |apply (bool_decide_unpack _); vm_compute; exact I|reflexivity|vm_compute; reflexivity].
  - apply (unpack_prefix_null false [1; 2; 3; 4] (DataString [3]) 8 1 _ [3]);
    [vm_compute; reflexivity|discriminate
    |apply (bool_decide_unpack _); vm_compute; exact I
    |apply (bool_decide_unpack _); vm_compute; exact I|reflexivity|vm_compute; reflexivity].
Defined.

(** C33.  [websocket_protocol_close_payload] on every branch: a bad code, then a
    reason over 123 bytes, then a reason that is not UTF-8 is refused in that
    order; otherwise the payload is the code in network order and the reason, and
    fits a control frame. *)
Theorem close_payload_spec (code : Z) (reason : bytes) :
  match websocket_protocol_close_payload code reason with
  | Err e =>
      (websocket_protocol_close_code_is_valid code = false /\ e = InvalidCloseCode) \/
      (websocket_protocol_close_code_is_valid code = true /\ 123 < zlen reason /\ e = ReasonTooLong) \/
      (websocket_protocol_close_code_is_valid code = true /\ zlen reason <= 123 /\
       websocket_protocol_is_valid_utf8 reason = false /\ e = ReasonNotUtf8)
  | Ok payload =>
      websocket_protocol_close_code_is_valid code = true /\
      websocket_protocol_is_valid_utf8 reason = true /\
      payload = be_store 2 code ++ reason /\ 2 <= zlen payload <= 125
  end.
Proof.
  destruct (websocket_protocol_close_payload code reason) as [payload|e] eqn:E.
  - apply close_payload_Ok in E as (Hv & Hl & Hu & ->). split; [done|]. split; [done|].
    apply valid_close_code_range in Hv. pose proof (zlen_nonneg reason). split.
    + cbn [be_store app]. change (2 ^ (8 * Z.of_nat 1)) with 256. change (2 ^ (8 * Z.of_nat 0)) with 1.
      rewrite Z.div_1_r, (Z.mod_small (code / 256)) by (Z.div_mod_to_equations; lia). done.
    + rewrite !zlen_cons. lia.
  - revert E. unfold websocket_protocol_close_payload, WEBSOCKET_CLOSE_REASON_MAX_LEN.
    destruct (websocket_protocol_close_code_is_valid code); cbn [negb]; [|intros; simplify_eq; auto].
    destruct (Z.ltb_spec 123 (zlen reason)); [intros; simplify_eq; auto|].
    destruct (websocket_protocol_is_valid_utf8 reason); cbn [negb]; intros; simplify_eq; auto 10.
Qed.

(** C34.  [Protocol::encode] lacks the control-frame guard of [Protocol::pack] and
    [Connection::send]: for every PING, PONG or CLOSE payload over 125 bytes it
    returns a frame that the library's own decoder rejects. *)
Theorem encode_oversized_control (big : bool) (payload rest : bytes) (t : message_type)
    (Ht : t = Ping \/ t = Pong \/ t = Close) (Hbytes : is_bytes payload) (Hrest : is_bytes rest)
    (Hbig : 125 < zlen payload) (Hlen : zlen payload + zlen rest < 2 ^ 62) :
  exists bs, Protocol_encode big None payload (Some t) false = Ok bs /\
    Protocol_decode big (bs ++ rest) = Err InvalidControlFrame /\
    Protocol_pack big None (DataString payload) (websocket_protocol_message_type_opcode t)
      WEBSOCKET_FLAG_FIN = Err ControlTooLong.
Proof.
  set (op := websocket_protocol_message_type_opcode t).
  assert (Hop : websocket_protocol_opcode_is_control op = true /\ 0 <= op < 16 /\
                websocket_protocol_opcode_is_valid op = true /\ (op =? WEBSOCKET_OPCODE_TEXT) = false)
    by (destruct Ht as [-> | [-> | ->]]; vm_compute; repeat split; discriminate || reflexivity).
  destruct Hop as (Hc & Hr & Hv & Hnt). exists (frame_wire big op WEBSOCKET_FLAG_FIN [] payload).
  assert (Hm : mask_ok WEBSOCKET_FLAG_FIN []) by (split; [constructor|done]).
  split; [|split].
  - unfold Protocol_encode. fold op. rewrite Hnt. done.
  - unfold Protocol_decode. rewrite unpack_wire; try done.
    + rewrite Hv, Hc. cbn [negb andb]. change (has_flag _ _) with true.
      by replace (125 <? zlen payload) with true by lia.
    + rewrite zlen_app, wire_len by done. unfold pack_header_len. repeat case_match; lia.
  - unfold Protocol_pack. cbn [pack_source]. rewrite Hv, Hc. cbn [negb andb].
    change (has_flag _ _) with true. by replace (125 <? zlen payload) with true by lia.
Qed.

Lemma encode_oversized_control_witness :
  exists bs, Protocol_encode false None (repeat 0x61 126) (Some Ping) false = Ok bs /\
    Protocol_decode false (bs ++ []) = Err InvalidControlFrame /\
    Protocol_pack false None (DataString (repeat 0x61 126)) 9 1 = Err ControlTooLong.
Proof.
  apply (encode_oversized_control false (repeat 0x61 126) [] Ping);
    [left; reflexivity|apply (bool_decide_unpack _); vm_compute; exact I|constructor
    |vm_compute; reflexivity|vm_compute; reflexivity].
Defined.
