(* ===== verification/Http.v ===== *)
(** * The HTTP upgrade parser: [websocket_http.c]

    C's [(pointer, length)] pairs into the request buffer are byte lists; the
    positions [line] and [header_end] of the parser are offsets into the buffer.

    Parameters: PHP's own SHA-1 and base64 ([sha1], [base64_encode] and the
    strict [base64_decode_ex]), which are not part of this source tree. *)
From S2P Require Import Prelude Constants.
From Stdlib Require Import Ascii.
From Stdlib Require String.
Import (notations) String.

(** ** Text *)

(** The bytes of an ASCII literal. *)
Fixpoint str (s : String.string) : bytes :=
  match s with
  | String.EmptyString => []
  | String.String a s => Z.of_N (N_of_ascii a) :: str s
  end.
Arguments str _%_string.

Definition CR : Z := 13.
Definition LF : Z := 10.
Definition crlf : bytes := [CR; LF].
Definition COMMA : Z := 44.
Definition COLON : Z := 58.
Definition SP : Z := 32.

Definition tolower (c : Z) : Z := if (65 <=? c) && (c <=? 90) then c + 32 else c.
Definition zend_string_tolower (l : bytes) : bytes := map tolower l.

(** [strncasecmp(a, b, n) == 0]: bytes are compared up to [n] or a common NUL. *)
Fixpoint strncasecmp_eq (a b : bytes) (n : nat) : bool :=
  match n, a, b with
  | O, _, _ => true
  | S n, x :: a, y :: b =>
      if tolower x =? tolower y then (x =? 0) || strncasecmp_eq a b n else false
  | _, _, _ => false
  end.

(** The C string at the start of a buffer: what the [%s] conversion prints. *)
Fixpoint cstr (l : bytes) : bytes :=
  match l with
  | [] => []
  | b :: l => if b =? 0 then [] else b :: cstr l
  end.

(** ** Scanning *)

(** The loop of [websocket_http_find_header_end] at offset [i], [l = buffer + i]. *)
Fixpoint find_header_end_from (l : bytes) (i : Z) : option Z :=
  match l with
  | a :: l' =>
    match l' with
    | b :: c :: d :: _ =>
      if (a =? CR) && (b =? LF) && (c =? CR) && (d =? LF) then Some i
      else find_header_end_from l' (i + 1)
    | _ => None
    end
  | [] => None
  end.

Definition websocket_http_find_header_end (buffer : bytes) : option Z :=
  if zlen buffer <? 4 then None else find_header_end_from buffer 0.

Definition is_ws (c : Z) : bool := (c =? SP) || (c =? 9).

Fixpoint ltrim (l : bytes) : bytes :=
  match l with
  | b :: l' => if is_ws b then ltrim l' else l
  | [] => []
  end.

Fixpoint rtrim_loop (fuel : nat) (l : bytes) : bytes :=
  match fuel with
  | O => l
  | S fuel =>
    if (0 <? zlen l) && is_ws (zget l (zlen l - 1)) then rtrim_loop fuel (ztake (zlen l - 1) l)
    else l
  end.

Definition websocket_http_trim (l : bytes) : bytes :=
  let l := ltrim l in rtrim_loop (length l) l.

Definition websocket_http_equals_ci (value expected : bytes) : bool :=
  (zlen value =? zlen expected) && strncasecmp_eq value expected (length expected).

(** One list element of a header value: the bytes up to the next comma of
    [part], and the offset after that comma. *)
Definition next_part (value : bytes) (offset : Z) : bytes * option Z :=
  let part := zdrop offset value in
  match memchr COMMA part with
  | Some comma => (ztake comma part, Some (offset + comma + 1))
  | None => (part, None)
  end.

Fixpoint contains_token_loop (fuel : nat) (value token : bytes) (offset : Z) : bool :=
  match fuel with
  | O => false
  | S fuel =>
    if negb (offset <=? zlen value) then false else
    let '(part, next) := next_part value offset in
    if websocket_http_equals_ci (websocket_http_trim part) token then true else
    match next with
    | None => false
    | Some offset => contains_token_loop fuel value token offset
    end
  end.

Definition websocket_http_header_contains_token (value token : bytes) : bool :=
  contains_token_loop (S (length value)) value token 0.

(** The separators [websocket_http_validate_subprotocol_token] refuses. *)
Definition token_separators : bytes := 34 :: str "()<>@,;:\/[]?={}".

Fixpoint token_chars_ok (l : bytes) : bool :=
  match l with
  | [] => true
  | ch :: l =>
    if (ch <=? 32) || (127 <=? ch) then false
    else if existsb (Z.eqb ch) token_separators then false
    else token_chars_ok l
  end.

Definition websocket_http_validate_subprotocol_token (value : bytes) : bool :=
  if zlen value =? 0 then false else token_chars_ok value.

(** [zend_hash_exists] on the keys of the table of supported subprotocols. *)
Definition hash_exists (keys : list bytes) (k : bytes) : bool := bool_decide (k ∈ keys).

(** The loop of [websocket_http_select_subprotocol]: its result and
    [*selected_subprotocol]. *)
Fixpoint select_subprotocol_loop (fuel : nat) (value : bytes) (supported : option (list bytes))
    (selected : option bytes) (offset : Z) : bool * option bytes :=
  match fuel with
  | O => (true, selected)
  | S fuel =>
    if negb (offset <=? zlen value) then (true, selected) else
    let '(part, next) := next_part value offset in
    let token := websocket_http_trim part in
    if negb (websocket_http_validate_subprotocol_token token) then (false, selected) else
    let selected :=
      match selected, supported with
      | None, Some keys =>
          if (0 <? zlen keys) && hash_exists keys token then Some token else None
      | _, _ => selected
      end in
    match next with
    | None => (true, selected)
    | Some offset => select_subprotocol_loop fuel value supported selected offset
    end
  end.

Definition websocket_http_select_subprotocol (value : bytes) (supported : option (list bytes))
    (selected : option bytes) : bool * option bytes :=
  select_subprotocol_loop (S (length value)) value supported selected 0.

(** ** The parsed request *)

Record websocket_http_header := mk_header { header_name : bytes; header_value : bytes }.

Record websocket_http_upgrade := mk_upgrade {
  up_method : bytes;
  up_target : bytes;
  up_headers : list websocket_http_header;
  up_header_capacity : Z;
  up_accept_key : option bytes;
  up_selected_subprotocol : option bytes;
  up_bytes_consumed : Z
}.

Inductive websocket_http_upgrade_result : Type :=
| UPGRADE_INCOMPLETE | UPGRADE_OK | UPGRADE_INVALID.

Definition websocket_http_upgrade_init : websocket_http_upgrade :=
  mk_upgrade [] [] [] 0 None None 0.

(** [websocket_http_parse_request_line]: the method and the target. *)
Definition websocket_http_parse_request_line (line : bytes) : option (bytes * bytes) :=
  match memchr SP line with
  | None => None
  | Some method_len =>
    if negb (websocket_http_equals_ci (ztake method_len line) (str "GET")) then None else
    let rest := zdrop (method_len + 1) line in
    match memchr SP rest with
    | None => None
    | Some target_len =>
      if target_len =? 0 then None else
      let version := zdrop (target_len + 1) rest in
      if negb (websocket_http_equals_ci version (str "HTTP/1.1")) then None
      else Some (ztake method_len line, ztake target_len rest)
    end
  end.

Definition websocket_http_append_header (up : websocket_http_upgrade) (name value : bytes)
    : websocket_http_upgrade :=
  let count := zlen (up_headers up) in
  let capacity :=
    if count =? up_header_capacity up
    then if up_header_capacity up =? 0 then 8 else up_header_capacity up * 2
    else up_header_capacity up in
  mk_upgrade (up_method up) (up_target up) (up_headers up ++ [mk_header name value]) capacity
    (up_accept_key up) (up_selected_subprotocol up) (up_bytes_consumed up).

Definition set_accept_key (k : bytes) (up : websocket_http_upgrade) : websocket_http_upgrade :=
  mk_upgrade (up_method up) (up_target up) (up_headers up) (up_header_capacity up)
    (Some k) (up_selected_subprotocol up) (up_bytes_consumed up).

Definition set_selected (s : option bytes) (up : websocket_http_upgrade) : websocket_http_upgrade :=
  mk_upgrade (up_method up) (up_target up) (up_headers up) (up_header_capacity up)
    (up_accept_key up) s (up_bytes_consumed up).

Definition WEBSOCKET_GUID : bytes := str "258EAFA5-E914-47DA-95CA-C5AB0DC85B11".

(** The header of the map [WebSocket\Request::$headers]: a PHP array, keyed by
    the lower-case name, in order of first insertion. *)
Fixpoint array_find (k : bytes) (a : list (bytes * bytes)) : option bytes :=
  match a with
  | [] => None
  | (k', v) :: a => if decide (k = k') then Some v else array_find k a
  end.

Fixpoint array_update (k v : bytes) (a : list (bytes * bytes)) : list (bytes * bytes) :=
  match a with
  | [] => [(k, v)]
  | (k', v') :: a => if decide (k = k') then (k', v) :: a else (k', v') :: array_update k v a
  end.

(** One iteration of [websocket_http_upgrade_request_headers]. *)
Definition request_headers_step (a : list (bytes * bytes)) (h : websocket_http_header)
    : list (bytes * bytes) :=
  let lower_name := zend_string_tolower (header_name h) in
  match array_find lower_name a with
  | Some existing =>
      array_update lower_name (cstr existing ++ str ", " ++ cstr (header_value h)) a
  | None => array_update lower_name (header_value h) a
  end.

Definition websocket_http_upgrade_request_headers (up : websocket_http_upgrade)
    : list (bytes * bytes) :=
  fold_left request_headers_step (up_headers up) [].

(** [WebSocket\Request::header] on such a map. *)
Definition Request_header (headers : list (bytes * bytes)) (name : bytes) : option bytes :=
  array_find (zend_string_tolower name) headers.

Definition websocket_http_upgrade_response (accept_key : bytes) (selected : option bytes) : bytes :=
  str "HTTP/1.1 101 Switching Protocols" ++ crlf ++
  str "Upgrade: websocket" ++ crlf ++
  str "Connection: Upgrade" ++ crlf ++
  str "Sec-WebSocket-Accept: " ++ cstr accept_key ++ crlf ++
  match selected with
  | Some s => str "Sec-WebSocket-Protocol: " ++ cstr s ++ crlf
  | None => []
  end ++ crlf.

Section Parser.
Context (sha1 base64_encode : bytes -> bytes) (base64_decode_ex : bytes -> option bytes).
Context (supported : option (list bytes)).

Definition websocket_protocol_accept_key (key : bytes) : bytes :=
  base64_encode (sha1 (key ++ WEBSOCKET_GUID)).

Definition websocket_http_validate_key (value : bytes) : option bytes :=
  match base64_decode_ex value with
  | None => None
  | Some decoded =>
    if negb (zlen decoded =? 16) then None else Some (websocket_protocol_accept_key value)
  end.

(** What the parser has established so far. *)
Record parse_state := mk_parse {
  ps_upgrade : websocket_http_upgrade;
  has_upgrade : bool;
  has_connection : bool;
  has_version : bool
}.

(** The chain of [else if] on the header's name; [None] is a return of INVALID
    (with the request parsed so far). *)
Definition apply_header (name value : bytes) (st : parse_state) : parse_state * bool :=
  let up := ps_upgrade st in
  if websocket_http_equals_ci name (str "Upgrade") then
    (mk_parse up (websocket_http_header_contains_token value (str "websocket"))
       (has_connection st) (has_version st), true)
  else if websocket_http_equals_ci name (str "Connection") then
    (mk_parse up (has_upgrade st) (websocket_http_header_contains_token value (str "upgrade"))
       (has_version st), true)
  else if websocket_http_equals_ci name (str "Sec-WebSocket-Version") then
    (mk_parse up (has_upgrade st) (has_connection st)
       (websocket_http_equals_ci value (str "13")), true)
  else if websocket_http_equals_ci name (str "Sec-WebSocket-Key") then
    match up_accept_key up with
    | Some _ => (st, false)
    | None =>
      match websocket_http_validate_key value with
      | None => (st, false)
      | Some k => (mk_parse (set_accept_key k up) (has_upgrade st) (has_connection st)
                     (has_version st), true)
      end
    end
  else if websocket_http_equals_ci name (str "Sec-WebSocket-Protocol") then
    let '(ok, sel) := websocket_http_select_subprotocol value supported (up_selected_subprotocol up) in
    (mk_parse (set_selected sel up) (has_upgrade st) (has_connection st) (has_version st), ok)
  else (st, true).

(** The header loop from offset [line]; [false] is a return of INVALID. *)
Fixpoint parse_headers_loop (fuel : nat) (buffer : bytes) (header_end line : Z) (st : parse_state)
    : parse_state * bool :=
  match fuel with
  | O => (st, false)
  | S fuel =>
    if negb (line <? header_end) then (st, true) else
    match memchr CR (ztake (header_end - line + 1) (zdrop line buffer)) with
    | None => (st, false)
    | Some line_len =>
      let line_end := line + line_len in
      if (zlen buffer <=? line_end + 1) || negb (zget buffer (line_end + 1) =? LF) then (st, false)
      else if line_len =? 0 then (st, true) else
      let text := ztake line_len (zdrop line buffer) in
      match memchr COLON text with
      | None => (st, false)
      | Some name_len =>
        let name := websocket_http_trim (ztake name_len text) in
        let value := websocket_http_trim (zdrop (name_len + 1) text) in
        let up := websocket_http_append_header (ps_upgrade st) name value in
        let '(st, ok) := apply_header name value
          (mk_parse up (has_upgrade st) (has_connection st) (has_version st)) in
        if negb ok then (st, false)
        else parse_headers_loop fuel buffer header_end (line_end + 2) st
      end
    end
  end.

Definition websocket_http_parse_upgrade (buffer : bytes)
    : websocket_http_upgrade_result * websocket_http_upgrade :=
  let up := websocket_http_upgrade_init in
  if WEBSOCKET_HTTP_MAX_REQUEST_SIZE <? zlen buffer then (UPGRADE_INVALID, up) else
  match websocket_http_find_header_end buffer with
  | None => (UPGRADE_INCOMPLETE, up)
  | Some header_end =>
    let up := mk_upgrade [] [] [] 0 None None (header_end + 4) in
    match memchr CR (ztake header_end buffer) with
    | None => (UPGRADE_INVALID, up)
    | Some request_line_end =>
      if (zlen buffer <=? request_line_end + 1) || negb (zget buffer (request_line_end + 1) =? LF)
      then (UPGRADE_INVALID, up) else
      match websocket_http_parse_request_line (ztake request_line_end buffer) with
      | None => (UPGRADE_INVALID, up)
      | Some (method, target) =>
        let up := mk_upgrade method target [] 0 None None (header_end + 4) in
        let '(st, ok) := parse_headers_loop (S (length buffer)) buffer header_end
          (request_line_end + 2) (mk_parse up false false false) in
        if negb ok then (UPGRADE_INVALID, ps_upgrade st)
        else if negb (has_upgrade st) || negb (has_connection st) || negb (has_version st)
                || negb (bool_decide (is_Some (up_accept_key (ps_upgrade st))))
        then (UPGRADE_INVALID, ps_upgrade st)
        else (UPGRADE_OK, ps_upgrade st)
      end
    end
  end.
End Parser.

(** ** The end of the header block *)

Definition blank_line : bytes := [CR; LF; CR; LF].

(** [l] has an empty line at offset [k]. *)
Definition blank_at (l : bytes) (k : Z) : Prop := ztake 4 (zdrop k l) = blank_line.

Lemma blank_at_cons a l k : 0 < k -> blank_at (a :: l) k <-> blank_at l (k - 1).
Proof.
  intros Hk. unfold blank_at, zdrop.
  replace (Z.to_nat k) with (S (Z.to_nat (k - 1))) by lia. done.
Qed.

Lemma blank_at_len l k : 0 <= k -> blank_at l k -> k + 4 <= zlen l.
Proof.
  intros Hk H. apply (f_equal zlen) in H. rewrite zlen_ztake, zlen_zdrop in H.
  change (zlen blank_line) with 4 in H. pose proof (zlen_nonneg l). lia.
Qed.

Lemma find_header_end_from_spec l i :
  match find_header_end_from l i with
  | Some j => i <= j /\ blank_at l (j - i) /\ forall k, 0 <= k < j - i -> ~ blank_at l k
  | None => forall k, 0 <= k -> ~ blank_at l k
  end.
Proof.
  revert i. induction l as [|a l IH]; intros i; cbn [find_header_end_from].
  { intros k Hk H. apply blank_at_len in H; [|done]. rewrite zlen_nil in H. lia. }
  assert (Hshort : (zlen l < 3) -> forall k, 0 <= k -> ~ blank_at (a :: l) k).
  { intros Hl k Hk H. apply blank_at_len in H; [|done]. rewrite zlen_cons in H. lia. }
  destruct l as [|b [|c [|d l]]]; try (apply Hshort; reflexivity).
  set (l3 := b :: c :: d :: l) in *.
  destruct ((a =? CR) && (b =? LF) && (c =? CR) && (d =? LF)) eqn:E.
  { split; [lia|]. rewrite Z.sub_diag. split; [|lia].
    unfold blank_at, blank_line. subst l3. ztake_cbn. repeat f_equal; lia. }
  assert (H0 : ~ blank_at (a :: l3) 0).
  { intros H. unfold blank_at, blank_line in H. subst l3. revert H. ztake_cbn. intros [= -> -> -> ->].
    done. }
  specialize (IH (i + 1)). destruct (find_header_end_from l3 (i + 1)) as [j|].
  - destruct IH as (Hij & Hb & Hmin). split; [lia|]. split.
    + apply blank_at_cons; [lia|]. by replace (j - i - 1) with (j - (i + 1)) by lia.
    + intros k Hk. destruct (Z.eq_dec k 0) as [->|Hne]; [done|].
      rewrite blank_at_cons by lia. apply Hmin. lia.
  - intros k Hk. destruct (Z.eq_dec k 0) as [->|Hne]; [done|].
    rewrite blank_at_cons by lia. apply IH. lia.
Qed.

Lemma find_header_end_spec l :
  match websocket_http_find_header_end l with
  | Some j => 0 <= j /\ blank_at l j /\ forall k, 0 <= k < j -> ~ blank_at l k
  | None => forall k, 0 <= k -> ~ blank_at l k
  end.
Proof.
  unfold websocket_http_find_header_end. destruct (Z.ltb_spec (zlen l) 4).
  - intros k Hk Hb. apply blank_at_len in Hb; lia.
  - pose proof (find_header_end_from_spec l 0) as S.
    destruct (find_header_end_from l 0) as [j|]; [|done]. by rewrite Z.sub_0_r in S.
Qed.

Lemma find_header_end_bound l j : websocket_http_find_header_end l = Some j -> 0 <= j /\ j + 4 <= zlen l.
Proof.
  intros H. pose proof (find_header_end_spec l) as S. rewrite H in S.
  destruct S as (? & Hb & _). split; [done|]. by apply blank_at_len.
Qed.

Lemma find_header_end_unique l j :
  0 <= j -> blank_at l j -> (forall k, 0 <= k < j -> ~ blank_at l k) ->
  websocket_http_find_header_end l = Some j.
Proof.
  intros Hj Hb Hmin. pose proof (find_header_end_spec l) as S.
  destruct (websocket_http_find_header_end l) as [i|]; [|by destruct (S j)].
  destruct S as (Hi & Hbi & Hmini). f_equal.
  destruct (Z.lt_trichotomy i j) as [H|[H|H]]; [|done|].
  - by destruct (Hmin i).
  - by destruct (Hmini j).
Qed.

Lemma blank_at_app l r k : 0 <= k -> k + 4 <= zlen l -> blank_at (l ++ r) k <-> blank_at l k.
Proof.
  intros Hk Hl. unfold blank_at. rewrite zdrop_app_le by lia. rewrite ztake_app_le; [done|].
  rewrite zlen_zdrop. lia.
Qed.

Lemma find_header_end_app l r j :
  websocket_http_find_header_end l = Some j -> websocket_http_find_header_end (l ++ r) = Some j.
Proof.
  intros H. pose proof (find_header_end_spec l) as S. rewrite H in S.
  destruct S as (? & Hb & Hmin). pose proof (blank_at_len l j ltac:(done) Hb).
  apply find_header_end_unique; [done| |].
  - by apply blank_at_app.
  - intros k Hk. rewrite blank_at_app by lia. by apply Hmin.
Qed.

(** ** Comma-separated lists *)

Fixpoint split_comma (l : bytes) : list bytes :=
  match l with
  | [] => [[]]
  | b :: l =>
    if b =? COMMA then [] :: split_comma l
    else match split_comma l with
         | p :: ps => (b :: p) :: ps
         | [] => [[b]]
         end
  end.

Lemma split_comma_memchr l :
  split_comma l = match memchr COMMA l with
                  | Some i => ztake i l :: split_comma (zdrop (i + 1) l)
                  | None => [l]
                  end.
Proof.
  induction l as [|b l IH]; cbn [split_comma memchr]; [done|].
  destruct (b =? COMMA); [done|]. rewrite IH.
  destruct (memchr COMMA l) as [i|] eqn:E; cbn [option_map]; [|done].
  apply memchr_Some in E as (Hi & _). unfold ztake, zdrop.
  replace (Z.to_nat (Z.succ i)) with (S (Z.to_nat i)) by lia.
  replace (Z.to_nat (Z.succ i + 1)) with (S (S (Z.to_nat i))) by lia.
  by replace (Z.to_nat (i + 1)) with (S (Z.to_nat i)) by lia.
Qed.

Lemma next_part_spec value offset :
  0 <= offset <= zlen value ->
  match next_part value offset with
  | (part, None) => split_comma (zdrop offset value) = [part]
  | (part, Some offset') =>
      split_comma (zdrop offset value) = part :: split_comma (zdrop offset' value) /\
      offset < offset' <= zlen value
  end.
Proof.
  intros Ho. unfold next_part. rewrite (split_comma_memchr (zdrop offset value)).
  destruct (memchr COMMA (zdrop offset value)) as [i|] eqn:E; [|done].
  apply memchr_Some in E as (Hi & _). rewrite zlen_zdrop in Hi.
  rewrite zdrop_zdrop, Z.add_assoc by lia. split; [done|lia].
Qed.

Lemma contains_token_loop_split fuel value token offset :
  0 <= offset <= zlen value -> zlen value - offset < Z.of_nat fuel ->
  contains_token_loop fuel value token offset
  = existsb (fun p => websocket_http_equals_ci (websocket_http_trim p) token)
      (split_comma (zdrop offset value)).
Proof.
  revert offset. induction fuel as [|fuel IH]; intros offset Ho Hf; [lia|].
  cbn [contains_token_loop]. replace (offset <=? zlen value) with true by lia. cbn [negb].
  pose proof (next_part_spec value offset Ho) as N.
  destruct (next_part value offset) as [part [offset'|]].
  - destruct N as [-> ?]. cbn [existsb]. destruct (websocket_http_equals_ci _ _); [done|].
    apply IH; lia.
  - rewrite N. cbn [existsb]. by destruct (websocket_http_equals_ci _ _).
Qed.

Lemma contains_token_split value token :
  websocket_http_header_contains_token value token
  = existsb (fun p => websocket_http_equals_ci (websocket_http_trim p) token) (split_comma value).
Proof.
  unfold websocket_http_header_contains_token. pose proof (zlen_nonneg value).
  rewrite contains_token_loop_split by (unfold zlen in *; lia). done.
Qed.

(** The offered tokens of a [Sec-WebSocket-Protocol] value. *)
Definition offered_tokens (value : bytes) : list bytes := map websocket_http_trim (split_comma value).

(** The first offered token the server supports. *)
Fixpoint first_supported (keys : list bytes) (tokens : list bytes) : option bytes :=
  match tokens with
  | [] => None
  | t :: tokens => if decide (t ∈ keys) then Some t else first_supported keys tokens
  end.

Lemma select_loop_split fuel value supported selected offset :
  0 <= offset <= zlen value -> zlen value - offset < Z.of_nat fuel ->
  forallb websocket_http_validate_subprotocol_token (map websocket_http_trim (split_comma (zdrop offset value)))
  = true ->
  select_subprotocol_loop fuel value supported selected offset
  = (true, match selected with
           | Some s => Some s
           | None => first_supported (default [] supported)
                       (map websocket_http_trim (split_comma (zdrop offset value)))
           end).
Proof.
  revert selected offset. induction fuel as [|fuel IH]; intros selected offset Ho Hf Hv; [lia|].
  cbn [select_subprotocol_loop]. replace (offset <=? zlen value) with true by lia. cbn [negb].
  pose proof (next_part_spec value offset Ho) as N.
  assert (Hsel : forall t : bytes, match selected, supported with
      | None, Some keys => if (0 <? zlen keys) && hash_exists keys t then Some t else None
      | _, _ => selected end
    = match selected with Some s => Some s
      | None => if decide (t ∈ default [] supported) then Some t else None end).
  { intros t. destruct selected, supported as [keys|]; cbn; try done.
    - unfold hash_exists. destruct (decide (t ∈ keys)) as [Hin|Hin].
      + rewrite bool_decide_true by done. destruct keys as [|k keys]; [by apply elem_of_nil in Hin|].
        by replace (0 <? zlen (k :: keys)) with true by zlia.
      + rewrite bool_decide_false by done. by rewrite andb_false_r. }
  destruct (next_part value offset) as [part [offset'|]].
  - destruct N as [HN ?]. rewrite HN in *. cbn [map forallb] in Hv.
    apply andb_true_iff in Hv as [Hv1 Hv2]. rewrite Hv1. cbn [negb map first_supported].
    rewrite Hsel, IH by (done || lia). f_equal. destruct selected; [done|]. by case_decide.
  - rewrite N in *. cbn [map forallb] in Hv. apply andb_true_iff in Hv as [Hv1 _].
    rewrite Hv1. cbn [negb map first_supported]. rewrite Hsel. f_equal. 
Qed.

Lemma select_loop_invalid fuel value supported selected offset :
  0 <= offset <= zlen value -> zlen value - offset < Z.of_nat fuel ->
  forallb websocket_http_validate_subprotocol_token (map websocket_http_trim (split_comma (zdrop offset value)))
  = false ->
  (select_subprotocol_loop fuel value supported selected offset).1 = false.
Proof.
  revert selected offset. induction fuel as [|fuel IH]; intros selected offset Ho Hf Hv; [lia|].
  cbn [select_subprotocol_loop]. replace (offset <=? zlen value) with true by lia. cbn [negb].
  pose proof (next_part_spec value offset Ho) as N.
  destruct (next_part value offset) as [part [offset'|]].
  - destruct N as [HN ?]. rewrite HN in *. cbn [map forallb] in Hv.
    destruct (websocket_http_validate_subprotocol_token _); cbn [negb]; [|done].
    apply IH; done || lia.
  - rewrite N in *. cbn [map forallb] in Hv.
    by destruct (websocket_http_validate_subprotocol_token _).
Qed.

Lemma select_subprotocol_split value supported selected :
  let '(ok, sel) := websocket_http_select_subprotocol value supported selected in
  ok = forallb websocket_http_validate_subprotocol_token (offered_tokens value) /\
  (ok = true -> sel = match selected with
                      | Some s => Some s
                      | None => first_supported (default [] supported) (offered_tokens value)
                      end).
Proof.
  unfold websocket_http_select_subprotocol, offered_tokens. pose proof (zlen_nonneg value).
  destruct (forallb _ _) eqn:E.
  - rewrite select_loop_split by (unfold zlen in *; done || lia). done.
  - destruct (select_subprotocol_loop _ _ _ _ _) as [ok sel] eqn:El.
    pose proof (select_loop_invalid (S (length value)) value supported selected 0) as I.
    rewrite El in I. cbn in I. rewrite I by (unfold zlen in *; done || lia). done.
Qed.

Lemma first_supported_Some keys ts s : first_supported keys ts = Some s -> s ∈ keys /\ s ∈ ts.
Proof.
  induction ts as [|t ts IH]; cbn; [done|]. case_decide.
  - intros [= <-]. split; [done|]. by left.
  - intros H'. destruct (IH H'). split; [done|]. by right.
Qed.

(** ** The header loop *)

Section ParserFacts.
Context (sha1 base64_encode : bytes -> bytes) (base64_decode_ex : bytes -> option bytes).
Context (supported : option (list bytes)).

Local Abbreviation loop := (parse_headers_loop sha1 base64_encode base64_decode_ex supported).
Local Abbreviation apply1 := (apply_header sha1 base64_encode base64_decode_ex supported).
Local Abbreviation parse := (websocket_http_parse_upgrade sha1 base64_encode base64_decode_ex supported).
Local Abbreviation validate_key := (websocket_http_validate_key sha1 base64_encode base64_decode_ex).

(** One parsed header line: store it, then interpret its name. *)
Definition take_header (h : websocket_http_header) (st : parse_state) : parse_state * bool :=
  apply1 (header_name h) (header_value h)
    (mk_parse (websocket_http_append_header (ps_upgrade st) (header_name h) (header_value h))
       (has_upgrade st) (has_connection st) (has_version st)).

(** The meaning of a sequence of header lines. *)
Fixpoint take_headers (hs : list websocket_http_header) (st : parse_state) : parse_state * bool :=
  match hs with
  | [] => (st, true)
  | h :: hs =>
    let '(st, ok) := take_header h st in
    if ok then take_headers hs st else (st, false)
  end.

Lemma header_slice_app (buffer rest : bytes) header_end line :
  0 <= line -> line <= header_end -> header_end + 4 <= zlen buffer ->
  ztake (header_end - line + 1) (zdrop line (buffer ++ rest))
  = ztake (header_end - line + 1) (zdrop line buffer).
Proof.
  intros. rewrite zdrop_app_le by lia. apply ztake_app_le. rewrite zlen_zdrop. lia.
Qed.

(** The loop reads nothing past the header block, and its fuel is enough. *)
Lemma parse_headers_loop_app f1 f2 buffer rest header_end line st :
  0 <= line -> header_end + 4 <= zlen buffer ->
  header_end - line < Z.of_nat f1 -> header_end - line < Z.of_nat f2 ->
  (0 < f1)%nat -> (0 < f2)%nat ->
  loop f1 buffer header_end line st = loop f2 (buffer ++ rest) header_end line st.
Proof.
  intros Hl He. revert f2 line st Hl. induction f1 as [|f1 IH]; intros f2 line st Hl H1 H2 P1 P2; [lia|].
  destruct f2 as [|f2]; [lia|]. cbn [parse_headers_loop].
  destruct (Z.ltb_spec line header_end); cbn [negb]; [|done].
  rewrite header_slice_app by lia.
  destruct (memchr CR _) as [n|] eqn:En; [|done].
  apply memchr_Some in En as (Hn & _). rewrite zlen_ztake, zlen_zdrop in Hn.
  pose proof (zlen_nonneg rest). rewrite zlen_app.
  replace (zlen buffer <=? line + n + 1) with false by lia.
  replace (zlen buffer + zlen rest <=? line + n + 1) with false by lia.
  rewrite zget_app_l by lia.
  destruct (negb _); [done|]. cbn [orb].
  destruct (n =? 0); [done|].
  replace (ztake n (zdrop line (buffer ++ rest))) with (ztake n (zdrop line buffer))
    by (rewrite zdrop_app_le by lia; symmetry; apply ztake_app_le; rewrite zlen_zdrop; lia).
  destruct (memchr COLON _) as [k|]; [|done].
  destruct (apply1 _ _ _) as [st' ok]. destruct ok; [|done]. apply IH; lia.
Qed.

Lemma parse_upgrade_app buffer rest r up :
  parse buffer = (r, up) -> r <> UPGRADE_INCOMPLETE ->
  zlen (buffer ++ rest) <= WEBSOCKET_HTTP_MAX_REQUEST_SIZE ->
  parse (buffer ++ rest) = (r, up).
Proof.
  unfold websocket_http_parse_upgrade. rewrite zlen_app. intros Hp Hr Hlen.
  pose proof (zlen_nonneg rest).
  replace (WEBSOCKET_HTTP_MAX_REQUEST_SIZE <? zlen buffer) with false in Hp by lia.
  replace (WEBSOCKET_HTTP_MAX_REQUEST_SIZE <? zlen buffer + zlen rest) with false by lia.
  destruct (websocket_http_find_header_end buffer) as [he|] eqn:Ehe; [|congruence].
  rewrite (find_header_end_app _ _ _ Ehe).
  apply find_header_end_bound in Ehe as [? ?].
  rewrite ztake_app_le by lia.
  destruct (memchr CR _) as [rl|] eqn:Erl; [|done].
  apply memchr_Some in Erl as (Hrl & _). rewrite zlen_ztake in Hrl.
  replace (zlen buffer <=? rl + 1) with false in Hp by lia.
  replace (zlen buffer + zlen rest <=? rl + 1) with false by lia.
  rewrite zget_app_l, ztake_app_le by lia.
  destruct (negb _); [done|]. cbn [orb] in *.
  destruct (websocket_http_parse_request_line _) as [[m t]|]; [|done].
  rewrite <- (parse_headers_loop_app (S (length buffer))); try done; rewrite ?length_app; unfold zlen in *; lia.
Qed.

(** A run of the loop that is not refused is a sequence of header lines. *)
Lemma parse_headers_loop_take fuel buffer header_end line st st' :
  loop fuel buffer header_end line st = (st', true) ->
  exists hs, take_headers hs st = (st', true).
Proof.
  revert line st. induction fuel as [|fuel IH]; intros line st; cbn [parse_headers_loop]; [done|].
  destruct (negb _); [intros [= <-]; by exists []|].
  destruct (memchr CR _) as [n|]; [|done].
  destruct (_ || _); [done|]. destruct (n =? 0); [intros [= <-]; by exists []|].
  destruct (memchr COLON _) as [k|]; [|done].
  set (h := mk_header (websocket_http_trim (ztake k (ztake n (zdrop line buffer))))
              (websocket_http_trim (zdrop (k + 1) (ztake n (zdrop line buffer))))).
  change (apply1 _ _ _) with (take_header h st).
  destruct (take_header h st) as [st1 ok] eqn:E1. destruct ok; cbn [negb]; [|done].
  intros H. destruct (IH _ _ H) as [hs Hhs]. exists (h :: hs). cbn [take_headers]. by rewrite E1.
Qed.

(** ** What the interpreted headers guarantee *)

Lemma equals_ci_len a b : websocket_http_equals_ci a b = true -> zlen a = zlen b.
Proof. unfold websocket_http_equals_ci. lia. Qed.

Definition named (n : bytes) (h : websocket_http_header) : Prop :=
  websocket_http_equals_ci (header_name h) n = true.

#[export] Instance named_dec n h : Decision (named n h).
Proof. unfold named. apply _. Defined.

Record headers_inv (st : parse_state) : Prop := {
  hi_upgrade : has_upgrade st = true -> exists h, h ∈ up_headers (ps_upgrade st) /\
    named (str "Upgrade") h /\
    websocket_http_header_contains_token (header_value h) (str "websocket") = true;
  hi_connection : has_connection st = true -> exists h, h ∈ up_headers (ps_upgrade st) /\
    named (str "Connection") h /\
    websocket_http_header_contains_token (header_value h) (str "upgrade") = true;
  hi_version : has_version st = true -> exists h, h ∈ up_headers (ps_upgrade st) /\
    named (str "Sec-WebSocket-Version") h /\
    websocket_http_equals_ci (header_value h) (str "13") = true;
  hi_key : match up_accept_key (ps_upgrade st) with
    | None => filter (named (str "Sec-WebSocket-Key")) (up_headers (ps_upgrade st)) = []
    | Some k => exists h,
        filter (named (str "Sec-WebSocket-Key")) (up_headers (ps_upgrade st)) = [h] /\
        validate_key (header_value h) = Some k
    end;
  hi_protocol : forall s, up_selected_subprotocol (ps_upgrade st) = Some s ->
    s ∈ default [] supported /\ exists h, h ∈ up_headers (ps_upgrade st) /\
    named (str "Sec-WebSocket-Protocol") h /\ s ∈ offered_tokens (header_value h);
  hi_tokens : forall h, h ∈ up_headers (ps_upgrade st) -> named (str "Sec-WebSocket-Protocol") h ->
    Forall (fun t => websocket_http_validate_subprotocol_token t = true) (offered_tokens (header_value h));
  hi_capacity : zlen (up_headers (ps_upgrade st)) <= up_header_capacity (ps_upgrade st)
}.

Lemma named_excl a b h : named a h -> named b h -> zlen a = zlen b.
Proof. unfold named. intros Ha%equals_ci_len Hb%equals_ci_len. congruence. Qed.

Lemma filter_snoc_not (P : websocket_http_header -> Prop) `{!forall h, Decision (P h)} l h :
  ~ P h -> filter P (l ++ [h]) = filter P l.
Proof. intros HP. rewrite filter_app, filter_cons_False by done. apply app_nil_r. Qed.

Lemma filter_snoc (P : websocket_http_header -> Prop) `{!forall h, Decision (P h)} l h :
  P h -> filter P (l ++ [h]) = filter P l ++ [h].
Proof. intros HP. by rewrite filter_app, filter_cons_True. Qed.

Lemma snoc_old {A} (P : A -> Prop) (l : list A) x :
  (exists y, y ∈ l /\ P y) -> exists y, y ∈ l ++ [x] /\ P y.
Proof. intros (y & ? & ?). exists y. split; [set_solver|done]. Qed.

Lemma snoc_new {A} (P : A -> Prop) (l : list A) x : P x -> exists y, y ∈ l ++ [x] /\ P y.
Proof. intros. exists x. split; [set_solver|done]. Qed.

Lemma header_eta h : mk_header (header_name h) (header_value h) = h.
Proof. by destruct h. Qed.

Lemma append_capacity up n v :
  zlen (up_headers up) <= up_header_capacity up ->
  zlen (up_headers (websocket_http_append_header up n v))
  <= up_header_capacity (websocket_http_append_header up n v).
Proof.
  cbn. rewrite zlen_app, zlen_cons, zlen_nil. pose proof (zlen_nonneg (up_headers up)).
  destruct (Z.eqb_spec (zlen (up_headers up)) (up_header_capacity up)); [case_match; lia|lia].
Qed.

Lemma named_excl_not a b h : named a h -> zlen a <> zlen b -> ~ named b h.
Proof. intros Ha Hne Hb. by apply Hne, (named_excl _ _ h). Qed.

(** The clauses of the invariant about headers a new line does not touch. *)
Section AppendHeader.
Context (st : parse_state) (h : websocket_http_header) (Hinv : headers_inv st).
Local Abbreviation hs := (up_headers (ps_upgrade st)).

Lemma append_key_other :
  ~ named (str "Sec-WebSocket-Key") h ->
  match up_accept_key (ps_upgrade st) with
  | None => filter (named (str "Sec-WebSocket-Key")) (hs ++ [h]) = []
  | Some k => exists h0, filter (named (str "Sec-WebSocket-Key")) (hs ++ [h]) = [h0] /\
      validate_key (header_value h0) = Some k
  end.
Proof. intros Hn. rewrite filter_snoc_not by done. exact (hi_key _ Hinv). Qed.

Lemma append_protocol_old s :
  up_selected_subprotocol (ps_upgrade st) = Some s ->
  s ∈ default [] supported /\ exists h0, h0 ∈ hs ++ [h] /\
    named (str "Sec-WebSocket-Protocol") h0 /\ s ∈ offered_tokens (header_value h0).
Proof. intros Hs. destruct (hi_protocol _ Hinv s Hs). eauto using snoc_old. Qed.

Lemma append_tokens :
  (named (str "Sec-WebSocket-Protocol") h ->
   Forall (fun t => websocket_http_validate_subprotocol_token t = true)
     (offered_tokens (header_value h))) ->
  forall h0, h0 ∈ hs ++ [h] -> named (str "Sec-WebSocket-Protocol") h0 ->
    Forall (fun t => websocket_http_validate_subprotocol_token t = true)
      (offered_tokens (header_value h0)).
Proof.
  intros Hn h0 [Hin|Hin]%elem_of_app Hh0; [by apply (hi_tokens _ Hinv)|].
  apply list_elem_of_singleton in Hin. subst h0. auto.
Qed.
End AppendHeader.

(** Discharge the clauses a line named [N] does not touch. *)
Ltac untouched :=
  first
    [ assumption
    | by apply append_key_other; [|(assumption || (eapply named_excl_not; [eassumption|done]))]
    | by apply append_protocol_old
    | apply append_tokens; [done|]; intros ?;
        by match goal with
        | H1 : named ?a ?h, H2 : named ?b ?h |- _ =>
            pose proof (named_excl _ _ _ H1 H2) as Hexcl; vm_compute in Hexcl
        | H1 : ~ ?P, H2 : ?P |- _ => destruct (H1 H2)
        end
    | by eauto using snoc_old, snoc_new, hi_upgrade, hi_connection, hi_version ].

Lemma take_header_inv h st st' :
  headers_inv st -> take_header h st = (st', true) -> headers_inv st'.
Proof.
  intros Hinv. pose proof (append_capacity _ (header_name h) (header_value h) (hi_capacity _ Hinv)) as Hcap.
  unfold take_header, apply_header.
  cbn [ps_upgrade has_upgrade has_connection has_version websocket_http_append_header
       up_accept_key up_selected_subprotocol up_headers up_header_capacity] in *.
  unfold websocket_http_append_header. rewrite header_eta in Hcap |- *.
  destruct (websocket_http_equals_ci (header_name h) (str "Upgrade")) eqn:E1;
    [change (named (str "Upgrade") h) in E1; intros [= <-]; constructor; cbn; untouched|].
  destruct (websocket_http_equals_ci (header_name h) (str "Connection")) eqn:E2;
    [change (named (str "Connection") h) in E2; intros [= <-]; constructor; cbn; untouched|].
  destruct (websocket_http_equals_ci (header_name h) (str "Sec-WebSocket-Version")) eqn:E3;
    [change (named (str "Sec-WebSocket-Version") h) in E3; intros [= <-]; constructor; cbn; untouched|].
  destruct (websocket_http_equals_ci (header_name h) (str "Sec-WebSocket-Key")) eqn:E4.
  { change (named (str "Sec-WebSocket-Key") h) in E4. pose proof (hi_key _ Hinv) as IK.
    destruct (up_accept_key (ps_upgrade st)); [done|].
    destruct (validate_key _) as [k|] eqn:Ek; [|done]. intros [= <-].
    constructor; cbn; try untouched.
    exists h. split; [|done]. rewrite filter_snoc by done. exact (f_equal (fun l => l ++ [h]) IK). }
  assert (NK : ~ named (str "Sec-WebSocket-Key") h) by (unfold named; congruence).
  destruct (websocket_http_equals_ci (header_name h) (str "Sec-WebSocket-Protocol")) eqn:E5.
  { change (named (str "Sec-WebSocket-Protocol") h) in E5.
    pose proof (select_subprotocol_split (header_value h) supported (up_selected_subprotocol (ps_upgrade st))) as S.
    destruct (websocket_http_select_subprotocol _ _ _) as [ok sel]. intros [= <- ->].
    destruct S as [Hok Hsel]. specialize (Hsel eq_refl).
    constructor; cbn; try untouched.
    - intros s ->. destruct (up_selected_subprotocol (ps_upgrade st)) as [s0|] eqn:Es.
      + simplify_eq. by apply append_protocol_old.
      + symmetry in Hsel. apply first_supported_Some in Hsel as [? ?]. eauto using snoc_new.
    - apply append_tokens; [done|]. intros _. symmetry in Hok. rewrite forallb_forall in Hok.
      apply Forall_forall. intros t Ht. apply Hok. by apply list_elem_of_In. }
  assert (NP : ~ named (str "Sec-WebSocket-Protocol") h) by (unfold named; congruence).
  intros [= <-]. constructor; cbn; untouched.
Qed.

Lemma take_headers_inv hs st st' :
  headers_inv st -> take_headers hs st = (st', true) -> headers_inv st'.
Proof.
  revert st. induction hs as [|h hs IH]; intros st Hst; cbn [take_headers].
  - by intros [= <-].
  - destruct (take_header h st) as [st1 ok] eqn:E. destruct ok; [|done].
    apply IH. by apply (take_header_inv h st).
Qed.

Lemma take_headers_consumed hs st st' ok :
  take_headers hs st = (st', ok) -> up_bytes_consumed (ps_upgrade st') = up_bytes_consumed (ps_upgrade st).
Proof.
  revert st. induction hs as [|h hs IH]; intros st; cbn [take_headers]; [by intros [= <- <-]|].
  assert (Hc : up_bytes_consumed (ps_upgrade (take_header h st).1) = up_bytes_consumed (ps_upgrade st)).
  { unfold take_header, apply_header. destruct (websocket_http_select_subprotocol _ _ _).
    repeat case_match; done. }
  destruct (take_header h st) as [st1 ok1]. cbn in Hc.
  destruct ok1; [|by intros [= <- <-]]. intros H. rewrite (IH _ H). done.
Qed.

(** The facts an accepted request establishes. *)
Lemma parse_upgrade_inv buffer up :
  parse buffer = (UPGRADE_OK, up) ->
  zlen buffer <= WEBSOCKET_HTTP_MAX_REQUEST_SIZE /\
  (exists header_end, websocket_http_find_header_end buffer = Some header_end /\
     up_bytes_consumed up = header_end + 4) /\
  exists st, ps_upgrade st = up /\ headers_inv st /\ has_upgrade st = true /\
    has_connection st = true /\ has_version st = true /\ is_Some (up_accept_key up).
Proof.
  unfold websocket_http_parse_upgrade.
  destruct (Z.ltb_spec WEBSOCKET_HTTP_MAX_REQUEST_SIZE (zlen buffer)); [done|].
  destruct (websocket_http_find_header_end buffer) as [he|]; [|done].
  destruct (memchr CR _) as [rl|]; [|done]. destruct (_ || _); [done|].
  destruct (websocket_http_parse_request_line _) as [[m t]|]; [|done].
  destruct (loop _ _ _ _ _) as [st ok] eqn:El. destruct ok; cbn [negb]; [|done].
  apply parse_headers_loop_take in El as [hs Hhs].
  pose proof (take_headers_consumed _ _ _ _ Hhs) as Hc. cbn in Hc.
  apply take_headers_inv in Hhs as Hinv.
  - destruct (has_upgrade st) eqn:?, (has_connection st) eqn:?, (has_version st) eqn:?; try done.
    cbn [negb orb]. case_bool_decide; [|done]. intros [= <-].
    split; [done|]. split; [eauto|]. exists st. done.
  - constructor; cbn; try done; intros; set_solver.
Qed.
End ParserFacts.

(** ** Rendered requests *)

Definition no_cr (l : bytes) : Prop := Forall (fun b => b <> CR) l.

Definition render_header (h : websocket_http_header) : bytes :=
  header_name h ++ COLON :: SP :: header_value h.

Definition render_line (l : bytes) : bytes := l ++ crlf.

Definition request_line (target : bytes) : bytes :=
  str "GET" ++ SP :: target ++ SP :: str "HTTP/1.1".

(** The bytes of a GET request for [target] with the headers [hs]. *)
Definition render_request (target : bytes) (hs : list websocket_http_header) : bytes :=
  render_line (request_line target) ++ concat (map (fun h => render_line (render_header h)) hs) ++ crlf.

(** A header a client can send on one line: the name has no colon, neither part
    has a CR, and no white space surrounds them. *)
Definition header_ok (h : websocket_http_header) : Prop :=
  no_cr (header_name h) /\ no_cr (header_value h) /\
  Forall (fun b => b <> COLON) (header_name h) /\
  websocket_http_trim (header_name h) = header_name h /\
  websocket_http_trim (header_value h) = header_value h.

#[export] Instance header_ok_dec h : Decision (header_ok h).
Proof. unfold header_ok, no_cr. apply _. Defined.

Definition target_ok (t : bytes) : Prop :=
  t <> [] /\ no_cr t /\ Forall (fun b => b <> SP) t.

#[export] Instance target_ok_dec t : Decision (target_ok t).
Proof. unfold target_ok, no_cr. apply _. Defined.

Lemma find_from_skip a l i : a <> CR -> find_header_end_from (a :: l) i = find_header_end_from l (i + 1).
Proof.
  intros Ha. cbn [find_header_end_from]. apply Z.eqb_neq in Ha as ->. cbn [andb].
  by destruct l as [|b [|c [|d l]]].
Qed.

Lemma find_from_text t l i : no_cr t ->
  find_header_end_from (t ++ l) i = find_header_end_from l (i + zlen t).
Proof.
  revert i. induction t as [|a t IH]; intros i; cbn [app].
  - intros _. rewrite zlen_nil. f_equal. lia.
  - intros [Ha Ht]%Forall_cons. rewrite find_from_skip, IH by done. f_equal. rewrite zlen_cons. lia.
Qed.

(** A line end that no line end follows is not the end of the block. *)
Lemma find_from_crlf b l i : b <> CR ->
  find_header_end_from (crlf ++ b :: l) i = find_header_end_from (b :: l) (i + 2).
Proof.
  intros Hb. unfold crlf. cbn [app].
  transitivity (find_header_end_from (LF :: b :: l) (i + 1)).
  - cbn [find_header_end_from]. apply Z.eqb_neq in Hb as ->.
    destruct l as [|c l]; [done|]. by rewrite Z.eqb_refl.
  - rewrite find_from_skip by done. f_equal. lia.
Qed.

Definition text_line (l : bytes) : Prop := no_cr l /\ l <> [].

Lemma find_from_lines t ls rest i :
  no_cr t -> Forall text_line ls ->
  find_header_end_from (render_line t ++ concat (map render_line ls) ++ crlf ++ rest) i
  = Some (i + zlen (render_line t) + zlen (concat (map render_line ls)) - 2).
Proof.
  intros Ht Hls. unfold render_line at 1. rewrite <- app_assoc, find_from_text by done.
  revert t i Ht. induction ls as [|l ls IH]; intros t i Ht.
  - cbn. f_equal. unfold render_line, crlf. zlia.
  - apply Forall_cons in Hls as [[Hl Hne] Hls]. destruct l as [|b l]; [done|].
    cbn [map concat]. unfold render_line at 1. rewrite <- !app_assoc. cbn [app].
    rewrite find_from_crlf by by inversion Hl.
    change (b :: l ++ ?x) with ((b :: l) ++ x). rewrite find_from_text by done.
    unfold render_line in IH |- * . rewrite (IH Hls (b :: l)) by done. f_equal.
    unfold crlf. cbn [app]. zlia.
Qed.

Lemma render_header_text h : header_ok h -> text_line (render_header h).
Proof.
  intros (Hn & Hv & _). split; [|unfold render_header; by destruct (header_name h)].
  apply Forall_app. split; [done|]. constructor; [done|]. by constructor.
Qed.

Lemma request_line_text t : target_ok t -> text_line (request_line t).
Proof.
  intros (_ & Ht & _). split; [|done]. unfold request_line, no_cr.
  repeat first [ apply Forall_app; split | apply Forall_cons; split ]; try done.
Qed.

Lemma parse_request_line_render t :
  target_ok t -> websocket_http_parse_request_line (request_line t) = Some (str "GET", t).
Proof.
  intros (Hne & _ & Hsp). unfold websocket_http_parse_request_line, request_line.
  rewrite (memchr_app_miss SP (str "GET")) by (apply (bool_decide_unpack _); by vm_compute).
  rewrite ztake_app_exact. change (zlen (str "GET") + 1) with 4.
  change (zdrop 4 (str "GET" ++ SP :: ?x)) with x. cbn [negb].
  change (websocket_http_equals_ci (str "GET") (str "GET")) with true. cbn [negb].
  rewrite memchr_app_miss by done. rewrite ztake_app_exact.
  destruct (Z.eqb_spec (zlen t) 0) as [H0|_]; [by apply zlen_0_inv in H0|].
  change (t ++ SP :: ?x) with (t ++ [SP] ++ x). rewrite app_assoc.
  replace (zlen t + 1) with (zlen (t ++ [SP])) by zlia.
  rewrite zdrop_app_exact. done.
Qed.

(** ** What a rendered request is parsed to *)

Section Rendered.
Context (sha1 base64_encode : bytes -> bytes) (base64_decode_ex : bytes -> option bytes).
Context (supported : option (list bytes)).

Local Abbreviation loop := (parse_headers_loop sha1 base64_encode base64_decode_ex supported).
Local Abbreviation parse := (websocket_http_parse_upgrade sha1 base64_encode base64_decode_ex supported).
Local Abbreviation validate_key := (websocket_http_validate_key sha1 base64_encode base64_decode_ex).
Local Abbreviation takes := (take_headers sha1 base64_encode base64_decode_ex supported).
Local Abbreviation take1 := (take_header sha1 base64_encode base64_decode_ex supported).

Lemma trim_skip_space l : websocket_http_trim (SP :: l) = websocket_http_trim l.
Proof. reflexivity. Qed.

(** One iteration on a rendered header line. *)
Lemma parse_headers_loop_line fuel pre h post header_end st :
  header_ok h -> zlen pre + zlen (render_header h) <= header_end ->
  loop (S fuel) (pre ++ render_line (render_header h) ++ post) header_end (zlen pre) st
  = let '(st, ok) := take1 h st in
    if ok then loop fuel (pre ++ render_line (render_header h) ++ post) header_end
                 (zlen (pre ++ render_line (render_header h))) st
    else (st, false).
Proof.
  intros Hok Hend. pose proof (render_header_text h Hok) as [Hcr Hne].
  destruct Hok as (_ & _ & Hcolon & Hn & Hv).
  assert (Hlen : 1 < zlen (render_header h)) by (unfold render_header; zlia).
  cbn [parse_headers_loop]. replace (zlen pre <? header_end) with true by lia. cbn [negb].
  rewrite zdrop_app_exact. unfold render_line. rewrite <- app_assoc.
  assert (Hslice : memchr CR (ztake (header_end - zlen pre + 1) (render_header h ++ crlf ++ post))
    = Some (zlen (render_header h))).
  { apply memchr_ztake; [|lia]. by apply memchr_app_miss. }
  rewrite Hslice. rewrite ztake_app_exact.
  rewrite zlen_app, (zlen_app (render_header h)), (zlen_app crlf). change (zlen crlf) with 2.
  pose proof (zlen_nonneg post).
  replace (zlen pre + (zlen (render_header h) + (2 + zlen post)) <=? zlen pre + zlen (render_header h) + 1)
    with false by lia.
  rewrite zget_app_r, zget_app_r by lia.
  replace (zlen pre + zlen (render_header h) + 1 - zlen pre - zlen (render_header h)) with 1 by lia.
  change (zget (crlf ++ post) 1 =? LF) with true. cbn [orb negb].
  replace (zlen (render_header h) =? 0) with false by lia.
  assert (Hc : memchr COLON (render_header h) = Some (zlen (header_name h))) by by apply memchr_app_miss.
  rewrite Hc.
  assert (Hname : ztake (zlen (header_name h)) (render_header h) = header_name h) by apply ztake_app_exact.
  assert (Hval : zdrop (zlen (header_name h) + 1) (render_header h) = SP :: header_value h).
  { unfold render_header. change (header_name h ++ COLON :: ?x) with (header_name h ++ [COLON] ++ x).
    rewrite app_assoc. replace (zlen (header_name h) + 1) with (zlen (header_name h ++ [COLON])) by zlia.
    apply zdrop_app_exact. }
  rewrite Hname, Hval, trim_skip_space, Hn, Hv. unfold take_header.
  destruct (apply_header _ _ _ _ _ _ _) as [st' ok]. destruct ok; cbn [negb]; [|done].
  f_equal. rewrite !zlen_app. change (zlen crlf) with 2. lia.
Qed.

Lemma parse_headers_loop_render fuel hs pre post st :
  Forall header_ok hs -> (length hs < fuel)%nat ->
  let lines := concat (map (fun h => render_line (render_header h)) hs) in
  loop fuel (pre ++ lines ++ post) (zlen pre + zlen lines - 2) (zlen pre) st
  = takes hs st.
Proof.
  revert pre fuel st. induction hs as [|h hs IH]; intros pre fuel st Hhs Hf lines;
    (destruct fuel as [|fuel]; [lia|]).
  - subst lines. cbn [map concat]. rewrite zlen_nil. cbn [parse_headers_loop].
    by replace (zlen pre <? zlen pre + 0 - 2) with false by lia.
  - apply Forall_cons in Hhs as [Hh Hhs]. subst lines. cbn [map concat take_headers].
    rewrite <- app_assoc, parse_headers_loop_line; [|done|].
    2:{ unfold render_line at 1. rewrite !zlen_app. change (zlen crlf) with 2. zlia. }
    destruct (take1 h st) as [st1 ok]. destruct ok; [|done].
    rewrite <- (IH (pre ++ render_line (render_header h)) fuel st1 Hhs) by (cbn in Hf; lia).
    cbv zeta. rewrite <- !app_assoc, !zlen_app. f_equal; lia.
Qed.

Lemma render_lines_length hs :
  (length hs <= length (concat (map (fun h => render_line (render_header h)) hs)))%nat.
Proof.
  induction hs as [|h hs IH]; cbn [map concat]; [done|].
  rewrite length_app. unfold render_line at 1. rewrite length_app. cbn. lia.
Qed.

(** The parser's verdict on the headers it has read. *)
Definition verdict (r : parse_state * bool) : websocket_http_upgrade_result :=
  let '(st, ok) := r in
  if ok && has_upgrade st && has_connection st && has_version st
     && bool_decide (is_Some (up_accept_key (ps_upgrade st)))
  then UPGRADE_OK else UPGRADE_INVALID.

Definition initial_state (target : bytes) (consumed : Z) : parse_state :=
  mk_parse (mk_upgrade (str "GET") target [] 0 None None consumed) false false false.

Lemma find_header_end_rendered target hs rest :
  target_ok target -> Forall header_ok hs ->
  let rl := render_line (request_line target) in
  let lines := concat (map (fun h => render_line (render_header h)) hs) in
  websocket_http_find_header_end (rl ++ lines ++ crlf ++ rest) = Some (zlen rl + zlen lines - 2).
Proof.
  intros Ht Hhs rl lines. pose proof (request_line_text target Ht) as [Hrl _].
  unfold websocket_http_find_header_end. rewrite !zlen_app. change (zlen crlf) with 2.
  replace (_ <? 4) with false by (subst rl; unfold render_line, request_line, crlf; zlia).
  subst rl lines.
  replace (map (fun h => render_line (render_header h)) hs)
    with (map render_line (map render_header hs)) by apply map_map.
  rewrite find_from_lines; [done|done|].
  apply Forall_map. eapply Forall_impl; [exact Hhs|]. exact render_header_text.
Qed.

Lemma parse_upgrade_rendered target hs rest :
  target_ok target -> Forall header_ok hs -> hs <> [] ->
  zlen (render_request target hs ++ rest) <= WEBSOCKET_HTTP_MAX_REQUEST_SIZE ->
  let r := takes hs (initial_state target (zlen (render_request target hs))) in
  parse (render_request target hs ++ rest) = (verdict r, ps_upgrade r.1).
Proof.
  intros Ht Hhs Hne Hlen r. pose proof (request_line_text target Ht) as [Hrl _].
  set (rl := render_line (request_line target)).
  set (lines := concat (map (fun h => render_line (render_header h)) hs)).
  assert (Hbuf : render_request target hs ++ rest = rl ++ lines ++ crlf ++ rest).
  { unfold render_request. subst rl lines. by rewrite <- !app_assoc. }
  assert (Hrllen : zlen rl = zlen (request_line target) + 2).
  { subst rl. unfold render_line. rewrite zlen_app. done. }
  assert (Hlines : 2 < zlen lines).
  { subst lines. destruct hs as [|h hs]; [done|]. cbn [map concat].
    unfold render_line, render_header, crlf. zlia. }
  unfold websocket_http_parse_upgrade.
  replace (WEBSOCKET_HTTP_MAX_REQUEST_SIZE <? _) with false by lia.
  rewrite Hbuf. unfold rl at 1 3, lines at 1 3. rewrite find_header_end_rendered by done. fold rl lines.
  rewrite (memchr_ztake CR _ _ (zlen (request_line target))); [|subst rl; unfold render_line|lia].
  2:{ rewrite <- app_assoc. by apply memchr_app_miss. }
  assert (Hbyte : zget (rl ++ lines ++ crlf ++ rest) (zlen (request_line target) + 1) = LF).
  { subst rl. unfold render_line. rewrite <- app_assoc, zget_app_r by lia.
    by replace (_ - _) with 1 by lia. }
  rewrite Hbyte, !zlen_app, Z.eqb_refl. change (zlen crlf) with 2. cbn [negb].
  replace (_ <=? _) with false by zlia. cbn [orb].
  assert (Hfirst : ztake (zlen (request_line target)) (rl ++ lines ++ crlf ++ rest) = request_line target).
  { subst rl. unfold render_line. rewrite <- app_assoc. apply ztake_app_exact. }
  rewrite Hfirst, parse_request_line_render by done.
  replace (zlen (request_line target) + 2) with (zlen rl) by done.
  subst lines. rewrite parse_headers_loop_render; [|done|].
  2:{ rewrite !length_app. pose proof (render_lines_length hs). lia. }
  replace (mk_parse _ false false false) with (initial_state target (zlen (render_request target hs))).
  2:{ unfold initial_state, render_request. fold rl. rewrite !zlen_app. change (zlen crlf) with 2.
      do 2 f_equal. lia. }
  fold r. destruct r as [st ok]. unfold verdict. destruct ok; [|done]. cbn [negb andb fst].
  by destruct (has_upgrade st), (has_connection st), (has_version st), (bool_decide _).
Qed.

Lemma parse_upgrade_no_headers target rest :
  target_ok target ->
  zlen (render_request target [] ++ rest) <= WEBSOCKET_HTTP_MAX_REQUEST_SIZE ->
  (parse (render_request target [] ++ rest)).1 = UPGRADE_INVALID.
Proof.
  intros Ht Hlen. pose proof (request_line_text target Ht) as [Hrl _].
  assert (Hbuf : render_request target [] ++ rest = render_line (request_line target) ++ [] ++ crlf ++ rest).
  { unfold render_request. by rewrite <- !app_assoc. }
  unfold websocket_http_parse_upgrade.
  replace (WEBSOCKET_HTTP_MAX_REQUEST_SIZE <? _) with false by lia.
  rewrite Hbuf.
  pose proof (find_header_end_rendered target [] rest Ht (Forall_nil_2 _)) as Hend.
  cbn [map concat] in Hend. rewrite Hend, zlen_nil. cbn [app]. unfold render_line. rewrite zlen_app, <- app_assoc.
  change (zlen crlf) with 2. replace (zlen (request_line target) + 2 + 0 - 2)
    with (zlen (request_line target)) by lia.
  rewrite ztake_app_exact. by rewrite (proj2 (memchr_None CR _) Hrl).
Qed.

(** *** The acceptance rule *)

(** The last header line with the name [n]: the one whose value counts. *)
Definition last_named (n : bytes) (hs : list websocket_http_header) : option websocket_http_header :=
  last (filter (named n) hs).

Definition last_value_is (n : bytes) (f : bytes -> bool) (hs : list websocket_http_header) : bool :=
  match last_named n hs with
  | Some h => f (header_value h)
  | None => false
  end.

Definition is_protocol_offer (h : websocket_http_header) : bool :=
  forallb websocket_http_validate_subprotocol_token (offered_tokens (header_value h)).

(** What RFC 6455 asks of the headers, as this server checks it. *)
Definition acceptable (hs : list websocket_http_header) : bool :=
  last_value_is (str "Upgrade") (fun v => websocket_http_header_contains_token v (str "websocket")) hs
  && last_value_is (str "Connection") (fun v => websocket_http_header_contains_token v (str "upgrade")) hs
  && last_value_is (str "Sec-WebSocket-Version") (fun v => websocket_http_equals_ci v (str "13")) hs
  && match filter (named (str "Sec-WebSocket-Key")) hs with
     | [h] => bool_decide (is_Some (validate_key (header_value h)))
     | _ => false
     end
  && forallb is_protocol_offer (filter (named (str "Sec-WebSocket-Protocol")) hs).

(** The last value of a flag header, given the flag's value before. *)
Definition flag_from (d : bool) (n : bytes) (f : bytes -> bool) (hs : list websocket_http_header) : bool :=
  match last_named n hs with
  | Some h => f (header_value h)
  | None => d
  end.

Lemma flag_from_cons d n f h hs :
  flag_from d n f (h :: hs) = flag_from (if decide (named n h) then f (header_value h) else d) n f hs.
Proof.
  unfold flag_from, last_named. rewrite filter_cons. case_decide; [|done].
  rewrite last_cons. by destruct (last (filter (named n) hs)).
Qed.

Lemma if_named {A} a h (x y : A) :
  (if decide (named a h) then x else y) = if websocket_http_equals_ci (header_name h) a then x else y.
Proof.
  unfold named. destruct (decide _) as [->|N]; [done|]. by apply not_true_is_false in N as ->.
Qed.

Lemma equals_ci_excl n a b :
  websocket_http_equals_ci n a = true -> zlen a <> zlen b -> websocket_http_equals_ci n b = false.
Proof. intros Ha Hne. apply not_true_is_false. intros Hb. by apply Hne, (named_excl a b (mk_header n [])). Qed.

(** The effect of one header line, clause by clause. *)
Lemma take_header_effect h st st' ok :
  take1 h st = (st', ok) ->
  ok = (if decide (named (str "Sec-WebSocket-Key") h)
        then negb (bool_decide (is_Some (up_accept_key (ps_upgrade st))))
             && bool_decide (is_Some (validate_key (header_value h)))
        else true)
       && (if decide (named (str "Sec-WebSocket-Protocol") h) then is_protocol_offer h else true) /\
  (ok = true ->
   has_upgrade st' = (if decide (named (str "Upgrade") h)
                      then websocket_http_header_contains_token (header_value h) (str "websocket")
                      else has_upgrade st) /\
   has_connection st' = (if decide (named (str "Connection") h)
                      then websocket_http_header_contains_token (header_value h) (str "upgrade")
                      else has_connection st) /\
   has_version st' = (if decide (named (str "Sec-WebSocket-Version") h)
                      then websocket_http_equals_ci (header_value h) (str "13")
                      else has_version st) /\
   up_accept_key (ps_upgrade st') = (if decide (named (str "Sec-WebSocket-Key") h)
                      then validate_key (header_value h)
                      else up_accept_key (ps_upgrade st))).
Proof.
  unfold take_header, apply_header.
  cbn [ps_upgrade has_upgrade has_connection has_version].
  rewrite !if_named. set (nm := header_name h).
  assert (X : forall a b, websocket_http_equals_ci nm a = true -> zlen a <> zlen b ->
    websocket_http_equals_ci nm b = false) by (intros; by eapply equals_ci_excl).
  destruct (websocket_http_equals_ci nm (str "Upgrade")) eqn:E1.
  { rewrite !(X _ _ E1) by done. by intros [= <- <-]. }
  destruct (websocket_http_equals_ci nm (str "Connection")) eqn:E2.
  { rewrite !(X _ _ E2) by done. by intros [= <- <-]. }
  destruct (websocket_http_equals_ci nm (str "Sec-WebSocket-Version")) eqn:E3.
  { rewrite !(X _ _ E3) by done. by intros [= <- <-]. }
  destruct (websocket_http_equals_ci nm (str "Sec-WebSocket-Key")) eqn:E4.
  { rewrite !(X _ _ E4) by done. cbn [websocket_http_append_header up_accept_key].
    destruct (up_accept_key (ps_upgrade st)); [by intros [= <- <-]|].
    destruct (validate_key (header_value h)); by intros [= <- <-]. }
  destruct (websocket_http_equals_ci nm (str "Sec-WebSocket-Protocol")) eqn:E5; [|by intros [= <- <-]].
  pose proof (select_subprotocol_split (header_value h) supported (up_selected_subprotocol (ps_upgrade st))) as S.
  cbn [websocket_http_append_header up_selected_subprotocol].
  destruct (websocket_http_select_subprotocol _ _ _) as [ok' sel]. intros [= <- ->].
  by destruct S as [-> _].
Qed.

(** The key headers among [hs] are acceptable after the key [k] was accepted. *)
Definition keys_ok (k : option bytes) (hs : list websocket_http_header) : bool :=
  match k, filter (named (str "Sec-WebSocket-Key")) hs with
  | _, [] => true
  | None, [h] => bool_decide (is_Some (validate_key (header_value h)))
  | _, _ => false
  end.

Definition offers_ok (hs : list websocket_http_header) : bool :=
  forallb is_protocol_offer (filter (named (str "Sec-WebSocket-Protocol")) hs).

Lemma keys_ok_cons k h hs :
  keys_ok k (h :: hs)
  = if decide (named (str "Sec-WebSocket-Key") h)
    then negb (bool_decide (is_Some k)) && bool_decide (is_Some (validate_key (header_value h)))
         && keys_ok (validate_key (header_value h)) hs
    else keys_ok k hs.
Proof.
  unfold keys_ok. rewrite filter_cons. case_decide; [|done].
  destruct k, (filter (named (str "Sec-WebSocket-Key")) hs) as [|? []];
    destruct (validate_key (header_value h)) eqn:E; rewrite ?E; reflexivity.
Qed.

Lemma offers_ok_cons h hs :
  offers_ok (h :: hs)
  = (if decide (named (str "Sec-WebSocket-Protocol") h) then is_protocol_offer h else true) && offers_ok hs.
Proof. unfold offers_ok. rewrite filter_cons. by case_decide. Qed.

Lemma take_headers_effect hs st st' ok :
  takes hs st = (st', ok) ->
  ok = keys_ok (up_accept_key (ps_upgrade st)) hs && offers_ok hs /\
  (ok = true ->
   has_upgrade st' = flag_from (has_upgrade st) (str "Upgrade")
     (fun v => websocket_http_header_contains_token v (str "websocket")) hs /\
   has_connection st' = flag_from (has_connection st) (str "Connection")
     (fun v => websocket_http_header_contains_token v (str "upgrade")) hs /\
   has_version st' = flag_from (has_version st) (str "Sec-WebSocket-Version")
     (fun v => websocket_http_equals_ci v (str "13")) hs /\
   (is_Some (up_accept_key (ps_upgrade st')) <->
    is_Some (up_accept_key (ps_upgrade st)) \/ filter (named (str "Sec-WebSocket-Key")) hs <> [])).
Proof.
  revert st. induction hs as [|h hs IH]; intros st; cbn [take_headers].
  { intros [= <- <-]. split; [by unfold keys_ok; case_match|]. intros _.
    split_and!; try done. split; [auto|]. by intros [?|?]. }
  destruct (take1 h st) as [st1 ok1] eqn:E1.
  apply take_header_effect in E1 as [Hok1 He1].
  rewrite !flag_from_cons, keys_ok_cons, offers_ok_cons, filter_cons.
  destruct ok1.
  - symmetry in Hok1. apply andb_true_iff in Hok1 as [Hk ->].
    destruct (He1 eq_refl) as (Hu & Hc & Hv & Hkey). intros H.
    destruct (IH _ H) as [Hok He]. rewrite Hkey in Hok, He. rewrite Hu, Hc, Hv in He. split.
    + rewrite Hok. destruct (decide (named (str "Sec-WebSocket-Key") h)); [|done]. by rewrite Hk.
    + intros Htrue. destruct (He Htrue) as (-> & -> & -> & Hacc). split_and!; try done.
      rewrite Hacc. destruct (decide (named (str "Sec-WebSocket-Key") h)); [|done]. apply andb_true_iff in Hk as [_ Hk].
      apply bool_decide_eq_true in Hk. split; [by right|by left].
  - intros [= <- <-]. split; [|done]. symmetry in Hok1 |- *.
    apply andb_false_iff in Hok1 as [Hk|Hp].
    + destruct (decide (named (str "Sec-WebSocket-Key") h)); [|done]. by rewrite Hk.
    + by rewrite Hp, andb_false_r.
Qed.

Lemma verdict_acceptable target n hs :
  verdict (takes hs (initial_state target n)) = if acceptable hs then UPGRADE_OK else UPGRADE_INVALID.
Proof.
  destruct (takes hs _) as [st ok] eqn:E. apply take_headers_effect in E as [Hok He].
  unfold verdict, acceptable, last_value_is. fold (offers_ok hs).
  cbn [initial_state ps_upgrade up_accept_key has_upgrade has_connection has_version] in *.
  unfold keys_ok in Hok. destruct ok.
  - destruct (He eq_refl) as (-> & -> & -> & Hacc). symmetry in Hok. apply andb_true_iff in Hok as [Hk ->].
    unfold flag_from. rewrite !andb_true_r, (bool_decide_ext _ _ Hacc).
    destruct (filter (named (str "Sec-WebSocket-Key")) hs) as [|h []]; [|by rewrite Hk|done].
    rewrite bool_decide_false by (intros [[? ?]|?]; done). by rewrite !andb_false_r.
  - cbn [andb]. destruct (filter (named (str "Sec-WebSocket-Key")) hs) as [|h []]; cbn in Hok |- *;
      rewrite <- ?Hok, <- ?andb_assoc, <- ?Hok, ?andb_false_r; done.
Qed.

(** The tokens all the [Sec-WebSocket-Protocol] lines offer, in order. *)
Definition offers (hs : list websocket_http_header) : list bytes :=
  concat (map (fun h => offered_tokens (header_value h)) (filter (named (str "Sec-WebSocket-Protocol")) hs)).

Lemma first_supported_app keys a b :
  first_supported keys (a ++ b)
  = match first_supported keys a with Some s => Some s | None => first_supported keys b end.
Proof. induction a as [|x a IH]; cbn; [done|]. by case_decide. Qed.

(** A line that leaves the request's record alone. *)
Ltac same_record := split_and!; try done; by case_match.

Lemma take_header_record h st st' :
  take1 h st = (st', true) ->
  let up := ps_upgrade st in let up' := ps_upgrade st' in
  up_method up' = up_method up /\ up_target up' = up_target up /\
  up_bytes_consumed up' = up_bytes_consumed up /\
  up_headers up' = up_headers up ++ [h] /\
  up_selected_subprotocol up' =
    match up_selected_subprotocol up with
    | Some s => Some s
    | None => first_supported (default [] supported)
        (if decide (named (str "Sec-WebSocket-Protocol") h) then offered_tokens (header_value h) else [])
    end.
Proof.
  unfold take_header, apply_header. rewrite if_named.
  cbn [ps_upgrade has_upgrade has_connection has_version].
  set (nm := header_name h).
  assert (X : forall a, websocket_http_equals_ci nm a = true ->
    zlen a <> zlen (str "Sec-WebSocket-Protocol") ->
    websocket_http_equals_ci nm (str "Sec-WebSocket-Protocol") = false)
    by (intros; by eapply equals_ci_excl).
  assert (Heta := header_eta h). fold nm in Heta.
  destruct (websocket_http_equals_ci nm (str "Upgrade")) eqn:E1.
  { rewrite (X _ E1) by done. intros [= <-]. cbn. rewrite Heta. same_record. }
  destruct (websocket_http_equals_ci nm (str "Connection")) eqn:E2.
  { rewrite (X _ E2) by done. intros [= <-]. cbn. rewrite Heta. same_record. }
  destruct (websocket_http_equals_ci nm (str "Sec-WebSocket-Version")) eqn:E3.
  { rewrite (X _ E3) by done. intros [= <-]. cbn. rewrite Heta. same_record. }
  destruct (websocket_http_equals_ci nm (str "Sec-WebSocket-Key")) eqn:E4.
  { rewrite (X _ E4) by done. cbn [websocket_http_append_header up_accept_key].
    destruct (up_accept_key (ps_upgrade st)); [done|].
    destruct (validate_key (header_value h)); [|done]. intros [= <-]. cbn. rewrite Heta. same_record. }
  destruct (websocket_http_equals_ci nm (str "Sec-WebSocket-Protocol")) eqn:E5.
  2:{ intros [= <-]. cbn. rewrite Heta. same_record. }
  pose proof (select_subprotocol_split (header_value h) supported (up_selected_subprotocol (ps_upgrade st))) as S.
  cbn [websocket_http_append_header up_selected_subprotocol].
  destruct (websocket_http_select_subprotocol _ _ _) as [ok' sel]. intros [= <- ->].
  destruct S as [_ S]. rewrite (S eq_refl). cbn. rewrite Heta. same_record.
Qed.

Lemma take_headers_record hs st st' :
  takes hs st = (st', true) ->
  let up := ps_upgrade st in let up' := ps_upgrade st' in
  up_method up' = up_method up /\ up_target up' = up_target up /\
  up_bytes_consumed up' = up_bytes_consumed up /\
  up_headers up' = up_headers up ++ hs /\
  up_selected_subprotocol up' =
    match up_selected_subprotocol up with
    | Some s => Some s
    | None => first_supported (default [] supported) (offers hs)
    end.
Proof.
  revert st. induction hs as [|h hs IH]; intros st; cbn [take_headers].
  { intros [= <-]. rewrite app_nil_r. split_and!; try done. by case_match. }
  destruct (take1 h st) as [st1 ok1] eqn:E1. destruct ok1; [|done].
  intros H. apply IH in H as (-> & -> & -> & -> & ->).
  apply take_header_record in E1 as (-> & -> & -> & -> & ->). rewrite <- app_assoc.
  split_and!; try done. destruct (up_selected_subprotocol (ps_upgrade st)); [done|].
  unfold offers. rewrite filter_cons. case_decide; [|done].
  cbn [map concat]. by rewrite first_supported_app.
Qed.
End Rendered.

(** ** Properties *)

Section Spec.
Context (sha1 base64_encode : bytes -> bytes) (base64_decode_ex : bytes -> option bytes).
Context (supported : option (list bytes)).

(** C17. The parser's verdict on every well-formed GET request, whatever bytes follow
    it: it is accepted exactly when the last [Upgrade] value lists "websocket",
    the last [Connection] value lists "upgrade", the last version is 13, there is
    exactly one key and it decodes to 16 bytes, and every offered subprotocol is
    a token; and an accepted request's target, headers, size and chosen
    subprotocol (the first offered one the server supports) are the client's. *)
Theorem parse_upgrade_render target hs rest :
  target_ok target -> Forall header_ok hs ->
  zlen (render_request target hs ++ rest) <= WEBSOCKET_HTTP_MAX_REQUEST_SIZE ->
  let '(r, up) := websocket_http_parse_upgrade sha1 base64_encode base64_decode_ex supported
                    (render_request target hs ++ rest) in
  r = (if acceptable sha1 base64_encode base64_decode_ex hs then UPGRADE_OK else UPGRADE_INVALID) /\
  (r = UPGRADE_OK ->
   up_method up = str "GET" /\ up_target up = target /\ up_headers up = hs /\
   up_bytes_consumed up = zlen (render_request target hs) /\
   up_selected_subprotocol up = first_supported (default [] supported) (offers hs)).
Proof.
  intros Ht Hhs Hlen. destruct (decide (hs = [])) as [->|Hne].
  - pose proof (parse_upgrade_no_headers sha1 base64_encode base64_decode_ex supported target rest Ht Hlen) as E.
    destruct (websocket_http_parse_upgrade _ _ _ _ _) as [r up]. cbn in E. subst r. done.
  - rewrite parse_upgrade_rendered by done. cbv beta zeta iota. split; [apply verdict_acceptable|].
    destruct (take_headers _ _ _ _ _ _) as [st ok] eqn:E. destruct ok; [|done]. intros _.
    apply take_headers_record in E as (? & ? & ? & ? & ?). done.
Qed.

(** C25. The verdict does not depend on how the request is cut into reads: once the
    parser answers, the answer (and the request it stored) is the same whatever
    more bytes arrive, up to the size limit. *)
Theorem parse_upgrade_segmentation buffer rest r up :
  websocket_http_parse_upgrade sha1 base64_encode base64_decode_ex supported buffer = (r, up) ->
  r <> UPGRADE_INCOMPLETE ->
  zlen (buffer ++ rest) <= WEBSOCKET_HTTP_MAX_REQUEST_SIZE ->
  websocket_http_parse_upgrade sha1 base64_encode base64_decode_ex supported (buffer ++ rest) = (r, up).
Proof. apply parse_upgrade_app. Qed.

(** C9. Soundness on arbitrary bytes: an accepted buffer is within the size limit and
    consumed to its first empty line; it carries [Upgrade], [Connection] and
    version headers with the required values and exactly one key header, whose
    decoded 16 bytes give the accept key; a selected subprotocol was both
    offered and supported; every offered token is well formed; and the header
    array never outgrew its capacity. *)
Theorem parse_upgrade_sound buffer up :
  websocket_http_parse_upgrade sha1 base64_encode base64_decode_ex supported buffer = (UPGRADE_OK, up) ->
  zlen buffer <= WEBSOCKET_HTTP_MAX_REQUEST_SIZE /\
  (exists header_end, websocket_http_find_header_end buffer = Some header_end /\
     up_bytes_consumed up = header_end + 4 /\ up_bytes_consumed up <= zlen buffer) /\
  (exists h, h ∈ up_headers up /\ named (str "Upgrade") h /\
     websocket_http_header_contains_token (header_value h) (str "websocket") = true) /\
  (exists h, h ∈ up_headers up /\ named (str "Connection") h /\
     websocket_http_header_contains_token (header_value h) (str "upgrade") = true) /\
  (exists h, h ∈ up_headers up /\ named (str "Sec-WebSocket-Version") h /\
     websocket_http_equals_ci (header_value h) (str "13") = true) /\
  (exists h decoded, filter (named (str "Sec-WebSocket-Key")) (up_headers up) = [h] /\
     base64_decode_ex (header_value h) = Some decoded /\ zlen decoded = 16 /\
     up_accept_key up = Some (websocket_protocol_accept_key sha1 base64_encode (header_value h))) /\
  (forall s, up_selected_subprotocol up = Some s ->
     s ∈ default [] supported /\ exists h, h ∈ up_headers up /\
     named (str "Sec-WebSocket-Protocol") h /\ s ∈ offered_tokens (header_value h)) /\
  (forall h t, h ∈ up_headers up -> named (str "Sec-WebSocket-Protocol") h ->
     t ∈ offered_tokens (header_value h) -> websocket_http_validate_subprotocol_token t = true) /\
  zlen (up_headers up) <= up_header_capacity up.
Proof.
  intros H. apply parse_upgrade_inv in H as (Hlen & (he & Hhe & Hc) & st & <- & [IU IC IV IK IP IT ICap] & Hu & Hcn & Hv & Hk).
  split_and!; auto.
  - exists he. pose proof (find_header_end_bound _ _ Hhe). rewrite Hc. split_and!; [done|done|lia].
  - destruct Hk as [k Hk]. rewrite Hk in IK |- *. destruct IK as (h & Hh & Hval).
    unfold websocket_http_validate_key in Hval.
    destruct (base64_decode_ex (header_value h)) as [d|] eqn:Ed; [|done].
    destruct (Z.eqb_spec (zlen d) 16); [|done]. exists h, d. cbn in Hval. by simplify_eq.
  - intros h t Hh Hn Ht. exact (proj1 (Forall_forall _ _) (IT h Hh Hn) t Ht).
Qed.
End Spec.

(** C35. The comma-separated list scan of a header value: some element, trimmed, is
    the token (ASCII case ignored). *)
Theorem header_contains_token_spec value token :
  websocket_http_header_contains_token value token
  = existsb (fun p => websocket_http_equals_ci (websocket_http_trim p) token) (split_comma value).
Proof. apply contains_token_split. Qed.

(** C36. Subprotocol selection: one header value is accepted exactly when every
    offered element is a token; then an earlier selection is kept, else the
    first offered token the server supports is selected. *)
Theorem select_subprotocol_spec value supported selected :
  let '(ok, sel) := websocket_http_select_subprotocol value supported selected in
  ok = forallb websocket_http_validate_subprotocol_token (offered_tokens value) /\
  (ok = true -> sel = match selected with
                      | Some s => Some s
                      | None => first_supported (default [] supported) (offered_tokens value)
                      end).
Proof. apply select_subprotocol_split. Qed.

(** ** The request's header map *)

Definition no_nul (l : bytes) : Prop := Forall (fun b => b <> 0) l.

Lemma cstr_no_nul l : no_nul l -> cstr l = l.
Proof.
  induction 1 as [|b l Hb _ IH]; cbn [cstr]; [done|].
  apply Z.eqb_neq in Hb as ->. by rewrite IH.
Qed.

Lemma array_find_update k v a k' :
  array_find k' (array_update k v a) = if decide (k' = k) then Some v else array_find k' a.
Proof.
  induction a as [|[k0 v0] a IH]; cbn [array_update array_find]; [done|].
  destruct (decide (k = k0)) as [->|Hk]; cbn [array_find].
  - by repeat case_decide.
  - rewrite IH. destruct (decide (k' = k0)) as [->|]; [|done].
    destruct (decide (k0 = k)); [congruence|done].
Qed.

(** The values of the headers called [name], ignoring ASCII case. *)
Definition values_of (name : bytes) (hs : list websocket_http_header) : list bytes :=
  map header_value
    (filter (fun h => zend_string_tolower (header_name h) = zend_string_tolower name) hs).

(** ", "-separated. *)
Definition join_values (vs : list bytes) : option bytes :=
  match vs with
  | [] => None
  | v :: vs => Some (v ++ concat (map (fun w => str ", " ++ w) vs))
  end.

Lemma join_values_snoc vs w :
  join_values (vs ++ [w])
  = Some (match join_values vs with Some v => v ++ str ", " ++ w | None => w end).
Proof.
  destruct vs as [|v vs]; cbn [app join_values].
  - cbn [map concat]. by rewrite app_nil_r.
  - rewrite map_app, concat_app. cbn [map concat]. by rewrite app_nil_r, app_assoc.
Qed.

Lemma join_values_no_nul vs v : Forall no_nul vs -> join_values vs = Some v -> no_nul v.
Proof.
  destruct vs as [|w vs]; [done|]. intros [Hw Hvs]%Forall_cons [= <-].
  apply Forall_app. split; [done|]. induction Hvs as [|x vs Hx Hvs IH]; [constructor|].
  cbn [map concat]. apply Forall_app. split; [|done]. by do 2 (constructor; [done|]).
Qed.

Lemma request_headers_find hs name :
  Forall (fun h => no_nul (header_value h)) hs ->
  array_find (zend_string_tolower name) (fold_left request_headers_step hs [])
  = join_values (values_of name hs).
Proof.
  induction hs as [|h hs IH] using rev_ind; [done|].
  intros [Hhs Hh]%Forall_app. rewrite Forall_singleton in Hh. specialize (IH Hhs).
  rewrite fold_left_app. cbn [fold_left]. unfold request_headers_step at 1.
  unfold values_of. rewrite filter_app, map_app. fold (values_of name hs).
  destruct (decide (zend_string_tolower (header_name h) = zend_string_tolower name)) as [E|E].
  - rewrite filter_cons_True, filter_nil by done. cbn [map]. rewrite E, IH, join_values_snoc.
    destruct (join_values (values_of name hs)) as [v|] eqn:Ej;
      rewrite array_find_update, decide_True by done; [|done].
    assert (Hv : no_nul v).
    { eapply join_values_no_nul, Ej. unfold values_of. apply Forall_map, Forall_forall.
      intros h0 [_ Hin]%list_elem_of_filter. exact (proj1 (Forall_forall _ _) Hhs h0 Hin). }
    by rewrite (cstr_no_nul v Hv), (cstr_no_nul (header_value h) Hh).
  - rewrite filter_cons_False, filter_nil by done. cbn [map]. rewrite app_nil_r.
    destruct (array_find (zend_string_tolower (header_name h)) _); rewrite array_find_update, decide_False by congruence; exact IH.
Qed.

(** C37. [Request::header] on a parsed request: the values of every header with that
    name, whatever its case, joined by ", " in the order they came; null when
    there is none.  (Values with a NUL byte are cut by [%s] and excluded.) *)
Theorem request_header_lookup up name :
  Forall (fun h => no_nul (header_value h)) (up_headers up) ->
  Request_header (websocket_http_upgrade_request_headers up) name
  = join_values (values_of name (up_headers up)).
Proof. apply request_headers_find. Qed.

Definition example_headers : list websocket_http_header :=
  [mk_header (str "Host") (str "a"); mk_header (str "X-A") (str "1"); mk_header (str "x-a") (str "2")].

Lemma request_header_lookup_witness :
  Request_header (websocket_http_upgrade_request_headers
    (mk_upgrade (str "GET") (str "/") example_headers 8 None None 0)) (str "X-a") = Some (str "1, 2").
Proof.
  pose proof (request_header_lookup (mk_upgrade (str "GET") (str "/") example_headers 8 None None 0)
    (str "X-a")) as H.
  etransitivity; [apply H; apply (bool_decide_unpack _); vm_compute; exact I | vm_compute; reflexivity].
Defined.

(** ** The 101 response *)

Definition header_safe (l : bytes) : Prop := no_cr l /\ no_nul l.

Lemma validate_token_safe s : websocket_http_validate_subprotocol_token s = true -> header_safe s.
Proof.
  unfold websocket_http_validate_subprotocol_token. destruct (zlen s =? 0); [done|].
  induction s as [|b s IH]; cbn [token_chars_ok]; [split; constructor|].
  destruct (_ || _) eqn:E; [done|]. destruct (existsb _ _); [done|].
  intros H. apply IH in H as [? ?]. split; constructor; try done; unfold CR; lia.
Qed.

Definition response_headers (accept_key : bytes) (selected : option bytes) : list websocket_http_header :=
  [mk_header (str "Upgrade") (str "websocket"); mk_header (str "Connection") (str "Upgrade");
   mk_header (str "Sec-WebSocket-Accept") accept_key] ++
  match selected with
  | Some s => [mk_header (str "Sec-WebSocket-Protocol") s]
  | None => []
  end.

Definition render_response (hs : list websocket_http_header) : bytes :=
  render_line (str "HTTP/1.1 101 Switching Protocols") ++
  concat (map (fun h => render_line (render_header h)) hs) ++ crlf.

Lemma upgrade_response_render accept_key selected :
  no_nul accept_key -> (forall s, selected = Some s -> no_nul s) ->
  websocket_http_upgrade_response accept_key selected
  = render_response (response_headers accept_key selected).
Proof.
  intros Hk Hs. unfold websocket_http_upgrade_response. rewrite cstr_no_nul by done.
  destruct selected as [s|]; [rewrite (cstr_no_nul s) by auto|];
    cbn; unfold render_line; cbn; rewrite <- ?app_assoc; cbn; rewrite <- ?app_assoc; done.
Qed.

Lemma render_header_safe n v : text_line n -> no_cr v -> text_line (render_header (mk_header n v)).
Proof.
  intros [Hn _] Hv. split; [|by destruct n].
  apply Forall_app. split; [done|]. constructor; [done|]. by constructor.
Qed.

Lemma find_header_end_response key selected :
  header_safe key -> (forall s, selected = Some s -> header_safe s) ->
  let response := render_response (response_headers key selected) in
  websocket_http_find_header_end response = Some (zlen response - 4).
Proof.
  intros [Hk _] Hs. cbv zeta. unfold render_response. set (hs := response_headers key selected).
  assert (Hl : Forall text_line (map render_header hs)).
  { apply Forall_map. subst hs. unfold response_headers. apply Forall_app. split.
    - repeat (apply Forall_cons; split); [..|constructor]; apply render_header_safe;
        first [done | by (split; [apply (bool_decide_unpack _); vm_compute|])
              | by (apply (bool_decide_unpack _); vm_compute)].
    - destruct selected as [s|]; [|constructor]. apply Forall_singleton, render_header_safe.
      + split; [apply (bool_decide_unpack _); by vm_compute|done].
      + by apply Hs. }
  rewrite <- (map_map render_header render_line).
  unfold websocket_http_find_header_end. rewrite <- (app_nil_r crlf).
  rewrite find_from_lines; [|apply (bool_decide_unpack _); by vm_compute|done].
  rewrite !zlen_app, zlen_nil. change (zlen crlf) with 2.
  replace (_ <? 4) with false; [f_equal; lia|].
  pose proof (zlen_nonneg (concat (map render_line (map render_header hs)))).
  symmetry. apply Z.ltb_ge. unfold render_line, crlf.
  pose proof (zlen_nonneg (str "HTTP/1.1 101 Switching Protocols")). zlia.
Qed.

(** C38. The response to an accepted request is one header block: the status line and
    the three or four header lines, with nothing a client could inject, and the
    block ends at the response's last four bytes.  The hypothesis states that
    base64 text has no CR and no NUL. *)
Theorem upgrade_response_one_block sha1 base64_encode base64_decode_ex supported buffer up key :
  (forall x, header_safe (base64_encode x)) ->
  websocket_http_parse_upgrade sha1 base64_encode base64_decode_ex supported buffer = (UPGRADE_OK, up) ->
  up_accept_key up = Some key ->
  let response := websocket_http_upgrade_response key (up_selected_subprotocol up) in
  response = render_response (response_headers key (up_selected_subprotocol up)) /\
  websocket_http_find_header_end response = Some (zlen response - 4).
Proof.
  intros Hb64 H Hkey response.
  apply parse_upgrade_inv in H as (_ & _ & st & <- & [_ _ _ IK IP IT _] & _).
  rewrite Hkey in IK. destruct IK as (h & _ & Hval).
  assert (Hk : header_safe key).
  { unfold websocket_http_validate_key, websocket_protocol_accept_key in Hval.
    repeat case_match; simplify_eq. apply Hb64. }
  assert (Hsel : forall s, up_selected_subprotocol (ps_upgrade st) = Some s -> header_safe s).
  { intros s Hs. destruct (IP s Hs) as (_ & h' & Hh' & Hn & Ht).
    apply validate_token_safe. exact (proj1 (Forall_forall _ _) (IT h' Hh' Hn) s Ht). }
  assert (Hresp : response = render_response (response_headers key (up_selected_subprotocol (ps_upgrade st)))).
  { apply upgrade_response_render; [apply Hk|]. intros s Hs. by apply Hsel. }
  split; [done|]. rewrite Hresp. by apply find_header_end_response.
Qed.

(** ** Witnesses *)

Definition example_decode (v : bytes) : option bytes := Some (ztake 16 v).
Definition example_request_headers : list websocket_http_header :=
  [mk_header (str "Host") (str "a"); mk_header (str "upgrade") (str "WebSocket");
   mk_header (str "Connection") (str "keep-alive, Upgrade");
   mk_header (str "Sec-WebSocket-Version") (str "13");
   mk_header (str "Sec-WebSocket-Key") (str "dGhlIHNhbXBsZSBub25jZQ==");
   mk_header (str "Sec-WebSocket-Protocol") (str "chat, superchat")].
Definition example_request : bytes := render_request (str "/x") example_request_headers.

Local Abbreviation example_parse :=
  (websocket_http_parse_upgrade (ztake 3) (fun _ => str "abc=") example_decode (Some [str "superchat"])).

Lemma parse_upgrade_render_witness :
  (example_parse (example_request ++ [1; 2])).1 = UPGRADE_OK.
Proof.
  pose proof (parse_upgrade_render (ztake 3) (fun _ => str "abc=") example_decode (Some [str "superchat"])
    (str "/x") example_request_headers [1; 2]) as H.
  unfold example_request. destruct (example_parse _) as [r up].
  destruct H as [-> _];
    [ apply (bool_decide_unpack _); vm_compute; exact I
    | apply (bool_decide_unpack _); vm_compute; exact I
    | apply (bool_decide_unpack _); vm_compute; exact I
    | vm_compute; reflexivity ].
Defined.

Lemma parse_upgrade_segmentation_witness :
  (example_parse (example_request ++ [1; 2])).1 = UPGRADE_OK.
Proof.
  rewrite (parse_upgrade_segmentation (ztake 3) (fun _ => str "abc=") example_decode (Some [str "superchat"])
    example_request [1; 2] UPGRADE_OK (example_parse example_request).2);
    [ reflexivity | vm_compute; reflexivity | discriminate
    | apply (bool_decide_unpack _); vm_compute; exact I ].
Defined.

Lemma parse_upgrade_sound_witness :
  zlen (up_headers (example_parse example_request).2) <= up_header_capacity (example_parse example_request).2.
Proof.
  apply (parse_upgrade_sound (ztake 3) (fun _ => str "abc=") example_decode (Some [str "superchat"])
    example_request). vm_compute. reflexivity.
Defined.

Lemma upgrade_response_one_block_witness :
  websocket_http_find_header_end (websocket_http_upgrade_response (str "abc=") (Some (str "superchat")))
  = Some (zlen (websocket_http_upgrade_response (str "abc=") (Some (str "superchat"))) - 4).
Proof.
  apply (upgrade_response_one_block (ztake 3) (fun _ => str "abc=") example_decode (Some [str "superchat"])
    example_request (example_parse example_request).2 (str "abc="));
    [ intros _; split; apply (bool_decide_unpack _); vm_compute; exact I
    | vm_compute; reflexivity | vm_compute; reflexivity ].
Defined.
