(* ===== verification/Kernel.v ===== *)
(** * The operating system, as the program meets it

    A run is driven by a script: the answers the kernel gives to the program's
    system calls, in the order of the calls ([k_answers]), and the readings of
    its clocks ([k_clock]).  When the script is exhausted every call answers
    [EAGAIN], so every loop that waits for an answer ends.  What the program
    does to the outside is recorded, newest first, in [k_trace]. *)
From S2P Require Import Prelude Constants.

(** [errno] values (Linux numbers). *)
Definition ENOENT : Z := 2.
Definition EINTR : Z := 4.
Definition EBADF : Z := 9.
Definition EAGAIN : Z := 11.
Definition EWOULDBLOCK : Z := EAGAIN.
Definition EEXIST : Z := 17.
Definition EMFILE : Z := 24.
Definition ENOBUFS : Z := 105.

(** One answer: a non-negative result with the data the call fills in, or a
    failure with its [errno]. *)
Inductive answer : Type :=
| AOk (n : Z) (data : bytes)
| AErr (e : Z).

(** One reading: [clock_gettime], then [gettimeofday], in seconds and in
    nano/microseconds; [None] is a failure. *)
Record clock_reading := mk_clock {
  cl_monotonic : option (Z * Z);
  cl_timeofday : option (Z * Z)
}.

(** The server's callbacks. *)
Inductive handler : Type := OnOpen | OnHandshake | OnMessage | OnClose.

#[export] Instance handler_eq_dec : EqDecision handler.
Proof. solve_decision. Defined.

Inductive event : Type :=
| EvOpen (fd : Z)
| EvSend (fd : Z) (data : bytes)
| EvClose (fd : Z)
| EvCall (h : handler) (conn : option Z) (payload : bytes) (type : option message_type).

#[export] Instance event_eq_dec : EqDecision event.
Proof. solve_decision. Defined.

Record kernel := mk_kernel {
  k_answers : list answer;
  k_clock : list clock_reading;
  k_errno : Z;
  k_trace : list event
}.

Definition set_answers (a : list answer) (k : kernel) : kernel :=
  mk_kernel a (k_clock k) (k_errno k) (k_trace k).
Definition set_clock (c : list clock_reading) (k : kernel) : kernel :=
  mk_kernel (k_answers k) c (k_errno k) (k_trace k).
Definition set_errno (e : Z) (k : kernel) : kernel :=
  mk_kernel (k_answers k) (k_clock k) e (k_trace k).
Definition emit (e : event) (k : kernel) : kernel :=
  mk_kernel (k_answers k) (k_clock k) (k_errno k) (e :: k_trace k).

(** The next answer; a failure sets [errno]. *)
Definition syscall (k : kernel) : answer * kernel :=
  match k_answers k with
  | [] => (AErr EAGAIN, set_errno EAGAIN k)
  | AErr e :: a => (AErr e, set_errno e (set_answers a k))
  | AOk n d :: a => (AOk n d, set_answers a k)
  end.

(** [socket] and [accept]: the result is a new descriptor, whose opening is recorded. *)
Definition sys_open (k : kernel) : answer * kernel :=
  match syscall k with
  | (AOk fd d, k) => (AOk fd d, if 0 <=? fd then emit (EvOpen fd) k else k)
  | (AErr e, k) => (AErr e, k)
  end.

(** [send(fd, data, len, MSG_NOSIGNAL)]: at most [len] bytes are written; -1 on
    failure. *)
Definition sys_send (fd : Z) (data : bytes) (k : kernel) : Z * kernel :=
  match syscall k with
  | (AOk n _, k) =>
      let written := Z.min (Z.max 0 n) (zlen data) in
      (written, if 0 <? written then emit (EvSend fd (ztake written data)) k else k)
  | (AErr _, k) => (-1, k)
  end.

(** [recv(fd, chunk, size, 0)]: [None] is -1, [Some []] the end of the stream. *)
Definition sys_recv (size : Z) (k : kernel) : option bytes * kernel :=
  match syscall k with
  | (AOk _ d, k) => (Some (ztake size d), k)
  | (AErr _, k) => (None, k)
  end.

(** [while (close(fd) < 0 && errno == EINTR) {}] *)
Fixpoint close_loop (fuel : nat) (k : kernel) : kernel :=
  match fuel with
  | O => k
  | S fuel =>
    match syscall k with
    | (AErr _, k) => if k_errno k =? EINTR then close_loop fuel k else k
    | (AOk _ _, k) => k
    end
  end.

Definition close_retry (fd : Z) (k : kernel) : kernel :=
  emit (EvClose fd) (close_loop (S (length (k_answers k))) k).

(** [websocket_server_now_usec] *)
Definition websocket_server_now_usec (k : kernel) : Z * kernel :=
  match k_clock k with
  | [] => (0, k)
  | r :: c =>
    (match cl_monotonic r, cl_timeofday r with
     | Some (s, ns), _ => u64 (u64 (u64 s * 1000000) + u64 ns / 1000)
     | None, Some (s, us) => u64 (u64 (u64 s * 1000000) + u64 us)
     | None, None => 0
     end, set_clock c k)
  end.

(** ** Lemmas *)

(** [k'] comes after [k]: some answers were consumed. *)
Definition answers_left (k k' : kernel) : Prop := k_answers k' `suffix_of` k_answers k.

#[export] Instance answers_left_preorder : PreOrder answers_left.
Proof. unfold answers_left. split; [intros k; reflexivity|]. intros k1 k2 k3 H12 H23. by transitivity (k_answers k2). Qed.

Lemma answers_left_length k k' : answers_left k k' -> (length (k_answers k') <= length (k_answers k))%nat.
Proof. apply suffix_length. Qed.

(** The bytes sent on [fd], oldest first. *)
Fixpoint sent_rev (fd : Z) (t : list event) : bytes :=
  match t with
  | [] => []
  | EvSend fd' d :: t => if fd =? fd' then sent_rev fd t ++ d else sent_rev fd t
  | _ :: t => sent_rev fd t
  end.

Definition sent (fd : Z) (k : kernel) : bytes := sent_rev fd (k_trace k).

Lemma syscall_trace k : k_trace (syscall k).2 = k_trace k.
Proof. unfold syscall. by destruct (k_answers k) as [|[]]. Qed.

Lemma syscall_clock k : k_clock (syscall k).2 = k_clock k.
Proof. unfold syscall. by destruct (k_answers k) as [|[]]. Qed.

Lemma syscall_answers k :
  match (syscall k).1 with
  | AErr e => k_errno (syscall k).2 = e
  | AOk _ _ => k_errno (syscall k).2 = k_errno k
  end /\
  (k_answers k = [] -> (syscall k).1 = AErr EAGAIN) /\
  length (k_answers (syscall k).2) = pred (length (k_answers k)) /\
  answers_left k (syscall k).2 /\
  (k_answers k <> [] -> (syscall k).1 ∈ k_answers k).
Proof.
  unfold answers_left, syscall. destruct (k_answers k) as [|[n d|e] a] eqn:Ea; cbn; rewrite ?Ea;
    split_and!; try done; solve [by eexists [_] | intros _; by left].
Qed.

(** A call uses up an answer, or answers [EAGAIN]. *)
Lemma syscall_progress k :
  (length (k_answers (syscall k).2) < length (k_answers k))%nat \/
  ((syscall k).1 = AErr EAGAIN /\ k_errno (syscall k).2 = EAGAIN).
Proof. unfold syscall. destruct (k_answers k) as [|[n d|e] a]; cbn; [by right|left; lia..]. Qed.

Lemma sys_open_answer k : (sys_open k).1 = (syscall k).1.
Proof. unfold sys_open. by destruct (syscall k) as [[] ?]. Qed.

Lemma sys_open_errno k : k_errno (sys_open k).2 = k_errno (syscall k).2.
Proof. unfold sys_open. destruct (syscall k) as [[] ?]; cbn; [by destruct (0 <=? _)|done]. Qed.

Lemma sys_open_answers k : k_answers (sys_open k).2 = k_answers (syscall k).2.
Proof. unfold sys_open. destruct (syscall k) as [[] ?]; cbn; [by destruct (0 <=? _)|done]. Qed.

Lemma close_loop_trace fuel k : k_trace (close_loop fuel k) = k_trace k.
Proof.
  revert k. induction fuel as [|fuel IH]; intros k; cbn [close_loop]; [done|].
  pose proof (syscall_trace k) as Ht. destruct (syscall k) as [[n d|e] k1]; cbn in Ht; [done|].
  case_match; [|done]. by rewrite IH.
Qed.

Lemma close_loop_clock fuel k : k_clock (close_loop fuel k) = k_clock k.
Proof.
  revert k. induction fuel as [|fuel IH]; intros k; cbn [close_loop]; [done|].
  pose proof (syscall_clock k) as Ht. destruct (syscall k) as [[n d|e] k1]; cbn in Ht; [done|].
  case_match; [|done]. by rewrite IH.
Qed.

Lemma close_loop_answers fuel k : answers_left k (close_loop fuel k).
Proof.
  revert k. induction fuel as [|fuel IH]; intros k; cbn [close_loop]; [done|].
  pose proof (syscall_answers k) as (_ & _ & _ & Hl & _). destruct (syscall k) as [[n d|e] k1]; cbn in Hl; [done|].
  case_match; [|done]. by transitivity k1.
Qed.

(** The retry loop stops for another reason than its fuel: the last answer was
    not [EINTR]. *)
Lemma close_loop_fuel f1 f2 k :
  (length (k_answers k) < f1)%nat -> (length (k_answers k) < f2)%nat ->
  close_loop f1 k = close_loop f2 k.
Proof.
  revert f2 k. induction f1 as [|f1 IH]; intros f2 k H1 H2; [lia|].
  destruct f2 as [|f2]; [lia|]. cbn [close_loop].
  pose proof (syscall_answers k) as (He & Hnil & Hl & Hsuf & Hin).
  destruct (syscall k) as [[n d|e] k1]; [done|]. cbn in *.
  destruct (k_errno k1 =? EINTR) eqn:E; [|done].
  destruct (k_answers k) as [|a l]; cbn in *; [|apply IH; lia].
  injection (Hnil eq_refl) as ->. rewrite He in E. done.
Qed.

Lemma sys_send_spec fd data k :
  let '(w, k') := sys_send fd data k in
  -1 <= w <= zlen data /\
  sent fd k' = sent fd k ++ ztake w data /\
  (forall fd', fd' <> fd -> sent fd' k' = sent fd' k) /\
  k_clock k' = k_clock k /\
  length (k_answers k') = pred (length (k_answers k)) /\ answers_left k k' /\
  (k_answers k = [] -> w = -1 /\ k_errno k' = EAGAIN) /\
  (if 0 <=? w then k_errno k' = k_errno k
   else k_answers k <> [] -> AErr (k_errno k') ∈ k_answers k) /\
  (w = 0 -> zlen data = 0 \/ exists n d, n <= 0 /\ AOk n d ∈ k_answers k).
Proof.
  unfold sys_send. pose proof (syscall_trace k) as Ht. pose proof (syscall_clock k) as Hc.
  pose proof (syscall_answers k) as (He & Hnil & Hl & Hsuf & Hin). pose proof (zlen_nonneg data).
  assert (Hk : (syscall k).1 <> AErr EAGAIN -> k_answers k <> []) by (intros Hne Hn; auto).
  destruct (syscall k) as [[n d|e] k1]; cbn in *.
  - specialize (Hin (Hk ltac:(done))).
    set (w := Z.min _ _). assert (0 <= w <= zlen data) by lia.
    replace (0 <=? w) with true by lia.
    assert (w = 0 -> zlen data = 0 \/ exists n d, n <= 0 /\ AOk n d ∈ k_answers k).
    { intros Hw. destruct (Z.eq_dec (zlen data) 0); [by left|]. right. exists n, d. split; [lia|done]. }
    destruct (Z.ltb_spec 0 w); unfold sent; cbn; rewrite Ht.
    + rewrite Z.eqb_refl. split_and!; try done; try lia.
      * intros fd' Hne. apply Z.eqb_neq in Hne. by rewrite Hne.
      * intros Hn. by specialize (Hnil Hn).
    + assert (Ew : w = 0) by lia. clearbody w. subst w. rewrite ztake_0, app_nil_r.
      split_and!; try done; try lia. intros Hn. by specialize (Hnil Hn).
  - unfold sent. rewrite Ht, ztake_neg, app_nil_r by lia.
    split_and!; try done; try lia.
    + intros Hn. specialize (Hnil Hn). simplify_eq. done.
    + rewrite He. done.
Qed.

Lemma close_retry_facts fd k :
  k_trace (close_retry fd k) = EvClose fd :: k_trace k /\
  k_clock (close_retry fd k) = k_clock k /\ answers_left k (close_retry fd k).
Proof.
  unfold close_retry, emit, answers_left. cbn [k_trace k_clock k_answers].
  rewrite close_loop_trace, close_loop_clock.
  split_and!; try done. apply (close_loop_answers (S (length (k_answers k)))).
Qed.
