(* ===== verification/Driver.v ===== *)
(** * The I/O driver interface: [struct websocket_driver] of [php_websocket.h]

    A driver has a state of its own (the C file's static variables) and talks to
    the kernel.  [Driver] is the table of its operations, [DriverLaws] what the
    connections and the server loop rely on. *)
From S2P Require Import Prelude Constants Kernel.

(** The operations but [init].  [watch_*] return [true] for [SUCCESS]; [wait] returns the
    result and the value left in [ready_fd]. *)
Class Driver (D : Type) := {
  shutdown : D * kernel -> D * kernel;
  watch_read : Z -> D * kernel -> bool * (D * kernel);
  watch_write : Z -> D * kernel -> bool * (D * kernel);
  unwatch_write : Z -> D * kernel -> D * kernel;
  unwatch : Z -> D * kernel -> D * kernel;
  wait : Z -> D * kernel -> (Z * Z) * (D * kernel)
}.

(** What a driver operation may do to the kernel: consume answers. *)
Definition driver_step (k k' : kernel) : Prop :=
  k_trace k' = k_trace k /\ k_clock k' = k_clock k /\ answers_left k k'.

#[export] Instance driver_step_preorder : PreOrder driver_step.
Proof.
  split.
  - intros k. by split_and!.
  - intros k1 k2 k3 (?&?&?) (?&?&?). split_and!; [congruence..|by transitivity k2].
Qed.

Lemma driver_step_errno e k : driver_step k (set_errno e k).
Proof. split_and!; [done..|]. unfold answers_left. reflexivity. Qed.

Lemma driver_step_then_errno e k k' : driver_step k k' -> driver_step k (set_errno e k').
Proof. intros H. etrans; [exact H|apply driver_step_errno]. Qed.

Lemma syscall_step k : driver_step k (syscall k).2.
Proof.
  split_and!; [apply syscall_trace|apply syscall_clock|].
  by destruct (syscall_answers k) as (_ & _ & _ & ? & _).
Qed.

Class DriverLaws (D : Type) `{Driver D} := {
  (** The invariant of the driver's own state. *)
  driver_wf : D -> Prop;
  (** The descriptors the driver waits on. *)
  reads : D -> Z -> bool;
  writes : D -> Z -> bool;
  shutdown_law d k : driver_wf d ->
    driver_wf (shutdown (d, k)).1 /\
    forall fd, reads (shutdown (d, k)).1 fd = false /\ writes (shutdown (d, k)).1 fd = false;
  watch_read_law fd d k : driver_wf d ->
    let '(ok, (d', k')) := watch_read fd (d, k) in
    driver_wf d' /\ driver_step k k' /\
    (if ok then reads d' fd = true else k_errno k' <> ENOBUFS) /\
    (forall fd', fd' <> fd \/ writes d fd' = false -> writes d' fd' = writes d fd') /\
    (forall fd', fd' <> fd \/ ok = false -> reads d' fd' = reads d fd');
  watch_write_law fd d k : driver_wf d ->
    let '(ok, (d', k')) := watch_write fd (d, k) in
    driver_wf d' /\ driver_step k k' /\
    (if ok then writes d' fd = true else k_errno k' <> ENOBUFS) /\
    (forall fd', fd' <> fd \/ ok = false -> writes d' fd' = writes d fd' /\ reads d' fd' = reads d fd') /\
    (reads d fd = true -> reads d' fd = true);
  unwatch_write_law fd d k : driver_wf d ->
    let '(d', k') := unwatch_write fd (d, k) in
    driver_wf d' /\ driver_step k k' /\ k_errno k' = k_errno k /\
    writes d' fd = false /\ (reads d fd = true -> reads d' fd = true) /\
    (forall fd', fd' <> fd -> writes d' fd' = writes d fd' /\ reads d' fd' = reads d fd');
  unwatch_law fd d k : driver_wf d ->
    let '(d', k') := unwatch fd (d, k) in
    driver_wf d' /\ driver_step k k' /\ k_errno k' = k_errno k /\
    writes d' fd = false /\ reads d' fd = false /\
    (forall fd', fd' <> fd -> writes d' fd' = writes d fd' /\ reads d' fd' = reads d fd');
  wait_law timeout d k : driver_wf d ->
    let '((r, fd), (d', k')) := wait timeout (d, k) in
    driver_wf d' /\ driver_step k k' /\
    (forall fd', writes d' fd' = writes d fd' /\ reads d' fd' = reads d fd') /\
    (fd = -1 \/ (0 < r /\ (reads d fd = true \/ writes d fd = true))) /\
    (** A wait uses up an answer, or fails for good. *)
    ((length (k_answers k') < length (k_answers k))%nat \/ (r < 0 /\ k_errno k' <> EINTR))
}.

(** [websocket_driver::init]: a fresh state, and nothing else done but consuming
    answers. *)
Definition init_law {D} `{DriverLaws D} (init : kernel -> option D * kernel) : Prop :=
  forall k, driver_step k (init k).2 /\
    forall d, (init k).1 = Some d -> driver_wf d /\ forall fd, reads d fd = false /\ writes d fd = false.

(** A selected driver in a good state, or none. *)
Definition driver_ok {D} `{DriverLaws D} (d : option D) : Prop :=
  match d with Some d => driver_wf d | None => True end.
