(* ===== verification/FdTable.v ===== *)
(** * Tables searched by descriptor

    The [select] and [poll] drivers keep an unordered array of entries, found by
    a linear search for their descriptor, extended at the end, changed in place
    and closed up when an entry is removed.  [find_fd] is that search; the
    lemmas say what the array denotes: a finite map from descriptors. *)
From S2P Require Import Prelude.

Lemma zlen_delete_le {A} i (l : list A) : zlen (delete i l) <= zlen l.
Proof.
  revert i. induction l as [|x l IH]; intros [|i]; [done..| |].
  - change (delete 0%nat (x :: l)) with l. rewrite zlen_cons. lia.
  - change (delete (S i) (x :: l)) with (x :: delete i l). rewrite !zlen_cons. specialize (IH i). lia.
Qed.

Section Table.
Context {E : Type} (key : E -> Z).
Implicit Types (l : list E) (fd : Z).

(** The index of the first entry of [fd]. *)
Fixpoint find_fd fd l : option nat :=
  match l with
  | [] => None
  | e :: l => if key e =? fd then Some 0%nat else S <$> find_fd fd l
  end.

(** The entry of [fd]. *)
Definition lookup_fd fd l : option E := i ← find_fd fd l; l !! i.

(** One entry per descriptor. *)
Definition distinct_fds l : Prop := NoDup (map key l).

Lemma find_fd_Some fd l i : find_fd fd l = Some i -> exists e, l !! i = Some e /\ key e = fd.
Proof.
  revert i. induction l as [|e l IH]; cbn; intros i; [done|].
  destruct (Z.eqb_spec (key e) fd) as [<-|]; [intros [= <-]; by exists e|].
  destruct (find_fd fd l) as [j|]; [|done]. intros [= <-]. by apply IH.
Qed.

Lemma find_fd_None fd l : find_fd fd l = None <-> fd ∉ map key l.
Proof.
  induction l as [|e l IH]; cbn; [split; [intros _; apply not_elem_of_nil|done]|].
  rewrite not_elem_of_cons. destruct (Z.eqb_spec (key e) fd) as [<-|Hne]; [by split; [|intros []]|].
  rewrite <- IH. destruct (find_fd fd l); cbn; split; [done|by intros [_ ?]|by split; [congruence|]|done].
Qed.

Lemma lookup_fd_cons fd e l : lookup_fd fd (e :: l) = if key e =? fd then Some e else lookup_fd fd l.
Proof. unfold lookup_fd. cbn. destruct (key e =? fd); [done|]. by destruct (find_fd fd l). Qed.

Lemma lookup_fd_app_new fd e l :
  key e ∉ map key l -> lookup_fd fd (l ++ [e]) = if key e =? fd then Some e else lookup_fd fd l.
Proof.
  induction l as [|x l IH]; cbn [app map]; [by rewrite lookup_fd_cons|].
  rewrite not_elem_of_cons. intros [Hx Hl]. rewrite !lookup_fd_cons, IH by done.
  destruct (Z.eqb_spec (key x) fd), (Z.eqb_spec (key e) fd); try done. congruence.
Qed.

(** Changing the entry of [fd] in place. *)
Lemma lookup_fd_alter fd f l i :
  (forall e, key (f e) = key e) -> find_fd fd l = Some i ->
  forall fd', lookup_fd fd' (alter f i l) = if fd =? fd' then f <$> lookup_fd fd' l else lookup_fd fd' l.
Proof.
  intros Hf. revert i. induction l as [|e l IH]; cbn [find_fd map]; intros i; [done|].
  destruct (Z.eqb_spec (key e) fd) as [<-|Hne].
  - intros [= <-] fd'. change (alter f 0%nat (e :: l)) with (f e :: l).
    rewrite !lookup_fd_cons, Hf. by destruct (key e =? fd').
  - destruct (find_fd fd l) as [j|]; [|done]. intros [= <-] fd'.
    change (alter f (S j) (e :: l)) with (e :: alter f j l).
    rewrite !lookup_fd_cons, IH by done.
    destruct (Z.eqb_spec (key e) fd'), (Z.eqb_spec fd fd'); try done; congruence.
Qed.

Lemma distinct_alter f i l : (forall e, key (f e) = key e) -> distinct_fds l -> distinct_fds (alter f i l).
Proof.
  intros Hf. unfold distinct_fds. replace (map key (alter f i l)) with (map key l); [done|].
  revert i. induction l as [|e l IH]; intros [|i]; cbn; [done..| |].
  - by rewrite Hf.
  - f_equal. apply IH.
Qed.

(** Removing the entry of [fd]. *)
Lemma lookup_fd_delete fd l i :
  distinct_fds l -> find_fd fd l = Some i ->
  forall fd', lookup_fd fd' (delete i l) = if fd =? fd' then None else lookup_fd fd' l.
Proof.
  unfold distinct_fds. revert i. induction l as [|e l IH]; cbn [find_fd map]; intros i; [done|].
  rewrite NoDup_cons. intros [Hnin Hl].
  destruct (Z.eqb_spec (key e) fd) as [<-|Hne].
  - intros [= <-] fd'. change (delete 0%nat (e :: l)) with l.
    rewrite lookup_fd_cons. destruct (Z.eqb_spec (key e) fd') as [<-|]; [|done].
    unfold lookup_fd. by rewrite (proj2 (find_fd_None (key e) l) Hnin).
  - destruct (find_fd fd l) as [j|]; [|done]. intros [= <-] fd'.
    change (delete (S j) (e :: l)) with (e :: delete j l).
    rewrite !lookup_fd_cons, IH by done.
    destruct (Z.eqb_spec (key e) fd'), (Z.eqb_spec fd fd'); try done; congruence.
Qed.

Lemma distinct_delete i l : distinct_fds l -> distinct_fds (delete i l).
Proof.
  unfold distinct_fds. revert i. induction l as [|e l IH]; intros [|i]; cbn; try done.
  - by intros [_ ?]%NoDup_cons.
  - intros [Hn Hl]%NoDup_cons. apply NoDup_cons. split; [|by apply IH].
    intros Hin. apply Hn. clear - Hin. revert i Hin. induction l as [|x l IH]; intros [|i]; cbn; try done.
    + intros ?. by right.
    + intros [->|?]%elem_of_cons; [by left|right; eauto].
Qed.

Lemma lookup_fd_Some fd l i e : find_fd fd l = Some i -> l !! i = Some e -> lookup_fd fd l = Some e.
Proof. intros Hi He. unfold lookup_fd. by rewrite Hi. Qed.

Lemma lookup_fd_None fd l : find_fd fd l = None -> lookup_fd fd l = None.
Proof. intros Hi. unfold lookup_fd. by rewrite Hi. Qed.

Lemma lookup_fd_in e l : distinct_fds l -> e ∈ l -> lookup_fd (key e) l = Some e.
Proof.
  unfold distinct_fds. induction l as [|x l IH]; cbn [map]; [by intros _ ?%elem_of_nil|].
  intros [Hn Hl]%NoDup_cons [->|Hin]%elem_of_cons; rewrite lookup_fd_cons; [by rewrite Z.eqb_refl|].
  destruct (Z.eqb_spec (key x) (key e)) as [Hk|]; [|by apply IH].
  destruct Hn. rewrite Hk. apply list_elem_of_In, in_map. by apply list_elem_of_In.
Qed.
End Table.
