(* ===== verification/SelectDriver.v ===== *)
(** * The [select] driver: [drivers/select.c]

    The static array of watched descriptors is a list of its [select_fd_count]
    entries.  [select(2)] is a kernel answer: the number of ready descriptors
    and, for the array's entries in order, whether the call left the read bit
    (value 1 or 3) and the write bit (2 or 3) of its descriptor set. *)
From S2P Require Import Prelude Constants Kernel Driver FdTable.

Definition FD_SETSIZE : Z := 1024.

Record websocket_select_fd := mk_select_fd { sf_fd : Z; sf_read : bool; sf_write : bool }.

Record select_state := mk_select {
  select_fds : list websocket_select_fd;
  select_fd_capacity : Z
}.

Definition websocket_select_init : select_state := mk_select [] 0.
Definition websocket_select_shutdown (s : select_state * kernel) : select_state * kernel := (mk_select [] 0, s.2).

(** The index of the entry of [fd]: the pointer the C function returns. *)
Definition websocket_select_find_fd (fd : Z) (d : select_state) : option nat := find_fd sf_fd fd (select_fds d).

Definition websocket_select_ensure_fd (fd : Z) (s : select_state * kernel)
    : option nat * (select_state * kernel) :=
  let '(d, k) := s in
  if FD_SETSIZE <=? fd then (None, (d, set_errno EMFILE k)) else
  match websocket_select_find_fd fd d with
  | Some i => (Some i, (d, k))
  | None =>
      let count := zlen (select_fds d) in
      let capacity :=
        if count =? select_fd_capacity d
        then if 0 <? select_fd_capacity d then select_fd_capacity d * 2 else 8
        else select_fd_capacity d in
      (Some (length (select_fds d)), (mk_select (select_fds d ++ [mk_select_fd fd false false]) capacity, k))
  end.

Definition websocket_select_watch_read (fd : Z) (s : select_state * kernel) : bool * (select_state * kernel) :=
  let '(entry, (d, k)) := websocket_select_ensure_fd fd s in
  match entry with
  | None => (false, (d, k))
  | Some i =>
      (true, (mk_select (alter (fun e => mk_select_fd (sf_fd e) true (sf_write e)) i (select_fds d))
                (select_fd_capacity d), k))
  end.

Definition websocket_select_watch_write (fd : Z) (s : select_state * kernel) : bool * (select_state * kernel) :=
  let '(entry, (d, k)) := websocket_select_ensure_fd fd s in
  match entry with
  | None => (false, (d, k))
  | Some i =>
      (true, (mk_select (alter (fun e => mk_select_fd (sf_fd e) (sf_read e) true) i (select_fds d))
                (select_fd_capacity d), k))
  end.

Definition websocket_select_remove_fd_at (i : nat) (d : select_state) : select_state :=
  mk_select (delete i (select_fds d)) (select_fd_capacity d).

Definition websocket_select_unwatch_write (fd : Z) (s : select_state * kernel) : select_state * kernel :=
  let '(d, k) := s in
  match find_fd sf_fd fd (select_fds d) with
  | None => (d, k)
  | Some i =>
      let d := mk_select (alter (fun e => mk_select_fd (sf_fd e) (sf_read e) false) i (select_fds d))
                 (select_fd_capacity d) in
      match select_fds d !! i with
      | Some e => if negb (sf_read e) then (websocket_select_remove_fd_at i d, k) else (d, k)
      | None => (d, k)
      end
  end.

Definition websocket_select_unwatch (fd : Z) (s : select_state * kernel) : select_state * kernel :=
  let '(d, k) := s in
  match find_fd sf_fd fd (select_fds d) with
  | None => (d, k)
  | Some i => (websocket_select_remove_fd_at i d, k)
  end.

(** The first entry with a bit it asked for left in the descriptor sets. *)
Fixpoint select_ready (l : list websocket_select_fd) (bits : list Z) : option Z :=
  match l, bits with
  | e :: l, b :: bits =>
      if (sf_read e && Z.testbit b 0) || (sf_write e && Z.testbit b 1) then Some (sf_fd e)
      else select_ready l bits
  | _, _ => None
  end.

Definition websocket_select_wait (timeout_usec : Z) (s : select_state * kernel)
    : (Z * Z) * (select_state * kernel) :=
  let '(d, k) := s in
  if zlen (select_fds d) =? 0 then ((-1, -1), (d, set_errno EBADF k)) else
  match syscall k with
  | (AErr _, k) => ((-1, -1), (d, k))
  | (AOk ready bits, k) =>
      if ready <=? 0 then ((ready, -1), (d, k)) else
      ((ready, default (-1) (select_ready (select_fds d) bits)), (d, k))
  end.

#[export] Instance select_driver : Driver select_state := {
  shutdown := websocket_select_shutdown;
  watch_read := websocket_select_watch_read;
  watch_write := websocket_select_watch_write;
  unwatch_write := websocket_select_unwatch_write;
  unwatch := websocket_select_unwatch;
  wait := websocket_select_wait
}.

(** ** The driver keeps its promises *)

Definition select_wf (d : select_state) : Prop :=
  distinct_fds sf_fd (select_fds d) /\ zlen (select_fds d) <= select_fd_capacity d.

Definition select_reads (d : select_state) (fd : Z) : bool :=
  match lookup_fd sf_fd fd (select_fds d) with Some e => sf_read e | None => false end.

Definition select_writes (d : select_state) (fd : Z) : bool :=
  match lookup_fd sf_fd fd (select_fds d) with Some e => sf_write e | None => false end.

Lemma zlen_alter (f : websocket_select_fd -> websocket_select_fd) i l : zlen (alter f i l) = zlen l.
Proof. unfold zlen. by rewrite length_alter. Qed.

(** [ensure_fd]: the entry exists afterwards, with no new interest. *)
Lemma select_ensure_spec fd d k :
  select_wf d ->
  let '(entry, (d', k')) := websocket_select_ensure_fd fd (d, k) in
  select_wf d' /\ driver_step k k' /\
  (forall fd', select_reads d' fd' = select_reads d fd' /\ select_writes d' fd' = select_writes d fd') /\
  match entry with
  | None => d' = d /\ k_errno k' = EMFILE
  | Some i => k' = k /\ find_fd sf_fd fd (select_fds d') = Some i
  end.
Proof.
  intros [Hd Hc]. unfold websocket_select_ensure_fd, websocket_select_find_fd.
  destruct (_ <=? _); [split_and!; try done; apply driver_step_errno|].
  destruct (find_fd sf_fd fd (select_fds d)) as [i|] eqn:Ei; [by split_and!|].
  pose proof (proj1 (find_fd_None _ _ _) Ei) as Hn.
  assert (Hl : forall fd', lookup_fd sf_fd fd' (select_fds d ++ [mk_select_fd fd false false])
      = if fd =? fd' then Some (mk_select_fd fd false false) else lookup_fd sf_fd fd' (select_fds d))
    by (intros; by apply (lookup_fd_app_new sf_fd)).
  split_and!; try done.
  - split; cbn [select_fds select_fd_capacity].
    + unfold distinct_fds. rewrite map_app. apply NoDup_app. split; [done|]. split; [|apply NoDup_singleton].
      intros fd' Hin ->%list_elem_of_singleton. by apply Hn.
    + rewrite zlen_app. change (zlen [_]) with 1. pose proof (zlen_nonneg (select_fds d)).
      destruct (Z.eqb_spec (zlen (select_fds d)) (select_fd_capacity d)); [case_match; lia|lia].
  - intros fd'. unfold select_reads, select_writes. cbn [select_fds]. rewrite !Hl.
    destruct (Z.eqb_spec fd fd') as [->|]; [|done]. by rewrite (lookup_fd_None sf_fd _ _ Ei).
  - cbn [select_fds]. clear - Ei. induction (select_fds d) as [|e l IH]; cbn in *.
    + by rewrite Z.eqb_refl.
    + destruct (sf_fd e =? fd); [done|]. destruct (find_fd sf_fd fd l); [done|].
      by rewrite (IH eq_refl).
Qed.

(** Marking an entry found by [ensure_fd]. *)
Lemma select_mark fd i d f :
  select_wf d -> find_fd sf_fd fd (select_fds d) = Some i -> (forall e, sf_fd (f e) = sf_fd e) ->
  let d' := mk_select (alter f i (select_fds d)) (select_fd_capacity d) in
  select_wf d' /\
  forall fd', lookup_fd sf_fd fd' (select_fds d')
    = if fd =? fd' then f <$> lookup_fd sf_fd fd' (select_fds d) else lookup_fd sf_fd fd' (select_fds d).
Proof.
  intros [Hd Hc] Hi Hf. split.
  - split; cbn; [by apply distinct_alter|by rewrite zlen_alter].
  - cbn. by apply lookup_fd_alter.
Qed.

Lemma select_found fd i d : find_fd sf_fd fd (select_fds d) = Some i ->
  exists e, select_fds d !! i = Some e /\ lookup_fd sf_fd fd (select_fds d) = Some e.
Proof.
  intros Hi. destruct (find_fd_Some _ _ _ _ Hi) as (e & He & _). exists e. split; [done|].
  by apply (lookup_fd_Some sf_fd fd _ i).
Qed.

Lemma select_remove fd i d :
  select_wf d -> find_fd sf_fd fd (select_fds d) = Some i ->
  let d' := websocket_select_remove_fd_at i d in
  select_wf d' /\
  forall fd', lookup_fd sf_fd fd' (select_fds d') = if fd =? fd' then None else lookup_fd sf_fd fd' (select_fds d).
Proof.
  intros [Hd Hc] Hi. split.
  - split; cbn; [by apply distinct_delete|]. pose proof (zlen_delete_le i (select_fds d)). lia.
  - cbn. by apply lookup_fd_delete.
Qed.

Lemma select_watch_read_law fd d k : select_wf d ->
  let '(ok, (d', k')) := websocket_select_watch_read fd (d, k) in
  select_wf d' /\ driver_step k k' /\
  (if ok then select_reads d' fd = true else k_errno k' <> ENOBUFS) /\
  (forall fd', fd' <> fd \/ select_writes d fd' = false -> select_writes d' fd' = select_writes d fd') /\
  (forall fd', fd' <> fd \/ ok = false -> select_reads d' fd' = select_reads d fd').
Proof.
  intros Hd. unfold websocket_select_watch_read. pose proof (select_ensure_spec fd d k Hd) as S.
  destruct (websocket_select_ensure_fd fd (d, k)) as [[i|] [d1 k1]]; destruct S as (W & Hk & Hsame & Hi).
  2:{ destruct Hi as [-> ->]. by split_and!. }
  destruct Hi as [-> Hi].
  destruct (select_mark fd i d1 (fun e => mk_select_fd (sf_fd e) true (sf_write e)) W Hi ltac:(done)) as [W' L].
  destruct (select_found fd i d1 Hi) as (e & _ & He).
  split_and!; try done.
  - unfold select_reads. by rewrite L, Z.eqb_refl, He.
  - intros fd'. destruct (Hsame fd') as [_ <-]. unfold select_writes. rewrite L.
    destruct (Z.eqb_spec fd fd') as [->|]; [by rewrite He|done].
  - intros fd' [Hne|]; [|done]. destruct (Hsame fd') as [<- _]. unfold select_reads. rewrite L.
    apply not_eq_sym, Z.eqb_neq in Hne. by rewrite Hne.
Qed.

Lemma select_watch_write_law fd d k : select_wf d ->
  let '(ok, (d', k')) := websocket_select_watch_write fd (d, k) in
  select_wf d' /\ driver_step k k' /\
  (if ok then select_writes d' fd = true else k_errno k' <> ENOBUFS) /\
  (forall fd', fd' <> fd \/ ok = false ->
     select_writes d' fd' = select_writes d fd' /\ select_reads d' fd' = select_reads d fd') /\
  (select_reads d fd = true -> select_reads d' fd = true).
Proof.
  intros Hd. unfold websocket_select_watch_write. pose proof (select_ensure_spec fd d k Hd) as S.
  destruct (websocket_select_ensure_fd fd (d, k)) as [[i|] [d1 k1]]; destruct S as (W & Hk & Hsame & Hi).
  2:{ destruct Hi as [-> ->]. by split_and!. }
  destruct Hi as [-> Hi].
  destruct (select_mark fd i d1 (fun e => mk_select_fd (sf_fd e) (sf_read e) true) W Hi ltac:(done)) as [W' L].
  destruct (select_found fd i d1 Hi) as (e & _ & He).
  split_and!; try done.
  - unfold select_writes. by rewrite L, Z.eqb_refl, He.
  - intros fd' [Hne|]; [|done]. destruct (Hsame fd') as [<- <-]. unfold select_reads, select_writes. rewrite L.
    apply not_eq_sym, Z.eqb_neq in Hne. by rewrite Hne.
  - destruct (Hsame fd) as [<- _]. unfold select_reads. by rewrite L, Z.eqb_refl, He.
Qed.

Lemma select_unwatch_write_law fd d k : select_wf d ->
  let '(d', k') := websocket_select_unwatch_write fd (d, k) in
  select_wf d' /\ driver_step k k' /\ k_errno k' = k_errno k /\
  select_writes d' fd = false /\ (select_reads d fd = true -> select_reads d' fd = true) /\
  (forall fd', fd' <> fd ->
     select_writes d' fd' = select_writes d fd' /\ select_reads d' fd' = select_reads d fd').
Proof.
  intros Hd. unfold websocket_select_unwatch_write.
  destruct (find_fd sf_fd fd (select_fds d)) as [i|] eqn:Hi.
  2:{ split_and!; try done. unfold select_writes. by rewrite (lookup_fd_None _ _ _ Hi). }
  destruct (select_mark fd i d (fun e => mk_select_fd (sf_fd e) (sf_read e) false) Hd Hi ltac:(done)) as [W L].
  destruct (select_found fd i d Hi) as (e & Hli & He).
  set (d1 := mk_select _ _) in *.
  assert (Hl1 : select_fds d1 !! i = Some (mk_select_fd (sf_fd e) (sf_read e) false))
    by (unfold d1; cbn; by rewrite list_lookup_alter_eq, Hli).
  assert (Hf1 : find_fd sf_fd fd (select_fds d1) = Some i).
  { unfold d1. cbn. clear - Hi. revert i Hi. induction (select_fds d) as [|x l IH]; cbn; intros i; [done|].
    destruct (sf_fd x =? fd) eqn:Ex; [intros [= <-]; cbn; by rewrite Ex|].
    destruct (find_fd sf_fd fd l) as [j|]; [|done]. intros [= <-]. cbn. by rewrite Ex, (IH j eq_refl). }
  rewrite Hl1. cbn [sf_read].
  assert (Hother : forall d2, (forall fd', lookup_fd sf_fd fd' (select_fds d2) = lookup_fd sf_fd fd' (select_fds d1) \/ fd' = fd) ->
    forall fd', fd' <> fd -> select_writes d2 fd' = select_writes d fd' /\ select_reads d2 fd' = select_reads d fd').
  { intros d2 H2 fd' Hne. unfold select_writes, select_reads. destruct (H2 fd') as [-> | ->]; [|done].
    rewrite L. apply not_eq_sym, Z.eqb_neq in Hne. by rewrite Hne. }
  destruct (sf_read e) eqn:Er; cbn [negb].
  - split_and!; try done.
    + unfold select_writes. by rewrite L, Z.eqb_refl, He.
    + intros _. unfold select_reads. rewrite L, Z.eqb_refl, He. done.
    + apply Hother. by left.
  - destruct (select_remove fd i d1 W Hf1) as [W2 L2]. split_and!; try done.
    + unfold select_writes. by rewrite L2, Z.eqb_refl.
    + unfold select_reads at 1. rewrite He, Er. done.
    + apply Hother. intros fd'. rewrite L2. destruct (Z.eqb_spec fd fd'); auto.
Qed.

Lemma select_unwatch_law fd d k : select_wf d ->
  let '(d', k') := websocket_select_unwatch fd (d, k) in
  select_wf d' /\ driver_step k k' /\ k_errno k' = k_errno k /\
  select_writes d' fd = false /\ select_reads d' fd = false /\
  (forall fd', fd' <> fd ->
     select_writes d' fd' = select_writes d fd' /\ select_reads d' fd' = select_reads d fd').
Proof.
  intros Hd. unfold websocket_select_unwatch.
  destruct (find_fd sf_fd fd (select_fds d)) as [i|] eqn:Hi.
  - destruct (select_remove fd i d Hd Hi) as [W L]. unfold select_writes, select_reads.
    rewrite !L, !Z.eqb_refl. split_and!; try done. intros fd' Hne. rewrite !L.
    apply not_eq_sym, Z.eqb_neq in Hne. by rewrite Hne.
  - unfold select_writes, select_reads. rewrite (lookup_fd_None _ _ _ Hi). by split_and!.
Qed.

Lemma select_ready_Some l bits fd : distinct_fds sf_fd l ->
  select_ready l bits = Some fd ->
  exists e, lookup_fd sf_fd fd l = Some e /\ (sf_read e = true \/ sf_write e = true).
Proof.
  intros Hd Hr.
  assert (H : exists e, e ∈ l /\ sf_fd e = fd /\ (sf_read e = true \/ sf_write e = true)).
  { clear Hd. revert bits Hr. induction l as [|e l IH]; intros [|b bits]; cbn [select_ready]; try done.
    destruct (_ || _) eqn:E.
    - intros [= <-]. exists e. split_and!; [by left|done|].
      apply orb_true_iff in E as [E|E]; apply andb_true_iff in E as [? _]; auto.
    - intros Hr. destruct (IH _ Hr) as (e' & ? & ? & ?). exists e'. split_and!; [by right|done|done]. }
  destruct H as (e & Hin & <- & Hrw). exists e. split; [by apply lookup_fd_in|done].
Qed.

Lemma select_wait_law timeout d k : select_wf d ->
  let '((r, fd), (d', k')) := websocket_select_wait timeout (d, k) in
  select_wf d' /\ driver_step k k' /\
  (forall fd', select_writes d' fd' = select_writes d fd' /\ select_reads d' fd' = select_reads d fd') /\
  (fd = -1 \/ (0 < r /\ (select_reads d fd = true \/ select_writes d fd = true))) /\
  ((length (k_answers k') < length (k_answers k))%nat \/ (r < 0 /\ k_errno k' <> EINTR)).
Proof.
  intros Hd. unfold websocket_select_wait.
  destruct (_ =? 0); [split_and!; try done; [apply driver_step_errno|by left|by right]|].
  pose proof (syscall_step k) as Hs. pose proof (syscall_progress k) as Hp.
  destruct (syscall k) as [[ready bits|e] k1]; cbn in Hs, Hp.
  2:{ split_and!; auto. destruct Hp as [?|[_ He]]; [by left|right; by rewrite He]. }
  destruct Hp as [Hp|[? _]]; [|done].
  destruct (Z.leb_spec ready 0); [by split_and!; auto|]. split_and!; try done; [|by left].
  destruct (select_ready (select_fds d) bits) as [fd|] eqn:Er; cbn; [|by left]. right. split; [lia|].
  destruct (select_ready_Some _ _ _ (proj1 Hd) Er) as (x & Hx & Hrw).
  unfold select_reads, select_writes. rewrite Hx. tauto.
Qed.

Lemma select_init_wf : select_wf websocket_select_init.
Proof. by split; [apply NoDup_nil_2|vm_compute]. Qed.

Lemma select_shutdown_law d k : select_wf d ->
  select_wf (websocket_select_shutdown (d, k)).1 /\
  forall fd, select_reads (websocket_select_shutdown (d, k)).1 fd = false /\
             select_writes (websocket_select_shutdown (d, k)).1 fd = false.
Proof. intros _. by split; [apply select_init_wf|]. Qed.

#[export] Instance select_laws : DriverLaws select_state := {
  driver_wf := select_wf; reads := select_reads; writes := select_writes;
  shutdown_law := select_shutdown_law;
  watch_read_law := select_watch_read_law; watch_write_law := select_watch_write_law;
  unwatch_write_law := select_unwatch_write_law; unwatch_law := select_unwatch_law;
  wait_law := select_wait_law
}.
