(* ===== verification/PollDriver.v ===== *)
(** * The [poll] driver: [drivers/poll.c]

    [poll(2)] is a kernel answer: the number of ready descriptors and the
    [revents] of the array's entries, in order. *)
From S2P Require Import Prelude Constants Kernel Driver FdTable.

Definition POLLIN : Z := 1.
Definition POLLOUT : Z := 4.

Record pollfd := mk_pollfd { pf_fd : Z; pf_events : Z; pf_revents : Z }.

Record poll_state := mk_poll { poll_fds : list pollfd; poll_fd_capacity : Z }.

Definition websocket_poll_init : poll_state := mk_poll [] 0.
Definition websocket_poll_shutdown (s : poll_state * kernel) : poll_state * kernel := (mk_poll [] 0, s.2).

(** The common body of [websocket_poll_watch_read] and [_write]: [flag] is the
    event they add. *)
Definition poll_watch (flag fd : Z) (s : poll_state * kernel) : bool * (poll_state * kernel) :=
  let '(d, k) := s in
  match find_fd pf_fd fd (poll_fds d) with
  | Some i =>
      (true, (mk_poll (alter (fun e => mk_pollfd (pf_fd e) (Z.lor (pf_events e) flag) (pf_revents e)) i (poll_fds d))
                (poll_fd_capacity d), k))
  | None =>
      let capacity :=
        if zlen (poll_fds d) =? poll_fd_capacity d
        then if 0 <? poll_fd_capacity d then poll_fd_capacity d * 2 else 8
        else poll_fd_capacity d in
      (true, (mk_poll (poll_fds d ++ [mk_pollfd fd flag 0]) capacity, k))
  end.

Definition websocket_poll_watch_read := poll_watch POLLIN.
Definition websocket_poll_watch_write := poll_watch POLLOUT.

Definition websocket_poll_remove_fd_at (i : nat) (d : poll_state) : poll_state :=
  mk_poll (delete i (poll_fds d)) (poll_fd_capacity d).

Definition websocket_poll_unwatch_write (fd : Z) (s : poll_state * kernel) : poll_state * kernel :=
  let '(d, k) := s in
  match find_fd pf_fd fd (poll_fds d) with
  | None => (d, k)
  | Some i =>
      let d := mk_poll (alter (fun e => mk_pollfd (pf_fd e) (Z.land (pf_events e) (Z.lnot POLLOUT)) (pf_revents e))
                          i (poll_fds d)) (poll_fd_capacity d) in
      match poll_fds d !! i with
      | Some e => if pf_events e =? 0 then (websocket_poll_remove_fd_at i d, k) else (d, k)
      | None => (d, k)
      end
  end.

Definition websocket_poll_unwatch (fd : Z) (s : poll_state * kernel) : poll_state * kernel :=
  let '(d, k) := s in
  match find_fd pf_fd fd (poll_fds d) with
  | None => (d, k)
  | Some i => (websocket_poll_remove_fd_at i d, k)
  end.

(** [poll] writes the [revents] of every entry. *)
Fixpoint set_revents (l : list pollfd) (revents : list Z) : list pollfd :=
  match l with
  | [] => []
  | e :: l => mk_pollfd (pf_fd e) (pf_events e) (hd 0 revents) :: set_revents l (tl revents)
  end.

Fixpoint poll_ready (l : list pollfd) : option Z :=
  match l with
  | [] => None
  | e :: l => if negb (pf_revents e =? 0) then Some (pf_fd e) else poll_ready l
  end.

Definition websocket_poll_wait (timeout_usec : Z) (s : poll_state * kernel)
    : (Z * Z) * (poll_state * kernel) :=
  let '(d, k) := s in
  if zlen (poll_fds d) =? 0 then ((-1, -1), (d, set_errno EBADF k)) else
  match syscall k with
  | (AErr _, k) => ((-1, -1), (d, k))
  | (AOk ready revents, k) =>
      let d := mk_poll (set_revents (poll_fds d) revents) (poll_fd_capacity d) in
      if ready <=? 0 then ((ready, -1), (d, k)) else
      ((ready, default (-1) (poll_ready (poll_fds d))), (d, k))
  end.

#[export] Instance poll_driver : Driver poll_state := {
  shutdown := websocket_poll_shutdown;
  watch_read := websocket_poll_watch_read;
  watch_write := websocket_poll_watch_write;
  unwatch_write := websocket_poll_unwatch_write;
  unwatch := websocket_poll_unwatch;
  wait := websocket_poll_wait
}.

(** ** The driver keeps its promises *)

(** Every entry asks for something, and for nothing but reads and writes. *)
Definition events_ok (e : pollfd) : Prop := pf_events e = 1 \/ pf_events e = 4 \/ pf_events e = 5.

Definition poll_wf (d : poll_state) : Prop :=
  distinct_fds pf_fd (poll_fds d) /\ Forall events_ok (poll_fds d) /\
  zlen (poll_fds d) <= poll_fd_capacity d.

Definition poll_interest (flag : Z) (d : poll_state) (fd : Z) : bool :=
  match lookup_fd pf_fd fd (poll_fds d) with
  | Some e => negb (Z.land (pf_events e) flag =? 0)
  | None => false
  end.

Definition poll_reads : poll_state -> Z -> bool := poll_interest POLLIN.
Definition poll_writes : poll_state -> Z -> bool := poll_interest POLLOUT.

Definition is_flag (flag : Z) : Prop := flag = POLLIN \/ flag = POLLOUT.

Lemma events_lor e flag : events_ok e -> is_flag flag ->
  events_ok (mk_pollfd (pf_fd e) (Z.lor (pf_events e) flag) (pf_revents e)).
Proof. unfold events_ok. cbn. intros [-> | [-> | ->]] [-> | ->]; cbn; auto. Qed.

Lemma Forall_delete {A} (P : A -> Prop) i l : Forall P l -> Forall P (delete i l).
Proof.
  intros Hl. revert i. induction Hl as [|x l Hx Hl IH]; intros [|i]; [constructor..|exact Hl|].
  change (delete (S i) (x :: l)) with (x :: delete i l). constructor; auto.
Qed.

(** Watching adds the flag to the descriptor's interest and changes nothing else. *)
Lemma poll_watch_spec flag fd d k : is_flag flag -> poll_wf d ->
  let '(ok, (d', k')) := poll_watch flag fd (d, k) in
  ok = true /\ k' = k /\ poll_wf d' /\ poll_interest flag d' fd = true /\
  (forall f fd', is_flag f -> fd' <> fd \/ f <> flag -> poll_interest f d' fd' = poll_interest f d fd').
Proof.
  intros Hflag (Hd & He & Hc). unfold poll_watch.
  destruct (find_fd pf_fd fd (poll_fds d)) as [i|] eqn:Hi.
  - set (g := fun e => mk_pollfd (pf_fd e) (Z.lor (pf_events e) flag) (pf_revents e)).
    pose proof (lookup_fd_alter pf_fd fd g (poll_fds d) i ltac:(done) Hi) as L.
    destruct (find_fd_Some _ _ _ _ Hi) as (e & Hli & Hk).
    pose proof (lookup_fd_Some pf_fd fd _ i e Hi Hli) as Hle.
    assert (Hee : events_ok e) by (by apply (Forall_lookup_1 _ _ i e He)).
    split_and!; try done.
    + split_and!; cbn [poll_fds poll_fd_capacity].
      * by apply distinct_alter.
      * apply Forall_alter; [done|]. intros x _ Hx. by apply events_lor.
      * unfold zlen in *. by rewrite length_alter.
    + unfold poll_interest. cbn [poll_fds]. rewrite L, Z.eqb_refl, Hle. cbn.
      destruct Hee as [-> | [-> | ->]], Hflag as [-> | ->]; done.
    + intros f fd' Hf Hne. unfold poll_interest. cbn [poll_fds]. rewrite L.
      destruct (Z.eqb_spec fd fd') as [<-|]; [|done]. rewrite Hle. cbn.
      destruct Hne as [?|Hne]; [done|].
      destruct Hee as [-> | [-> | ->]], Hflag as [-> | ->], Hf as [-> | ->]; done.
  - pose proof (proj1 (find_fd_None _ _ _) Hi) as Hn.
    pose proof (fun fd' => lookup_fd_app_new pf_fd fd' (mk_pollfd fd flag 0) (poll_fds d) Hn) as L.
    split_and!; try done.
    + split_and!; cbn [poll_fds poll_fd_capacity].
      * unfold distinct_fds. rewrite map_app. apply NoDup_app. split; [done|]. split; [|apply NoDup_singleton].
        intros fd' Hin ->%list_elem_of_singleton. by apply Hn.
      * apply Forall_app. split; [done|]. apply Forall_singleton.
        unfold events_ok. cbn. destruct Hflag as [-> | ->]; auto.
      * rewrite zlen_app. change (zlen [_]) with 1. pose proof (zlen_nonneg (poll_fds d)).
        destruct (Z.eqb_spec (zlen (poll_fds d)) (poll_fd_capacity d)); [case_match; lia|lia].
    + unfold poll_interest. cbn [poll_fds]. rewrite L, Z.eqb_refl. cbn. by destruct Hflag as [-> | ->].
    + intros f fd' Hf Hne. unfold poll_interest. cbn [poll_fds]. rewrite L. cbn [pf_fd].
      destruct (Z.eqb_spec fd fd') as [<-|]; [|done]. rewrite (lookup_fd_None _ _ _ Hi). cbn.
      destruct Hne as [?|Hne]; [done|]. by destruct Hflag as [-> | ->], Hf as [-> | ->].
Qed.

Lemma poll_watch_read_law fd d k : poll_wf d ->
  let '(ok, (d', k')) := websocket_poll_watch_read fd (d, k) in
  poll_wf d' /\ driver_step k k' /\
  (if ok then poll_reads d' fd = true else k_errno k' <> ENOBUFS) /\
  (forall fd', fd' <> fd \/ poll_writes d fd' = false -> poll_writes d' fd' = poll_writes d fd') /\
  (forall fd', fd' <> fd \/ ok = false -> poll_reads d' fd' = poll_reads d fd').
Proof.
  intros Hd. pose proof (poll_watch_spec POLLIN fd d k (or_introl eq_refl) Hd) as S.
  unfold websocket_poll_watch_read. destruct (poll_watch POLLIN fd (d, k)) as [ok [d' k']].
  destruct S as (-> & -> & Hw & Hr & Ho). split_and!; try done.
  - intros fd' _. apply Ho; [by right|by right].
  - intros fd' [Hne|]; [|done]. apply Ho; [by left|by left].
Qed.

Lemma poll_watch_write_law fd d k : poll_wf d ->
  let '(ok, (d', k')) := websocket_poll_watch_write fd (d, k) in
  poll_wf d' /\ driver_step k k' /\
  (if ok then poll_writes d' fd = true else k_errno k' <> ENOBUFS) /\
  (forall fd', fd' <> fd \/ ok = false ->
     poll_writes d' fd' = poll_writes d fd' /\ poll_reads d' fd' = poll_reads d fd') /\
  (poll_reads d fd = true -> poll_reads d' fd = true).
Proof.
  intros Hd. pose proof (poll_watch_spec POLLOUT fd d k (or_intror eq_refl) Hd) as S.
  unfold websocket_poll_watch_write. destruct (poll_watch POLLOUT fd (d, k)) as [ok [d' k']].
  destruct S as (-> & -> & Hw & Hr & Ho). split_and!; try done.
  - intros fd' [Hne|]; [|done]. split; apply Ho; first [by left|by right].
  - intros Hrd. unfold poll_reads. rewrite Ho; [done|by left|by right].
Qed.

(** Removing the entry of [fd]. *)
Lemma poll_remove fd i d :
  poll_wf d -> find_fd pf_fd fd (poll_fds d) = Some i ->
  let d' := websocket_poll_remove_fd_at i d in
  poll_wf d' /\ (forall f, poll_interest f d' fd = false) /\
  (forall f fd', fd' <> fd -> poll_interest f d' fd' = poll_interest f d fd').
Proof.
  intros (Hd & He & Hc) Hi. pose proof (lookup_fd_delete pf_fd fd (poll_fds d) i Hd Hi) as L.
  split_and!.
  - split_and!; cbn; [by apply distinct_delete|by apply Forall_delete|].
    pose proof (zlen_delete_le i (poll_fds d)). lia.
  - intros f. unfold poll_interest. cbn [websocket_poll_remove_fd_at poll_fds]. by rewrite L, Z.eqb_refl.
  - intros f fd' Hne. unfold poll_interest. cbn [websocket_poll_remove_fd_at poll_fds]. rewrite L.
    apply not_eq_sym, Z.eqb_neq in Hne. by rewrite Hne.
Qed.

Lemma poll_unwatch_law fd d k : poll_wf d ->
  let '(d', k') := websocket_poll_unwatch fd (d, k) in
  poll_wf d' /\ driver_step k k' /\ k_errno k' = k_errno k /\
  poll_writes d' fd = false /\ poll_reads d' fd = false /\
  (forall fd', fd' <> fd -> poll_writes d' fd' = poll_writes d fd' /\ poll_reads d' fd' = poll_reads d fd').
Proof.
  intros Hd. unfold websocket_poll_unwatch.
  destruct (find_fd pf_fd fd (poll_fds d)) as [i|] eqn:Hi.
  - destruct (poll_remove fd i d Hd Hi) as (? & Hno & Ho). unfold poll_writes, poll_reads. split_and!; auto; done.
  - unfold poll_writes, poll_reads, poll_interest. rewrite (lookup_fd_None _ _ _ Hi). by split_and!.
Qed.

Lemma poll_unwatch_write_law fd d k : poll_wf d ->
  let '(d', k') := websocket_poll_unwatch_write fd (d, k) in
  poll_wf d' /\ driver_step k k' /\ k_errno k' = k_errno k /\
  poll_writes d' fd = false /\ (poll_reads d fd = true -> poll_reads d' fd = true) /\
  (forall fd', fd' <> fd -> poll_writes d' fd' = poll_writes d fd' /\ poll_reads d' fd' = poll_reads d fd').
Proof.
  intros Hd. unfold websocket_poll_unwatch_write.
  destruct (find_fd pf_fd fd (poll_fds d)) as [i|] eqn:Hi.
  2:{ split_and!; try done. unfold poll_writes, poll_interest. by rewrite (lookup_fd_None _ _ _ Hi). }
  destruct (find_fd_Some _ _ _ _ Hi) as (e & Hli & Hk). pose proof Hd as (Hdis & Hev & Hc).
  pose proof (lookup_fd_Some pf_fd fd _ i e Hi Hli) as Hle.
  assert (Hee : events_ok e) by (by apply (Forall_lookup_1 _ _ i e Hev)).
  set (g := fun e => mk_pollfd (pf_fd e) (Z.land (pf_events e) (Z.lnot POLLOUT)) (pf_revents e)).
  pose proof (lookup_fd_alter pf_fd fd g (poll_fds d) i ltac:(done) Hi) as L.
  cbn [poll_fds]. rewrite list_lookup_alter_eq, Hli. cbn [fmap option_fmap option_map g pf_events].
  assert (Hread : poll_reads d fd = negb (Z.land (pf_events e) POLLIN =? 0))
    by (unfold poll_reads, poll_interest; by rewrite Hle).
  destruct (Z.eqb_spec (Z.land (pf_events e) (Z.lnot POLLOUT)) 0) as [Hz|Hnz].
  - (* the descriptor was watched for writes only: the entry goes *)
    assert (He4 : pf_events e = 4) by (destruct Hee as [E | [E | E]]; rewrite E in Hz; done).
    change (websocket_poll_remove_fd_at i (mk_poll (alter g i (poll_fds d)) (poll_fd_capacity d)))
      with (mk_poll (delete i (alter g i (poll_fds d))) (poll_fd_capacity d)).
    assert (Hdel : delete i (alter g i (poll_fds d)) = delete i (poll_fds d)).
    { clear. revert i. induction (poll_fds d) as [|x l IH]; intros [|i]; [done..|].
      change (x :: delete i (alter g i l) = x :: delete i l). by rewrite IH. }
    rewrite Hdel. destruct (poll_remove fd i d Hd Hi) as (W & Hno & Ho).
    unfold poll_writes. split_and!; try done; [by rewrite Hread, He4|].
    intros fd' Hne. split; by apply Ho.
  - assert (H15 : pf_events e = 1 \/ pf_events e = 5) by (destruct Hee as [E | [E | E]]; rewrite E in Hnz; auto; done).
    split_and!; try done.
    + split_and!; cbn [poll_fds poll_fd_capacity].
      * by apply distinct_alter.
      * apply Forall_alter; [done|]. intros x Hx _. rewrite Hli in Hx. injection Hx as <-.
        unfold events_ok. cbn. by destruct H15 as [-> | ->]; left.
      * unfold zlen in *. by rewrite length_alter.
    + unfold poll_writes, poll_interest. cbn [poll_fds]. rewrite L, Z.eqb_refl, Hle. cbn.
      by destruct H15 as [-> | ->].
    + intros _. unfold poll_reads, poll_interest. cbn [poll_fds]. rewrite L, Z.eqb_refl, Hle. cbn.
      by destruct H15 as [-> | ->].
    + intros fd' Hne. unfold poll_writes, poll_reads, poll_interest. cbn [poll_fds]. rewrite L.
      apply not_eq_sym, Z.eqb_neq in Hne. by rewrite Hne.
Qed.

Lemma set_revents_lookup l revents fd :
  (pf_events <$> lookup_fd pf_fd fd (set_revents l revents)) = pf_events <$> lookup_fd pf_fd fd l.
Proof.
  revert revents. induction l as [|e l IH]; intros revents; cbn [set_revents]; [done|].
  rewrite !lookup_fd_cons. cbn [pf_fd]. by destruct (pf_fd e =? fd).
Qed.

Lemma set_revents_wf l revents :
  (distinct_fds pf_fd l -> distinct_fds pf_fd (set_revents l revents)) /\
  (Forall events_ok l -> Forall events_ok (set_revents l revents)) /\
  zlen (set_revents l revents) = zlen l.
Proof.
  assert (Hmap : map pf_fd (set_revents l revents) = map pf_fd l).
  { revert revents. induction l as [|e l IH]; intros r; cbn; [done|]. by rewrite IH. }
  split_and!.
  - unfold distinct_fds. by rewrite Hmap.
  - revert revents Hmap. induction l as [|e l IH]; intros r Hmap; cbn [set_revents]; [done|].
    injection Hmap as Hmap. intros [He Hl]%Forall_cons. constructor; [done|by apply IH].
  - apply (f_equal zlen) in Hmap. unfold zlen in *. by rewrite !length_map in Hmap.
Qed.

Lemma poll_interest_revents f d revents fd :
  poll_interest f (mk_poll (set_revents (poll_fds d) revents) (poll_fd_capacity d)) fd = poll_interest f d fd.
Proof.
  unfold poll_interest. cbn [poll_fds]. pose proof (set_revents_lookup (poll_fds d) revents fd) as E.
  destruct (lookup_fd pf_fd fd (set_revents _ _)), (lookup_fd pf_fd fd (poll_fds d)); try done.
  injection E as E. by rewrite E.
Qed.

Lemma poll_ready_in l fd : poll_ready l = Some fd -> exists e, e ∈ l /\ pf_fd e = fd.
Proof.
  induction l as [|e l IH]; cbn; [done|]. destruct (negb _).
  - intros [= <-]. exists e. split; [by left|done].
  - intros H. destruct (IH H) as (x & ? & ?). exists x. split; [by right|done].
Qed.

Lemma poll_wait_law timeout d k : poll_wf d ->
  let '((r, fd), (d', k')) := websocket_poll_wait timeout (d, k) in
  poll_wf d' /\ driver_step k k' /\
  (forall fd', poll_writes d' fd' = poll_writes d fd' /\ poll_reads d' fd' = poll_reads d fd') /\
  (fd = -1 \/ (0 < r /\ (poll_reads d fd = true \/ poll_writes d fd = true))) /\
  ((length (k_answers k') < length (k_answers k))%nat \/ (r < 0 /\ k_errno k' <> EINTR)).
Proof.
  intros Hd. unfold websocket_poll_wait.
  destruct (_ =? 0); [split_and!; try done; [apply driver_step_errno|by left|by right]|].
  pose proof (syscall_step k) as Hs. pose proof (syscall_progress k) as Hp.
  destruct (syscall k) as [[ready revents|e] k1]; cbn in Hs, Hp.
  2:{ split_and!; auto. destruct Hp as [?|[_ He]]; [by left|right; by rewrite He]. }
  destruct Hp as [Hp|[? _]]; [|done].
  set (d1 := mk_poll _ _).
  assert (W1 : poll_wf d1).
  { destruct Hd as (H1 & H2 & H3). destruct (set_revents_wf (poll_fds d) revents) as (E1 & E2 & E3).
    split_and!; cbn; auto. by rewrite E3. }
  assert (Hsame : forall fd', poll_writes d1 fd' = poll_writes d fd' /\ poll_reads d1 fd' = poll_reads d fd')
    by (intros; split; apply poll_interest_revents).
  destruct (Z.leb_spec ready 0); [by split_and!; auto|]. split_and!; try done; [|by left].
  destruct (poll_ready (poll_fds d1)) as [fd|] eqn:Er; [|by left].
  change (default (-1) (Some fd)) with fd. right. split; [lia|].
  destruct (Hsame fd) as [<- <-]. apply poll_ready_in in Er as (e & Hin & <-).
  unfold poll_reads, poll_writes, poll_interest. rewrite (lookup_fd_in pf_fd e) by (apply W1 || done).
  destruct W1 as (_ & Hev & _). destruct (proj1 (Forall_forall _ _) Hev e Hin) as [-> | [-> | ->]]; auto.
Qed.

Lemma poll_init_wf : poll_wf websocket_poll_init.
Proof. by split_and!; [apply NoDup_nil_2|constructor|vm_compute]. Qed.

Lemma poll_shutdown_law d k : poll_wf d ->
  poll_wf (websocket_poll_shutdown (d, k)).1 /\
  forall fd, poll_reads (websocket_poll_shutdown (d, k)).1 fd = false /\
             poll_writes (websocket_poll_shutdown (d, k)).1 fd = false.
Proof. intros _. by split; [apply poll_init_wf|]. Qed.

#[export] Instance poll_laws : DriverLaws poll_state := {
  driver_wf := poll_wf; reads := poll_reads; writes := poll_writes;
  shutdown_law := poll_shutdown_law;
  watch_read_law := poll_watch_read_law; watch_write_law := poll_watch_write_law;
  unwatch_write_law := poll_unwatch_write_law; unwatch_law := poll_unwatch_law;
  wait_law := poll_wait_law
}.

