(* ===== verification/EpollDriver.v ===== *)
(** * The [epoll] driver: [drivers/epoll.c]

    The interest list belongs to the kernel: it is the object [epoll_fd] names,
    and is kept here beside the descriptor.  [epoll_ctl] decides itself between
    [EEXIST], [ENOENT] and success; whether a new descriptor can be added is the
    kernel's answer, and so is the event [epoll_wait] reports. *)
From stdpp Require Import gmap.
From S2P Require Import Prelude Constants Kernel Driver.

Definition EPOLLIN : Z := 1.
Definition EPOLLOUT : Z := 4.

Record epoll_state := mk_epoll { epoll_fd : Z; epoll_interest : gmap Z Z }.

Definition set_epoll_interest (l : gmap Z Z) (d : epoll_state) : epoll_state := mk_epoll (epoll_fd d) l.

Inductive epoll_op : Type := EPOLL_CTL_ADD | EPOLL_CTL_MOD | EPOLL_CTL_DEL.

(** [ENOBUFS] is not among the documented errors of [epoll_ctl]. *)
Definition epoll_errno (e : Z) : Z := if e =? ENOBUFS then ENOENT else e.

(** [epoll_ctl(2)]: [true] is 0, [false] is -1. *)
Definition epoll_ctl (op : epoll_op) (fd events : Z) (s : epoll_state * kernel) : bool * (epoll_state * kernel) :=
  let '(d, k) := s in
  match op, epoll_interest d !! fd with
  | EPOLL_CTL_ADD, Some _ => (false, (d, set_errno EEXIST k))
  | EPOLL_CTL_ADD, None =>
      match syscall k with
      | (AErr e, k) => (false, (d, set_errno (epoll_errno e) k))
      | (AOk _ _, k) => (true, (set_epoll_interest (<[fd := events]> (epoll_interest d)) d, k))
      end
  | _, None => (false, (d, set_errno ENOENT k))
  | EPOLL_CTL_MOD, Some _ => (true, (set_epoll_interest (<[fd := events]> (epoll_interest d)) d, k))
  | EPOLL_CTL_DEL, Some _ => (true, (set_epoll_interest (delete fd (epoll_interest d)) d, k))
  end.

Definition websocket_epoll_init (k : kernel) : option epoll_state * kernel :=
  match syscall k with
  | (AErr _, k) => (None, k)
  | (AOk fd _, k) => if fd <? 0 then (None, k) else (Some (mk_epoll fd ∅), k)
  end.

Definition websocket_epoll_shutdown (s : epoll_state * kernel) : epoll_state * kernel :=
  let '(d, k) := s in
  if 0 <=? epoll_fd d then (mk_epoll (-1) ∅, close_retry (epoll_fd d) k) else (d, k).

Definition websocket_epoll_watch_read (fd : Z) (s : epoll_state * kernel) : bool * (epoll_state * kernel) :=
  let '(d, k) := s in
  if epoll_fd d <? 0 then (false, (d, set_errno EBADF k)) else
  let '(ok, (d, k)) := epoll_ctl EPOLL_CTL_ADD fd EPOLLIN (d, k) in
  if ok then (true, (d, k)) else
  if negb (k_errno k =? EEXIST) then (false, (d, k)) else
  epoll_ctl EPOLL_CTL_MOD fd EPOLLIN (d, k).

Definition websocket_epoll_watch_write (fd : Z) (s : epoll_state * kernel) : bool * (epoll_state * kernel) :=
  let '(d, k) := s in
  if epoll_fd d <? 0 then (false, (d, set_errno EBADF k)) else
  let '(ok, (d, k)) := epoll_ctl EPOLL_CTL_MOD fd (Z.lor EPOLLIN EPOLLOUT) (d, k) in
  if ok then (true, (d, k)) else
  if negb (k_errno k =? ENOENT) then (false, (d, k)) else
  epoll_ctl EPOLL_CTL_ADD fd (Z.lor EPOLLIN EPOLLOUT) (d, k).

Definition websocket_epoll_unwatch_write (fd : Z) (s : epoll_state * kernel) : epoll_state * kernel :=
  let '(d, k) := s in
  let saved_errno := k_errno k in
  let '(d, k) := if 0 <=? epoll_fd d then (epoll_ctl EPOLL_CTL_MOD fd EPOLLIN (d, k)).2 else (d, k) in
  (d, set_errno saved_errno k).

Definition websocket_epoll_unwatch (fd : Z) (s : epoll_state * kernel) : epoll_state * kernel :=
  let '(d, k) := s in
  let saved_errno := k_errno k in
  let '(d, k) := if 0 <=? epoll_fd d then (epoll_ctl EPOLL_CTL_DEL fd 0 (d, k)).2 else (d, k) in
  (d, set_errno saved_errno k).

(** [epoll_wait(epoll_fd, &event, 1, timeout)]: at most one event is asked for; the
    answer's data names its descriptor, which the kernel takes from the interest
    list. *)
Definition websocket_epoll_wait (timeout_usec : Z) (s : epoll_state * kernel) : (Z * Z) * (epoll_state * kernel) :=
  let '(d, k) := s in
  if epoll_fd d <? 0 then ((-1, -1), (d, set_errno EBADF k)) else
  match syscall k with
  | (AErr _, k) => ((-1, -1), (d, k))
  | (AOk _ data, k) =>
      match data with
      | fd :: _ => if bool_decide (is_Some (epoll_interest d !! fd)) then ((1, fd), (d, k)) else ((0, -1), (d, k))
      | [] => ((0, -1), (d, k))
      end
  end.

#[export] Instance epoll_driver : Driver epoll_state := {
  shutdown := websocket_epoll_shutdown;
  watch_read := websocket_epoll_watch_read;
  watch_write := websocket_epoll_watch_write;
  unwatch_write := websocket_epoll_unwatch_write;
  unwatch := websocket_epoll_unwatch;
  wait := websocket_epoll_wait
}.

(** ** The driver keeps its promises *)

Definition epoll_events_ok (e : Z) : Prop := e = EPOLLIN \/ e = Z.lor EPOLLIN EPOLLOUT.

(** The interest list exists while [epoll_fd] is open, and every entry waits for
    reads. *)
Definition epoll_wf (d : epoll_state) : Prop :=
  (epoll_fd d < 0 -> epoll_interest d = ∅) /\ map_Forall (fun _ e => epoll_events_ok e) (epoll_interest d).

Definition epoll_flag (flag : Z) (d : epoll_state) (fd : Z) : bool :=
  match epoll_interest d !! fd with Some e => negb (Z.land e flag =? 0) | None => false end.
Definition epoll_reads : epoll_state -> Z -> bool := epoll_flag EPOLLIN.
Definition epoll_writes : epoll_state -> Z -> bool := epoll_flag EPOLLOUT.

Lemma epoll_set_wf fd events d : epoll_wf d -> 0 <= epoll_fd d -> epoll_events_ok events ->
  epoll_wf (set_epoll_interest (<[fd := events]> (epoll_interest d)) d).
Proof. intros [H1 H2] Hfd He. split; cbn; [lia|]. by apply map_Forall_insert_2. Qed.

Lemma epoll_flag_set flag fd events d fd' :
  epoll_flag flag (set_epoll_interest (<[fd := events]> (epoll_interest d)) d) fd' =
  if decide (fd = fd') then negb (Z.land events flag =? 0) else epoll_flag flag d fd'.
Proof.
  unfold epoll_flag. cbn. destruct (decide (fd = fd')) as [<-|Hne]; [by rewrite lookup_insert_eq|by rewrite lookup_insert_ne].
Qed.

Lemma epoll_absent flag fd d : epoll_interest d !! fd = None -> epoll_flag flag d fd = false.
Proof. unfold epoll_flag. by intros ->. Qed.

(** What an attempt to set the events of a descriptor leads to. *)
Definition epoll_outcome (fd events : Z) (d : epoll_state) (k : kernel) (r : bool * (epoll_state * kernel)) : Prop :=
  let '(ok, (d', k')) := r in
  driver_step k k' /\ d' = (if ok then set_epoll_interest (<[fd := events]> (epoll_interest d)) d else d) /\
  (ok = false -> k_errno k' <> ENOBUFS).

Lemma epoll_add_outcome fd events d k : epoll_outcome fd events d k (epoll_ctl EPOLL_CTL_ADD fd events (d, k)).
Proof.
  unfold epoll_ctl. destruct (epoll_interest d !! fd) as [e|].
  - split; [apply driver_step_errno|]. split; [done|]. by intros _.
  - pose proof (syscall_step k) as Hs. destruct (syscall k) as [[n data|e] k1]; cbn in Hs; [by split_and!|].
    split; [etrans; [exact Hs|apply driver_step_errno]|]. split; [done|]. intros _. cbn. unfold epoll_errno.
    by destruct (Z.eqb_spec e ENOBUFS).
Qed.

Lemma epoll_mod_outcome fd events d k : epoll_outcome fd events d k (epoll_ctl EPOLL_CTL_MOD fd events (d, k)).
Proof.
  unfold epoll_ctl. destruct (epoll_interest d !! fd) as [e|]; [by split_and!|].
  split; [apply driver_step_errno|]. split; [done|]. by intros _.
Qed.

(** A second attempt after a failed one. *)
Lemma epoll_outcome_retry fd events d k d1 k1 r :
  epoll_outcome fd events d k (false, (d1, k1)) -> epoll_outcome fd events d1 k1 r -> epoll_outcome fd events d k r.
Proof.
  intros (S1 & -> & _). destruct r as [ok [d2 k2]]. intros (S2 & E2 & He). split; [by etrans|done].
Qed.

Lemma epoll_watch_read_outcome fd d k : 0 <= epoll_fd d ->
  epoll_outcome fd EPOLLIN d k (websocket_epoll_watch_read fd (d, k)).
Proof.
  intros Hfd. unfold websocket_epoll_watch_read. replace (epoll_fd d <? 0) with false by lia.
  pose proof (epoll_add_outcome fd EPOLLIN d k) as O. destruct (epoll_ctl _ _ _ _) as [[] [d1 k1]]; [exact O|].
  destruct (negb _); [exact O|]. eapply epoll_outcome_retry; [exact O|apply epoll_mod_outcome].
Qed.

Lemma epoll_watch_write_outcome fd d k : 0 <= epoll_fd d ->
  epoll_outcome fd (Z.lor EPOLLIN EPOLLOUT) d k (websocket_epoll_watch_write fd (d, k)).
Proof.
  intros Hfd. unfold websocket_epoll_watch_write. replace (epoll_fd d <? 0) with false by lia.
  pose proof (epoll_mod_outcome fd (Z.lor EPOLLIN EPOLLOUT) d k) as O.
  destruct (epoll_ctl _ _ _ _) as [[] [d1 k1]]; [exact O|].
  destruct (negb _); [exact O|]. eapply epoll_outcome_retry; [exact O|apply epoll_add_outcome].
Qed.

Lemma epoll_watch_read_law fd d k : epoll_wf d ->
  let '(ok, (d', k')) := websocket_epoll_watch_read fd (d, k) in
  epoll_wf d' /\ driver_step k k' /\
  (if ok then epoll_reads d' fd = true else k_errno k' <> ENOBUFS) /\
  (forall fd', fd' <> fd \/ epoll_writes d fd' = false -> epoll_writes d' fd' = epoll_writes d fd') /\
  (forall fd', fd' <> fd \/ ok = false -> epoll_reads d' fd' = epoll_reads d fd').
Proof.
  intros W. destruct (Z.ltb_spec (epoll_fd d) 0) as [Hneg|Hfd].
  { unfold websocket_epoll_watch_read. replace (epoll_fd d <? 0) with true by lia.
    split; [done|]. split; [apply driver_step_errno|]. by split_and!. }
  pose proof (epoll_watch_read_outcome fd d k Hfd) as O. destruct (websocket_epoll_watch_read _ _) as [ok [d' k']].
  destruct O as (St & -> & He). destruct ok.
  - split; [apply epoll_set_wf; [done..|by left]|]. split; [done|]. unfold epoll_reads, epoll_writes. split_and!.
    + by rewrite epoll_flag_set, decide_True.
    + intros fd' Hne. rewrite epoll_flag_set. destruct (decide (fd = fd')) as [<-|]; [|done].
      destruct Hne as [?|E]; [done|]. by rewrite E.
    + intros fd' [Hne|]; [|done]. by rewrite epoll_flag_set, decide_False by congruence.
  - split_and!; auto.
Qed.

Lemma epoll_watch_write_law fd d k : epoll_wf d ->
  let '(ok, (d', k')) := websocket_epoll_watch_write fd (d, k) in
  epoll_wf d' /\ driver_step k k' /\
  (if ok then epoll_writes d' fd = true else k_errno k' <> ENOBUFS) /\
  (forall fd', fd' <> fd \/ ok = false ->
     epoll_writes d' fd' = epoll_writes d fd' /\ epoll_reads d' fd' = epoll_reads d fd') /\
  (epoll_reads d fd = true -> epoll_reads d' fd = true).
Proof.
  intros W. destruct (Z.ltb_spec (epoll_fd d) 0) as [Hneg|Hfd].
  { unfold websocket_epoll_watch_write. replace (epoll_fd d <? 0) with true by lia.
    split; [done|]. split; [apply driver_step_errno|]. by split_and!. }
  pose proof (epoll_watch_write_outcome fd d k Hfd) as O. destruct (websocket_epoll_watch_write _ _) as [ok [d' k']].
  destruct O as (St & -> & He). destruct ok.
  - split; [apply epoll_set_wf; [done..|by right]|]. split; [done|]. unfold epoll_reads, epoll_writes. split_and!.
    + by rewrite epoll_flag_set, decide_True.
    + intros fd' [Hne|]; [|done]. by rewrite !epoll_flag_set, !decide_False by congruence.
    + intros _. by rewrite epoll_flag_set, decide_True.
  - split_and!; auto.
Qed.

Lemma epoll_unwatch_write_law fd d k : epoll_wf d ->
  let '(d', k') := websocket_epoll_unwatch_write fd (d, k) in
  epoll_wf d' /\ driver_step k k' /\ k_errno k' = k_errno k /\
  epoll_writes d' fd = false /\ (epoll_reads d fd = true -> epoll_reads d' fd = true) /\
  (forall fd', fd' <> fd -> epoll_writes d' fd' = epoll_writes d fd' /\ epoll_reads d' fd' = epoll_reads d fd').
Proof.
  intros W. unfold websocket_epoll_unwatch_write, epoll_writes, epoll_reads.
  assert (Hno : epoll_interest d !! fd = None -> epoll_wf d /\ epoll_flag EPOLLOUT d fd = false)
    by (intros E; split; [done|by apply epoll_absent]).
  destruct (Z.leb_spec 0 (epoll_fd d)) as [Hfd|Hneg].
  2:{ destruct Hno as [_ E]; [by rewrite (proj1 W Hneg), lookup_empty|]. split; [done|]. split; [apply driver_step_errno|]. by split_and!. }
  unfold epoll_ctl. destruct (epoll_interest d !! fd) as [e|] eqn:El; cbn [snd].
  - split; [by apply epoll_set_wf; [..|left]|]. split; [apply driver_step_errno|]. split_and!; [done|..].
    + by rewrite epoll_flag_set, decide_True.
    + intros _. by rewrite epoll_flag_set, decide_True.
    + intros fd' Hne. by rewrite !epoll_flag_set, !decide_False by congruence.
  - destruct (Hno eq_refl) as [_ E]. split; [done|]. split; [by repeat apply driver_step_then_errno|]. by split_and!.
Qed.

Lemma epoll_unwatch_law fd d k : epoll_wf d ->
  let '(d', k') := websocket_epoll_unwatch fd (d, k) in
  epoll_wf d' /\ driver_step k k' /\ k_errno k' = k_errno k /\
  epoll_writes d' fd = false /\ epoll_reads d' fd = false /\
  (forall fd', fd' <> fd -> epoll_writes d' fd' = epoll_writes d fd' /\ epoll_reads d' fd' = epoll_reads d fd').
Proof.
  intros W. unfold websocket_epoll_unwatch, epoll_writes, epoll_reads.
  assert (Hno : epoll_interest d !! fd = None -> epoll_flag EPOLLOUT d fd = false /\ epoll_flag EPOLLIN d fd = false)
    by (intros E; split; by apply epoll_absent).
  destruct (Z.leb_spec 0 (epoll_fd d)) as [Hfd|Hneg].
  2:{ destruct Hno as [E1 E2]; [by rewrite (proj1 W Hneg), lookup_empty|]. split; [done|]. split; [apply driver_step_errno|]. by split_and!. }
  unfold epoll_ctl. destruct (epoll_interest d !! fd) as [e|] eqn:El; cbn [snd].
  - assert (L : forall flag fd', epoll_flag flag (set_epoll_interest (delete fd (epoll_interest d)) d) fd' =
      if decide (fd = fd') then false else epoll_flag flag d fd').
    { intros flag fd'. unfold epoll_flag. cbn.
      destruct (decide (fd = fd')) as [<-|]; [by rewrite lookup_delete_eq|by rewrite lookup_delete_ne]. }
    split; [destruct W as [W1 W2]; split; cbn; [lia|by apply map_Forall_delete]|].
    split; [apply driver_step_errno|]. split_and!; [done|..].
    + by rewrite L, decide_True.
    + by rewrite L, decide_True.
    + intros fd' Hne. by rewrite !L, !decide_False by congruence.
  - destruct (Hno eq_refl) as [E1 E2]. split; [done|]. split; [by repeat apply driver_step_then_errno|]. by split_and!.
Qed.

Lemma epoll_member d fd : epoll_wf d -> is_Some (epoll_interest d !! fd) -> epoll_reads d fd = true.
Proof.
  intros [_ W] [e He]. unfold epoll_reads, epoll_flag. rewrite He.
  destruct (map_Forall_lookup_1 _ _ _ _ W He) as [-> | ->]; done.
Qed.

Lemma epoll_wait_law timeout d k : epoll_wf d ->
  let '((r, fd), (d', k')) := websocket_epoll_wait timeout (d, k) in
  epoll_wf d' /\ driver_step k k' /\
  (forall fd', epoll_writes d' fd' = epoll_writes d fd' /\ epoll_reads d' fd' = epoll_reads d fd') /\
  (fd = -1 \/ (0 < r /\ (epoll_reads d fd = true \/ epoll_writes d fd = true))) /\
  ((length (k_answers k') < length (k_answers k))%nat \/ (r < 0 /\ k_errno k' <> EINTR)).
Proof.
  intros W. unfold websocket_epoll_wait. destruct (_ <? _).
  { split; [done|]. split; [apply driver_step_errno|]. split_and!; [done|by left|by right]. }
  pose proof (syscall_step k) as Hs. pose proof (syscall_progress k) as Hp.
  destruct (syscall k) as [[n data|e] k1]; cbn in Hs, Hp.
  2:{ split; [done|]. split; [done|]. split_and!; [done|by left|]. destruct Hp as [?|[_ He]]; [by left|right; by rewrite He]. }
  destruct Hp as [Hp|[? _]]; [|done]. destruct data as [|fd data]; [by split_and!; auto|].
  case_bool_decide as Hfd; [|by split_and!; auto].
  split; [done|]. split; [done|]. split_and!; [done| |by left]. right. split; [lia|]. left. by apply epoll_member.
Qed.

Lemma epoll_shutdown_law d k : epoll_wf d ->
  epoll_wf (websocket_epoll_shutdown (d, k)).1 /\
  forall fd, epoll_reads (websocket_epoll_shutdown (d, k)).1 fd = false /\
             epoll_writes (websocket_epoll_shutdown (d, k)).1 fd = false.
Proof.
  intros W. unfold websocket_epoll_shutdown. destruct (Z.leb_spec 0 (epoll_fd d)); cbn [fst].
  - split; [split; [done|apply map_Forall_empty]|done].
  - split; [done|]. intros fd. by split; apply epoll_absent; rewrite (proj1 W).
Qed.

#[export] Instance epoll_laws : DriverLaws epoll_state := {
  driver_wf := epoll_wf; reads := epoll_reads; writes := epoll_writes;
  shutdown_law := epoll_shutdown_law;
  watch_read_law := epoll_watch_read_law; watch_write_law := epoll_watch_write_law;
  unwatch_write_law := epoll_unwatch_write_law; unwatch_law := epoll_unwatch_law;
  wait_law := epoll_wait_law
}.

Lemma epoll_init_law : init_law websocket_epoll_init.
Proof.
  intros k. unfold websocket_epoll_init. pose proof (syscall_step k) as Hs.
  destruct (syscall k) as [[n data|e] k1]; cbn in Hs; [|done].
  destruct (n <? 0); [done|]. split; [done|]. intros d [= <-]. split; [|done].
  split; [done|apply map_Forall_empty].
Qed.
