(* ===== verification/KqueueDriver.v ===== *)
(** * The [kqueue] driver: [drivers/kqueue.c]

    The registered events belong to the kernel: they are the object [kqueue_fd]
    names, kept here as one set of descriptors per filter.  Whether an event can
    be added, a signal interrupting a call, and the event a wait reports are the
    kernel's answers; deleting a registered event succeeds unless interrupted. *)
From stdpp Require Import gmap.
From S2P Require Import Prelude Constants Kernel Driver.

Definition EIO : Z := 5.
Definition EV_ERROR : Z := 16384.

Inductive kqueue_filter : Type := EVFILT_READ | EVFILT_WRITE.

#[export] Instance kqueue_filter_eq_dec : EqDecision kqueue_filter.
Proof. solve_decision. Defined.

Record kqueue_state := mk_kqueue { kqueue_fd : Z; kq_reads : gset Z; kq_writes : gset Z }.

(** The descriptors of a filter, and their replacement. *)
Definition kq_events (filter : kqueue_filter) (d : kqueue_state) : gset Z :=
  match filter with EVFILT_READ => kq_reads d | EVFILT_WRITE => kq_writes d end.
Definition set_kq_events (filter : kqueue_filter) (s : gset Z) (d : kqueue_state) : kqueue_state :=
  match filter with
  | EVFILT_READ => mk_kqueue (kqueue_fd d) s (kq_writes d)
  | EVFILT_WRITE => mk_kqueue (kqueue_fd d) (kq_reads d) s
  end.

Definition websocket_kqueue_init (k : kernel) : option kqueue_state * kernel :=
  match syscall k with
  | (AErr _, k) => (None, k)
  | (AOk fd _, k) => if fd <? 0 then (None, k) else (Some (mk_kqueue fd ∅ ∅), k)
  end.

Definition websocket_kqueue_shutdown (s : kqueue_state * kernel) : kqueue_state * kernel :=
  let '(d, k) := s in
  if 0 <=? kqueue_fd d then (mk_kqueue (-1) ∅ ∅, close_retry (kqueue_fd d) k) else (d, k).

(** [ENOBUFS] is not among the documented errors of [kevent]. *)
Definition kqueue_errno (e : Z) : Z := if e =? ENOBUFS then ENOENT else e.

(** The loop that adds an event, as long as a signal interrupts it. *)
Fixpoint kqueue_add_loop (fuel : nat) (filter : kqueue_filter) (fd : Z) (s : kqueue_state * kernel)
    : bool * (kqueue_state * kernel) :=
  match fuel with
  | O => (false, s)
  | S fuel =>
    let '(d, k) := s in
    match syscall k with
    | (AOk _ _, k) => (true, (set_kq_events filter ({[fd]} ∪ kq_events filter d) d, k))
    | (AErr e, k) =>
        if e =? EINTR then kqueue_add_loop fuel filter fd (d, k)
        else (false, (d, set_errno (kqueue_errno e) k))
    end
  end.

(** The common body of [websocket_kqueue_watch_read] and [_write]. *)
Definition kqueue_watch (filter : kqueue_filter) (fd : Z) (s : kqueue_state * kernel) : bool * (kqueue_state * kernel) :=
  let '(d, k) := s in
  if kqueue_fd d <? 0 then (false, (d, set_errno EBADF k)) else
  kqueue_add_loop (S (length (k_answers k))) filter fd (d, k).

Definition websocket_kqueue_watch_read := kqueue_watch EVFILT_READ.
Definition websocket_kqueue_watch_write := kqueue_watch EVFILT_WRITE.

(** The loop of [websocket_kqueue_unwatch_event]: an event that is not registered
    is refused at once. *)
Fixpoint kqueue_delete_loop (fuel : nat) (filter : kqueue_filter) (fd : Z) (s : kqueue_state * kernel)
    : kqueue_state * kernel :=
  match fuel with
  | O => s
  | S fuel =>
    let '(d, k) := s in
    if bool_decide (fd ∉ kq_events filter d) then (d, set_errno ENOENT k) else
    let deleted := set_kq_events filter (kq_events filter d ∖ {[fd]}) d in
    match syscall k with
    | (AOk _ _, k) => (deleted, k)
    | (AErr e, k) => if e =? EINTR then kqueue_delete_loop fuel filter fd (d, k) else (deleted, k)
    end
  end.

Definition websocket_kqueue_unwatch_event (fd : Z) (filter : kqueue_filter) (s : kqueue_state * kernel)
    : kqueue_state * kernel :=
  let '(d, k) := s in
  if kqueue_fd d <? 0 then (d, k) else kqueue_delete_loop (S (length (k_answers k))) filter fd (d, k).

Definition websocket_kqueue_unwatch_write (fd : Z) (s : kqueue_state * kernel) : kqueue_state * kernel :=
  let saved_errno := k_errno s.2 in
  let '(d, k) := websocket_kqueue_unwatch_event fd EVFILT_WRITE s in
  (d, set_errno saved_errno k).

Definition websocket_kqueue_unwatch (fd : Z) (s : kqueue_state * kernel) : kqueue_state * kernel :=
  let saved_errno := k_errno s.2 in
  let '(d, k) := websocket_kqueue_unwatch_event fd EVFILT_WRITE (websocket_kqueue_unwatch_event fd EVFILT_READ s) in
  (d, set_errno saved_errno k).

(** [kevent(kqueue_fd, NULL, 0, &event, 1, &timeout)]: the answer's data are the
    event's [ident], [flags] and [data]; the kernel reports registered events. *)
Definition websocket_kqueue_wait (timeout_usec : Z) (s : kqueue_state * kernel) : (Z * Z) * (kqueue_state * kernel) :=
  let '(d, k) := s in
  if kqueue_fd d <? 0 then ((-1, -1), (d, set_errno EBADF k)) else
  match syscall k with
  | (AErr _, k) => ((-1, -1), (d, k))
  | (AOk _ event, k) =>
      match event with
      | [] => ((0, -1), (d, k))
      | ident :: rest =>
          if bool_decide (ident ∉ kq_reads d ∪ kq_writes d) then ((0, -1), (d, k)) else
          let data := zget rest 1 in
          if negb (Z.land (zget rest 0) EV_ERROR =? 0)
          then ((-1, -1), (d, set_errno (if data =? 0 then EIO else data) k))
          else ((1, ident), (d, k))
      end
  end.

#[export] Instance kqueue_driver : Driver kqueue_state := {
  shutdown := websocket_kqueue_shutdown;
  watch_read := websocket_kqueue_watch_read;
  watch_write := websocket_kqueue_watch_write;
  unwatch_write := websocket_kqueue_unwatch_write;
  unwatch := websocket_kqueue_unwatch;
  wait := websocket_kqueue_wait
}.

(** ** The driver keeps its promises *)

(** The events exist while [kqueue_fd] is open. *)
Definition kqueue_wf (d : kqueue_state) : Prop := kqueue_fd d < 0 -> kq_reads d = ∅ /\ kq_writes d = ∅.

Definition kqueue_watches (filter : kqueue_filter) (d : kqueue_state) (fd : Z) : bool :=
  bool_decide (fd ∈ kq_events filter d).

Lemma kq_events_set f f' s d : kq_events f (set_kq_events f' s d) = if decide (f = f') then s else kq_events f d.
Proof. by destruct f, f'. Qed.

Lemma kqueue_set_wf f s d : 0 <= kqueue_fd d -> kqueue_wf (set_kq_events f s d).
Proof. intros Hfd Hneg. destruct f; cbn in Hneg; lia. Qed.

(** What is watched after the events of [f] are replaced. *)
Lemma kqueue_watches_set f f' s d fd :
  kqueue_watches f (set_kq_events f' s d) fd = if decide (f = f') then bool_decide (fd ∈ s) else kqueue_watches f d fd.
Proof. unfold kqueue_watches. rewrite kq_events_set. by destruct (decide (f = f')). Qed.

Lemma kqueue_add_spec fuel f fd d k :
  let '(ok, (d', k')) := kqueue_add_loop fuel f fd (d, k) in
  driver_step k k' /\ d' = (if ok then set_kq_events f ({[fd]} ∪ kq_events f d) d else d) /\
  (ok = false -> (length (k_answers k) < fuel)%nat -> k_errno k' <> ENOBUFS).
Proof.
  revert k. induction fuel as [|fuel IH]; intros k; cbn [kqueue_add_loop].
  { split; [reflexivity|]. split; [done|lia]. }
  pose proof (syscall_step k) as Hs. pose proof (syscall_progress k) as Hp.
  destruct (syscall k) as [[n data|e] k1]; cbn in Hs, Hp; [by split_and!|].
  destruct (Z.eqb_spec e EINTR) as [->|He].
  - specialize (IH k1). destruct (kqueue_add_loop fuel f fd (d, k1)) as [ok [d' k']]. destruct IH as (S1 & -> & E).
    split; [by etrans|]. split; [done|]. intros Hok Hlt. apply E; [done|]. destruct Hp as [?|[? _]]; [lia|done].
  - split; [by apply driver_step_then_errno|]. split; [done|]. intros _ _. cbn. unfold kqueue_errno.
    by destruct (Z.eqb_spec e ENOBUFS).
Qed.

Lemma kqueue_watch_spec f fd d k : kqueue_wf d ->
  let '(ok, (d', k')) := kqueue_watch f fd (d, k) in
  kqueue_wf d' /\ driver_step k k' /\ d' = (if ok then set_kq_events f ({[fd]} ∪ kq_events f d) d else d) /\
  (ok = false -> k_errno k' <> ENOBUFS).
Proof.
  intros W. unfold kqueue_watch. destruct (Z.ltb_spec (kqueue_fd d) 0).
  { split; [done|]. split; [apply driver_step_errno|]. by split_and!. }
  pose proof (kqueue_add_spec (S (length (k_answers k))) f fd d k) as A.
  destruct (kqueue_add_loop _ _ _ _) as [ok [d' k']]. destruct A as (S1 & -> & E).
  split; [destruct ok; [by apply kqueue_set_wf|done]|]. split_and!; [done..|]. intros Hok. apply E; [done|lia].
Qed.

(** What is watched after a successful or failed addition. *)
Lemma kqueue_watched f f' (ok : bool) fd d fd' :
  kqueue_watches f (if ok then set_kq_events f' ({[fd]} ∪ kq_events f' d) d else d) fd' =
  if bool_decide (f = f') && ok && (fd =? fd') then true else kqueue_watches f d fd'.
Proof.
  destruct ok; [|by rewrite andb_false_r]. rewrite kqueue_watches_set, andb_true_r. unfold kqueue_watches.
  destruct (decide (f = f')) as [->|]; [rewrite (bool_decide_true (f' = f')) by done|by rewrite (bool_decide_false (f = f')) by done].
  cbn [andb]. destruct (Z.eqb_spec fd fd') as [->|]; [apply bool_decide_true; set_solver|].
  apply bool_decide_ext. set_solver.
Qed.

Lemma kqueue_watch_read_law fd d k : kqueue_wf d ->
  let '(ok, (d', k')) := websocket_kqueue_watch_read fd (d, k) in
  kqueue_wf d' /\ driver_step k k' /\
  (if ok then kqueue_watches EVFILT_READ d' fd = true else k_errno k' <> ENOBUFS) /\
  (forall fd', fd' <> fd \/ kqueue_watches EVFILT_WRITE d fd' = false ->
     kqueue_watches EVFILT_WRITE d' fd' = kqueue_watches EVFILT_WRITE d fd') /\
  (forall fd', fd' <> fd \/ ok = false -> kqueue_watches EVFILT_READ d' fd' = kqueue_watches EVFILT_READ d fd').
Proof.
  intros W. pose proof (kqueue_watch_spec EVFILT_READ fd d k W) as A. unfold websocket_kqueue_watch_read.
  destruct (kqueue_watch _ _ _) as [ok [d' k']]. destruct A as (W' & S1 & -> & E).
  split_and!; [done..| | |].
  - destruct ok; [|by apply E]. rewrite (kqueue_watched EVFILT_READ EVFILT_READ true). by rewrite Z.eqb_refl.
  - intros fd' _. by rewrite kqueue_watched.
  - intros fd' Hne. rewrite kqueue_watched. destruct Hne as [Hne| ->]; [|done].
    replace (fd =? fd') with false by lia. by rewrite andb_false_r.
Qed.

Lemma kqueue_watch_write_law fd d k : kqueue_wf d ->
  let '(ok, (d', k')) := websocket_kqueue_watch_write fd (d, k) in
  kqueue_wf d' /\ driver_step k k' /\
  (if ok then kqueue_watches EVFILT_WRITE d' fd = true else k_errno k' <> ENOBUFS) /\
  (forall fd', fd' <> fd \/ ok = false ->
     kqueue_watches EVFILT_WRITE d' fd' = kqueue_watches EVFILT_WRITE d fd' /\
     kqueue_watches EVFILT_READ d' fd' = kqueue_watches EVFILT_READ d fd') /\
  (kqueue_watches EVFILT_READ d fd = true -> kqueue_watches EVFILT_READ d' fd = true).
Proof.
  intros W. pose proof (kqueue_watch_spec EVFILT_WRITE fd d k W) as A. unfold websocket_kqueue_watch_write.
  destruct (kqueue_watch _ _ _) as [ok [d' k']]. destruct A as (W' & S1 & -> & E).
  split_and!; [done..| | |].
  - destruct ok; [|by apply E]. rewrite (kqueue_watched EVFILT_WRITE EVFILT_WRITE true). by rewrite Z.eqb_refl.
  - intros fd' Hne. rewrite !kqueue_watched. split; [|done]. destruct Hne as [Hne| ->]; [|done].
    replace (fd =? fd') with false by lia. by rewrite andb_false_r.
  - intros R. by rewrite kqueue_watched.
Qed.

(** Deleting an event: it is gone, and nothing else has changed. *)
Lemma kqueue_delete_spec fuel f fd d k : (length (k_answers k) < fuel)%nat ->
  let '(d', k') := kqueue_delete_loop fuel f fd (d, k) in
  driver_step k k' /\ kqueue_fd d' = kqueue_fd d /\
  (forall f' fd', kqueue_watches f' d' fd' =
     if bool_decide (f' = f) && (fd =? fd') then false else kqueue_watches f' d fd').
Proof.
  assert (L : forall f' fd', kqueue_watches f' (set_kq_events f (kq_events f d ∖ {[fd]}) d) fd' =
    if bool_decide (f' = f) && (fd =? fd') then false else kqueue_watches f' d fd').
  { intros f' fd'. rewrite kqueue_watches_set. unfold kqueue_watches.
    destruct (decide (f' = f)) as [->|]; [rewrite (bool_decide_true (f = f)) by done|by rewrite (bool_decide_false (f' = f)) by done].
    cbn [andb]. destruct (Z.eqb_spec fd fd') as [->|]; [apply bool_decide_false; set_solver|].
    apply bool_decide_ext. set_solver. }
  assert (Efd : kqueue_fd (set_kq_events f (kq_events f d ∖ {[fd]}) d) = kqueue_fd d) by (by destruct f).
  revert k. induction fuel as [|fuel IH]; intros k Hlt; [lia|]. cbn [kqueue_delete_loop].
  case_bool_decide as Hnot.
  { split; [apply driver_step_errno|]. split; [done|]. intros f' fd'.
    destruct (bool_decide (f' = f) && (fd =? fd')) eqn:E; [|done].
    apply andb_true_iff in E as [->%bool_decide_eq_true ->%Z.eqb_eq]. by apply bool_decide_false. }
  pose proof (syscall_step k) as Hs. pose proof (syscall_progress k) as Hp.
  destruct (syscall k) as [[n data|e] k1]; cbn in Hs, Hp; [by split_and!|].
  destruct (Z.eqb_spec e EINTR) as [->|He]; [|by split_and!].
  specialize (IH k1). destruct (kqueue_delete_loop fuel f fd (d, k1)) as [d' k'].
  destruct IH as (S1 & H2); [destruct Hp as [?|[? _]]; [lia|done]|]. split; [by etrans|done].
Qed.

Lemma kqueue_unwatch_event_spec f fd d k : kqueue_wf d ->
  let '(d', k') := websocket_kqueue_unwatch_event fd f (d, k) in
  kqueue_wf d' /\ driver_step k k' /\
  (forall f' fd', kqueue_watches f' d' fd' =
     if bool_decide (f' = f) && (fd =? fd') then false else kqueue_watches f' d fd').
Proof.
  intros W. unfold websocket_kqueue_unwatch_event. destruct (Z.ltb_spec (kqueue_fd d) 0) as [Hneg|Hfd].
  - split; [done|]. split; [reflexivity|]. intros f' fd'. destruct (W Hneg) as [E1 E2].
    assert (kqueue_watches f' d fd' = false) as ->
      by (apply bool_decide_false; destruct f'; cbn; rewrite ?E1, ?E2; apply not_elem_of_empty).
    by destruct (_ && _).
  - pose proof (kqueue_delete_spec (S (length (k_answers k))) f fd d k ltac:(lia)) as A.
    destruct (kqueue_delete_loop _ _ _ _) as [d' k']. destruct A as (S1 & Efd & L).
    split; [|done]. intros Hneg. lia.
Qed.

Lemma kqueue_unwatch_write_law fd d k : kqueue_wf d ->
  let '(d', k') := websocket_kqueue_unwatch_write fd (d, k) in
  kqueue_wf d' /\ driver_step k k' /\ k_errno k' = k_errno k /\
  kqueue_watches EVFILT_WRITE d' fd = false /\
  (kqueue_watches EVFILT_READ d fd = true -> kqueue_watches EVFILT_READ d' fd = true) /\
  (forall fd', fd' <> fd -> kqueue_watches EVFILT_WRITE d' fd' = kqueue_watches EVFILT_WRITE d fd' /\
     kqueue_watches EVFILT_READ d' fd' = kqueue_watches EVFILT_READ d fd').
Proof.
  intros W. unfold websocket_kqueue_unwatch_write. pose proof (kqueue_unwatch_event_spec EVFILT_WRITE fd d k W) as A.
  destruct (websocket_kqueue_unwatch_event _ _ _) as [d' k']. destruct A as (W' & S1 & L).
  split; [done|]. split; [by apply driver_step_then_errno|]. split; [done|]. split_and!.
  - by rewrite L, Z.eqb_refl.
  - intros R. by rewrite L.
  - intros fd' Hne. rewrite !L. replace (fd =? fd') with false by lia. by rewrite !andb_false_r.
Qed.

Lemma kqueue_unwatch_law fd d k : kqueue_wf d ->
  let '(d', k') := websocket_kqueue_unwatch fd (d, k) in
  kqueue_wf d' /\ driver_step k k' /\ k_errno k' = k_errno k /\
  kqueue_watches EVFILT_WRITE d' fd = false /\ kqueue_watches EVFILT_READ d' fd = false /\
  (forall fd', fd' <> fd -> kqueue_watches EVFILT_WRITE d' fd' = kqueue_watches EVFILT_WRITE d fd' /\
     kqueue_watches EVFILT_READ d' fd' = kqueue_watches EVFILT_READ d fd').
Proof.
  intros W. unfold websocket_kqueue_unwatch. pose proof (kqueue_unwatch_event_spec EVFILT_READ fd d k W) as A.
  destruct (websocket_kqueue_unwatch_event fd EVFILT_READ _) as [d1 k1]. destruct A as (W1 & S1 & L1).
  pose proof (kqueue_unwatch_event_spec EVFILT_WRITE fd d1 k1 W1) as A.
  destruct (websocket_kqueue_unwatch_event fd EVFILT_WRITE _) as [d2 k2]. destruct A as (W2 & S2 & L2).
  split; [done|]. split; [apply driver_step_then_errno; by etrans|]. split; [done|]. split_and!.
  - by rewrite L2, Z.eqb_refl.
  - rewrite L2, L1, Z.eqb_refl. done.
  - intros fd' Hne. rewrite !L2, !L1. replace (fd =? fd') with false by lia. by rewrite !andb_false_r.
Qed.

Lemma kqueue_wait_law timeout d k : kqueue_wf d ->
  let '((r, fd), (d', k')) := websocket_kqueue_wait timeout (d, k) in
  kqueue_wf d' /\ driver_step k k' /\
  (forall fd', kqueue_watches EVFILT_WRITE d' fd' = kqueue_watches EVFILT_WRITE d fd' /\
     kqueue_watches EVFILT_READ d' fd' = kqueue_watches EVFILT_READ d fd') /\
  (fd = -1 \/ (0 < r /\ (kqueue_watches EVFILT_READ d fd = true \/ kqueue_watches EVFILT_WRITE d fd = true))) /\
  ((length (k_answers k') < length (k_answers k))%nat \/ (r < 0 /\ k_errno k' <> EINTR)).
Proof.
  intros W. unfold websocket_kqueue_wait. destruct (_ <? _).
  { split; [done|]. split; [apply driver_step_errno|]. split_and!; [done|by left|by right]. }
  pose proof (syscall_step k) as Hs. pose proof (syscall_progress k) as Hp.
  destruct (syscall k) as [[n event|e] k1]; cbn in Hs, Hp.
  2:{ split_and!; [done..|by left|]. destruct Hp as [?|[_ He]]; [by left|right; by rewrite He]. }
  destruct Hp as [Hp|[? _]]; [|done]. destruct event as [|ident rest]; [by split_and!; auto|].
  case_bool_decide as Hnot; [by split_and!; auto|]. destruct (negb _).
  { split; [done|]. split; [by apply driver_step_then_errno|]. split_and!; [done|by left|by left]. }
  split_and!; [done..| |by left]. right. split; [lia|]. unfold kqueue_watches. cbn.
  rewrite !bool_decide_eq_true. destruct (decide (ident ∈ kq_reads d ∪ kq_writes d)) as [E|]; [|done].
  by apply elem_of_union in E.
Qed.

Lemma kqueue_shutdown_law d k : kqueue_wf d ->
  kqueue_wf (websocket_kqueue_shutdown (d, k)).1 /\
  forall fd, kqueue_watches EVFILT_READ (websocket_kqueue_shutdown (d, k)).1 fd = false /\
             kqueue_watches EVFILT_WRITE (websocket_kqueue_shutdown (d, k)).1 fd = false.
Proof.
  intros W. unfold websocket_kqueue_shutdown. destruct (Z.leb_spec 0 (kqueue_fd d)) as [|Hneg]; cbn [fst]; [done|].
  split; [done|]. destruct (W Hneg) as [E1 E2]. intros fd. unfold kqueue_watches. cbn. by rewrite E1, E2.
Qed.

#[export] Instance kqueue_laws : DriverLaws kqueue_state := {
  driver_wf := kqueue_wf; reads := kqueue_watches EVFILT_READ; writes := kqueue_watches EVFILT_WRITE;
  shutdown_law := kqueue_shutdown_law;
  watch_read_law := kqueue_watch_read_law; watch_write_law := kqueue_watch_write_law;
  unwatch_write_law := kqueue_unwatch_write_law; unwatch_law := kqueue_unwatch_law;
  wait_law := kqueue_wait_law
}.

Lemma kqueue_init_law : init_law websocket_kqueue_init.
Proof.
  intros k. unfold websocket_kqueue_init. pose proof (syscall_step k) as Hs.
  destruct (syscall k) as [[n data|e] k1]; cbn in Hs; [|done].
  destruct (n <? 0); [done|]. split; [done|]. by intros d [= <-].
Qed.
