(* ===== verification/Drivers.v ===== *)
(** * The drivers together: [websocket.c] and [drivers/]

    Which driver a build chooses, and what all four implement: a set of watched
    descriptors, some of them also for writes. *)
From stdpp Require Import gmap.
From S2P Require Import Prelude Constants Http Kernel Driver FdTable SelectDriver PollDriver EpollDriver KqueueDriver.
From Stdlib Require String.
Import (notations) String.

(** ** The choice *)

(** The driver [WEBSOCKET_G(driver)] points to, with its static variables. *)
Inductive websocket_driver : Type :=
| DriverEpoll (d : epoll_state)
| DriverKqueue (d : kqueue_state)
| DriverPoll (d : poll_state)
| DriverSelect (d : select_state).

(** [HAVE_WEBSOCKET_EPOLL] and the like; [select] is always there. *)
Record websocket_build := mk_build { have_epoll : bool; have_kqueue : bool; have_poll : bool }.

Definition websocket_select_best_driver (b : websocket_build) (k : kernel) : option websocket_driver * kernel :=
  let '(d, k) := if have_epoll b then websocket_epoll_init k else (None, k) in
  match d with
  | Some d => (Some (DriverEpoll d), k)
  | None =>
    let '(d, k) := if have_kqueue b then websocket_kqueue_init k else (None, k) in
    match d with
    | Some d => (Some (DriverKqueue d), k)
    | None =>
        if have_poll b then (Some (DriverPoll websocket_poll_init), k)
        else (Some (DriverSelect websocket_select_init), k)
    end
  end.

(** The driver's [name], and what [Server::getDriver] returns: before a driver is
    selected, the best one compiled in. *)
Definition driver_name (d : websocket_driver) : bytes :=
  match d with
  | DriverEpoll _ => str "epoll" | DriverKqueue _ => str "kqueue"
  | DriverPoll _ => str "poll" | DriverSelect _ => str "select"
  end.

Definition websocket_best_driver_name (b : websocket_build) : bytes :=
  if have_epoll b then str "epoll"
  else if have_kqueue b then str "kqueue"
  else if have_poll b then str "poll"
  else str "select".

Definition WebSocket_Server_getDriver (b : websocket_build) (d : option websocket_driver) : bytes :=
  match d with Some d => driver_name d | None => websocket_best_driver_name b end.

(** ** Calling through the table *)

Definition through {D A} (c : D -> websocket_driver) (r : A * (D * kernel)) : A * (websocket_driver * kernel) :=
  let '(x, (d, k)) := r in (x, (c d, k)).
Definition through_ {D} (c : D -> websocket_driver) (r : D * kernel) : websocket_driver * kernel :=
  let '(d, k) := r in (c d, k).

#[export] Instance websocket_driver_driver : Driver websocket_driver := {
  shutdown s := match s.1 with
    | DriverEpoll d => through_ DriverEpoll (shutdown (d, s.2))
    | DriverKqueue d => through_ DriverKqueue (shutdown (d, s.2))
    | DriverPoll d => through_ DriverPoll (shutdown (d, s.2))
    | DriverSelect d => through_ DriverSelect (shutdown (d, s.2))
    end;
  watch_read fd s := match s.1 with
    | DriverEpoll d => through DriverEpoll (watch_read fd (d, s.2))
    | DriverKqueue d => through DriverKqueue (watch_read fd (d, s.2))
    | DriverPoll d => through DriverPoll (watch_read fd (d, s.2))
    | DriverSelect d => through DriverSelect (watch_read fd (d, s.2))
    end;
  watch_write fd s := match s.1 with
    | DriverEpoll d => through DriverEpoll (watch_write fd (d, s.2))
    | DriverKqueue d => through DriverKqueue (watch_write fd (d, s.2))
    | DriverPoll d => through DriverPoll (watch_write fd (d, s.2))
    | DriverSelect d => through DriverSelect (watch_write fd (d, s.2))
    end;
  unwatch_write fd s := match s.1 with
    | DriverEpoll d => through_ DriverEpoll (unwatch_write fd (d, s.2))
    | DriverKqueue d => through_ DriverKqueue (unwatch_write fd (d, s.2))
    | DriverPoll d => through_ DriverPoll (unwatch_write fd (d, s.2))
    | DriverSelect d => through_ DriverSelect (unwatch_write fd (d, s.2))
    end;
  unwatch fd s := match s.1 with
    | DriverEpoll d => through_ DriverEpoll (unwatch fd (d, s.2))
    | DriverKqueue d => through_ DriverKqueue (unwatch fd (d, s.2))
    | DriverPoll d => through_ DriverPoll (unwatch fd (d, s.2))
    | DriverSelect d => through_ DriverSelect (unwatch fd (d, s.2))
    end;
  wait timeout s := match s.1 with
    | DriverEpoll d => through DriverEpoll (wait timeout (d, s.2))
    | DriverKqueue d => through DriverKqueue (wait timeout (d, s.2))
    | DriverPoll d => through DriverPoll (wait timeout (d, s.2))
    | DriverSelect d => through DriverSelect (wait timeout (d, s.2))
    end
}.

Definition any_wf (d : websocket_driver) : Prop :=
  match d with
  | DriverEpoll d => driver_wf d | DriverKqueue d => driver_wf d
  | DriverPoll d => driver_wf d | DriverSelect d => driver_wf d
  end.
Definition any_reads (d : websocket_driver) : Z -> bool :=
  match d with
  | DriverEpoll d => reads d | DriverKqueue d => reads d | DriverPoll d => reads d | DriverSelect d => reads d
  end.
Definition any_writes (d : websocket_driver) : Z -> bool :=
  match d with
  | DriverEpoll d => writes d | DriverKqueue d => writes d | DriverPoll d => writes d | DriverSelect d => writes d
  end.

#[export] Program Instance websocket_driver_laws : DriverLaws websocket_driver := {
  driver_wf := any_wf; reads := any_reads; writes := any_writes
}.
Next Obligation.
  intros d k Hd. destruct d as [d|d|d|d]; cbn [shutdown websocket_driver_driver fst snd];
    pose proof (shutdown_law d k Hd) as L; by destruct (shutdown _) as [d' k'].
Qed.
Next Obligation.
  intros fd d k Hd. destruct d as [d|d|d|d]; cbn [watch_read websocket_driver_driver fst snd];
    pose proof (watch_read_law fd d k Hd) as L; by destruct (watch_read _ _) as [ok [d' k']].
Qed.
Next Obligation.
  intros fd d k Hd. destruct d as [d|d|d|d]; cbn [watch_write websocket_driver_driver fst snd];
    pose proof (watch_write_law fd d k Hd) as L; by destruct (watch_write _ _) as [ok [d' k']].
Qed.
Next Obligation.
  intros fd d k Hd. destruct d as [d|d|d|d]; cbn [unwatch_write websocket_driver_driver fst snd];
    pose proof (unwatch_write_law fd d k Hd) as L; by destruct (unwatch_write _ _) as [d' k'].
Qed.
Next Obligation.
  intros fd d k Hd. destruct d as [d|d|d|d]; cbn [unwatch websocket_driver_driver fst snd];
    pose proof (unwatch_law fd d k Hd) as L; by destruct (unwatch _ _) as [d' k'].
Qed.
Next Obligation.
  intros timeout d k Hd. destruct d as [d|d|d|d]; cbn [wait websocket_driver_driver fst snd];
    pose proof (wait_law timeout d k Hd) as L; by destruct (wait _ _) as [[r fd] [d' k']].
Qed.

Lemma best_driver_law b : init_law (websocket_select_best_driver b).
Proof.
  intros k. unfold websocket_select_best_driver.
  assert (He : forall k, driver_step k (if have_epoll b then websocket_epoll_init k else (None, k)).2 /\
    forall d, (if have_epoll b then websocket_epoll_init k else (None, k)).1 = Some d ->
      driver_wf d /\ forall fd, reads d fd = false /\ writes d fd = false)
    by (intros k0; destruct (have_epoll b); [apply epoll_init_law|split; [reflexivity|done]]).
  assert (Hq : forall k, driver_step k (if have_kqueue b then websocket_kqueue_init k else (None, k)).2 /\
    forall d, (if have_kqueue b then websocket_kqueue_init k else (None, k)).1 = Some d ->
      driver_wf d /\ forall fd, reads d fd = false /\ writes d fd = false)
    by (intros k0; destruct (have_kqueue b); [apply kqueue_init_law|split; [reflexivity|done]]).
  destruct (He k) as [S1 W1]. destruct (if have_epoll b then _ else _) as [[d|] k1]; cbn in S1, W1.
  { split; [done|]. intros ? [= <-]. by apply W1. }
  destruct (Hq k1) as [S2 W2]. destruct (if have_kqueue b then _ else _) as [[d|] k2]; cbn in S2, W2.
  { split; [by etrans|]. intros ? [= <-]. by apply W2. }
  destruct (have_poll b); (split; [by etrans|]; intros ? [= <-]; split; [|done]).
  - apply poll_init_wf.
  - apply select_init_wf.
Qed.

(** ** What a driver is: a refinement

    The abstract state: the watched descriptors, [true] when also for writes. *)
Abbreviation interest := (gmap Z bool).

Inductive driver_op : Type :=
| OpWatchRead (fd : Z) | OpWatchWrite (fd : Z) | OpUnwatchWrite (fd : Z) | OpUnwatch (fd : Z) | OpWait (timeout : Z).

(** The results of [watch_*], and of [wait] with [*ready_fd]. *)
Inductive op_result : Type := Done (ok : bool) | Ready (r fd : Z).

(** How the program uses a driver: a new descriptor is first watched for reads. *)
Definition allowed (m : interest) (op : driver_op) : Prop :=
  match op with
  | OpWatchRead fd => m !! fd = None
  | OpWatchWrite fd | OpUnwatchWrite fd => is_Some (m !! fd)
  | OpUnwatch _ | OpWait _ => True
  end.

(** The next abstract state: a failed call changes nothing. *)
Definition next_interest (m : interest) (op : driver_op) (r : op_result) : interest :=
  match op, r with
  | OpWatchRead fd, Done true => <[fd := false]> m
  | OpWatchWrite fd, Done true => <[fd := true]> m
  | OpUnwatchWrite fd, _ => <[fd := false]> m
  | OpUnwatch fd, _ => delete fd m
  | _, _ => m
  end.

(** A wait reports a watched descriptor, or none. *)
Definition result_ok (m : interest) (r : op_result) : Prop :=
  match r with
  | Done _ => True
  | Ready r fd => fd = -1 \/ (0 < r /\ is_Some (m !! fd))
  end.

Section Refinement.
Context {D : Type} `{DriverLaws D}.

Definition run_op (op : driver_op) (s : D * kernel) : op_result * (D * kernel) :=
  match op with
  | OpWatchRead fd => let '(ok, s) := watch_read fd s in (Done ok, s)
  | OpWatchWrite fd => let '(ok, s) := watch_write fd s in (Done ok, s)
  | OpUnwatchWrite fd => (Done true, unwatch_write fd s)
  | OpUnwatch fd => (Done true, unwatch fd s)
  | OpWait timeout => let '((r, fd), s) := wait timeout s in (Ready r fd, s)
  end.

(** A run of operations with their results, the abstract state alongside: [None]
    once an operation was not allowed. *)
Inductive driver_run : D * kernel -> interest -> list (driver_op * op_result) -> D * kernel -> interest -> Prop :=
| run_nil s m : driver_run s m [] s m
| run_cons s m op ops s' m' : allowed m op ->
    driver_run (run_op op s).2 (next_interest m op (run_op op s).1) ops s' m' ->
    driver_run s m ((op, (run_op op s).1) :: ops) s' m'.

Definition represents (d : D) (m : interest) : Prop :=
  driver_wf d /\ forall fd, reads d fd = bool_decide (is_Some (m !! fd)) /\ writes d fd = bool_decide (m !! fd = Some true).

Lemma represents_same d d' m : represents d m -> driver_wf d' ->
  (forall fd, writes d' fd = writes d fd /\ reads d' fd = reads d fd) -> represents d' m.
Proof. intros [_ R] W E. split; [done|]. intros fd. destruct (E fd) as [-> ->]. apply R. Qed.

(** Only [fd] has changed. *)
Lemma represents_at d d' m m' fd : represents d m -> driver_wf d' ->
  (forall fd', fd' <> fd -> writes d' fd' = writes d fd' /\ reads d' fd' = reads d fd' /\ m' !! fd' = m !! fd') ->
  reads d' fd = bool_decide (is_Some (m' !! fd)) -> writes d' fd = bool_decide (m' !! fd = Some true) ->
  represents d' m'.
Proof.
  intros [_ R] W E Er Ew. split; [done|]. intros fd'. destruct (decide (fd' = fd)) as [->|Hne]; [done|].
  destruct (E fd' Hne) as (-> & -> & ->). apply R.
Qed.

Lemma run_op_spec op d k m : represents d m -> allowed m op ->
  let '(r, (d', k')) := run_op op (d, k) in
  represents d' (next_interest m op r) /\ result_ok m r /\ driver_step k k'.
Proof.
  intros R Ha. pose proof R as [W E]. destruct op as [fd|fd|fd|fd|timeout]; cbn [run_op allowed] in *.
  - pose proof (watch_read_law fd d k W) as L. destruct (watch_read fd (d, k)) as [ok [d' k']].
    destruct L as (W' & S1 & Hr & Hw & Ho). split; [|done]. destruct (E fd) as [Er Ew]. rewrite Ha in Er, Ew. cbn in Er, Ew.
    destruct ok; cbn [next_interest].
    + apply (represents_at d d' m _ fd); [done..| | |]; rewrite ?lookup_insert_eq; try done.
      * intros fd' Hne. rewrite lookup_insert_ne by congruence. split_and!; [apply Hw|apply Ho|]; auto.
      * rewrite Hw by (by right). by rewrite Ew.
    + apply (represents_same d); [done..|]. intros fd'. split; [|apply Ho; by right].
      destruct (decide (fd' = fd)) as [->|]; apply Hw; [by right|by left].
  - pose proof (watch_write_law fd d k W) as L. destruct (watch_write fd (d, k)) as [ok [d' k']].
    destruct L as (W' & S1 & Hw & Ho & Hr). split; [|done]. destruct (E fd) as [Er Ew]. rewrite bool_decide_true in Er by done.
    destruct ok; cbn [next_interest].
    + apply (represents_at d d' m _ fd); [done..| | |]; rewrite ?lookup_insert_eq; try done.
      * intros fd' Hne. rewrite lookup_insert_ne by congruence. destruct (Ho fd' (or_introl Hne)). done.
      * by rewrite Hr.
    + apply (represents_same d); [done..|]. intros fd'. apply Ho. by right.
  - pose proof (unwatch_write_law fd d k W) as L. destruct (unwatch_write fd (d, k)) as [d' k'].
    destruct L as (W' & S1 & _ & Hw & Hr & Ho). split; [|done]. destruct (E fd) as [Er Ew]. rewrite bool_decide_true in Er by done.
    cbn [next_interest]. apply (represents_at d d' m _ fd); [done..| | |]; rewrite ?lookup_insert_eq; try done.
    + intros fd' Hne. rewrite lookup_insert_ne by congruence. destruct (Ho fd' Hne). done.
    + by rewrite Hr.
  - pose proof (unwatch_law fd d k W) as L. destruct (unwatch fd (d, k)) as [d' k'].
    destruct L as (W' & S1 & _ & Hw & Hr & Ho). split; [|done].
    cbn [next_interest]. apply (represents_at d d' m _ fd); [done..| | |]; rewrite ?lookup_delete_eq; try done.
    intros fd' Hne. rewrite lookup_delete_ne by congruence. destruct (Ho fd' Hne). done.
  - pose proof (wait_law timeout d k W) as L. destruct (wait timeout (d, k)) as [[r fd] [d' k']].
    destruct L as (W' & S1 & Hsame & Hfd & _). split; [by apply (represents_same d)|]. split; [|done].
    cbn. destruct Hfd as [?|[Hr Hfd]]; [by left|right]. split; [done|]. destruct (E fd) as [Er Ew].
    destruct Hfd as [Hfd|Hfd]; rewrite Hfd in *; symmetry in Er, Ew;
      [by apply bool_decide_eq_true in Er|apply bool_decide_eq_true in Ew; by eexists].
Qed.

(** Every result along a run is as promised. *)
Fixpoint results_ok (m : interest) (ops : list (driver_op * op_result)) : Prop :=
  match ops with
  | [] => True
  | (op, r) :: ops => result_ok m r /\ results_ok (next_interest m op r) ops
  end.

Lemma driver_run_spec s m ops s' m' : driver_run s m ops s' m' -> represents s.1 m ->
  results_ok m ops /\ represents s'.1 m' /\ driver_step s.2 s'.2.
Proof.
  induction 1 as [s m|[d k] m op ops s' m' Ha Hrun IH]; intros R; [split; [done|split; [done|reflexivity]]|].
  pose proof (run_op_spec op d k m R Ha) as S1. destruct (run_op op (d, k)) as [r [d1 k1]]. destruct S1 as (R1 & Hr & S1).
  destruct (IH R1) as (H1 & H2 & H3). split; [by split|]. split; [done|]. by etrans.
Qed.
End Refinement.

(** C13. The drivers implement one abstract machine.  Whatever drivers a build
    has and whichever the initialisations select, after any sequence of
    operations in the order the program uses them the driver waits exactly for
    the descriptors that were watched and not unwatched, for writes exactly where
    that was asked for and not undone; a failed call changes nothing, a wait
    reports a watched descriptor or none, and the operations neither write nor
    close anything. *)
Theorem drivers_refine build k d ops s m
    (Hselected : (websocket_select_best_driver build k).1 = Some d)
    (Hrun : driver_run (d, k) ∅ ops s m) :
  results_ok ∅ ops /\
  (forall fd, reads s.1 fd = bool_decide (is_Some (m !! fd)) /\ writes s.1 fd = bool_decide (m !! fd = Some true)) /\
  k_trace s.2 = k_trace k.
Proof.
  destruct (best_driver_law build k) as [_ H]. destruct (H d Hselected) as [W E].
  assert (R : represents d (∅ : interest)) by (split; [done|]; intros fd; by destruct (E fd) as [-> ->]).
  by destruct (driver_run_spec _ _ _ _ _ Hrun R) as (H1 & [_ H2] & (H3 & _)).
Qed.

(** With [poll]: the listener is watched, then a client, for reads and writes; a
    wait reports the client, which is watched for reads only, then not at all. *)
Lemma drivers_refine_witness :
  let build := mk_build false false true in
  let k := mk_kernel [AOk 1 [0; 4]] [] 0 [] in
  let ops := [(OpWatchRead 3, Done true); (OpWatchRead 4, Done true); (OpWatchWrite 4, Done true);
              (OpWait 100000, Ready 1 4); (OpUnwatchWrite 4, Done true); (OpUnwatch 4, Done true)] in
  exists s, driver_run (DriverPoll websocket_poll_init, k) ∅ ops s {[3 := false]} /\
    results_ok ∅ ops /\ reads s.1 3 = true /\ reads s.1 4 = false.
Proof.
  cbv zeta.
  match goal with |- exists s, @?R s /\ @?Q s => assert (Hrun : exists s, R s) end.
  { eexists. repeat (refine (run_cons _ _ _ _ _ _ _ _); [vm_compute; done || by eexists|cbn [next_interest]]).
    match goal with |- driver_run _ ?m [] _ ?m' => replace m with m' by (by vm_compute) end. apply run_nil. }
  destruct Hrun as [s Hrun]. exists s. split; [exact Hrun|].
  destruct (drivers_refine (mk_build false false true) (mk_kernel [AOk 1 [0; 4]] [] 0 []) _ _ s _ eq_refl Hrun) as (H1 & H2 & _).
  split; [exact H1|]. destruct (H2 3) as [-> _], (H2 4) as [-> _]. by vm_compute.
Defined.
