(* ===== verification/ConnState.v ===== *)
(** * The state of a connection: [struct _websocket_connection_object]

    [read_buffer] is the first [read_buffer_len] bytes of the C buffer and
    [write_queue] the first [write_queue_count] entries of the C array, so the two
    counters are the lengths of these lists.  [c_remote_addr] is the first
    [remote_addr_len] bytes of the cached peer address and [c_refcount] the
    reference count of the PHP object.  One setter per field. *)
From S2P Require Import Prelude Constants.

Record websocket_connection_object := mk_conn {
  c_id : option bytes;
  c_remote_address : option bytes;
  c_selected_subprotocol : option bytes;
  c_remote_addr : bytes;
  c_numeric_id : Z;
  c_fd : Z;
  c_open : bool;
  c_upgraded : bool;
  c_close_notified : bool;
  c_has_remote_addr : bool;
  c_defer_close : bool;
  c_read_buffer : bytes;
  c_read_buffer_capacity : Z;
  c_write_queue : list bytes;
  c_write_queue_capacity : Z;
  c_write_queue_offset : Z;
  c_queued_bytes : Z;
  c_max_queued_bytes : Z;
  c_write_watched : bool;
  c_close_after_write : bool;
  c_fragmented : bool;
  c_fragmented_opcode : Z;
  c_fragmented_payload : option bytes;
  c_accepted_at_usec : Z;
  c_last_activity_usec : Z;
  c_last_ping_usec : Z;
  c_awaiting_pong : bool;
  c_refcount : Z
}.

Definition set_id (v : option bytes) (c : websocket_connection_object) : websocket_connection_object :=
  mk_conn v (c_remote_address c) (c_selected_subprotocol c) (c_remote_addr c) (c_numeric_id c) (c_fd c)
    (c_open c) (c_upgraded c) (c_close_notified c) (c_has_remote_addr c) (c_defer_close c) (c_read_buffer c)
    (c_read_buffer_capacity c) (c_write_queue c) (c_write_queue_capacity c) (c_write_queue_offset c)
    (c_queued_bytes c) (c_max_queued_bytes c) (c_write_watched c) (c_close_after_write c) (c_fragmented c)
    (c_fragmented_opcode c) (c_fragmented_payload c) (c_accepted_at_usec c) (c_last_activity_usec c)
    (c_last_ping_usec c) (c_awaiting_pong c) (c_refcount c).
Definition set_remote_address (v : option bytes) (c : websocket_connection_object) : websocket_connection_object :=
  mk_conn (c_id c) v (c_selected_subprotocol c) (c_remote_addr c) (c_numeric_id c) (c_fd c) (c_open c)
    (c_upgraded c) (c_close_notified c) (c_has_remote_addr c) (c_defer_close c) (c_read_buffer c)
    (c_read_buffer_capacity c) (c_write_queue c) (c_write_queue_capacity c) (c_write_queue_offset c)
    (c_queued_bytes c) (c_max_queued_bytes c) (c_write_watched c) (c_close_after_write c) (c_fragmented c)
    (c_fragmented_opcode c) (c_fragmented_payload c) (c_accepted_at_usec c) (c_last_activity_usec c)
    (c_last_ping_usec c) (c_awaiting_pong c) (c_refcount c).
Definition set_selected_subprotocol (v : option bytes) (c : websocket_connection_object) : websocket_connection_object :=
  mk_conn (c_id c) (c_remote_address c) v (c_remote_addr c) (c_numeric_id c) (c_fd c) (c_open c)
    (c_upgraded c) (c_close_notified c) (c_has_remote_addr c) (c_defer_close c) (c_read_buffer c)
    (c_read_buffer_capacity c) (c_write_queue c) (c_write_queue_capacity c) (c_write_queue_offset c)
    (c_queued_bytes c) (c_max_queued_bytes c) (c_write_watched c) (c_close_after_write c) (c_fragmented c)
    (c_fragmented_opcode c) (c_fragmented_payload c) (c_accepted_at_usec c) (c_last_activity_usec c)
    (c_last_ping_usec c) (c_awaiting_pong c) (c_refcount c).
Definition set_remote_addr (v : bytes) (c : websocket_connection_object) : websocket_connection_object :=
  mk_conn (c_id c) (c_remote_address c) (c_selected_subprotocol c) v (c_numeric_id c) (c_fd c) (c_open c)
    (c_upgraded c) (c_close_notified c) (c_has_remote_addr c) (c_defer_close c) (c_read_buffer c)
    (c_read_buffer_capacity c) (c_write_queue c) (c_write_queue_capacity c) (c_write_queue_offset c)
    (c_queued_bytes c) (c_max_queued_bytes c) (c_write_watched c) (c_close_after_write c) (c_fragmented c)
    (c_fragmented_opcode c) (c_fragmented_payload c) (c_accepted_at_usec c) (c_last_activity_usec c)
    (c_last_ping_usec c) (c_awaiting_pong c) (c_refcount c).
Definition set_numeric_id (v : Z) (c : websocket_connection_object) : websocket_connection_object :=
  mk_conn (c_id c) (c_remote_address c) (c_selected_subprotocol c) (c_remote_addr c) v (c_fd c) (c_open c)
    (c_upgraded c) (c_close_notified c) (c_has_remote_addr c) (c_defer_close c) (c_read_buffer c)
    (c_read_buffer_capacity c) (c_write_queue c) (c_write_queue_capacity c) (c_write_queue_offset c)
    (c_queued_bytes c) (c_max_queued_bytes c) (c_write_watched c) (c_close_after_write c) (c_fragmented c)
    (c_fragmented_opcode c) (c_fragmented_payload c) (c_accepted_at_usec c) (c_last_activity_usec c)
    (c_last_ping_usec c) (c_awaiting_pong c) (c_refcount c).
Definition set_fd (v : Z) (c : websocket_connection_object) : websocket_connection_object :=
  mk_conn (c_id c) (c_remote_address c) (c_selected_subprotocol c) (c_remote_addr c) (c_numeric_id c) v
    (c_open c) (c_upgraded c) (c_close_notified c) (c_has_remote_addr c) (c_defer_close c) (c_read_buffer c)
    (c_read_buffer_capacity c) (c_write_queue c) (c_write_queue_capacity c) (c_write_queue_offset c)
    (c_queued_bytes c) (c_max_queued_bytes c) (c_write_watched c) (c_close_after_write c) (c_fragmented c)
    (c_fragmented_opcode c) (c_fragmented_payload c) (c_accepted_at_usec c) (c_last_activity_usec c)
    (c_last_ping_usec c) (c_awaiting_pong c) (c_refcount c).
Definition set_open (v : bool) (c : websocket_connection_object) : websocket_connection_object :=
  mk_conn (c_id c) (c_remote_address c) (c_selected_subprotocol c) (c_remote_addr c) (c_numeric_id c) (c_fd c)
    v (c_upgraded c) (c_close_notified c) (c_has_remote_addr c) (c_defer_close c) (c_read_buffer c)
    (c_read_buffer_capacity c) (c_write_queue c) (c_write_queue_capacity c) (c_write_queue_offset c)
    (c_queued_bytes c) (c_max_queued_bytes c) (c_write_watched c) (c_close_after_write c) (c_fragmented c)
    (c_fragmented_opcode c) (c_fragmented_payload c) (c_accepted_at_usec c) (c_last_activity_usec c)
    (c_last_ping_usec c) (c_awaiting_pong c) (c_refcount c).
Definition set_upgraded (v : bool) (c : websocket_connection_object) : websocket_connection_object :=
  mk_conn (c_id c) (c_remote_address c) (c_selected_subprotocol c) (c_remote_addr c) (c_numeric_id c) (c_fd c)
    (c_open c) v (c_close_notified c) (c_has_remote_addr c) (c_defer_close c) (c_read_buffer c)
    (c_read_buffer_capacity c) (c_write_queue c) (c_write_queue_capacity c) (c_write_queue_offset c)
    (c_queued_bytes c) (c_max_queued_bytes c) (c_write_watched c) (c_close_after_write c) (c_fragmented c)
    (c_fragmented_opcode c) (c_fragmented_payload c) (c_accepted_at_usec c) (c_last_activity_usec c)
    (c_last_ping_usec c) (c_awaiting_pong c) (c_refcount c).
Definition set_close_notified (v : bool) (c : websocket_connection_object) : websocket_connection_object :=
  mk_conn (c_id c) (c_remote_address c) (c_selected_subprotocol c) (c_remote_addr c) (c_numeric_id c) (c_fd c)
    (c_open c) (c_upgraded c) v (c_has_remote_addr c) (c_defer_close c) (c_read_buffer c)
    (c_read_buffer_capacity c) (c_write_queue c) (c_write_queue_capacity c) (c_write_queue_offset c)
    (c_queued_bytes c) (c_max_queued_bytes c) (c_write_watched c) (c_close_after_write c) (c_fragmented c)
    (c_fragmented_opcode c) (c_fragmented_payload c) (c_accepted_at_usec c) (c_last_activity_usec c)
    (c_last_ping_usec c) (c_awaiting_pong c) (c_refcount c).
Definition set_has_remote_addr (v : bool) (c : websocket_connection_object) : websocket_connection_object :=
  mk_conn (c_id c) (c_remote_address c) (c_selected_subprotocol c) (c_remote_addr c) (c_numeric_id c) (c_fd c)
    (c_open c) (c_upgraded c) (c_close_notified c) v (c_defer_close c) (c_read_buffer c)
    (c_read_buffer_capacity c) (c_write_queue c) (c_write_queue_capacity c) (c_write_queue_offset c)
    (c_queued_bytes c) (c_max_queued_bytes c) (c_write_watched c) (c_close_after_write c) (c_fragmented c)
    (c_fragmented_opcode c) (c_fragmented_payload c) (c_accepted_at_usec c) (c_last_activity_usec c)
    (c_last_ping_usec c) (c_awaiting_pong c) (c_refcount c).
Definition set_defer_close (v : bool) (c : websocket_connection_object) : websocket_connection_object :=
  mk_conn (c_id c) (c_remote_address c) (c_selected_subprotocol c) (c_remote_addr c) (c_numeric_id c) (c_fd c)
    (c_open c) (c_upgraded c) (c_close_notified c) (c_has_remote_addr c) v (c_read_buffer c)
    (c_read_buffer_capacity c) (c_write_queue c) (c_write_queue_capacity c) (c_write_queue_offset c)
    (c_queued_bytes c) (c_max_queued_bytes c) (c_write_watched c) (c_close_after_write c) (c_fragmented c)
    (c_fragmented_opcode c) (c_fragmented_payload c) (c_accepted_at_usec c) (c_last_activity_usec c)
    (c_last_ping_usec c) (c_awaiting_pong c) (c_refcount c).
Definition set_read_buffer (v : bytes) (c : websocket_connection_object) : websocket_connection_object :=
  mk_conn (c_id c) (c_remote_address c) (c_selected_subprotocol c) (c_remote_addr c) (c_numeric_id c) (c_fd c)
    (c_open c) (c_upgraded c) (c_close_notified c) (c_has_remote_addr c) (c_defer_close c) v
    (c_read_buffer_capacity c) (c_write_queue c) (c_write_queue_capacity c) (c_write_queue_offset c)
    (c_queued_bytes c) (c_max_queued_bytes c) (c_write_watched c) (c_close_after_write c) (c_fragmented c)
    (c_fragmented_opcode c) (c_fragmented_payload c) (c_accepted_at_usec c) (c_last_activity_usec c)
    (c_last_ping_usec c) (c_awaiting_pong c) (c_refcount c).
Definition set_read_buffer_capacity (v : Z) (c : websocket_connection_object) : websocket_connection_object :=
  mk_conn (c_id c) (c_remote_address c) (c_selected_subprotocol c) (c_remote_addr c) (c_numeric_id c) (c_fd c)
    (c_open c) (c_upgraded c) (c_close_notified c) (c_has_remote_addr c) (c_defer_close c) (c_read_buffer c) v
    (c_write_queue c) (c_write_queue_capacity c) (c_write_queue_offset c) (c_queued_bytes c)
    (c_max_queued_bytes c) (c_write_watched c) (c_close_after_write c) (c_fragmented c)
    (c_fragmented_opcode c) (c_fragmented_payload c) (c_accepted_at_usec c) (c_last_activity_usec c)
    (c_last_ping_usec c) (c_awaiting_pong c) (c_refcount c).
Definition set_write_queue (v : list bytes) (c : websocket_connection_object) : websocket_connection_object :=
  mk_conn (c_id c) (c_remote_address c) (c_selected_subprotocol c) (c_remote_addr c) (c_numeric_id c) (c_fd c)
    (c_open c) (c_upgraded c) (c_close_notified c) (c_has_remote_addr c) (c_defer_close c) (c_read_buffer c)
    (c_read_buffer_capacity c) v (c_write_queue_capacity c) (c_write_queue_offset c) (c_queued_bytes c)
    (c_max_queued_bytes c) (c_write_watched c) (c_close_after_write c) (c_fragmented c)
    (c_fragmented_opcode c) (c_fragmented_payload c) (c_accepted_at_usec c) (c_last_activity_usec c)
    (c_last_ping_usec c) (c_awaiting_pong c) (c_refcount c).
Definition set_write_queue_capacity (v : Z) (c : websocket_connection_object) : websocket_connection_object :=
  mk_conn (c_id c) (c_remote_address c) (c_selected_subprotocol c) (c_remote_addr c) (c_numeric_id c) (c_fd c)
    (c_open c) (c_upgraded c) (c_close_notified c) (c_has_remote_addr c) (c_defer_close c) (c_read_buffer c)
    (c_read_buffer_capacity c) (c_write_queue c) v (c_write_queue_offset c) (c_queued_bytes c)
    (c_max_queued_bytes c) (c_write_watched c) (c_close_after_write c) (c_fragmented c)
    (c_fragmented_opcode c) (c_fragmented_payload c) (c_accepted_at_usec c) (c_last_activity_usec c)
    (c_last_ping_usec c) (c_awaiting_pong c) (c_refcount c).
Definition set_write_queue_offset (v : Z) (c : websocket_connection_object) : websocket_connection_object :=
  mk_conn (c_id c) (c_remote_address c) (c_selected_subprotocol c) (c_remote_addr c) (c_numeric_id c) (c_fd c)
    (c_open c) (c_upgraded c) (c_close_notified c) (c_has_remote_addr c) (c_defer_close c) (c_read_buffer c)
    (c_read_buffer_capacity c) (c_write_queue c) (c_write_queue_capacity c) v (c_queued_bytes c)
    (c_max_queued_bytes c) (c_write_watched c) (c_close_after_write c) (c_fragmented c)
    (c_fragmented_opcode c) (c_fragmented_payload c) (c_accepted_at_usec c) (c_last_activity_usec c)
    (c_last_ping_usec c) (c_awaiting_pong c) (c_refcount c).
Definition set_queued_bytes (v : Z) (c : websocket_connection_object) : websocket_connection_object :=
  mk_conn (c_id c) (c_remote_address c) (c_selected_subprotocol c) (c_remote_addr c) (c_numeric_id c) (c_fd c)
    (c_open c) (c_upgraded c) (c_close_notified c) (c_has_remote_addr c) (c_defer_close c) (c_read_buffer c)
    (c_read_buffer_capacity c) (c_write_queue c) (c_write_queue_capacity c) (c_write_queue_offset c) v
    (c_max_queued_bytes c) (c_write_watched c) (c_close_after_write c) (c_fragmented c)
    (c_fragmented_opcode c) (c_fragmented_payload c) (c_accepted_at_usec c) (c_last_activity_usec c)
    (c_last_ping_usec c) (c_awaiting_pong c) (c_refcount c).
Definition set_max_queued_bytes (v : Z) (c : websocket_connection_object) : websocket_connection_object :=
  mk_conn (c_id c) (c_remote_address c) (c_selected_subprotocol c) (c_remote_addr c) (c_numeric_id c) (c_fd c)
    (c_open c) (c_upgraded c) (c_close_notified c) (c_has_remote_addr c) (c_defer_close c) (c_read_buffer c)
    (c_read_buffer_capacity c) (c_write_queue c) (c_write_queue_capacity c) (c_write_queue_offset c)
    (c_queued_bytes c) v (c_write_watched c) (c_close_after_write c) (c_fragmented c) (c_fragmented_opcode c)
    (c_fragmented_payload c) (c_accepted_at_usec c) (c_last_activity_usec c) (c_last_ping_usec c)
    (c_awaiting_pong c) (c_refcount c).
Definition set_write_watched (v : bool) (c : websocket_connection_object) : websocket_connection_object :=
  mk_conn (c_id c) (c_remote_address c) (c_selected_subprotocol c) (c_remote_addr c) (c_numeric_id c) (c_fd c)
    (c_open c) (c_upgraded c) (c_close_notified c) (c_has_remote_addr c) (c_defer_close c) (c_read_buffer c)
    (c_read_buffer_capacity c) (c_write_queue c) (c_write_queue_capacity c) (c_write_queue_offset c)
    (c_queued_bytes c) (c_max_queued_bytes c) v (c_close_after_write c) (c_fragmented c)
    (c_fragmented_opcode c) (c_fragmented_payload c) (c_accepted_at_usec c) (c_last_activity_usec c)
    (c_last_ping_usec c) (c_awaiting_pong c) (c_refcount c).
Definition set_close_after_write (v : bool) (c : websocket_connection_object) : websocket_connection_object :=
  mk_conn (c_id c) (c_remote_address c) (c_selected_subprotocol c) (c_remote_addr c) (c_numeric_id c) (c_fd c)
    (c_open c) (c_upgraded c) (c_close_notified c) (c_has_remote_addr c) (c_defer_close c) (c_read_buffer c)
    (c_read_buffer_capacity c) (c_write_queue c) (c_write_queue_capacity c) (c_write_queue_offset c)
    (c_queued_bytes c) (c_max_queued_bytes c) (c_write_watched c) v (c_fragmented c) (c_fragmented_opcode c)
    (c_fragmented_payload c) (c_accepted_at_usec c) (c_last_activity_usec c) (c_last_ping_usec c)
    (c_awaiting_pong c) (c_refcount c).
Definition set_fragmented (v : bool) (c : websocket_connection_object) : websocket_connection_object :=
  mk_conn (c_id c) (c_remote_address c) (c_selected_subprotocol c) (c_remote_addr c) (c_numeric_id c) (c_fd c)
    (c_open c) (c_upgraded c) (c_close_notified c) (c_has_remote_addr c) (c_defer_close c) (c_read_buffer c)
    (c_read_buffer_capacity c) (c_write_queue c) (c_write_queue_capacity c) (c_write_queue_offset c)
    (c_queued_bytes c) (c_max_queued_bytes c) (c_write_watched c) (c_close_after_write c) v
    (c_fragmented_opcode c) (c_fragmented_payload c) (c_accepted_at_usec c) (c_last_activity_usec c)
    (c_last_ping_usec c) (c_awaiting_pong c) (c_refcount c).
Definition set_fragmented_opcode (v : Z) (c : websocket_connection_object) : websocket_connection_object :=
  mk_conn (c_id c) (c_remote_address c) (c_selected_subprotocol c) (c_remote_addr c) (c_numeric_id c) (c_fd c)
    (c_open c) (c_upgraded c) (c_close_notified c) (c_has_remote_addr c) (c_defer_close c) (c_read_buffer c)
    (c_read_buffer_capacity c) (c_write_queue c) (c_write_queue_capacity c) (c_write_queue_offset c)
    (c_queued_bytes c) (c_max_queued_bytes c) (c_write_watched c) (c_close_after_write c) (c_fragmented c) v
    (c_fragmented_payload c) (c_accepted_at_usec c) (c_last_activity_usec c) (c_last_ping_usec c)
    (c_awaiting_pong c) (c_refcount c).
Definition set_fragmented_payload (v : option bytes) (c : websocket_connection_object) : websocket_connection_object :=
  mk_conn (c_id c) (c_remote_address c) (c_selected_subprotocol c) (c_remote_addr c) (c_numeric_id c) (c_fd c)
    (c_open c) (c_upgraded c) (c_close_notified c) (c_has_remote_addr c) (c_defer_close c) (c_read_buffer c)
    (c_read_buffer_capacity c) (c_write_queue c) (c_write_queue_capacity c) (c_write_queue_offset c)
    (c_queued_bytes c) (c_max_queued_bytes c) (c_write_watched c) (c_close_after_write c) (c_fragmented c)
    (c_fragmented_opcode c) v (c_accepted_at_usec c) (c_last_activity_usec c) (c_last_ping_usec c)
    (c_awaiting_pong c) (c_refcount c).
Definition set_accepted_at_usec (v : Z) (c : websocket_connection_object) : websocket_connection_object :=
  mk_conn (c_id c) (c_remote_address c) (c_selected_subprotocol c) (c_remote_addr c) (c_numeric_id c) (c_fd c)
    (c_open c) (c_upgraded c) (c_close_notified c) (c_has_remote_addr c) (c_defer_close c) (c_read_buffer c)
    (c_read_buffer_capacity c) (c_write_queue c) (c_write_queue_capacity c) (c_write_queue_offset c)
    (c_queued_bytes c) (c_max_queued_bytes c) (c_write_watched c) (c_close_after_write c) (c_fragmented c)
    (c_fragmented_opcode c) (c_fragmented_payload c) v (c_last_activity_usec c) (c_last_ping_usec c)
    (c_awaiting_pong c) (c_refcount c).
Definition set_last_activity_usec (v : Z) (c : websocket_connection_object) : websocket_connection_object :=
  mk_conn (c_id c) (c_remote_address c) (c_selected_subprotocol c) (c_remote_addr c) (c_numeric_id c) (c_fd c)
    (c_open c) (c_upgraded c) (c_close_notified c) (c_has_remote_addr c) (c_defer_close c) (c_read_buffer c)
    (c_read_buffer_capacity c) (c_write_queue c) (c_write_queue_capacity c) (c_write_queue_offset c)
    (c_queued_bytes c) (c_max_queued_bytes c) (c_write_watched c) (c_close_after_write c) (c_fragmented c)
    (c_fragmented_opcode c) (c_fragmented_payload c) (c_accepted_at_usec c) v (c_last_ping_usec c)
    (c_awaiting_pong c) (c_refcount c).
Definition set_last_ping_usec (v : Z) (c : websocket_connection_object) : websocket_connection_object :=
  mk_conn (c_id c) (c_remote_address c) (c_selected_subprotocol c) (c_remote_addr c) (c_numeric_id c) (c_fd c)
    (c_open c) (c_upgraded c) (c_close_notified c) (c_has_remote_addr c) (c_defer_close c) (c_read_buffer c)
    (c_read_buffer_capacity c) (c_write_queue c) (c_write_queue_capacity c) (c_write_queue_offset c)
    (c_queued_bytes c) (c_max_queued_bytes c) (c_write_watched c) (c_close_after_write c) (c_fragmented c)
    (c_fragmented_opcode c) (c_fragmented_payload c) (c_accepted_at_usec c) (c_last_activity_usec c) v
    (c_awaiting_pong c) (c_refcount c).
Definition set_awaiting_pong (v : bool) (c : websocket_connection_object) : websocket_connection_object :=
  mk_conn (c_id c) (c_remote_address c) (c_selected_subprotocol c) (c_remote_addr c) (c_numeric_id c) (c_fd c)
    (c_open c) (c_upgraded c) (c_close_notified c) (c_has_remote_addr c) (c_defer_close c) (c_read_buffer c)
    (c_read_buffer_capacity c) (c_write_queue c) (c_write_queue_capacity c) (c_write_queue_offset c)
    (c_queued_bytes c) (c_max_queued_bytes c) (c_write_watched c) (c_close_after_write c) (c_fragmented c)
    (c_fragmented_opcode c) (c_fragmented_payload c) (c_accepted_at_usec c) (c_last_activity_usec c)
    (c_last_ping_usec c) v (c_refcount c).
Definition set_refcount (v : Z) (c : websocket_connection_object) : websocket_connection_object :=
  mk_conn (c_id c) (c_remote_address c) (c_selected_subprotocol c) (c_remote_addr c) (c_numeric_id c) (c_fd c)
    (c_open c) (c_upgraded c) (c_close_notified c) (c_has_remote_addr c) (c_defer_close c) (c_read_buffer c)
    (c_read_buffer_capacity c) (c_write_queue c) (c_write_queue_capacity c) (c_write_queue_offset c)
    (c_queued_bytes c) (c_max_queued_bytes c) (c_write_watched c) (c_close_after_write c) (c_fragmented c)
    (c_fragmented_opcode c) (c_fragmented_payload c) (c_accepted_at_usec c) (c_last_activity_usec c)
    (c_last_ping_usec c) (c_awaiting_pong c) v.

(** [websocket_connection_create_object] *)
Definition websocket_connection_create_object : websocket_connection_object :=
  {| c_id := None; c_remote_address := None; c_selected_subprotocol := None;
     c_remote_addr := []; c_numeric_id := 0; c_fd := -1; c_open := false;
     c_upgraded := false; c_close_notified := false; c_has_remote_addr := false;
     c_defer_close := false; c_read_buffer := []; c_read_buffer_capacity := 0;
     c_write_queue := []; c_write_queue_capacity := 0; c_write_queue_offset := 0;
     c_queued_bytes := 0; c_max_queued_bytes := WEBSOCKET_DEFAULT_MAX_QUEUED_BYTES;
     c_write_watched := false; c_close_after_write := false; c_fragmented := false;
     c_fragmented_opcode := 0; c_fragmented_payload := None; c_accepted_at_usec := 0;
     c_last_activity_usec := 0; c_last_ping_usec := 0; c_awaiting_pong := false;
     c_refcount := 1 |}.
