(* ===== verification/Connection.v ===== *)
(** * Connections: [websocket_connection.c]

    Each function of the file is a computation on a connection, the driver (when
    one is selected) and the kernel.  [getnameinfo] and [sa_family] of libc are
    parameters; [getpeername] is a kernel answer. *)
From S2P Require Import Prelude Constants Utf8 Protocol Http Kernel Driver ConnState.
From Stdlib Require String.
Import (notations) String.

(** ** Decimal numbers: [strpprintf]'s [%lu] *)

Fixpoint decimal_loop (fuel : nat) (n : Z) (acc : bytes) : bytes :=
  match fuel with
  | O => acc
  | S fuel =>
    let acc := (48 + n mod 10) :: acc in
    if n <? 10 then acc else decimal_loop fuel (n / 10) acc
  end.

(** Twenty digits are enough for 64 bits. *)
Definition decimal (n : Z) : bytes := decimal_loop 20 n [].

Record cstate (D : Type) := mk_cs {
  cs_conn : websocket_connection_object;
  cs_driver : option D;
  cs_kernel : kernel
}.
Arguments mk_cs {D} _ _ _.
Arguments cs_conn {D} _.
Arguments cs_driver {D} _.
Arguments cs_kernel {D} _.

(** What [Connection::send] and [Connection::close] throw. *)
Inductive connection_error : Type :=
| SendOnClosed          (* Cannot send on a closed WebSocket connection *)
| SendBeforeUpgrade     (* Cannot send before the WebSocket connection is upgraded *)
| SendContinuation      (* argument 2 must not be MessageType::Continuation *)
| SendControlTooLong    (* control frame payload must be at most 125 bytes *)
| SendTextNotUtf8       (* argument 1 must be valid UTF-8 for text frames *)
| SendFailed            (* Failed to send WebSocket frame *)
| CloseInvalidCode      (* argument 1 must be a valid WebSocket close code *)
| CloseReasonTooLong    (* argument 2 must be at most 123 bytes *)
| CloseReasonNotUtf8.   (* argument 2 must be valid UTF-8 *)

#[export] Instance connection_error_eq_dec : EqDecision connection_error.
Proof. solve_decision. Defined.

Section Connection.
Context {D : Type} `{Driver D}.
Context (getnameinfo : bytes -> option (bytes * bytes)) (sa_family : bytes -> Z) (AF_INET6 : Z).

Local Abbreviation M := (ST (cstate D)).

(** ** Access to the state *)

Definition get_conn : M websocket_connection_object := st_gets cs_conn.

Definition mod_conn (f : websocket_connection_object -> websocket_connection_object) : M () :=
  fun s => ((), mk_cs (f (cs_conn s)) (cs_driver s) (cs_kernel s)).

Definition on_kernel {A} (f : kernel -> A * kernel) : M A :=
  fun s => let '(x, k) := f (cs_kernel s) in (x, mk_cs (cs_conn s) (cs_driver s) k).

Definition mod_kernel (f : kernel -> kernel) : M () :=
  fun s => ((), mk_cs (cs_conn s) (cs_driver s) (f (cs_kernel s))).

Definition get_errno : M Z := st_gets (fun s => k_errno (cs_kernel s)).

(** [WEBSOCKET_G(driver)->op(fd)] of the operations without a result, when a
    driver is selected. *)
Definition driver_do (op : Z -> D * kernel -> D * kernel) (fd : Z) : M () :=
  fun s => match cs_driver s with
           | None => ((), s)
           | Some d => let '(d, k) := op fd (d, cs_kernel s) in ((), mk_cs (cs_conn s) (Some d) k)
           end.

(** [WEBSOCKET_G(driver) && WEBSOCKET_G(driver)->watch_write(fd)]: [None] when no
    driver is selected. *)
Definition driver_watch_write (fd : Z) : M (option bool) :=
  fun s => match cs_driver s with
           | None => (None, s)
           | Some d => let '(ok, (d, k)) := watch_write fd (d, cs_kernel s) in
                       (Some ok, mk_cs (cs_conn s) (Some d) k)
           end.

(** ** Identity and peer address *)

Definition websocket_connection_make_id : M bytes :=
  c ← get_conn;
  match c_id c with
  | Some id => mret id
  | None =>
      let id := str "0." ++ decimal (c_numeric_id c) in
      mod_conn (set_id (Some id));; mret id
  end.

Definition websocket_connection_cache_remote_address : M () :=
  c ← get_conn;
  if c_has_remote_addr c || (c_fd c <? 0) then mret () else
  a ← on_kernel syscall;
  match a with
  | AOk _ addr =>
      if zlen addr <=? 128 then
        mod_conn (fun c => set_has_remote_addr true (set_remote_addr addr c))
      else mret ()
  | AErr _ => mret ()
  end.

Definition websocket_connection_make_remote_address : M bytes :=
  c ← get_conn;
  match c_remote_address c with
  | Some a => mret a
  | None =>
      (if negb (c_has_remote_addr c) && (0 <=? c_fd c)
       then websocket_connection_cache_remote_address else mret ());;
      c ← get_conn;
      let text :=
        if negb (c_has_remote_addr c) then [] else
        match getnameinfo (c_remote_addr c) with
        | None => []
        | Some (host, port) =>
            if sa_family (c_remote_addr c) =? AF_INET6
            then str "[" ++ host ++ str "]:" ++ port
            else host ++ str ":" ++ port
        end in
      mod_conn (set_remote_address (Some text));; mret text
  end.

(** ** Closing *)

Definition websocket_connection_clear_write_queue : M () :=
  mod_conn (fun c => set_queued_bytes 0 (set_write_queue_offset 0 (set_write_queue [] c)));;
  c ← get_conn;
  (if c_write_watched c && (0 <=? c_fd c) then driver_do unwatch_write (c_fd c) else mret ());;
  mod_conn (fun c => set_close_after_write false (set_write_watched false c)).

Definition websocket_connection_close_socket : M () :=
  c ← get_conn;
  (if 0 <=? c_fd c then
     driver_do unwatch (c_fd c);;
     (if 1 <? c_refcount c then websocket_connection_cache_remote_address else mret ());;
     mod_conn (set_fd (-1));;
     mod_kernel (close_retry (c_fd c))
   else mret ());;
  mod_conn (set_open false);;
  websocket_connection_clear_write_queue;;
  mod_conn (fun c =>
    set_awaiting_pong false (set_last_ping_usec 0 (set_last_activity_usec 0
      (set_accepted_at_usec 0 (set_fragmented_opcode 0 (set_fragmented false
        (set_fragmented_payload None c))))))).

Definition websocket_connection_has_pending_writes : M bool :=
  c ← get_conn; mret (0 <? zlen (c_write_queue c)).

(** ** Writing *)

(** The loop of [websocket_connection_write_some]: the result, [*offset] and
    [*written_bytes]. *)
Fixpoint write_some_loop (fuel : nat) (fd : Z) (frame : bytes) (offset written_bytes : Z) (k : kernel)
    : (bool * Z * Z) * kernel :=
  match fuel with
  | O => ((true, offset, written_bytes), k)
  | S fuel =>
    if negb (offset <? zlen frame) then ((true, offset, written_bytes), k) else
    let '(written, k) := sys_send fd (zdrop offset frame) k in
    if 0 <? written then write_some_loop fuel fd frame (offset + written) (written_bytes + written) k
    else if (written <? 0) && (k_errno k =? EINTR) then write_some_loop fuel fd frame offset written_bytes k
    else if (written <? 0) && ((k_errno k =? EAGAIN) || (k_errno k =? EWOULDBLOCK))
    then ((true, offset, written_bytes), k)
    else ((false, offset, written_bytes), k)
  end.

Definition websocket_connection_write_some (fd : Z) (frame : bytes) (offset : Z) (k : kernel)
    : (bool * Z * Z) * kernel :=
  write_some_loop (S (length (k_answers k))) fd frame offset 0 k.

Definition websocket_connection_ensure_write_capacity : M bool :=
  c ← get_conn;
  if zlen (c_write_queue c) <? c_write_queue_capacity c then mret true else
  mod_conn (set_write_queue_capacity
    (if 0 <? c_write_queue_capacity c then c_write_queue_capacity c * 2 else 8));;
  mret true.

Definition websocket_connection_queue_frame (frame : bytes) (offset : Z) : M bool :=
  c ← get_conn;
  let remaining := zlen frame - offset in
  if (c_max_queued_bytes c <? remaining) || (c_max_queued_bytes c - remaining <? c_queued_bytes c)
  then mod_kernel (set_errno ENOBUFS);; mret false else
  ok ← websocket_connection_ensure_write_capacity;
  if negb ok then mret false else
  (if zlen (c_write_queue c) =? 0 then mod_conn (set_write_queue_offset offset) else mret ());;
  mod_conn (fun c => set_queued_bytes (c_queued_bytes c + remaining)
                       (set_write_queue (c_write_queue c ++ [frame]) c));;
  c ← get_conn;
  if c_write_watched c then mret true else
  r ← driver_watch_write (c_fd c);
  match r with
  | None => mret true
  | Some false => mret false
  | Some true => mod_conn (set_write_watched true);; mret true
  end.

(** The loop of [websocket_connection_flush]: [None] when the queue was emptied. *)
Fixpoint flush_loop (fuel : nat) : M (option bool) :=
  match fuel with
  | O => mret None
  | S fuel =>
    c ← get_conn;
    match c_write_queue c with
    | [] => mret None
    | frame :: rest =>
      r ← on_kernel (websocket_connection_write_some (c_fd c) frame (c_write_queue_offset c));
      let '(ok, offset, written_bytes) := r in
      if negb ok then mod_conn (set_open false);; mret (Some false) else
      mod_conn (fun c => set_queued_bytes
        (if c_queued_bytes c <? written_bytes then 0 else c_queued_bytes c - written_bytes) c);;
      if offset <? zlen frame then mod_conn (set_write_queue_offset offset);; mret (Some true) else
      mod_conn (fun c => set_write_queue_offset 0 (set_write_queue rest c));;
      flush_loop fuel
    end
  end.

Definition websocket_connection_flush : M bool :=
  c ← get_conn;
  if negb (c_open c) || (c_fd c <? 0) then mret false else
  r ← flush_loop (S (length (c_write_queue c)));
  match r with
  | Some b => mret b
  | None =>
    c ← get_conn;
    d ← st_gets cs_driver;
    (if c_write_watched c && bool_decide (is_Some d) then
       driver_do unwatch_write (c_fd c);; mod_conn (set_write_watched false)
     else mret ());;
    c ← get_conn;
    (if c_close_after_write c then websocket_connection_close_socket else mret ());;
    mret true
  end.

Definition websocket_connection_close_after_write : M () :=
  c ← get_conn;
  if negb (c_open c) then mret () else
  pending ← websocket_connection_has_pending_writes;
  if negb pending then websocket_connection_close_socket
  else mod_conn (set_close_after_write true).

(** Server frames are not masked, so neither the byte order nor the random
    mask key of [websocket_protocol_pack_payload] is used. *)
Definition websocket_connection_send_frame (payload : bytes) (opcode : Z) : M bool :=
  c ← get_conn;
  if negb (c_open c) || c_close_after_write c || negb (c_upgraded c) || (c_fd c <? 0) then mret false else
  match websocket_protocol_pack_payload false None payload opcode WEBSOCKET_FLAG_FIN with
  | None => mret false
  | Some frame =>
    if c_max_queued_bytes c <? zlen frame then mod_kernel (set_errno ENOBUFS);; mret false else
    ok ← (if 0 <? zlen (c_write_queue c) then websocket_connection_queue_frame frame 0 else
          r ← on_kernel (websocket_connection_write_some (c_fd c) frame 0);
          let '(ok, offset, _) := r in
          if ok && (offset <? zlen frame) then websocket_connection_queue_frame frame offset
          else mret ok);
    e ← get_errno;
    (if negb ok && negb (e =? ENOBUFS) then mod_conn (set_open false) else mret ());;
    mret ok
  end.

Definition websocket_connection_send_close_frame (code : Z) (reason : bytes) : M bool :=
  c ← get_conn;
  if negb (c_open c) || negb (c_upgraded c) || (c_fd c <? 0) then mret false else
  match websocket_protocol_close_payload code reason with
  | Err _ => mret false
  | Ok payload => websocket_connection_send_frame payload WEBSOCKET_OPCODE_CLOSE
  end.

(** ** Opening *)

(** [sizeof(struct sockaddr_storage)] is 128. *)
Definition websocket_connection_open (id : Z) (remote_addr : option bytes) (fd : Z) : M () :=
  mod_conn (fun c => set_remote_addr [] (set_has_remote_addr false (set_numeric_id id
    (set_selected_subprotocol None (set_remote_address None (set_id None c))))));;
  match remote_addr with
  | Some addr =>
      if zlen addr <=? 128 then mod_conn (fun c => set_has_remote_addr true (set_remote_addr addr c))
      else mret ()
  | None => mret ()
  end;;
  mod_conn (fun c => set_read_buffer [] (set_defer_close false (set_close_notified false
    (set_upgraded false (set_open true (set_fd fd c))))));;
  websocket_connection_clear_write_queue;;
  mod_conn (fun c => set_awaiting_pong false (set_last_ping_usec 0 (set_fragmented_opcode 0
    (set_fragmented false (set_fragmented_payload None
      (set_max_queued_bytes WEBSOCKET_DEFAULT_MAX_QUEUED_BYTES c)))))).

(** ** The PHP methods and properties *)

Definition Connection_send (payload : bytes) (type : option message_type) : M (option connection_error) :=
  c ← get_conn;
  if negb (c_open c) || c_close_after_write c then mret (Some SendOnClosed) else
  if negb (c_upgraded c) then mret (Some SendBeforeUpgrade) else
  let opcode := match type with
                | Some t => websocket_protocol_message_type_opcode t
                | None => WEBSOCKET_OPCODE_TEXT
                end in
  if opcode =? WEBSOCKET_OPCODE_CONTINUATION then mret (Some SendContinuation) else
  if websocket_protocol_opcode_is_control opcode && (125 <? zlen payload)
  then mret (Some SendControlTooLong) else
  if (opcode =? WEBSOCKET_OPCODE_TEXT) && negb (websocket_protocol_is_valid_utf8 payload)
  then mret (Some SendTextNotUtf8) else
  ok ← websocket_connection_send_frame payload opcode;
  mret (if negb ok then Some SendFailed else None).

(** [code] is [None] when the method is called without arguments. *)
Definition Connection_close (code : option Z) (reason : option bytes) : M (option connection_error) :=
  if match code with Some code => negb (websocket_protocol_close_code_is_valid code) | None => false end
  then mret (Some CloseInvalidCode) else
  let reason := default [] reason in
  if WEBSOCKET_CLOSE_REASON_MAX_LEN <? zlen reason then mret (Some CloseReasonTooLong) else
  if negb (websocket_protocol_is_valid_utf8 reason) then mret (Some CloseReasonNotUtf8) else
  c ← get_conn;
  if c_defer_close c then mod_conn (set_open false);; mret None else
  (if c_open c && c_upgraded c
   then ok ← websocket_connection_send_close_frame (default WEBSOCKET_CLOSE_NORMAL code) reason; mret ()
   else mret ());;
  websocket_connection_close_after_write;;
  mret None.

Definition Connection_isOpen : M bool :=
  c ← get_conn; mret (c_open c && negb (c_close_after_write c)).

(** The three virtual properties of [websocket_connection_read_property]:
    [None] is PHP's null. *)
Inductive connection_property : Type := PropId | PropRemoteAddress | PropSubprotocol.

Definition websocket_connection_read_property (p : connection_property) : M (option bytes) :=
  match p with
  | PropId => id ← websocket_connection_make_id; mret (Some id)
  | PropRemoteAddress => a ← websocket_connection_make_remote_address; mret (Some a)
  | PropSubprotocol => c ← get_conn; mret (c_selected_subprotocol c)
  end.

(** [websocket_connection_free_object]: the effects on the world; the memory is
    released. *)
Definition websocket_connection_free_object : M () :=
  websocket_connection_close_socket;;
  mod_conn (fun c => set_fragmented_payload None (set_write_queue_capacity 0
    (set_read_buffer_capacity 0 (set_read_buffer [] (set_selected_subprotocol None
      (set_remote_address None (set_id None c))))))).
End Connection.
