(* ===== verification/ConnectionFacts.v ===== *)
(** * What the connection's output side guarantees

    The well-formedness of a connection and its queue, the integrity of the byte
    stream, back-pressure, and the effects of flushing and closing. *)
From S2P Require Import Prelude Constants Utf8 Protocol Http Kernel Driver ConnState Connection.
From Stdlib Require String.
Import (notations) String.

(** ** [write_some] *)

(** The kernel never answers a write of at least one byte with 0, nor with
    [ENOBUFS]: on Linux the latter does not occur for stream sockets. *)
Definition sends_ok (k : kernel) : Prop :=
  Forall (fun a => match a with AOk n _ => 0 < n | AErr e => e <> ENOBUFS end) (k_answers k).

Lemma sends_ok_left k k' : answers_left k k' -> sends_ok k -> sends_ok k'.
Proof. intros [l E] H. unfold sends_ok in *. rewrite E in H. by apply Forall_app in H as [_ ?]. Qed.

(** What one call of [websocket_connection_write_some] does: it sends the bytes
    between the two offsets and stops at the frame's end, on [EAGAIN] (success)
    or on another failure. *)
Definition write_some_post (fd : Z) (frame : bytes) (offset written : Z) (k : kernel)
    (r : (bool * Z * Z) * kernel) : Prop :=
  let '((ok, offset', written'), k') := r in
  offset <= offset' <= zlen frame /\ written' - written = offset' - offset /\
  sent fd k' = sent fd k ++ ztake (offset' - offset) (zdrop offset frame) /\
  (forall fd', fd' <> fd -> sent fd' k' = sent fd' k) /\
  k_clock k' = k_clock k /\ answers_left k k' /\
  (if ok then offset' = zlen frame \/ k_errno k' = EAGAIN
   else offset' < zlen frame /\ (sends_ok k -> k_errno k' <> ENOBUFS)).

Lemma write_some_loop_spec fuel fd frame offset written k :
  0 <= offset <= zlen frame -> (length (k_answers k) < fuel)%nat ->
  write_some_post fd frame offset written k (write_some_loop fuel fd frame offset written k).
Proof.
  revert offset written k. induction fuel as [|fuel IH]; intros offset written k Ho Hf; [lia|].
  cbn [write_some_loop]. destruct (Z.ltb_spec offset (zlen frame)) as [Hlt|Hge]; cbn [negb].
  2:{ unfold write_some_post. rewrite !Z.sub_diag, ztake_0, app_nil_r. 
      split_and!; try done; lia. }
  pose proof (sys_send_spec fd (zdrop offset frame) k) as S.
  destruct (sys_send fd (zdrop offset frame) k) as [w k1].
  destruct S as (Hw & Hsent & Hother & Hclock & Hans & Hsuf & Hnil & Herr & Hzero).
  rewrite zlen_zdrop in Hw.
  destruct (Z.ltb_spec 0 w) as [Hpos|Hneg].
  - assert (Hk : k_answers k <> []) by (intros Hn; destruct (Hnil Hn); lia).
    assert (Hf1 : (length (k_answers k1) < fuel)%nat) by (pose proof (length_nonnil _ Hk); lia).
    specialize (IH (offset + w) (written + w) k1 ltac:(lia) Hf1).
    destruct (write_some_loop _ _ _ _ _ _) as [[[ok o'] w'] k']. unfold write_some_post in *.
    destruct IH as (I1 & I2 & I3 & I4 & I5 & I6 & I7). split_and!; try done; try lia.
    + rewrite I3, Hsent, <- app_assoc. f_equal.
      rewrite <- zdrop_zdrop, ztake_zdrop_app by lia. f_equal. lia.
    + intros fd' Hne. by rewrite I4, Hother.
    + congruence.
    + by transitivity k1.
    + destruct ok; [done|]. destruct I7 as [? I7]. split; [done|]. intros Hs.
      apply I7. by apply (sends_ok_left k).
  - destruct ((w <? 0) && (k_errno k1 =? EINTR)) eqn:E1.
    + assert (Hk : k_answers k <> []) by (intros Hn; destruct (Hnil Hn) as [_ E];
        rewrite E, andb_false_r in E1; done).
      assert (Hf1 : (length (k_answers k1) < fuel)%nat) by (pose proof (length_nonnil _ Hk); lia).
      specialize (IH offset written k1 ltac:(lia) Hf1).
      destruct (write_some_loop _ _ _ _ _ _) as [[[ok o'] w'] k']. unfold write_some_post in *.
      destruct IH as (I1 & I2 & I3 & I4 & I5 & I6 & I7). split_and!; try done; try lia.
      * rewrite I3, Hsent, ztake_neg by lia. by rewrite app_nil_r.
      * intros fd' Hne. by rewrite I4, Hother.
      * congruence.
      * by transitivity k1.
      * destruct ok; [done|]. destruct I7 as [? I7]. split; [done|]. intros Hs.
        apply I7. by apply (sends_ok_left k).
    + assert (Hsame : sent fd k1 = sent fd k) by (rewrite Hsent, ztake_neg by lia; apply app_nil_r).
      destruct ((w <? 0) && (_ || _)) eqn:E2; unfold write_some_post; cbv beta iota;
        rewrite !Z.sub_diag, ztake_0, app_nil_r; split_and!; try done; try lia.
      * right. unfold EWOULDBLOCK in E2. lia.
      * intros Hs. destruct (Z.eq_dec w 0) as [->|Hw0].
        -- exfalso. destruct (Hzero eq_refl) as [Hz|(n & dt & Hn & Hin)].
           ++ rewrite zlen_zdrop in Hz. lia.
           ++ pose proof (proj1 (Forall_forall _ _) Hs _ Hin) as Hbad. cbn in Hbad. lia.
        -- replace (0 <=? w) with false in Herr by lia.
           destruct (k_answers k) as [|a l] eqn:Ek.
           ++ destruct (Hnil eq_refl) as [_ ->]. done.
           ++ intros Hbad. rewrite Hbad in Herr. unfold sends_ok in Hs. rewrite Ek in Hs.
              by apply (proj1 (Forall_forall _ _) Hs _ (Herr ltac:(done))).
Qed.

(** Enough fuel: any two amounts above the number of answers agree. *)
Lemma write_some_loop_fuel f1 f2 fd frame offset written k :
  0 <= offset -> (length (k_answers k) < f1)%nat -> (length (k_answers k) < f2)%nat ->
  write_some_loop f1 fd frame offset written k = write_some_loop f2 fd frame offset written k.
Proof.
  revert f2 offset written k. induction f1 as [|f1 IH]; intros f2 offset written k Ho H1 H2; [lia|].
  destruct f2 as [|f2]; [lia|]. cbn [write_some_loop]. destruct (negb _); [done|].
  pose proof (sys_send_spec fd (zdrop offset frame) k) as S.
  destruct (sys_send fd (zdrop offset frame) k) as [w k1].
  destruct S as (_ & _ & _ & _ & Hans & _ & Hnil & _).
  destruct (Z.ltb_spec 0 w) as [Hpos|Hneg].
  - assert (Hk : k_answers k <> []) by (intros Hn; destruct (Hnil Hn); lia).
    pose proof (length_nonnil _ Hk). apply IH; lia.
  - destruct ((w <? 0) && (k_errno k1 =? EINTR)) eqn:E1; [|done].
    assert (Hk : k_answers k <> []) by (intros Hn; destruct (Hnil Hn) as [_ E];
      rewrite E, andb_false_r in E1; done).
    pose proof (length_nonnil _ Hk). apply IH; lia.
Qed.

Lemma write_some_spec fd frame offset k :
  0 <= offset <= zlen frame ->
  write_some_post fd frame offset 0 k (websocket_connection_write_some fd frame offset k).
Proof. intros Ho. apply write_some_loop_spec; [done|lia]. Qed.

(** ** Views of a connection *)

(** The bytes accepted but not yet sent. *)
Definition pending (c : websocket_connection_object) : bytes :=
  zdrop (c_write_queue_offset c) (concat (c_write_queue c)).

(** The fields the output side does not touch. *)
Definition input_view (c : websocket_connection_object) :=
  ((c_id c, c_remote_address c, c_selected_subprotocol c, c_remote_addr c, c_numeric_id c,
    c_has_remote_addr c, c_refcount c, c_max_queued_bytes c),
   (c_upgraded c, c_close_notified c, c_defer_close c),
   (c_read_buffer c, c_read_buffer_capacity c),
   (c_fragmented c, c_fragmented_opcode c, c_fragmented_payload c),
   (c_accepted_at_usec c, c_last_activity_usec c, c_last_ping_usec c, c_awaiting_pong c)).

(** Run a computation of the state monad one step. *)
Ltac run :=
  cbv beta iota zeta delta [mbind ST_bind mret ST_ret get_conn st_gets mod_conn on_kernel
    mod_kernel get_errno];
  cbn [cs_conn cs_driver cs_kernel negb andb orb fst snd].

Section Facts.
Context {D : Type} `{HD : Driver D} `{!DriverLaws D}.
Implicit Types (s : cstate D) (c : websocket_connection_object) (d : option D).

(** The driver waits for [fd] to be writable. *)
Definition write_interest (d : option D) (fd : Z) : Prop :=
  match d with Some d => writes d fd = true | None => True end.

(** The write queue: non-empty frames, an offset into the first one, and the
    count of pending bytes, which the limit bounds. *)
Record queue_wf (c : websocket_connection_object) : Prop := {
  wf_frames : Forall (fun f => 0 < zlen f) (c_write_queue c);
  wf_offset : match c_write_queue c with
              | [] => c_write_queue_offset c = 0
              | f :: _ => 0 <= c_write_queue_offset c < zlen f
              end;
  wf_queued : c_queued_bytes c = zlen (pending c);
  wf_limit : c_queued_bytes c <= c_max_queued_bytes c;
  wf_capacity : zlen (c_write_queue c) <= c_write_queue_capacity c
}.

(** The invariant of the output side, but for the watch of a non-empty queue. *)
Record conn_wf0 (c : websocket_connection_object) (d : option D) : Prop := {
  wf_queue :> queue_wf c;
  wf_fd : c_fd c < 0 -> c_open c = false /\ c_write_queue c = [] /\ c_write_watched c = false;
  wf_close : c_close_after_write c = true -> c_write_queue c <> [];
  wf_watched : c_write_watched c = true -> 0 <= c_fd c -> write_interest d (c_fd c);
  wf_driver : driver_ok d
}.

(** An open connection with pending bytes waits for the socket to be writable. *)
Definition watches_pending (c : websocket_connection_object) (d : option D) : Prop :=
  c_open c = true -> c_write_queue c <> [] -> is_Some d -> c_write_watched c = true.

Definition conn_wf (s : cstate D) : Prop :=
  conn_wf0 (cs_conn s) (cs_driver s) /\ watches_pending (cs_conn s) (cs_driver s).

Lemma pending_nil c : c_write_queue c = [] -> pending c = [].
Proof. intros E. unfold pending. rewrite E. cbn. unfold zdrop. apply drop_nil. Qed.

Lemma queue_nil_queued c : queue_wf c -> c_write_queue c = [] -> c_queued_bytes c = 0.
Proof. intros W E. rewrite (wf_queued _ W), pending_nil by done. done. Qed.

Definition enqueue (frame : bytes) (offset : Z) (c : websocket_connection_object) : websocket_connection_object :=
  let c := if zlen (c_write_queue c) <? c_write_queue_capacity c then c
           else set_write_queue_capacity
                  (if 0 <? c_write_queue_capacity c then c_write_queue_capacity c * 2 else 8) c in
  let c := if zlen (c_write_queue c) =? 0 then set_write_queue_offset offset c else c in
  set_queued_bytes (c_queued_bytes c + (zlen frame - offset)) (set_write_queue (c_write_queue c ++ [frame]) c).

(** [queue_frame] as an equation. *)
Lemma queue_frame_eq frame offset s :
  websocket_connection_queue_frame frame offset s =
  let c := cs_conn s in
  let remaining := zlen frame - offset in
  if (c_max_queued_bytes c <? remaining) || (c_max_queued_bytes c - remaining <? c_queued_bytes c)
  then (false, mk_cs c (cs_driver s) (set_errno ENOBUFS (cs_kernel s)))
  else
    let c := enqueue frame offset c in
    if c_write_watched c then (true, mk_cs c (cs_driver s) (cs_kernel s)) else
    match cs_driver s with
    | None => (true, mk_cs c None (cs_kernel s))
    | Some d =>
        let '(ok, (d, k)) := watch_write (c_fd c) (d, cs_kernel s) in
        (ok, mk_cs (if ok then set_write_watched true c else c) (Some d) k)
    end.
Proof.
  unfold websocket_connection_queue_frame. run. cbv zeta.
  destruct (_ || _); [done|].
  unfold websocket_connection_ensure_write_capacity. run.
  destruct s as [c d k]; cbn [cs_conn cs_driver cs_kernel]. unfold enqueue.
  destruct (zlen (c_write_queue c) <? c_write_queue_capacity c); run;
    cbn [c_write_queue set_write_queue_capacity];
    destruct (zlen (c_write_queue c) =? 0); run;
    cbn [c_write_watched c_fd set_queued_bytes set_write_queue set_write_queue_offset set_write_queue_capacity
         c_queued_bytes c_write_queue];
    (destruct (c_write_watched c); run; [done|]);
    unfold driver_watch_write; cbn [cs_conn cs_driver cs_kernel]; (destruct d as [d|]; [|done]);
    destruct (watch_write (c_fd c) (d, k)) as [[] [d' k']]; done.
Qed.

Lemma enqueue_capacity frame offset c :
  zlen (c_write_queue c) <= c_write_queue_capacity c ->
  zlen (c_write_queue (enqueue frame offset c)) <= c_write_queue_capacity (enqueue frame offset c).
Proof.
  intros Hc. pose proof (zlen_nonneg (c_write_queue c)). unfold enqueue.
  destruct (Z.ltb_spec (zlen (c_write_queue c)) (c_write_queue_capacity c)) as [H1|H1];
    destruct (zlen (c_write_queue _) =? 0); cbn; rewrite zlen_app; change (zlen [frame]) with 1; try lia;
    destruct (Z.ltb_spec 0 (c_write_queue_capacity c)); lia.
Qed.

Lemma enqueue_fields frame offset c :
  let c' := enqueue frame offset c in
  c_write_queue c' = c_write_queue c ++ [frame] /\
  c_queued_bytes c' = c_queued_bytes c + (zlen frame - offset) /\
  c_write_queue_offset c' = (if zlen (c_write_queue c) =? 0 then offset else c_write_queue_offset c) /\
  input_view c' = input_view c /\ c_open c' = c_open c /\ c_fd c' = c_fd c /\
  c_close_after_write c' = c_close_after_write c /\ c_write_watched c' = c_write_watched c.
Proof.
  unfold enqueue. cbv zeta.
  destruct (_ <? _); cbn [c_write_queue set_write_queue_capacity]; destruct (_ =? 0); by split_and!.
Qed.

Lemma enqueue_wf frame offset c d :
  conn_wf0 c d -> 0 <= c_fd c -> 0 <= offset < zlen frame -> (c_write_queue c <> [] -> offset = 0) ->
  c_queued_bytes c + (zlen frame - offset) <= c_max_queued_bytes c ->
  conn_wf0 (enqueue frame offset c) d /\
  pending (enqueue frame offset c) = pending c ++ zdrop offset frame.
Proof.
  intros W Hfd Ho Hne Hmax.
  destruct (enqueue_fields frame offset c) as (Eq & Eqb & Eo & Ei & Eopen & Efd & Ecaw & Ew).
  pose proof (enqueue_capacity frame offset c (wf_capacity _ W)) as Ecap.
  set (c' := enqueue frame offset c) in *. clearbody c'.
  assert (Ep : pending c' = pending c ++ zdrop offset frame).
  { unfold pending. rewrite Eq, Eo, concat_app. cbn [concat]. rewrite app_nil_r.
    pose proof (wf_offset _ W) as Hoff. destruct (c_write_queue c) as [|f q]; cbn [concat app].
    - rewrite zlen_nil. cbn. unfold zdrop at 2. by rewrite drop_nil.
    - rewrite (Hne ltac:(done)), zlen_cons. pose proof (zlen_nonneg q).
      replace (1 + zlen q =? 0) with false by slia. rewrite zdrop_app_le; [done|clear_bools; zlia]. }
  split; [|done]. injection Ei as _ _ _ _ _ _ _ Emax _.
  constructor; [constructor|..]; rewrite ?Eq, ?Eqb, ?Eo, ?Efd, ?Ecaw, ?Ew, ?Emax.
  - apply Forall_app. split; [exact (wf_frames _ W)|]. apply Forall_singleton. slia.
  - pose proof (wf_offset _ W) as Hoff. destruct (c_write_queue c) as [|f q]; cbn [app]; [done|].
    by rewrite zlen_cons; pose proof (zlen_nonneg q); replace (1 + zlen q =? 0) with false by slia.
  - rewrite Ep, zlen_app, zlen_zdrop, <- (wf_queued _ W). slia.
  - done.
  - rewrite <- Eq. done.
  - slia.
  - intros _. by destruct (c_write_queue c).
  - exact (wf_watched _ _ W).
  - exact (wf_driver _ _ W).
Qed.

(** The outcome of queueing a frame: refused, or appended to the pending bytes. *)
Definition queue_frame_post frame offset s (ok : bool) (s' : cstate D) : Prop :=
  let c := cs_conn s in let c' := cs_conn s' in
  (ok = false /\ c_max_queued_bytes c < c_queued_bytes c + (zlen frame - offset) /\
   s' = mk_cs c (cs_driver s) (set_errno ENOBUFS (cs_kernel s)))
  \/
  (c_queued_bytes c + (zlen frame - offset) <= c_max_queued_bytes c /\
   conn_wf0 c' (cs_driver s') /\ (ok = true -> watches_pending c' (cs_driver s')) /\
   (ok = false -> k_errno (cs_kernel s') <> ENOBUFS) /\
   c_write_queue c' = c_write_queue c ++ [frame] /\
   pending c' = pending c ++ zdrop offset frame /\
   input_view c' = input_view c /\ c_open c' = c_open c /\ c_fd c' = c_fd c /\
   c_close_after_write c' = c_close_after_write c /\
   driver_step (cs_kernel s) (cs_kernel s')).

Lemma queue_frame_spec frame offset s ok s' :
  conn_wf0 (cs_conn s) (cs_driver s) -> 0 <= c_fd (cs_conn s) -> 0 <= offset < zlen frame ->
  (c_write_queue (cs_conn s) <> [] -> offset = 0) ->
  websocket_connection_queue_frame frame offset s = (ok, s') ->
  queue_frame_post frame offset s ok s'.
Proof.
  intros W Hfd Ho Hne. rewrite queue_frame_eq. cbv zeta. unfold queue_frame_post.
  destruct s as [c d k]; cbn [cs_conn cs_driver cs_kernel] in *.
  assert (0 <= c_queued_bytes c) by (rewrite (wf_queued _ W); apply zlen_nonneg).
  destruct (_ || _) eqn:Eov.
  { intros [= <- <-]. left. split_and!; [done|lia|done]. }
  destruct (enqueue_wf frame offset c d W Hfd Ho Hne ltac:(lia)) as [W' Ep].
  destruct (enqueue_fields frame offset c) as (Eq & Eqb & Eo & Ei & Eopen & Efd & Ecaw & Ew).
  set (c' := enqueue frame offset c) in *. clearbody c'. intros E. right.
  destruct (c_write_watched c') eqn:Ewatch.
  { injection E as <- <-. cbn [cs_conn cs_driver cs_kernel]. split_and!; try done; try lia.
    intros _ _ _ _. exact Ewatch. }
  destruct d as [d|].
  2:{ injection E as <- <-. cbn [cs_conn cs_driver cs_kernel]. split_and!; try done; try lia.
      intros _ _ _ [? ?]. done. }
  pose proof (watch_write_law (c_fd c') d k (wf_driver _ _ W)) as L.
  destruct (watch_write (c_fd c') (d, k)) as [b [d' k']]. destruct L as (Lw & Ls & Lok & Lother & _).
  injection E as <- <-. cbn [cs_conn cs_driver cs_kernel].
  destruct b; cbn [cs_conn cs_driver cs_kernel].
  - assert (conn_wf0 (set_write_watched true c') (Some d')).
    { destruct W' as [[]]. constructor; [constructor|..]; try done; cbn; intros; try lia. }
    split_and!; try done; try lia.
  - assert (conn_wf0 c' (Some d')).
    { destruct W'. constructor; try done. by rewrite Ewatch. }
    split_and!; try done; lia.
Qed.

(** ** Closing *)

(** The fields of a connection that survive [close_socket], but for the cached
    peer address. *)
Definition kept_view (c : websocket_connection_object) :=
  ((c_id c, c_remote_address c, c_selected_subprotocol c, c_numeric_id c, c_refcount c, c_max_queued_bytes c),
   (c_upgraded c, c_close_notified c, c_defer_close c),
   (c_read_buffer c, c_read_buffer_capacity c)).

(** The driver waits for nothing on [fd], and for the others what it did. *)
Definition unwatched (fd : Z) (d d' : option D) : Prop :=
  match d, d' with
  | Some d, Some d' =>
      writes d' fd = false /\ reads d' fd = false /\
      (forall fd', fd' <> fd -> writes d' fd' = writes d fd' /\ reads d' fd' = reads d fd')
  | None, None => True
  | _, _ => False
  end.

(** A closed connection: no socket, nothing queued, no message under way. *)
Record closed (c : websocket_connection_object) : Prop := {
  cl_fd : c_fd c < 0;
  cl_open : c_open c = false;
  cl_queue : c_write_queue c = [];
  cl_offset : c_write_queue_offset c = 0;
  cl_queued : c_queued_bytes c = 0;
  cl_watched : c_write_watched c = false;
  cl_close_after : c_close_after_write c = false;
  cl_fragmented : c_fragmented c = false;
  cl_payload : c_fragmented_payload c = None;
  cl_timers : c_accepted_at_usec c = 0 /\ c_last_activity_usec c = 0 /\ c_last_ping_usec c = 0;
  cl_pong : c_awaiting_pong c = false
}.

Definition close_socket_post s s' : Prop :=
  let c := cs_conn s in let c' := cs_conn s' in
  closed c' /\ driver_ok (cs_driver s') /\ kept_view c' = kept_view c /\
  c_write_queue_capacity c' = c_write_queue_capacity c /\
  k_clock (cs_kernel s') = k_clock (cs_kernel s) /\ answers_left (cs_kernel s) (cs_kernel s') /\
  (if 0 <=? c_fd c then
     k_trace (cs_kernel s') = EvClose (c_fd c) :: k_trace (cs_kernel s) /\
     unwatched (c_fd c) (cs_driver s) (cs_driver s')
   else k_trace (cs_kernel s') = k_trace (cs_kernel s) /\ cs_driver s' = cs_driver s).

Lemma cache_address_spec s :
  let s' := (websocket_connection_cache_remote_address s).2 in
  (exists h a, cs_conn s' = set_has_remote_addr h (set_remote_addr a (cs_conn s))) /\
  cs_driver s' = cs_driver s /\ driver_step (cs_kernel s) (cs_kernel s').
Proof.
  destruct s as [c d k]. unfold websocket_connection_cache_remote_address. run.
  assert (Hc : exists h a, c = set_has_remote_addr h (set_remote_addr a c))
    by (exists (c_has_remote_addr c), (c_remote_addr c); by destruct c).
  destruct (_ || _); run; [by split_and!|].
  pose proof (syscall_trace k). pose proof (syscall_clock k). pose proof (syscall_answers k) as (_ & _ & _ & Hl & _).
  destruct (syscall k) as [[n addr|e] k1]; cbn [fst snd] in *; run.
  - destruct (zlen addr <=? 128); run; (split; [by eauto|]); by split_and!.
  - split; [done|]. by split_and!.
Qed.

Lemma driver_unwatch_spec fd s : driver_ok (cs_driver s) ->
  let s' := (driver_do unwatch fd s).2 in
  cs_conn s' = cs_conn s /\ driver_ok (cs_driver s') /\ unwatched fd (cs_driver s) (cs_driver s') /\
  driver_step (cs_kernel s) (cs_kernel s').
Proof.
  unfold driver_do. destruct s as [c [d|] k]; cbn [cs_driver cs_conn cs_kernel].
  - intros Hd. pose proof (unwatch_law fd d k Hd) as L. destruct (unwatch fd (d, k)) as [d' k'].
    destruct L as (? & ? & _ & ? & ? & ?). cbn. by split_and!.
  - done.
Qed.

(** [clear_write_queue] on a connection whose socket is already given up. *)
Lemma clear_write_queue_no_socket s :
  c_fd (cs_conn s) < 0 ->
  websocket_connection_clear_write_queue s =
  ((), mk_cs (set_close_after_write false (set_write_watched false (set_queued_bytes 0
         (set_write_queue_offset 0 (set_write_queue [] (cs_conn s)))))) (cs_driver s) (cs_kernel s)).
Proof.
  intros Hfd. unfold websocket_connection_clear_write_queue. run. cbn [c_write_watched c_fd
    set_queued_bytes set_write_queue_offset set_write_queue].
  replace (0 <=? c_fd (cs_conn s)) with false by lia. by rewrite andb_false_r.
Qed.

Lemma close_socket_spec s : driver_ok (cs_driver s) ->
  close_socket_post s (websocket_connection_close_socket s).2.
Proof.
  intros Hdrv. unfold websocket_connection_close_socket, close_socket_post. run.
  destruct (Z.leb_spec 0 (c_fd (cs_conn s))) as [Hopen|Hclosed].
  - pose proof (driver_unwatch_spec (c_fd (cs_conn s)) s Hdrv) as (Hc1 & Hok1 & Hd1 & Hk1).
    destruct (driver_do unwatch (c_fd (cs_conn s)) s) as [[] s1]; cbn [snd] in *.
    set (m := if 1 <? c_refcount (cs_conn s) then _ else _).
    assert (Hm : (exists h a, cs_conn (m s1).2 = set_has_remote_addr h (set_remote_addr a (cs_conn s1))) /\
                 cs_driver (m s1).2 = cs_driver s1 /\ driver_step (cs_kernel s1) (cs_kernel (m s1).2)).
    { subst m. destruct (1 <? _); [apply cache_address_spec|]. cbn.
      split_and!; [|done|done]. exists (c_has_remote_addr (cs_conn s1)), (c_remote_addr (cs_conn s1)).
      by destruct (cs_conn s1). }
    destruct (m s1) as [[] s2]; cbn [snd] in Hm. destruct Hm as ((h & a & Hc2) & Hd2 & Hk2). run.
    rewrite clear_write_queue_no_socket by (cbn; lia). run. cbn [fst snd].
    destruct (close_retry_facts (c_fd (cs_conn s)) (cs_kernel s2)) as (Ht & Hcl & Ha).
    rewrite Hc2, Hc1, Hd2, Ht, Hcl. destruct Hk1 as (E1 & E2 & E3), Hk2 as (E4 & E5 & E6).
    split_and!; try done; try congruence.
    transitivity (cs_kernel s1); [done|]. transitivity (cs_kernel s2); [done|exact Ha].
  - rewrite clear_write_queue_no_socket by (cbn; lia). run. cbn.
    split_and!; done.
Qed.

(** ** Flushing *)

(** What the output operations leave alone: everything but the queue, and the
    kernel's clock and the other sockets. *)
Definition output_frame s s' : Prop :=
  let c := cs_conn s in let c' := cs_conn s' in
  input_view c' = input_view c /\ c_fd c' = c_fd c /\
  c_close_after_write c' = c_close_after_write c /\
  k_clock (cs_kernel s') = k_clock (cs_kernel s) /\ answers_left (cs_kernel s) (cs_kernel s') /\
  (forall fd', fd' <> c_fd c -> sent fd' (cs_kernel s') = sent fd' (cs_kernel s)).

Lemma output_frame_trans s1 s2 s3 : output_frame s1 s2 -> output_frame s2 s3 -> output_frame s1 s3.
Proof.
  unfold output_frame. intros (A1&A2&A3&A4&A5&A6) (B1&B2&B3&B4&B5&B6).
  split_and!; try congruence; [by etransitivity|]. intros fd' Hne. rewrite B6, A6 by congruence. done.
Qed.

(** The bytes on the wire of the connection's socket. *)
Definition wire fd s : bytes := sent fd (cs_kernel s).

Lemma pending_split c f q :
  c_write_queue c = f :: q -> 0 <= c_write_queue_offset c <= zlen f ->
  pending c = zdrop (c_write_queue_offset c) f ++ concat q.
Proof. intros E Ho. unfold pending. rewrite E. cbn [concat]. rewrite zdrop_app_le by lia. done. Qed.

(** After a write of [n] bytes of the first frame. *)
Lemma queue_wf_advance c f q o :
  queue_wf c -> c_write_queue c = f :: q -> c_write_queue_offset c <= o < zlen f ->
  let c' := set_write_queue_offset o (set_queued_bytes (c_queued_bytes c - (o - c_write_queue_offset c)) c) in
  queue_wf c' /\ pending c = ztake (o - c_write_queue_offset c) (zdrop (c_write_queue_offset c) f) ++ pending c'.
Proof.
  intros W E Ho c'. pose proof (wf_offset _ W) as Hoff. rewrite E in Hoff.
  assert (Ep : pending c = ztake (o - c_write_queue_offset c) (zdrop (c_write_queue_offset c) f) ++ pending c').
  { rewrite (pending_split c f q E) by lia. rewrite (pending_split c' f q E) by (cbn; lia).
    rewrite app_assoc. f_equal. subst c'. cbn [c_write_queue_offset set_write_queue_offset].
    rewrite <- (ztake_zdrop (o - c_write_queue_offset c) (zdrop (c_write_queue_offset c) f)) at 1.
    f_equal. rewrite zdrop_zdrop by lia. f_equal. lia. }
  split; [|done]. pose proof (wf_queued _ W) as Hq. apply (f_equal zlen) in Ep as El.
  rewrite zlen_app, zlen_ztake, zlen_zdrop in El. pose proof (wf_limit _ W). pose proof (wf_capacity _ W).
  constructor; cbn.
  - exact (wf_frames _ W).
  - rewrite E. lia.
  - unfold pending in *. cbn in *. lia.
  - lia.
  - done.
Qed.

Lemma queue_wf_pop c f q :
  queue_wf c -> c_write_queue c = f :: q ->
  let c' := set_write_queue_offset 0 (set_write_queue q
              (set_queued_bytes (c_queued_bytes c - (zlen f - c_write_queue_offset c)) c)) in
  queue_wf c' /\ pending c = zdrop (c_write_queue_offset c) f ++ pending c'.
Proof.
  intros W E c'. pose proof (wf_offset _ W) as Hoff. rewrite E in Hoff.
  assert (Ep : pending c = zdrop (c_write_queue_offset c) f ++ pending c')
    by (apply pending_split; [done|lia]).
  split; [|done]. pose proof (wf_queued _ W) as Hq. apply (f_equal zlen) in Ep as El.
  rewrite zlen_app, zlen_zdrop in El. pose proof (wf_limit _ W). pose proof (wf_capacity _ W) as Hcap.
  pose proof (wf_frames _ W) as Hf. rewrite E in Hf, Hcap. apply Forall_cons in Hf as [_ Hf].
  rewrite zlen_cons in Hcap. constructor; cbn.
  - done.
  - destruct q; [done|]. apply Forall_cons in Hf as [? _]. lia.
  - unfold pending in *. cbn in *. lia.
  - lia.
  - lia.
Qed.

(** The outcome of the flush loop. *)
Definition flush_loop_post s (r : option bool) s' : Prop :=
  let c := cs_conn s in let c' := cs_conn s' in
  output_frame s s' /\ queue_wf c' /\ c_write_watched c' = c_write_watched c /\
  cs_driver s' = cs_driver s /\
  match r with
  | None => c_open c' = c_open c /\ c_write_queue c' = [] /\
            wire (c_fd c) s' = wire (c_fd c) s ++ pending c
  | Some true => c_open c' = c_open c /\ c_write_queue c' <> [] /\ c_write_queue c <> [] /\
                 k_errno (cs_kernel s') = EAGAIN /\
                 wire (c_fd c) s' ++ pending c' = wire (c_fd c) s ++ pending c
  | Some false => c_open c' = false /\ c_write_queue c' <> [] /\
                  exists x y, pending c = x ++ y /\ wire (c_fd c) s' = wire (c_fd c) s ++ x
  end.

Lemma flush_loop_spec fuel s :
  queue_wf (cs_conn s) -> (length (c_write_queue (cs_conn s)) < fuel)%nat ->
  flush_loop_post s (flush_loop fuel s).1 (flush_loop fuel s).2.
Proof.
  revert s. induction fuel as [|fuel IH]; intros s W Hf; [lia|].
  cbn [flush_loop]. run. destruct s as [c d k]; cbn [cs_conn cs_driver cs_kernel] in *.
  destruct (c_write_queue c) as [|f q] eqn:Eq.
  { run. unfold flush_loop_post. cbn [cs_conn fst snd]. rewrite (pending_nil c Eq), app_nil_r.
    by split_and!. }
  run. pose proof (wf_offset _ W) as Ho. rewrite Eq in Ho.
  pose proof (write_some_spec (c_fd c) f (c_write_queue_offset c) k ltac:(lia)) as WS.
  destruct (websocket_connection_write_some _ _ _ _) as [[[ok o] w] k1].
  destruct WS as (Hor & Hw & Hsent & Hother & Hclock & Hans & Hok). run.
  pose proof (pending_split c f q Eq ltac:(lia)) as Ep.
  destruct ok; run.
  2:{ unfold flush_loop_post, output_frame; cbn. split_and!; try done.
      - destruct W. by constructor.
      - by rewrite Eq.
      - eexists _, _. rewrite Ep. split; [|exact Hsent].
        rewrite <- (ztake_zdrop (o - c_write_queue_offset c) (zdrop (c_write_queue_offset c) f)) at 1.
        by rewrite <- app_assoc. }
  assert (Hq : (c_queued_bytes c <? w) = false).
  { pose proof (wf_queued _ W) as E. rewrite Ep in E. rewrite zlen_app, zlen_zdrop in E.
    pose proof (zlen_nonneg (concat q)). lia. }
  cbn [c_queued_bytes]. rewrite Hq. replace w with (o - c_write_queue_offset c) by lia.
  destruct (Z.ltb_spec o (zlen f)) as [Hlt|Hge]; run.
  - destruct Hok as [?|He]; [lia|].
    destruct (queue_wf_advance c f q o W Eq ltac:(lia)) as [W' Ep'].
    unfold flush_loop_post, output_frame. cbn [cs_conn cs_driver cs_kernel fst snd].
    split_and!; try done.
    + cbn. by rewrite Eq.
    + by rewrite Eq.
    + unfold wire. cbn [cs_kernel cs_conn]. rewrite Hsent, Ep'. by rewrite <- app_assoc.
  - replace o with (zlen f) in * by lia.
    destruct (queue_wf_pop c f q W Eq) as [W' Ep'].
    set (s1 := mk_cs _ d k1).
    assert (Hfr : output_frame (mk_cs c d k) s1) by (unfold output_frame; subst s1; by split_and!).
    specialize (IH s1 W' ltac:(subst s1; cbn in *; lia)).
    destruct (flush_loop fuel s1) as [r s2]; cbn [fst snd] in *.
    destruct IH as (I1 & I2 & I3 & I4 & I5).
    assert (Hwire : wire (c_fd c) s1 = wire (c_fd c) (mk_cs c d k) ++ zdrop (c_write_queue_offset c) f).
    { unfold wire, s1. cbn [cs_kernel]. rewrite Hsent. f_equal. apply ztake_ge. rewrite zlen_zdrop. lia. }
    unfold flush_loop_post. split_and!; [by eapply output_frame_trans|done|done|done|].
    change (c_fd (cs_conn s1)) with (c_fd c) in I5. cbn [cs_conn].
    destruct r as [[]|].
    + destruct I5 as (? & ? & ? & ? & I5). split_and!; try done; [by rewrite Eq|]. rewrite I5, Hwire, Ep', <- app_assoc. done.
    + destruct I5 as (? & ? & x & y & Exy & I5). split_and!; try done.
      exists (zdrop (c_write_queue_offset c) f ++ x), y. rewrite Ep', I5, Hwire, <- !app_assoc.
      split; [by f_equal|done].
    + destruct I5 as (? & ? & I5). split_and!; try done. rewrite I5, Hwire, Ep', <- app_assoc. done.
Qed.

(** The outcome of [flush] on an open connection. *)
Definition flush_post s (ok : bool) s' : Prop :=
  let c := cs_conn s in let c' := cs_conn s' in
  k_clock (cs_kernel s') = k_clock (cs_kernel s) /\ answers_left (cs_kernel s) (cs_kernel s') /\
  (forall fd', fd' <> c_fd c -> sent fd' (cs_kernel s') = sent fd' (cs_kernel s)) /\
  kept_view c' = kept_view c /\ conn_wf s' /\
  if ok then
    wire (c_fd c) s' ++ pending c' = wire (c_fd c) s ++ pending c /\
    ( (* would block *)
     (c_write_queue c' <> [] /\ input_view c' = input_view c /\ c_fd c' = c_fd c /\ c_open c' = true /\
      c_close_after_write c' = c_close_after_write c /\ k_errno (cs_kernel s') = EAGAIN) \/
     (* drained *)
     (c_write_queue c' = [] /\ c_close_after_write c = false /\ input_view c' = input_view c /\
      c_fd c' = c_fd c /\ c_open c' = true /\
      (forall dr, cs_driver s' = Some dr -> c_write_watched c = true ->
                 writes dr (c_fd c) = false /\ c_write_watched c' = false)) \/
     (* drained, and the close that waited for it *)
     (c_close_after_write c = true /\ closed c' /\
      exists t, k_trace (cs_kernel s') = EvClose (c_fd c) :: t))
  else
    c_open c' = false /\ c_fd c' = c_fd c /\ input_view c' = input_view c /\
    exists x y, pending c = x ++ y /\ wire (c_fd c) s' = wire (c_fd c) s ++ x.

Lemma closed_wf s : closed (cs_conn s) -> driver_ok (cs_driver s) -> 0 <= c_max_queued_bytes (cs_conn s) ->
  0 <= c_write_queue_capacity (cs_conn s) -> conn_wf s.
Proof.
  intros [] Hd Hmax Hcap. split; [|by unfold watches_pending; congruence].
  constructor; [constructor|..]; rewrite ?cl_queue0, ?cl_queued0; try done; try congruence.
  by rewrite pending_nil.
Qed.

Lemma input_kept c c' : input_view c' = input_view c -> kept_view c' = kept_view c.
Proof. unfold input_view, kept_view. intros [= ? ? ? ? ? ? ? ? ? ? ? ? ? ? ? ? ? ? ? ?]. congruence. Qed.

Lemma sent_close fd fd' k k' : k_trace k' = EvClose fd' :: k_trace k -> sent fd k' = sent fd k.
Proof. unfold sent. by intros ->. Qed.

Lemma sent_trace fd k k' : k_trace k' = k_trace k -> sent fd k' = sent fd k.
Proof. unfold sent. by intros ->. Qed.

(** The end of [flush] on an emptied queue: stop watching, then close if asked. *)
Definition flush_unwatch (c : websocket_connection_object) (dr : option D) : ST (cstate D) () :=
  if c_write_watched c && bool_decide (is_Some dr) then
    driver_do unwatch_write (c_fd c);; mod_conn (set_write_watched false)
  else mret ().

Lemma flush_unwatch_spec s : driver_ok (cs_driver s) ->
  let s' := (flush_unwatch (cs_conn s) (cs_driver s) s).2 in
  exists w, cs_conn s' = set_write_watched w (cs_conn s) /\ driver_ok (cs_driver s') /\
    driver_step (cs_kernel s) (cs_kernel s') /\
    (w = true -> write_interest (cs_driver s') (c_fd (cs_conn s))) /\
    (forall dr, cs_driver s' = Some dr -> c_write_watched (cs_conn s) = true ->
       writes dr (c_fd (cs_conn s)) = false /\ w = false).
Proof.
  intros Hdrv. destruct s as [c [dr|] k]; unfold flush_unwatch; cbn [cs_conn cs_driver cs_kernel].
  - destruct (c_write_watched c) eqn:Ew; cbn [andb].
    + rewrite bool_decide_true by done. unfold driver_do. run.
      pose proof (unwatch_write_law (c_fd c) dr k Hdrv) as L.
      destruct (unwatch_write (c_fd c) (dr, k)) as [dr' k']. destruct L as (? & ? & _ & ? & _).
      exists false. run. split_and!; try done. by intros ? [= <-].
    + exists false. run. split_and!; try done. by destruct c; cbn in *; subst.
  - rewrite andb_false_r. exists (c_write_watched c). run. split_and!; try done. by destruct c.
Qed.

(** What [flush] does once its loop has emptied the queue in state [s1]. *)
Lemma flush_drained s s1 :
  conn_wf s -> c_open (cs_conn s) = true -> 0 <= c_fd (cs_conn s) ->
  output_frame s s1 -> cs_driver s1 = cs_driver s -> queue_wf (cs_conn s1) -> c_open (cs_conn s1) = c_open (cs_conn s) ->
  c_write_queue (cs_conn s1) = [] -> c_write_watched (cs_conn s1) = c_write_watched (cs_conn s) ->
  wire (c_fd (cs_conn s)) s1 = wire (c_fd (cs_conn s)) s ++ pending (cs_conn s) ->
  let s2 := (flush_unwatch (cs_conn s1) (cs_driver s1) s1).2 in
  flush_post s true
    (if c_close_after_write (cs_conn s2) then (websocket_connection_close_socket s2).2 else s2).
Proof.
  intros [W _] Hopen Hfd (Fi & Ffd & Fc & Fk & Fa & Fo) Hd Q Ho Hnil Hw Hs s2.
  pose proof (input_kept _ _ Fi) as Fkept.
  pose proof (wf_driver _ _ W) as Hdrv. rewrite <- Hd in Hdrv.
  destruct (flush_unwatch_spec s1 Hdrv) as (w & Hc2 & Hdrv2 & (K1 & K2 & K3) & Hwi & Hun).
  fold s2 in Hc2, Hdrv2, K1, K2, K3, Hwi, Hun. clearbody s2.
  assert (Hcaw : c_close_after_write (cs_conn s2) = c_close_after_write (cs_conn s)) by (rewrite Hc2; exact Fc).
  rewrite Hcaw. unfold flush_post. destruct (c_close_after_write (cs_conn s)) eqn:Ecaw.
  - pose proof (close_socket_spec s2 Hdrv2) as (Cc & Cd & Ck & Ccap & Cclk & Ca & Ct).
    destruct (websocket_connection_close_socket s2) as [[] s3]; cbn [snd] in *.
    rewrite Hc2 in Ck, Ct, Ccap. cbn [c_fd c_write_queue_capacity set_write_watched] in Ct, Ccap.
    rewrite Ffd in Ct. replace (0 <=? c_fd (cs_conn s)) with true in Ct by lia. destruct Ct as [Ct _].
    assert (Hsent : forall fd, sent fd (cs_kernel s3) = sent fd (cs_kernel s1)).
    { intros fd. rewrite (sent_close _ _ _ _ Ct). by apply sent_trace. }
    assert (Hkept : kept_view (cs_conn s3) = kept_view (cs_conn s)) by (rewrite Ck; exact Fkept).
    split_and!; try done; try congruence.
    + transitivity (cs_kernel s1); [done|]. by transitivity (cs_kernel s2).
    + intros fd' Hne. by rewrite Hsent, Fo.
    + apply closed_wf; [done|done| |].
      * injection Hkept as _ _ _ _ _ -> _. pose proof (wf_limit _ W). rewrite (wf_queued _ W) in *.
        pose proof (zlen_nonneg (pending (cs_conn s))). slia.
      * rewrite Ccap. pose proof (wf_capacity _ Q). pose proof (zlen_nonneg (c_write_queue (cs_conn s1))). slia.
    + unfold wire in *. rewrite Hsent, Hs, (pending_nil (cs_conn s3)) by apply Cc. apply app_nil_r.
    + right. right. split_and!; try done. eauto.
  - assert (Hsent : forall fd, sent fd (cs_kernel s2) = sent fd (cs_kernel s1)) by (intros; by apply sent_trace).
    split_and!; try done; try congruence; rewrite ?Hc2; try done.
    + by transitivity (cs_kernel s1).
    + intros fd' Hne. by rewrite Hsent, Fo.
    + split; rewrite Hc2; [|intros _ Hne; by destruct Hne].
      destruct Q. constructor; [by constructor|..]; cbn; [lia|congruence| |done]. intros Hwt _. by apply Hwi.
    + unfold wire in *. rewrite Hsent, Hs. rewrite (pending_nil (set_write_watched w _)) by done.
      apply app_nil_r.
    + right. left. cbn. rewrite <- Ffd, <- Hw. split_and!; try done. congruence.
Qed.

Lemma flush_spec s :
  conn_wf s -> c_open (cs_conn s) = true ->
  flush_post s (websocket_connection_flush s).1 (websocket_connection_flush s).2.
Proof.
  intros Wf Hopen. pose proof Wf as [W Wp]. unfold websocket_connection_flush. run. rewrite Hopen.
  assert (Hfd : 0 <= c_fd (cs_conn s)).
  { destruct (Z.lt_ge_cases (c_fd (cs_conn s)) 0) as [Hn|]; [|done]. destruct (wf_fd _ _ W Hn). congruence. }
  replace (c_fd (cs_conn s) <? 0) with false by lia. run.
  pose proof (flush_loop_spec (S (length (c_write_queue (cs_conn s)))) s W ltac:(lia)) as L.
  destruct (flush_loop _ s) as [r s1]; cbn [fst snd] in L.
  destruct L as (F & Q & Hw & Hd & Hr). pose proof F as (Fi & Ffd & Fc & Fk & Fa & Fo).
  pose proof (input_kept _ _ Fi) as Fkept.
  assert (W1 : c_write_queue (cs_conn s1) <> [] -> conn_wf0 (cs_conn s1) (cs_driver s1)).
  { intros Hne. constructor; [done|rewrite Ffd; lia|done| |].
    - rewrite Hw, Hd, Ffd. exact (wf_watched _ _ W).
    - rewrite Hd. exact (wf_driver _ _ W). }
  destruct r as [[]|]; run.
  - destruct Hr as (Ho & Hne & Hne0 & He & Hs). unfold flush_post. cbn [fst snd]. split_and!; try done; [split; [auto|]|].
    + intros _ _ Hdr. rewrite Hw. rewrite Hd in Hdr. by apply Wp.
    + left. split_and!; try done. congruence.
  - destruct Hr as (Ho & Hne & x & y & Exy & Hs). unfold flush_post. cbn [fst snd].
    split_and!; try done; [split; [auto|]|by eauto]. intros Hop. congruence.
  - destruct Hr as (Ho & Hnil & Hs).
    pose proof (flush_drained s s1 Wf Hopen Hfd F Hd Q Ho Hnil Hw Hs) as P.
    change (if c_write_watched (cs_conn s1) && _ then _ else _) with
      (flush_unwatch (cs_conn s1) (cs_driver s1)).
    destruct (flush_unwatch _ _ s1) as [[] s2]; cbn [snd] in P. run.
    destruct (c_close_after_write (cs_conn s2)); [|exact P].
    destruct (websocket_connection_close_socket s2) as [[] s3]. exact P.
Qed.

(** ** Sending a frame *)

(** The frame the server puts on the wire. *)
Definition server_frame (payload : bytes) (opcode : Z) : bytes :=
  pack_byte0 opcode WEBSOCKET_FLAG_FIN :: pack_length false (zlen payload) ++ payload.

Lemma pack_server_frame payload opcode :
  websocket_protocol_pack_payload false None payload opcode WEBSOCKET_FLAG_FIN
  = Some (server_frame payload opcode).
Proof. reflexivity. Qed.

Lemma zlen_server_frame payload opcode :
  zlen (server_frame payload opcode) = pack_header_len (zlen payload) + zlen payload.
Proof. unfold server_frame. rewrite zlen_cons, zlen_app, <- (zlen_pack_length false). lia. Qed.

(** The state in which a frame can be sent. *)
Definition sendable (c : websocket_connection_object) : bool :=
  c_open c && negb (c_close_after_write c) && c_upgraded c && (0 <=? c_fd c).

(** The outcome of [send_frame] on a sendable connection: accepted, refused
    without effect, or failed, which ends the connection. *)
Definition send_frame_post (frame : bytes) s (ok : bool) s' : Prop :=
  let c := cs_conn s in let c' := cs_conn s' in
  output_frame s s' /\ conn_wf s' /\
  if ok then
    c_open c' = true /\
    wire (c_fd c) s' ++ pending c' = wire (c_fd c) s ++ pending c ++ frame
  else
    (c_open c' = true /\ c' = c /\ k_errno (cs_kernel s') = ENOBUFS /\
     ((wire (c_fd c) s' = wire (c_fd c) s /\ c_max_queued_bytes c < c_queued_bytes c + zlen frame) \/
      ~ sends_ok (cs_kernel s))) \/
    (c_open c' = false /\
     exists x y, pending c ++ frame = x ++ y /\ wire (c_fd c) s' = wire (c_fd c) s ++ x).

Lemma conn_wf_dead c (d : option D) k :
  conn_wf0 c d -> conn_wf (mk_cs (set_open false c) d k).
Proof.
  intros [[] ? ? ? ?]. split; [constructor; [constructor|..]; cbn; try done|done].
  intros Hfd. destruct (wf_fd0 Hfd) as (_ & ? & ?). done.
Qed.

Lemma driver_step_frame s c' (d : option D) k' :
  input_view c' = input_view (cs_conn s) -> c_fd c' = c_fd (cs_conn s) ->
  c_close_after_write c' = c_close_after_write (cs_conn s) ->
  driver_step (cs_kernel s) k' -> output_frame s (mk_cs c' d k').
Proof.
  intros ? ? ? (Et & ? & ?). unfold output_frame. cbn. split_and!; try done.
  intros fd' _. by apply sent_trace.
Qed.

(** Queueing behind pending frames. *)
Lemma send_queued frame s ok s' :
  conn_wf s -> c_open (cs_conn s) = true -> 0 <= c_fd (cs_conn s) -> 0 < zlen frame ->
  c_write_queue (cs_conn s) <> [] ->
  websocket_connection_queue_frame frame 0 s = (ok, s') ->
  send_frame_post frame s ok
    (if negb ok && negb (k_errno (cs_kernel s') =? ENOBUFS)
     then mk_cs (set_open false (cs_conn s')) (cs_driver s') (cs_kernel s') else s').
Proof.
  intros [W Wp] Hopen Hfd Hlen Hne E.
  apply queue_frame_spec in E; [|done|done|lia|done].
  destruct E as [(-> & Hov & ->)|(Hmax & W' & Hwp & He & Hq & Hp & Hi & Ho & Hf & Hc & Hs)].
  - cbn [cs_conn cs_driver cs_kernel k_errno set_errno negb andb]. unfold send_frame_post.
    replace (ENOBUFS =? ENOBUFS) with true by done. cbn [negb andb cs_conn cs_driver cs_kernel].
    split; [by apply driver_step_frame, driver_step_errno|]. split; [exact (conj W Wp)|].
    left. split_and!; try done. left. split; [done|slia].
  - pose proof Hs as (Ht & _ & _).
    assert (Hw : wire (c_fd (cs_conn s)) s' = wire (c_fd (cs_conn s)) s) by by apply sent_trace.
    rewrite zdrop_0 in Hp. destruct ok; cbn [negb andb].
    + unfold send_frame_post. split_and!; try done; try congruence.
      * destruct s' as [c' d' k']. by apply driver_step_frame.
      * split; auto.
    + replace (k_errno (cs_kernel s') =? ENOBUFS) with false by (specialize (He eq_refl); lia).
      cbn [negb]. unfold send_frame_post. split_and!.
      * by apply driver_step_frame.
      * by apply conn_wf_dead.
      * right. split; [done|]. exists [], (pending (cs_conn s) ++ frame). rewrite app_nil_r. done.
Qed.

(** Writing at once when nothing is pending, and queueing the rest. *)
Lemma send_direct frame s ok s' :
  conn_wf s -> c_open (cs_conn s) = true -> 0 <= c_fd (cs_conn s) -> 0 < zlen frame ->
  c_write_queue (cs_conn s) = [] -> zlen frame <= c_max_queued_bytes (cs_conn s) ->
  (r ← on_kernel (websocket_connection_write_some (c_fd (cs_conn s)) frame 0);
   let '(ok, offset, _) := r in
   if ok && (offset <? zlen frame) then websocket_connection_queue_frame frame offset
   else mret ok) s = (ok, s') ->
  send_frame_post frame s ok
    (if negb ok && negb (k_errno (cs_kernel s') =? ENOBUFS)
     then mk_cs (set_open false (cs_conn s')) (cs_driver s') (cs_kernel s') else s').
Proof.
  intros [W Wp] Hopen Hfd Hlen Hnil Hmax. run.
  pose proof (write_some_spec (c_fd (cs_conn s)) frame 0 (cs_kernel s) ltac:(lia)) as WS.
  destruct (websocket_connection_write_some _ _ _ _) as [[[b o] w] k1].
  destruct WS as (Hor & Hw & Hsent & Hother & Hclock & Hans & Hok). rewrite Z.sub_0_r, zdrop_0 in Hsent. run.
  set (s1 := mk_cs (cs_conn s) (cs_driver s) k1).
  assert (F1 : output_frame s s1) by by split_and!.
  assert (Hwire : wire (c_fd (cs_conn s)) s1 = wire (c_fd (cs_conn s)) s ++ ztake o frame) by done.
  assert (Hsplit : frame = ztake o frame ++ zdrop o frame) by by rewrite ztake_zdrop.
  destruct b; cbn [andb].
  - destruct (Z.ltb_spec o (zlen frame)) as [Hlt|Hge].
    + intros E. apply queue_frame_spec in E; [|done|done|slia|by intros Hq; destruct Hq].
      destruct E as [(_ & Hov & _)|(_ & W' & Hwp & He & Hq & Hp & Hi & Ho & Hf & Hc & Hs)].
      { exfalso. cbn [s1 cs_conn] in Hov. rewrite (queue_nil_queued _ W Hnil) in Hov. lia. }
      cbn [s1 cs_conn] in Hp. rewrite (pending_nil _ Hnil) in Hp. cbn [app] in Hp.
      assert (F2 : forall c'' , c'' = cs_conn s' \/ c'' = set_open false (cs_conn s') ->
        output_frame s (mk_cs c'' (cs_driver s') (cs_kernel s'))).
      { intros c'' Hc''. eapply output_frame_trans; [exact F1|]. by apply driver_step_frame; destruct Hc'' as [-> | ->]. }
      assert (Hw' : wire (c_fd (cs_conn s)) s' = wire (c_fd (cs_conn s)) s ++ ztake o frame).
      { rewrite <- Hwire. apply sent_trace, Hs. }
      destruct ok; cbn [negb andb]; unfold send_frame_post.
      * split_and!; try done.
        -- destruct s' as [c' d' k']. apply F2. by left.
        -- split; auto.
        -- by rewrite Ho.
        -- rewrite Hw', Hp, <- app_assoc, ztake_zdrop, (pending_nil _ Hnil). done.
      * replace (k_errno (cs_kernel s') =? ENOBUFS) with false by (specialize (He eq_refl); lia).
        cbn [negb]. split_and!; [apply F2; by right|by apply conn_wf_dead|].
        right. split; [done|]. exists (ztake o frame), (zdrop o frame). rewrite (pending_nil _ Hnil). done.
    + intros [= <- <-]. cbn [negb andb]. unfold send_frame_post.
      split_and!; try done. change (cs_conn s1) with (cs_conn s).
      rewrite Hwire, ztake_ge by lia. rewrite (pending_nil _ Hnil). by rewrite app_nil_r.
  - intros [= <- <-]. destruct Hok as [Hlt Hnb]. unfold send_frame_post. subst s1. cbn [negb andb cs_kernel cs_conn cs_driver].
    destruct (Z.eqb_spec (k_errno k1) ENOBUFS) as [He|He]; cbn [negb].
    + split; [done|]. split; [exact (conj W Wp)|]. left. split_and!; try done. right. intros Hs. by apply (Hnb Hs).
    + split_and!; [done|by apply conn_wf_dead|]. right. split; [done|].
      exists (ztake o frame), (zdrop o frame). by rewrite (pending_nil _ Hnil).
Qed.

Lemma send_frame_spec payload opcode s :
  conn_wf s ->
  let r := websocket_connection_send_frame payload opcode s in
  if sendable (cs_conn s) then send_frame_post (server_frame payload opcode) s r.1 r.2
  else r = (false, s).
Proof.
  intros Wf. unfold websocket_connection_send_frame, sendable. run.
  rewrite pack_server_frame. destruct s as [c d k]; cbn [cs_conn cs_driver cs_kernel].
  destruct (c_open c) eqn:Ho; cbn [negb orb andb]; [|done].
  destruct (c_close_after_write c) eqn:Ec; cbn [negb orb andb]; [done|].
  destruct (c_upgraded c) eqn:Eu; cbn [negb orb andb]; [|done].
  destruct (Z.leb_spec 0 (c_fd c)) as [Hfd|Hfd].
  2:{ by replace (c_fd c <? 0) with true by lia. }
  replace (c_fd c <? 0) with false by lia.
  set (frame := server_frame payload opcode).
  assert (Hlen : 0 < zlen frame).
  { unfold frame. rewrite zlen_server_frame. pose proof (pack_header_len_pos (zlen payload)).
    pose proof (zlen_nonneg payload). lia. }
  destruct Wf as [W Wp]. cbn [cs_conn cs_driver] in W.
  pose proof (wf_queued _ W) as Hq. pose proof (zlen_nonneg (pending c)).
  destruct (Z.ltb_spec (c_max_queued_bytes c) (zlen frame)) as [Hbig|Hfit]; run.
  { unfold send_frame_post. cbn [fst snd cs_conn cs_kernel].
    split; [by apply driver_step_frame, driver_step_errno|]. split; [exact (conj W Wp)|].
    left. split_and!; try done. left. split; [done|slia]. }
  destruct (c_write_queue c) as [|f q] eqn:Eq.
  - change (0 <? zlen []) with false.
    match goal with |- context [let '(x, s') := ?m (mk_cs c d k) in _] => destruct (m (mk_cs c d k)) as [ok s'] eqn:E end.
    pose proof (send_direct frame (mk_cs c d k) ok s' (conj W Wp) Ho Hfd Hlen Eq Hfit E) as P.
    run. destruct (negb ok && _); exact P.
  - replace (0 <? zlen (f :: q)) with true by (rewrite zlen_cons; pose proof (zlen_nonneg q); lia).
    destruct (websocket_connection_queue_frame frame 0 (mk_cs c d k)) as [ok s'] eqn:E.
    pose proof (send_queued frame (mk_cs c d k) ok s' (conj W Wp) Ho Hfd Hlen ltac:(cbn; by rewrite Eq) E) as P.
    run. destruct (negb ok && _); exact P.
Qed.
End Facts.
