(* ===== verification/ConnectionSpec.v ===== *)
(** * Connections: the theorems

    The properties of [websocket_connection.c] over any sequence of operations:
    the invariant, the integrity of the byte stream, back-pressure, flushing and
    closing. *)
From S2P Require Import Prelude Constants Utf8 Protocol Http Kernel Driver FdTable SelectDriver.
From S2P Require Import ConnState Connection ConnectionFacts.
From Stdlib Require String.
Import (notations) String.

Section Spec.
Context {D : Type} `{HD : Driver D} `{!DriverLaws D}.
Context (getnameinfo : bytes -> option (bytes * bytes)) (sa_family : bytes -> Z) (AF_INET6 : Z).
Implicit Types (s : cstate D) (c : websocket_connection_object).

(** ** The invariant *)

(** The operations the server and the PHP program apply to a connection. *)
Inductive conn_op : Type :=
| OpOpen (id : Z) (addr : option bytes) (fd : Z)
| OpSendFrame (payload : bytes) (opcode : Z)
| OpSendClose (code : Z) (reason : bytes)
| OpFlush
| OpCloseAfterWrite
| OpCloseSocket
| OpSend (payload : bytes) (type : option message_type)
| OpClose (code : option Z) (reason : option bytes)
| OpReadProperty (p : connection_property)
| OpFree.

Definition run_op (o : conn_op) : ST (cstate D) () :=
  match o with
  | OpOpen id addr fd => websocket_connection_open id addr fd
  | OpSendFrame p op => ok ← websocket_connection_send_frame p op; mret ()
  | OpSendClose code reason => ok ← websocket_connection_send_close_frame code reason; mret ()
  | OpFlush => ok ← websocket_connection_flush; mret ()
  | OpCloseAfterWrite => websocket_connection_close_after_write
  | OpCloseSocket => websocket_connection_close_socket
  | OpSend p t => e ← Connection_send p t; mret ()
  | OpClose code reason => e ← Connection_close code reason; mret ()
  | OpReadProperty p => v ← websocket_connection_read_property getnameinfo sa_family AF_INET6 p; mret ()
  | OpFree => websocket_connection_free_object
  end.

Fixpoint run_ops (l : list conn_op) : ST (cstate D) () :=
  match l with
  | [] => mret ()
  | o :: l => run_op o;; run_ops l
  end.

(** A socket that [accept] returned. *)
Definition op_ok (o : conn_op) : Prop := match o with OpOpen _ _ fd => 0 <= fd | _ => True end.

(** Setting a field the output side does not look at. *)
Definition out_view c :=
  (c_fd c, c_open c, c_write_queue c, c_write_queue_offset c, c_queued_bytes c, c_max_queued_bytes c,
   c_write_queue_capacity c, c_close_after_write c, c_write_watched c).

Lemma wf_out_view c c' (d : option D) k k' :
  out_view c' = out_view c -> conn_wf (mk_cs c d k) -> conn_wf (mk_cs c' d k').
Proof.
  intros [= E1 E2 E3 E4 E5 E6 E7 E8 E9] [[[] ? ? ? ?] Hp].
  split; [constructor; [constructor|..]|]; unfold watches_pending, pending in *; cbn in *;
    rewrite ?E1, ?E2, ?E3, ?E4, ?E5, ?E6, ?E7, ?E8, ?E9; done.
Qed.

Lemma mod_conn_wf f : (forall c, out_view (f c) = out_view c) -> preserves conn_wf (mod_conn (D := D) f).
Proof. intros Hf [c d k] W. cbn. eapply wf_out_view; [apply Hf|exact W]. Qed.

Lemma get_conn_wf : preserves conn_wf (get_conn (D := D)).
Proof. apply preserves_gets. Qed.

Lemma on_kernel_wf {A} (f : kernel -> A * kernel) : preserves conn_wf (on_kernel (D := D) f).
Proof. intros [c d k] W. unfold on_kernel. cbn. destruct (f k). eapply wf_out_view; [done|exact W]. Qed.

Lemma send_frame_wf p op : preserves conn_wf (websocket_connection_send_frame (D := D) p op).
Proof.
  intros s W. pose proof (send_frame_spec p op s W) as S. cbv zeta in S.
  destruct (sendable (cs_conn s)); [apply S|by rewrite S].
Qed.

Lemma flush_wf : preserves conn_wf (websocket_connection_flush (D := D)).
Proof.
  intros s W. destruct (c_open (cs_conn s)) eqn:Eo.
  - by apply (flush_spec s W Eo).
  - unfold websocket_connection_flush. run. by rewrite Eo.
Qed.

Lemma wf_nonneg s : conn_wf s -> 0 <= c_max_queued_bytes (cs_conn s) /\ 0 <= c_write_queue_capacity (cs_conn s).
Proof.
  intros [W _]. pose proof (wf_limit _ W) as Hl. rewrite (wf_queued _ W) in Hl.
  pose proof (wf_capacity _ W). pose proof (zlen_nonneg (pending (cs_conn s))).
  pose proof (zlen_nonneg (c_write_queue (cs_conn s))). slia.
Qed.

Lemma close_socket_wf : preserves conn_wf (websocket_connection_close_socket (D := D)).
Proof.
  intros s W. pose proof (close_socket_spec s (wf_driver _ _ (proj1 W))) as (Hc & Hd & Hk & Hcap & _).
  pose proof (wf_nonneg s W) as [? ?].
  apply closed_wf; [done|done| |by rewrite Hcap]. by injection Hk as _ _ _ _ _ -> _.
Qed.

Lemma close_after_write_wf : preserves conn_wf (websocket_connection_close_after_write (D := D)).
Proof.
  intros s W. unfold websocket_connection_close_after_write, websocket_connection_has_pending_writes. run.
  destruct (c_open (cs_conn s)) eqn:Eo; run; [|done].
  destruct (Z.ltb_spec 0 (zlen (c_write_queue (cs_conn s)))) as [Hq|Hq]; run; [|by apply close_socket_wf].
  destruct W as [[[] ? ? ? ?] Hp].
  split; [constructor; [constructor|..]|]; unfold watches_pending, pending in *; cbn in *; try done.
  intros _ E. rewrite E in Hq. done.
Qed.

Lemma clear_write_queue_wf c (d : option D) k : driver_ok d ->
  exists d' k', driver_ok d' /\ websocket_connection_clear_write_queue (mk_cs c d k) =
    ((), mk_cs (set_close_after_write false (set_write_watched false (set_queued_bytes 0
           (set_write_queue_offset 0 (set_write_queue [] c))))) d' k').
Proof.
  intros Hd. unfold websocket_connection_clear_write_queue, driver_do. run.
  destruct (_ && _); run; [|by eexists _, _].
  destruct d as [dr|]; [|by eexists _, _].
  match goal with |- context [unwatch_write ?fd (dr, k)] => pose proof (unwatch_write_law fd dr k Hd) as L end.
  destruct (unwatch_write _ _) as [d' k']. run. exists (Some d'), k'. split; [apply L|done].
Qed.

Lemma open_wf id addr fd s :
  0 <= fd -> conn_wf s -> conn_wf (websocket_connection_open id addr fd s).2.
Proof.
  intros Hfd W. pose proof (wf_nonneg s W) as [Hmax Hcap]. destruct s as [c d k].
  unfold websocket_connection_open. run.
  match goal with |- context [let '(x, s') := ?m (mk_cs ?c0 d k) in _] =>
    assert (Hm : exists h a, m (mk_cs c0 d k) = ((), mk_cs (set_has_remote_addr h (set_remote_addr a c0)) d k));
    [|destruct Hm as (h & a & ->)]
  end.
  { destruct addr as [addr|]; [destruct (zlen addr <=? 128)|]; first [by exists true, addr | by exists false, []]. }
  run.
  match goal with |- context [websocket_connection_clear_write_queue (mk_cs ?c0 d k)] =>
    destruct (clear_write_queue_wf c0 d k (wf_driver _ _ (proj1 W))) as (d' & k' & Hd' & ->)
  end. run. split; [constructor; [constructor|..]|]; cbn; first [done | by vm_compute | lia].
Qed.

#[local] Hint Resolve get_conn_wf on_kernel_wf send_frame_wf flush_wf close_socket_wf
  close_after_write_wf : pres.
#[local] Hint Extern 2 (preserves conn_wf (mod_conn _)) => apply mod_conn_wf; reflexivity : pres.

Lemma cache_address_wf : preserves conn_wf (websocket_connection_cache_remote_address (D := D)).
Proof. unfold websocket_connection_cache_remote_address. pres. Qed.
#[local] Hint Resolve cache_address_wf : pres.

Lemma send_close_frame_wf code reason :
  preserves conn_wf (websocket_connection_send_close_frame (D := D) code reason).
Proof. unfold websocket_connection_send_close_frame. pres. Qed.
#[local] Hint Resolve send_close_frame_wf : pres.

Lemma Connection_send_wf p t : preserves conn_wf (Connection_send (D := D) p t).
Proof. unfold Connection_send. pres. Qed.

Lemma set_open_false_wf : preserves conn_wf (mod_conn (D := D) (set_open false)).
Proof. intros [c d k] [W _]. by apply conn_wf_dead. Qed.
#[local] Hint Resolve set_open_false_wf : pres.

Lemma Connection_close_wf code reason : preserves conn_wf (Connection_close (D := D) code reason).
Proof. unfold Connection_close. pres. Qed.

Lemma read_property_wf p :
  preserves conn_wf (websocket_connection_read_property (D := D) getnameinfo sa_family AF_INET6 p).
Proof.
  unfold websocket_connection_read_property, websocket_connection_make_id,
    websocket_connection_make_remote_address. pres.
Qed.

Lemma free_object_wf : preserves conn_wf (websocket_connection_free_object (D := D)).
Proof.
  intros s W. unfold websocket_connection_free_object. run.
  pose proof (close_socket_spec s (wf_driver _ _ (proj1 W))) as (Hc & Hd & Hk & Hcap & _). pose proof (wf_nonneg s W) as [? ?].
  destruct (websocket_connection_close_socket s) as [[] [c d k]]. cbn [cs_conn snd] in *.
  injection Hk as _ _ _ _ _ Hmax _. destruct Hc. split; [constructor; [constructor|..]|];
    unfold pending, watches_pending; cbn; rewrite ?cl_queue, ?cl_offset, ?cl_queued, ?Hmax; try done; congruence.
Qed.
#[local] Hint Resolve Connection_send_wf Connection_close_wf read_property_wf free_object_wf : pres.

Lemma run_op_wf o : op_ok o -> preserves conn_wf (run_op o).
Proof.
  intros Ho. destruct o; cbn [run_op]; try pres.
  intros s W. by apply open_wf.
Qed.

Lemma run_ops_wf l : Forall op_ok l -> preserves conn_wf (run_ops l).
Proof.
  induction 1 as [|o l Ho Hl IH]; cbn [run_ops]; [apply preserves_ret|].
  apply preserves_bind; [by apply run_op_wf|done].
Qed.

Lemma create_object_wf (d : option D) k :
  driver_ok d -> conn_wf (mk_cs websocket_connection_create_object d k).
Proof. intros Hd. split; [constructor; [constructor|..]|]; by cbn. Qed.

(** C15. The invariant of a connection: after any sequence of operations on a new
    object, the queue holds non-empty frames with the offset inside the first,
    [queued_bytes] is the number of unsent bytes and within the limit, the
    array is large enough, and an open connection with unsent bytes is watched
    for writing by the driver. *)
Theorem connection_invariant l (d : option D) k :
  driver_ok d -> Forall op_ok l ->
  conn_wf (run_ops l (mk_cs websocket_connection_create_object d k)).2.
Proof. intros Hd Hl. by apply run_ops_wf, create_object_wf. Qed.

(** ** The byte stream *)

Inductive out_op : Type :=
| OutSend (payload : bytes) (opcode : Z)
| OutFlush.

(** Run an operation; the bytes it took responsibility for. *)
Definition run_out (o : out_op) : ST (cstate D) bytes :=
  match o with
  | OutSend p op => ok ← websocket_connection_send_frame p op; mret (if ok : bool then server_frame p op else ([] : bytes))
  | OutFlush => ok ← websocket_connection_flush; mret ([] : bytes)
  end.

Fixpoint run_outs (l : list out_op) : ST (cstate D) bytes :=
  match l with
  | [] => mret ([] : bytes)
  | o :: l => a ← run_out o; b ← run_outs l; mret (a ++ b)
  end.

(** What an output operation does to the stream of an open connection. *)
Definition out_post fd s (a : bytes) s' : Prop :=
  conn_wf s' /\ answers_left (cs_kernel s) (cs_kernel s') /\
  (c_open (cs_conn s') = true -> c_fd (cs_conn s') = fd /\
     (sends_ok (cs_kernel s) -> wire fd s' ++ pending (cs_conn s') = wire fd s ++ pending (cs_conn s) ++ a)) /\
  (c_open (cs_conn s) = false -> a = [] /\ s' = s).

Lemma run_out_spec o s : conn_wf s -> out_post (c_fd (cs_conn s)) s (run_out o s).1 (run_out o s).2.
Proof.
  intros W. unfold out_post. destruct o as [p op|]; cbn [run_out]; run.
  - pose proof (send_frame_spec p op s W) as S. cbv zeta in S.
    destruct (sendable (cs_conn s)) eqn:Es.
    + assert (Ho : c_open (cs_conn s) = true) by (unfold sendable in Es; by destruct (c_open (cs_conn s))).
      destruct (websocket_connection_send_frame p op s) as [ok s']; cbn [fst snd] in *.
      destruct S as ((_ & Hfd & _ & _ & Ha & _) & W' & S). split_and!; try done; try congruence.
      intros Ho'. split; [done|]. intros Hs. destruct ok; [apply S|].
      destruct S as [(_ & -> & _ & [[-> _]|Hbad])|(Hd & _)]; [by rewrite app_nil_r| |congruence].
      by destruct Hbad.
    + rewrite S. cbn [fst snd]. rewrite app_nil_r. by split_and!.
  - destruct (c_open (cs_conn s)) eqn:Ho.
    + pose proof (flush_spec s W Ho) as F.
      destruct (websocket_connection_flush s) as [ok s']; cbn [fst snd] in *.
      destruct F as (_ & Ha & _ & _ & W' & F). split_and!; try done.
      intros Ho'. destruct ok; [|destruct F as (? & _); congruence].
      rewrite app_nil_r. destruct F as (Hst & [(_ & _ & ? & _)|[(_ & _ & _ & ? & _)|(_ & [] & _)]]); [done..|congruence].
    + unfold websocket_connection_flush. run. rewrite Ho. cbn. rewrite app_nil_r. by split_and!.
Qed.

Lemma run_outs_spec l s : conn_wf s -> out_post (c_fd (cs_conn s)) s (run_outs l s).1 (run_outs l s).2.
Proof.
  revert s. induction l as [|o l IH]; intros s W; cbn [run_outs]; run.
  { unfold out_post. rewrite app_nil_r. by split_and!. }
  pose proof (run_out_spec o s W) as P1. destruct (run_out o s) as [a s1]; cbn [fst snd] in P1.
  destruct P1 as (W1 & A1 & O1 & D1). pose proof (IH s1 W1) as P2. unfold out_post.
  destruct (run_outs l s1) as [b s2]; cbn [fst snd] in *. destruct P2 as (W2 & A2 & O2 & D2).
  assert (Hopen : c_open (cs_conn s2) = true -> c_open (cs_conn s1) = true).
  { intros Ho. destruct (c_open (cs_conn s1)) eqn:E; [done|]. destruct (D2 eq_refl) as [_ ->]. congruence. }
  split_and!; [done|by transitivity (cs_kernel s1)| |].
  - intros Ho. destruct (O1 (Hopen Ho)) as [Hf1 E1]. destruct (O2 Ho) as [Hf2 E2]. split; [congruence|].
    intros Hs. rewrite Hf1 in E2. rewrite E2 by by eapply sends_ok_left. rewrite app_assoc, E1 by done.
    by rewrite <- !app_assoc.
  - intros Ho. destruct (D1 Ho) as [-> ->]. destruct (D2 Ho) as [-> ->]. done.
Qed.

(** C5. No byte is lost, repeated, reordered or interleaved: over any sequence of
    sends and flushes that leaves the connection open, the bytes on the wire
    followed by the pending ones are those of before followed by the accepted
    frames, each whole and in order.  The hypothesis on the kernel is that it
    does not answer a send with 0 or [ENOBUFS]. *)
Theorem stream_integrity l s acc s' :
  conn_wf s -> sends_ok (cs_kernel s) -> run_outs l s = (acc, s') ->
  c_open (cs_conn s') = true ->
  wire (c_fd (cs_conn s)) s' ++ pending (cs_conn s')
  = wire (c_fd (cs_conn s)) s ++ pending (cs_conn s) ++ acc.
Proof.
  intros W Hs E Ho. pose proof (run_outs_spec l s W) as (_ & _ & H & _). rewrite E in H.
  by apply H.
Qed.

(** C27. Flushing an open connection: it fails only by closing it, having written a
    prefix of the pending bytes; otherwise it stopped on [EAGAIN] with bytes
    left, or wrote everything, stopped watching the socket for writes, and
    closed the socket if a close was waiting for the queue to drain. *)
Theorem flush_outcome s :
  conn_wf s -> c_open (cs_conn s) = true ->
  let c := cs_conn s in
  let '(ok, s') := websocket_connection_flush s in
  let c' := cs_conn s' in
  if ok then
    wire (c_fd c) s' ++ pending c' = wire (c_fd c) s ++ pending c /\
    ((c_write_queue c' <> [] /\ c_open c' = true /\ k_errno (cs_kernel s') = EAGAIN /\
      (is_Some (cs_driver s') -> c_write_watched c' = true)) \/
     (pending c' = [] /\ c_open c' = true /\ c_close_after_write c = false /\
      (forall dr, cs_driver s' = Some dr -> c_write_watched c = true -> writes dr (c_fd c) = false)) \/
     (pending c' = [] /\ c_close_after_write c = true /\ closed c' /\
      exists t, k_trace (cs_kernel s') = EvClose (c_fd c) :: t))
  else
    c_open c' = false /\ exists x y, pending c = x ++ y /\ wire (c_fd c) s' = wire (c_fd c) s ++ x.
Proof.
  intros W Ho. pose proof (flush_spec s W Ho) as F. cbv zeta.
  destruct (websocket_connection_flush s) as [ok s']; cbn [fst snd] in F.
  destruct F as (_ & _ & _ & _ & [_ Wp] & F). destruct ok.
  - destruct F as (Hs & [(Hq & _ & _ & Ho' & _ & He)|[(Hq & Hc & _ & _ & Ho' & Hd)|(Hc & Hcl & Ht)]]);
      (split; [done|]).
    + left. split_and!; auto.
    + right. left. split_and!; auto using pending_nil. intros dr Hdr Hw. by apply (Hd dr).
    + right. right. split_and!; auto using pending_nil, cl_queue.
  - by destruct F as (? & _ & _ & ?).
Qed.

(** C28. Back-pressure: a frame that would take the queue over its limit is refused
    with [ENOBUFS], nothing is sent and the connection is as before. *)
Theorem send_frame_backpressure payload opcode s :
  conn_wf s -> sendable (cs_conn s) = true ->
  c_max_queued_bytes (cs_conn s) < c_queued_bytes (cs_conn s) + zlen (server_frame payload opcode) ->
  websocket_connection_send_frame payload opcode s
  = (false, mk_cs (cs_conn s) (cs_driver s) (set_errno ENOBUFS (cs_kernel s))).
Proof.
  intros [W _] Hs Hov. unfold websocket_connection_send_frame, sendable in *. run. rewrite pack_server_frame.
  destruct (c_open (cs_conn s)), (c_close_after_write (cs_conn s)), (c_upgraded (cs_conn s)); try done.
  cbn [negb orb andb] in *. replace (c_fd (cs_conn s) <? 0) with false by lia.
  destruct (Z.ltb_spec (c_max_queued_bytes (cs_conn s)) (zlen (server_frame payload opcode))); run; [done|].
  destruct (c_write_queue (cs_conn s)) as [|f q] eqn:Eq.
  { rewrite (queue_nil_queued _ W Eq) in Hov. lia. }
  replace (0 <? zlen (f :: q)) with true by (rewrite zlen_cons; pose proof (zlen_nonneg q); lia).
  rewrite queue_frame_eq. cbv zeta. rewrite Z.sub_0_r.
  replace (_ || _) with true by lia. done.
Qed.

(** C29. Closing the socket: the descriptor is given up and closed exactly once, the
    driver watches it no more and the other descriptors as before, the queue and
    the message under way are dropped; the identity, the read buffer and the
    flags of the handshake stay.  A connection without a socket touches neither
    the kernel nor the driver. *)
Theorem close_socket_effects s :
  conn_wf s ->
  let c := cs_conn s in
  let s' := (websocket_connection_close_socket s).2 in
  closed (cs_conn s') /\ kept_view (cs_conn s') = kept_view c /\
  (if 0 <=? c_fd c then
     k_trace (cs_kernel s') = EvClose (c_fd c) :: k_trace (cs_kernel s) /\
     unwatched (c_fd c) (cs_driver s) (cs_driver s')
   else k_trace (cs_kernel s') = k_trace (cs_kernel s) /\ cs_driver s' = cs_driver s).
Proof.
  intros [W _]. pose proof (close_socket_spec s (wf_driver _ _ W)) as (H1 & _ & H2 & _ & _ & _ & H3). done.
Qed.
End Spec.

(** ** The theorems at concrete inputs

    An upgraded connection on descriptor 5, with the [select] driver. *)
Definition demo_conn : websocket_connection_object :=
  set_write_queue_capacity 8 (set_upgraded true (set_open true (set_fd 5 websocket_connection_create_object))).

Definition demo_state (c : websocket_connection_object) (answers : list answer) : cstate select_state :=
  mk_cs c (Some (mk_select [mk_select_fd 5 true true] 8)) (mk_kernel answers [] 0 []).

(** The same with the frame [1; 2; 3; 4] half sent. *)
Definition demo_busy : websocket_connection_object :=
  set_write_watched true (set_queued_bytes 2 (set_write_queue_offset 2 (set_write_queue [[1; 2; 3; 4]] demo_conn))).

Lemma demo_select_wf : select_wf (mk_select [mk_select_fd 5 true true] 8).
Proof. split; [|by vm_compute]. unfold distinct_fds. cbn. apply NoDup_singleton. Qed.

Lemma demo_wf answers : conn_wf (demo_state demo_conn answers).
Proof.
  split; [constructor; [constructor|..]|by intros _ []]; cbn; try done; try lia. apply demo_select_wf.
Qed.

Lemma demo_busy_wf answers : conn_wf (demo_state demo_busy answers).
Proof.
  split; [constructor; [constructor|..]|by intros _ _ _]; cbn; try done; try lia.
  - by apply Forall_singleton.
  - apply demo_select_wf.
Qed.

Lemma connection_invariant_witness :
  conn_wf (run_ops (fun _ => None) (fun _ => 0) 10
    [OpOpen 7 None 5; OpSendFrame [104; 105] 1; OpFlush; OpClose None None; OpFree]
    (mk_cs websocket_connection_create_object (Some websocket_select_init) (mk_kernel [] [] 0 []))).2.
Proof.
  apply (connection_invariant (fun _ => None) (fun _ => 0) 10); [|by repeat constructor].
  split; [apply NoDup_nil_2|by vm_compute].
Defined.

(** Two messages, of which three bytes are written before the socket blocks, then
    a flush that writes the rest of the first. *)
Lemma stream_integrity_witness :
  let s := demo_state demo_conn [AOk 3 []; AErr EAGAIN; AOk 2 []; AErr EAGAIN] in
  let r := run_outs [OutSend [104; 105] 1; OutSend [33] 1; OutFlush] s in
  wire 5 r.2 = [129; 2; 104; 105] /\ wire 5 r.2 ++ pending (cs_conn r.2) = r.1.
Proof.
  cbv zeta. split; [by vm_compute|].
  match goal with |- context [run_outs ?l ?s] => destruct (run_outs l s) as [acc s'] eqn:E;
    apply (stream_integrity l s acc s'); [apply demo_wf| |exact E|] end.
  - unfold sends_ok. cbn. repeat (apply Forall_cons; split; [done|]). by apply Forall_nil.
  - apply (f_equal (fun r => c_open (cs_conn r.2))) in E. vm_compute in E. by vm_compute.
Defined.

Lemma flush_outcome_witness :
  exists s', websocket_connection_flush (demo_state demo_busy [AOk 2 []]) = (true, s') /\
    wire 5 s' ++ pending (cs_conn s') = [3; 4].
Proof.
  pose proof (flush_outcome (demo_state demo_busy [AOk 2 []]) (demo_busy_wf _) eq_refl) as F.
  cbv zeta in F. destruct (websocket_connection_flush _) as [ok s'] eqn:E.
  apply (f_equal fst) in E as E1. vm_compute in E1. subst ok.
  exists s'. split; [done|]. exact (proj1 F).
Defined.

Lemma send_frame_backpressure_witness :
  (websocket_connection_send_frame [104; 105] 1
     (demo_state (set_max_queued_bytes 4 demo_busy) [])).1 = false.
Proof.
  rewrite (send_frame_backpressure [104; 105] 1); [done| |done|by vm_compute].
  split; [constructor; [constructor|..]|by intros _ _ _]; cbn; try done; try lia.
  - by apply Forall_singleton.
  - apply demo_select_wf.
Defined.

Lemma close_socket_effects_witness :
  closed (cs_conn (websocket_connection_close_socket (demo_state demo_busy [])).2).
Proof. apply (close_socket_effects (demo_state demo_busy []) (demo_busy_wf _)). Defined.
