(* ===== verification/Options.v ===== *)
(** * Server options: [ServerOptions] and the option readers

    [websocket_server.c] ([WebSocket\ServerOptions::__construct]) and the readers
    of [websocket_server_runtime.c].  A server is given either a PHP array, whose
    values are any PHP values, or a [ServerOptions] object, whose properties are
    integers.  PHP's conversion [zval_get_long] is a parameter. *)
From S2P Require Import Prelude Constants Http.
From Stdlib Require String.
Import (notations) String.

(** The seven properties, and their names. *)
Inductive option_name : Type :=
| maxMessageSize | maxQueuedBytes | maxConnections | handshakeTimeoutMs
| idleTimeoutMs | pingIntervalMs | pongTimeoutMs.

#[export] Instance option_name_eq_dec : EqDecision option_name.
Proof. solve_decision. Defined.

Definition option_key (n : option_name) : bytes :=
  match n with
  | maxMessageSize => str "maxMessageSize"
  | maxQueuedBytes => str "maxQueuedBytes"
  | maxConnections => str "maxConnections"
  | handshakeTimeoutMs => str "handshakeTimeoutMs"
  | idleTimeoutMs => str "idleTimeoutMs"
  | pingIntervalMs => str "pingIntervalMs"
  | pongTimeoutMs => str "pongTimeoutMs"
  end.

Record ServerOptions := mk_ServerOptions {
  o_max_message_size : Z;
  o_max_queued_bytes : Z;
  o_max_connections : Z;
  o_handshake_timeout_ms : Z;
  o_idle_timeout_ms : Z;
  o_ping_interval_ms : Z;
  o_pong_timeout_ms : Z
}.

(** [zend_read_property] of a [ServerOptions]. *)
Definition ServerOptions_property (o : ServerOptions) (n : option_name) : Z :=
  match n with
  | maxMessageSize => o_max_message_size o
  | maxQueuedBytes => o_max_queued_bytes o
  | maxConnections => o_max_connections o
  | handshakeTimeoutMs => o_handshake_timeout_ms o
  | idleTimeoutMs => o_idle_timeout_ms o
  | pingIntervalMs => o_ping_interval_ms o
  | pongTimeoutMs => o_pong_timeout_ms o
  end.

(** [WebSocket\ServerOptions::__construct]; an argument left out is [None].  The
    error is the number of the argument the ValueError names. *)
Definition ServerOptions_construct (max_message_size max_queued_bytes max_connections
    handshake_timeout_ms idle_timeout_ms ping_interval_ms pong_timeout_ms : option Z)
    : result Z ServerOptions :=
  let max_message_size := default WEBSOCKET_DEFAULT_MAX_MESSAGE_SIZE max_message_size in
  let max_queued_bytes := default WEBSOCKET_DEFAULT_MAX_QUEUED_BYTES max_queued_bytes in
  let max_connections := default WEBSOCKET_DEFAULT_MAX_CONNECTIONS max_connections in
  let handshake_timeout_ms := default WEBSOCKET_DEFAULT_HANDSHAKE_TIMEOUT_MS handshake_timeout_ms in
  let idle_timeout_ms := default WEBSOCKET_DEFAULT_IDLE_TIMEOUT_MS idle_timeout_ms in
  let ping_interval_ms := default WEBSOCKET_DEFAULT_PING_INTERVAL_MS ping_interval_ms in
  let pong_timeout_ms := default WEBSOCKET_DEFAULT_PONG_TIMEOUT_MS pong_timeout_ms in
  if max_message_size <? 1 then Err 1 else
  if max_queued_bytes <? 1 then Err 2 else
  if max_connections <? 1 then Err 3 else
  if handshake_timeout_ms <? 1 then Err 4 else
  if idle_timeout_ms <? 1 then Err 5 else
  if ping_interval_ms <? 0 then Err 6 else
  if pong_timeout_ms <? 1 then Err 7 else
  Ok (mk_ServerOptions max_message_size max_queued_bytes max_connections handshake_timeout_ms
        idle_timeout_ms ping_interval_ms pong_timeout_ms).

(** [intern->options]: the string-keyed entries of an array, an object, or
    neither. *)
Inductive options_zval (V : Type) : Type :=
| OptUndef
| OptArray (a : list (bytes * V))
| OptObject (o : ServerOptions).
Arguments OptUndef {V}.
Arguments OptArray {V} _.
Arguments OptObject {V} _.

Fixpoint zval_find {V} (k : bytes) (a : list (bytes * V)) : option V :=
  match a with
  | [] => None
  | (k', v) :: a => if decide (k = k') then Some v else zval_find k a
  end.

Section Options.
Context {V : Type} (zval_get_long : V -> Z).
Implicit Types (options : options_zval V).

(** The value of an option as an integer; [None] when the reader falls back. *)
Definition option_long options (n : option_name) : option Z :=
  match options with
  | OptArray a => zval_get_long <$> zval_find (option_key n) a
  | OptObject o => Some (ServerOptions_property o n)
  | OptUndef => None
  end.

Definition websocket_server_positive_option options (n : option_name) (fallback : Z) : Z :=
  match option_long options n with
  | None => fallback
  | Some option_value => if option_value <=? 0 then fallback else u64 option_value
  end.

Definition websocket_server_nonnegative_option options (n : option_name) (fallback : Z) : Z :=
  match option_long options n with
  | None => fallback
  | Some option_value => if option_value <? 0 then fallback else u64 option_value
  end.

Definition websocket_server_max_message_size options : Z :=
  websocket_server_positive_option options maxMessageSize WEBSOCKET_DEFAULT_MAX_MESSAGE_SIZE.
Definition websocket_server_max_queued_bytes options : Z :=
  websocket_server_positive_option options maxQueuedBytes WEBSOCKET_DEFAULT_MAX_QUEUED_BYTES.
Definition websocket_server_max_connections options : Z :=
  websocket_server_positive_option options maxConnections WEBSOCKET_DEFAULT_MAX_CONNECTIONS.
Definition websocket_server_handshake_timeout_usec options : Z :=
  u64 (websocket_server_positive_option options handshakeTimeoutMs WEBSOCKET_DEFAULT_HANDSHAKE_TIMEOUT_MS * 1000).
Definition websocket_server_idle_timeout_usec options : Z :=
  u64 (websocket_server_positive_option options idleTimeoutMs WEBSOCKET_DEFAULT_IDLE_TIMEOUT_MS * 1000).
Definition websocket_server_ping_interval_usec options : Z :=
  u64 (websocket_server_nonnegative_option options pingIntervalMs WEBSOCKET_DEFAULT_PING_INTERVAL_MS * 1000).
Definition websocket_server_pong_timeout_usec options : Z :=
  u64 (websocket_server_positive_option options pongTimeoutMs WEBSOCKET_DEFAULT_PONG_TIMEOUT_MS * 1000).

(** ** Facts *)

Lemma positive_option_range options n fallback :
  0 < fallback < 2 ^ 64 -> 0 < websocket_server_positive_option options n fallback < 2 ^ 64 \/
    websocket_server_positive_option options n fallback = 0.
Proof.
  intros Hf. unfold websocket_server_positive_option. destruct (option_long _ _) as [v|]; [|lia].
  destruct (v <=? 0); [lia|]. pose proof (u64_range v). lia.
Qed.

Lemma max_message_size_nonneg options : 0 <= websocket_server_max_message_size options < 2 ^ 64.
Proof.
  unfold websocket_server_max_message_size.
  destruct (positive_option_range options maxMessageSize WEBSOCKET_DEFAULT_MAX_MESSAGE_SIZE) as [?|?];
    [by vm_compute|lia..].
Qed.

End Options.

(** ** [ServerOptions::__construct] *)

(** The arguments with their defaults, and the least value allowed for each. *)
Definition ServerOptions_arguments (a1 a2 a3 a4 a5 a6 a7 : option Z) : list Z :=
  [default WEBSOCKET_DEFAULT_MAX_MESSAGE_SIZE a1; default WEBSOCKET_DEFAULT_MAX_QUEUED_BYTES a2;
   default WEBSOCKET_DEFAULT_MAX_CONNECTIONS a3; default WEBSOCKET_DEFAULT_HANDSHAKE_TIMEOUT_MS a4;
   default WEBSOCKET_DEFAULT_IDLE_TIMEOUT_MS a5; default WEBSOCKET_DEFAULT_PING_INTERVAL_MS a6;
   default WEBSOCKET_DEFAULT_PONG_TIMEOUT_MS a7].
Definition ServerOptions_least : list Z := [1; 1; 1; 1; 1; 0; 1].
Definition option_names : list option_name :=
  [maxMessageSize; maxQueuedBytes; maxConnections; handshakeTimeoutMs; idleTimeoutMs; pingIntervalMs; pongTimeoutMs].

Lemma construct_ok a1 a2 a3 a4 a5 a6 a7 o :
  ServerOptions_construct a1 a2 a3 a4 a5 a6 a7 = Ok o ->
  map (ServerOptions_property o) option_names = ServerOptions_arguments a1 a2 a3 a4 a5 a6 a7 /\
  Forall2 Z.le ServerOptions_least (map (ServerOptions_property o) option_names).
Proof.
  unfold ServerOptions_construct.
  repeat match goal with |- context [if ?a <? ?b then _ else _] => destruct (Z.ltb_spec a b); [done|] end.
  intros [= <-]. split; [done|]. repeat (constructor; [assumption|]). constructor.
Qed.

(** [vs] fails its bounds first at the (1-based) position [k]. *)
Definition first_below (least vs : list Z) (k : Z) : Prop :=
  exists pre l v post lpre lpost, vs = pre ++ v :: post /\ least = lpre ++ l :: lpost /\
    k = zlen pre + 1 /\ Forall2 Z.le lpre pre /\ v < l.

Lemma first_below_here l v ls vs : v < l -> first_below (l :: ls) (v :: vs) 1.
Proof. intros. exists [], l, v, vs, [], ls. split_and!; done. Qed.

Lemma first_below_there l v ls vs k : l <= v -> first_below ls vs (k - 1) -> first_below (l :: ls) (v :: vs) k.
Proof.
  intros Hl (pre & l' & v' & post & lpre & lpost & -> & -> & Hk & ? & ?).
  exists (v :: pre), l', v', post, (l :: lpre), lpost. split_and!; try done; [rewrite zlen_cons; lia|by constructor].
Qed.

Lemma construct_err a1 a2 a3 a4 a5 a6 a7 k :
  ServerOptions_construct a1 a2 a3 a4 a5 a6 a7 = Err k ->
  first_below ServerOptions_least (ServerOptions_arguments a1 a2 a3 a4 a5 a6 a7) k.
Proof.
  unfold ServerOptions_construct.
  repeat match goal with
  | |- context [if ?a <? ?b then _ else _] => destruct (Z.ltb_spec a b);
      [intros [= <-]; repeat (first [by apply first_below_here | apply first_below_there; [done|]]) |]
  end.
  done.
Qed.

(** A property read by a server, when it is an in-range integer. *)
Lemma object_positive {V} (zval_get_long : V -> Z) o n fallback : 1 <= ServerOptions_property o n < 2 ^ 63 ->
  websocket_server_positive_option zval_get_long (OptObject o) n fallback = ServerOptions_property o n.
Proof.
  intros H. unfold websocket_server_positive_option. cbn [option_long].
  replace (_ <=? 0) with false by lia. apply u64_small. lia.
Qed.

Lemma object_nonnegative {V} (zval_get_long : V -> Z) o n fallback : 0 <= ServerOptions_property o n < 2 ^ 63 ->
  websocket_server_nonnegative_option zval_get_long (OptObject o) n fallback = ServerOptions_property o n.
Proof.
  intros H. unfold websocket_server_nonnegative_option. cbn [option_long].
  replace (_ <? 0) with false by lia. apply u64_small. lia.
Qed.

(** What [__construct] leaves in the object, as bounds on its properties. *)
Definition ServerOptions_ok (o : ServerOptions) : Prop :=
  Forall (fun n => 1 <= ServerOptions_property o n < 2 ^ 63)
    [maxMessageSize; maxQueuedBytes; maxConnections; handshakeTimeoutMs; idleTimeoutMs; pongTimeoutMs] /\
  0 <= o_ping_interval_ms o < 2 ^ 63.

Lemma construct_object_ok a1 a2 a3 a4 a5 a6 a7 o
    (Hlong : Forall (fun a => default 0 a < 2 ^ 63) [a1; a2; a3; a4; a5; a6; a7]) :
  ServerOptions_construct a1 a2 a3 a4 a5 a6 a7 = Ok o -> ServerOptions_ok o.
Proof.
  intros Ho. apply construct_ok in Ho as [Heq Hle].
  assert (Hlt : Forall (fun v => v < 2 ^ 63) (map (ServerOptions_property o) option_names)).
  { rewrite Heq. rewrite !Forall_cons in Hlong. destruct Hlong as (?&?&?&?&?&?&?&_).
    repeat (apply Forall_cons; split; [match goal with |- default ?d ?a < _ => by destruct a end|]). by apply Forall_nil. }
  cbn [map option_names] in *. unfold ServerOptions_least in Hle.
  rewrite !Forall2_cons in Hle. rewrite !Forall_cons in Hlt. destruct Hle as (?&?&?&?&?&?&?&_), Hlt as (?&?&?&?&?&?&?&_).
  split; [|done]. repeat (apply Forall_cons; split; [done|]). by apply Forall_nil.
Qed.

(** C39. [ServerOptions]: an object is constructed exactly when every argument, with
    its default where it is left out, reaches its least value (0 for the ping
    interval, 1 for the others); otherwise the error is the number of the first
    that does not.  The object holds the arguments, and a server given it uses each
    as it is, the times in microseconds while these fit 64 bits. *)
Theorem server_options_used {V} (zval_get_long : V -> Z) a1 a2 a3 a4 a5 a6 a7
    (Hlong : Forall (fun a => default 0 a < 2 ^ 63) [a1; a2; a3; a4; a5; a6; a7]) :
  let args := ServerOptions_arguments a1 a2 a3 a4 a5 a6 a7 in
  match ServerOptions_construct a1 a2 a3 a4 a5 a6 a7 with
  | Err k => first_below ServerOptions_least args k
  | Ok o =>
    let opt := OptObject (V := V) o in
    Forall2 Z.le ServerOptions_least args /\
    map (ServerOptions_property o) option_names = args /\
    websocket_server_max_message_size zval_get_long opt = default WEBSOCKET_DEFAULT_MAX_MESSAGE_SIZE a1 /\
    websocket_server_max_queued_bytes zval_get_long opt = default WEBSOCKET_DEFAULT_MAX_QUEUED_BYTES a2 /\
    websocket_server_max_connections zval_get_long opt = default WEBSOCKET_DEFAULT_MAX_CONNECTIONS a3 /\
    (default 0 a4 <= 18446744073709551 -> websocket_server_handshake_timeout_usec zval_get_long opt
       = default WEBSOCKET_DEFAULT_HANDSHAKE_TIMEOUT_MS a4 * 1000) /\
    (default 0 a5 <= 18446744073709551 -> websocket_server_idle_timeout_usec zval_get_long opt
       = default WEBSOCKET_DEFAULT_IDLE_TIMEOUT_MS a5 * 1000) /\
    (default 0 a6 <= 18446744073709551 -> websocket_server_ping_interval_usec zval_get_long opt
       = default WEBSOCKET_DEFAULT_PING_INTERVAL_MS a6 * 1000) /\
    (default 0 a7 <= 18446744073709551 -> websocket_server_pong_timeout_usec zval_get_long opt
       = default WEBSOCKET_DEFAULT_PONG_TIMEOUT_MS a7 * 1000)
  end.
Proof.
  cbv zeta. destruct (ServerOptions_construct _ _ _ _ _ _ _) as [o|k] eqn:Ho; [|by apply construct_err].
  pose proof (construct_object_ok _ _ _ _ _ _ _ _ Hlong Ho) as [Hp Hping].
  apply construct_ok in Ho as [Heq Hle]. rewrite Heq in Hle.
  rewrite !Forall_cons in Hp. destruct Hp as (P1&P2&P3&P4&P5&P7&_). split; [done|]. split; [done|].
  cbn [map option_names] in Heq. injection Heq as E1 E2 E3 E4 E5 E6 E7.
  unfold websocket_server_max_message_size, websocket_server_max_queued_bytes, websocket_server_max_connections,
    websocket_server_handshake_timeout_usec, websocket_server_idle_timeout_usec,
    websocket_server_ping_interval_usec, websocket_server_pong_timeout_usec.
  rewrite !object_positive, object_nonnegative by done.
  cbn [ServerOptions_property] in *. rewrite E1, E2, E3, E4, E5, E6, E7 in *.
  assert (T : forall (a : option Z) d, default 0 a <= 18446744073709551 -> 0 <= d <= 1000000 ->
     0 <= default d a -> u64 (default d a * 1000) = default d a * 1000).
  { intros a d Ha Hd Hp. apply u64_small. destruct a; cbn in *; lia. }
  split_and!; try done; intros; apply T; first [assumption | by vm_compute | lia].
Qed.

Lemma server_options_used_witness :
  (exists o, ServerOptions_construct (Some 65536) None (Some 2) (Some 500) None (Some 0) None = Ok o /\
     websocket_server_max_message_size (fun v : Z => v) (OptObject o) = 65536 /\
     websocket_server_handshake_timeout_usec (fun v : Z => v) (OptObject o) = 500000) /\
  first_below ServerOptions_least [1; 1; 10000; 0; 120000; -1; 10000] 4.
Proof.
  split.
  - eexists. split; [reflexivity|].
    pose proof (server_options_used (fun v : Z => v) (Some 65536) None (Some 2) (Some 500) None (Some 0) None
      ltac:(repeat (apply Forall_cons; split; [by vm_compute|]); by apply Forall_nil)) as H.
    destruct H as (_ & _ & H1 & _ & _ & H4 & _). split; [exact H1|]. apply H4. by vm_compute.
  - exact (server_options_used (fun v : Z => v) (Some 1) (Some 1) None (Some 0) None (Some (-1)) None
      ltac:(repeat (apply Forall_cons; split; [by vm_compute|]); by apply Forall_nil)).
Defined.
