(* ===== verification/Frames.v ===== *)
(** * Reading frames: the frame parser and the read buffer of the server

    From [websocket_server_runtime.c]: [websocket_connection_ensure_read_capacity],
    [websocket_connection_discard_read_bytes], [websocket_server_parse_frame] and
    the two functions on fragmented messages.  Clients' frames are masked; the
    parser is stricter than the codec of [websocket_protocol.c]. *)
From S2P Require Import Prelude Constants Words Utf8 Mask Protocol ConnState.

(** [websocket_server_frame] and [websocket_server_frame_status]: the frame is
    filled in only for OK, the other statuses carry nothing the callers use. *)
Record websocket_server_frame := mk_server_frame {
  sf_opcode : Z;
  sf_final : bool;
  sf_bytes_consumed : Z;
  sf_payload : bytes
}.

Inductive frame_status : Type :=
| FRAME_INCOMPLETE
| FRAME_OK (frame : websocket_server_frame)
| FRAME_PROTOCOL_ERROR
| FRAME_MESSAGE_TOO_BIG
| FRAME_INVALID_PAYLOAD.

(** ** The parser *)

(** The extended payload length: [(payload_len, pos)], or an early return. *)
Definition parse_length (inp : bytes) (payload_len : Z) : result frame_status (Z * Z) :=
  let len := zlen inp in
  if payload_len =? 126 then
    if len <? 4 then Err FRAME_INCOMPLETE else
    let payload_len := Z.lor (Z.shiftl (zget inp 2) 8) (zget inp 3) in
    if payload_len <? 126 then Err FRAME_PROTOCOL_ERROR else Ok (payload_len, 4)
  else if payload_len =? 127 then
    if len <? 10 then Err FRAME_INCOMPLETE else
    if negb (Z.land (zget inp 2) 0x80 =? 0) then Err FRAME_PROTOCOL_ERROR else
    let payload_len := be64_loop 8 inp 0 0 in
    if payload_len <=? 0xffff then Err FRAME_PROTOCOL_ERROR else Ok (payload_len, 10)
  else Ok (payload_len, 2).

(** From the mask key at [pos] on: the rest of the header and the payload. *)
Definition parse_payload (inp : bytes) (opcode : Z) (final : bool) (payload_len pos : Z) : frame_status :=
  let len := zlen inp in
  if (SIZE_MAX <? payload_len) || (SIZE_MAX - pos <? payload_len) || (len <? pos + 4)
  then FRAME_INCOMPLETE else
  let mask := ztake 4 (zdrop pos inp) in
  let pos := pos + 4 in
  if (SIZE_MAX - pos <? payload_len) || (len <? pos + payload_len) then FRAME_INCOMPLETE else
  let close := opcode =? WEBSOCKET_OPCODE_CLOSE in
  if close && (payload_len =? 1) then FRAME_PROTOCOL_ERROR else
  let close_code := Z.lor (Z.shiftl (Z.lxor (zget inp pos) (zget mask 0)) 8)
                      (Z.lxor (zget inp (pos + 1)) (zget mask 1)) in
  if close && (2 <=? payload_len) && negb (websocket_protocol_close_code_is_valid close_code)
  then FRAME_PROTOCOL_ERROR else
  let payload := websocket_server_mask_payload (ztake payload_len (zdrop pos inp)) mask in
  if close && (2 <=? payload_len) && negb (websocket_protocol_is_valid_utf8 (zdrop 2 payload))
  then FRAME_INVALID_PAYLOAD
  else FRAME_OK (mk_server_frame opcode final (pos + payload_len) payload).

(** [inp] is the connection's read buffer. *)
Definition websocket_server_parse_frame (inp : bytes) (max_message_size : Z) : frame_status :=
  if zlen inp <? 2 then FRAME_INCOMPLETE else
  let b0 := zget inp 0 in
  let b1 := zget inp 1 in
  let final := has_flag b0 0x80 in
  let opcode := Z.land b0 0x0f in
  if has_flag b0 0x70 || negb (has_flag b1 0x80) then FRAME_PROTOCOL_ERROR else
  if negb (websocket_protocol_opcode_is_valid opcode) then FRAME_PROTOCOL_ERROR else
  match parse_length inp (Z.land b1 0x7f) with
  | Err status => status
  | Ok (payload_len, pos) =>
    let control := websocket_protocol_opcode_is_control opcode in
    if control && (negb final || (125 <? payload_len)) then FRAME_PROTOCOL_ERROR else
    if negb control && (max_message_size <? payload_len) then FRAME_MESSAGE_TOO_BIG else
    parse_payload inp opcode final payload_len pos
  end.

(** ** The read buffer *)

(** [while (capacity < needed) capacity *= 2]; 64 doublings are enough. *)
Fixpoint grow_loop (fuel : nat) (capacity needed : Z) : Z :=
  match fuel with
  | O => capacity
  | S fuel => if capacity <? needed then grow_loop fuel (capacity * 2) needed else capacity
  end.

(** The new capacity; [None]: the buffer may not grow by [append_len] under
    [limit]. *)
Definition websocket_connection_ensure_read_capacity (append_len limit : Z) (c : websocket_connection_object)
    : option Z :=
  if (limit <? append_len) || (limit - append_len <? zlen (c_read_buffer c)) then None else
  let needed := zlen (c_read_buffer c) + append_len in
  if needed <=? c_read_buffer_capacity c then Some (c_read_buffer_capacity c) else
  let capacity := grow_loop 64 (if 0 <? c_read_buffer_capacity c then c_read_buffer_capacity c else 1024) needed in
  Some (if limit <? capacity then limit else capacity).

(** [memcpy] of a chunk behind the bytes read so far. *)
Definition append_read_bytes (capacity : Z) (chunk : bytes) (c : websocket_connection_object)
    : websocket_connection_object :=
  set_read_buffer (c_read_buffer c ++ chunk) (set_read_buffer_capacity capacity c).

Definition websocket_connection_discard_read_bytes (bytes : Z) (c : websocket_connection_object)
    : websocket_connection_object :=
  if zlen (c_read_buffer c) <=? bytes then set_read_buffer [] c
  else set_read_buffer (zdrop bytes (c_read_buffer c)) c.

(** ** Fragmented messages *)

Definition websocket_server_clear_fragment (c : websocket_connection_object) : websocket_connection_object :=
  set_fragmented_opcode 0 (set_fragmented false (set_fragmented_payload None c)).

(** The new [fragmented_payload]; [None] is a return of [false]. *)
Definition websocket_server_append_fragment (payload : bytes) (max_message_size : Z)
    (c : websocket_connection_object) : option bytes :=
  let current_len := match c_fragmented_payload c with Some p => zlen p | None => 0 end in
  let append_len := zlen payload in
  if (max_message_size <? append_len) || (max_message_size - append_len <? current_len) then None else
  match c_fragmented_payload c with
  | None => Some payload
  | Some current => if append_len =? 0 then Some current else Some (current ++ payload)
  end.
