(* ===== verification/FramesSpec.v ===== *)
(** * Reading frames: the theorems

    The server's parser on what clients send, on partial input and on arbitrary
    bytes, its agreement with the codec, and the size of the read buffer. *)
From S2P Require Import Prelude Constants Words Utf8 Mask Protocol ConnState Frames.

(** ** The length field *)

(** The length uses its shortest form, and its top bit is clear. *)
Definition minimal_length (l7 n : Z) : bool :=
  if l7 =? 126 then 126 <=? n
  else if l7 =? 127 then (0xffff <? n) && (n <? 2 ^ 63)
  else true.

Lemma be64_top_bit inp : is_bytes inp -> 10 <= zlen inp ->
  (Z.land (zget inp 2) 0x80 =? 0) = (be64_loop 8 inp 0 0 <? 2 ^ 63).
Proof.
  intros Hin Hlen. rewrite be64_loop_load by (first [done | lia]).
  change (Z.of_nat 8) with (Z.of_nat (S 7)). rewrite ztake_S_zdrop by lia. cbn [be_load].
  pose proof (be_load_range (ztake (Z.of_nat 7) (zdrop (2 + 0 + 1) inp))) as R.
  assert (Hz : zlen (ztake (Z.of_nat 7) (zdrop (2 + 0 + 1) inp)) = 7) by (rewrite zlen_ztake, zlen_zdrop; lia).
  rewrite Hz in *. specialize (R ltac:(auto with ws)).
  change (2 + 0) with 2. assert (Hb : is_byte (zget inp 2)) by auto with ws.
  byte_fact (fun b => Bool.eqb (Z.land b 0x80 =? 0) (b <? 128)) (zget inp 2) as T.
  apply eqb_prop in T. rewrite T. unfold is_byte in Hb.
  set (r := be_load _) in *. change (2 ^ (8 * 7)) with (2 ^ 56) in *. lia.
Qed.

(** The server's parser reads the length as the codec does, and insists on the
    shortest form. *)
Lemma parse_length_unpack inp l7 : is_bytes inp ->
  parse_length inp l7 =
  match unpack_length inp l7 with
  | None => Err FRAME_INCOMPLETE
  | Some (n, pos) => if minimal_length l7 n then Ok (n, pos) else Err FRAME_PROTOCOL_ERROR
  end.
Proof.
  intros Hin. unfold parse_length, unpack_length, minimal_length.
  destruct (l7 =? 126).
  - destruct (_ <? 4); [done|]. cbv zeta. set (n := Z.lor _ _).
    destruct (Z.ltb_spec n 126), (Z.leb_spec 126 n); try done; lia.
  - destruct (l7 =? 127); [|done]. destruct (Z.ltb_spec (zlen inp) 10); [done|].
    rewrite be64_top_bit by done. cbv zeta. set (n := be64_loop 8 inp 0 0).
    destruct (Z.ltb_spec n (2 ^ 63)), (Z.leb_spec n 65535), (Z.ltb_spec 65535 n); cbn [negb andb]; try done; lia.
Qed.

(** ** The payload *)

Lemma zget_mask src mask i j : 0 <= j < zlen src ->
  zget (mask_bytes_from src mask i) j = Z.lxor (zget src j) (zget mask (Z.land (i + j) 3)).
Proof.
  revert i j. induction src as [|b src IH]; intros i j Hj; [unfold zlen in Hj; cbn in Hj; lia|].
  rewrite zlen_cons in Hj. cbn [mask_bytes_from]. destruct (Z.eq_dec j 0) as [->|].
  - by rewrite Z.add_0_r.
  - rewrite !zget_cons_pos by lia. rewrite IH by lia. do 3 f_equal. lia.
Qed.

Lemma zlen_server_mask src mask : zlen (websocket_server_mask_payload src mask) = zlen src.
Proof. unfold zlen, websocket_server_mask_payload. by rewrite length_mask_bytes_from. Qed.

(** The payload of a close frame: empty, or a valid code and a reason. *)
Definition close_code_of (payload : bytes) : Z := Z.lor (Z.shiftl (zget payload 0) 8) (zget payload 1).

Definition close_payload_ok (opcode : Z) (payload : bytes) : bool :=
  negb (opcode =? WEBSOCKET_OPCODE_CLOSE) || (zlen payload =? 0) ||
  ((2 <=? zlen payload) && websocket_protocol_close_code_is_valid (close_code_of payload)).

Definition close_reason_ok (opcode : Z) (payload : bytes) : bool :=
  negb (opcode =? WEBSOCKET_OPCODE_CLOSE) || negb (2 <=? zlen payload)
  || websocket_protocol_is_valid_utf8 (zdrop 2 payload).

(** The unmasked payload of [n] bytes whose mask key is at [pos]. *)
Definition payload_at (inp : bytes) (pos n : Z) : bytes :=
  websocket_server_mask_payload (ztake n (zdrop (pos + 4) inp)) (ztake 4 (zdrop pos inp)).

Lemma zlen_payload_at inp pos n : 0 <= n -> 0 <= pos -> pos + 4 + n <= zlen inp -> zlen (payload_at inp pos n) = n.
Proof. intros. unfold payload_at. rewrite zlen_server_mask, zlen_ztake, zlen_zdrop. lia. Qed.

Lemma zget_payload_at inp pos n j : 0 <= j < n -> j < 4 -> 0 <= pos -> pos + 4 + n <= zlen inp ->
  zget (payload_at inp pos n) j = Z.lxor (zget inp (pos + 4 + j)) (zget (ztake 4 (zdrop pos inp)) j).
Proof.
  intros Hj H4 Hp Hl. unfold payload_at, websocket_server_mask_payload.
  rewrite zget_mask by (rewrite zlen_ztake, zlen_zdrop; lia). f_equal.
  - rewrite <- (zget_app_l _ (zdrop n (zdrop (pos + 4) inp)) j) by (rewrite zlen_ztake, zlen_zdrop; lia).
    rewrite ztake_zdrop, zget_zdrop by lia. done.
  - f_equal. rewrite Z.add_0_l, land_3_mod. apply Z.mod_small. lia.
Qed.

Lemma parse_payload_eq inp opcode final n pos : 0 <= n -> 2 <= pos <= 10 ->
  parse_payload inp opcode final n pos =
  if (SIZE_MAX - (pos + 4) <? n) || (zlen inp <? pos + 4 + n) then FRAME_INCOMPLETE else
  let payload := payload_at inp pos n in
  if negb (close_payload_ok opcode payload) then FRAME_PROTOCOL_ERROR
  else if negb (close_reason_ok opcode payload) then FRAME_INVALID_PAYLOAD
  else FRAME_OK (mk_server_frame opcode final (pos + 4 + n) payload).
Proof.
  intros Hn Hp. unfold parse_payload, close_payload_ok, close_reason_ok. cbv zeta.
  pose proof (zlen_nonneg inp).
  destruct (Z.ltb_spec (SIZE_MAX - (pos + 4)) n) as [|Hs].
  { by destruct (_ || (zlen inp <? pos + 4)). }
  replace (SIZE_MAX <? n) with false by lia. replace (SIZE_MAX - pos <? n) with false by lia.
  cbn [orb]. destruct (Z.ltb_spec (zlen inp) (pos + 4 + n)) as [|Hl].
  { by destruct (zlen inp <? pos + 4). }
  replace (zlen inp <? pos + 4) with false by lia.
  fold (payload_at inp pos n). rewrite zlen_payload_at by lia.
  destruct (opcode =? WEBSOCKET_OPCODE_CLOSE); cbn [negb andb orb]; [|done].
  destruct (Z.eqb_spec n 1) as [->|]; [done|].
  destruct (Z.leb_spec 2 n) as [H2|H2]; cbn [andb negb orb].
  - unfold close_code_of. rewrite !zget_payload_at by lia. rewrite Z.add_0_r.
    replace (n =? 0) with false by lia. cbn [orb]. by destruct (websocket_protocol_close_code_is_valid _).
  - by replace (n =? 0) with true by lia.
Qed.

Lemma unpack_length_bounds inp n pos : is_bytes inp ->
  unpack_length inp (Z.land (zget inp 1) 0x7f) = Some (n, pos) -> 0 <= n < 2 ^ 64 /\ 2 <= pos <= 10.
Proof.
  intros Hin Hul. pose proof (zget_byte inp 1 Hin) as Hb. unfold is_byte in Hb.
  pose proof (land_byte_range (zget inp 1) 0x7f ltac:(lia) ltac:(lia)).
  pose proof (unpack_length_range inp (Z.land (zget inp 1) 0x7f) n pos Hin ltac:(lia) Hul) as [? ?]. split; [lia|].
  unfold unpack_length in Hul. apply (f_equal (option_map snd)) in Hul. clear -Hul.
  destruct (_ =? 126); [|destruct (_ =? 127)]; [destruct (_ <? 4)|destruct (_ <? 10)|];
    cbn [option_map snd] in Hul; try discriminate; injection Hul as <-; lia.
Qed.

(** The shortest form takes as many header bytes as the encoder writes. *)
Lemma minimal_length_header inp n pos : is_bytes inp ->
  unpack_length inp (Z.land (zget inp 1) 0x7f) = Some (n, pos) ->
  minimal_length (Z.land (zget inp 1) 0x7f) n = true -> pos = pack_header_len n.
Proof.
  intros Hin Hul Hmin. pose proof (zget_byte inp 1 Hin) as Hb. unfold is_byte in Hb.
  pose proof (land_byte_range (zget inp 1) 0x7f ltac:(lia) ltac:(lia)).
  pose proof (unpack_length_range inp (Z.land (zget inp 1) 0x7f) n pos Hin ltac:(lia) Hul) as [? ?].
  revert Hul Hmin. unfold unpack_length, minimal_length, pack_header_len.
  set (l7 := Z.land _ _) in *.
  destruct (Z.eqb_spec l7 126).
  - destruct (_ <? 4); [done|]. cbv zeta. set (k := Z.lor _ _).
    assert (k <= 0xffff).
    { pose proof (zget_byte inp 2 Hin) as B2. pose proof (zget_byte inp 3 Hin) as B3. unfold is_byte in *.
      subst k. rewrite lor_shiftl_add by lia. lia. }
    intros [= <- <-] ?. replace (126 <=? k) with true by lia. by replace (k <=? 0xffff) with true by lia.
  - destruct (Z.eqb_spec l7 127).
    + destruct (_ <? 10); [done|]. cbv zeta. set (k := be64_loop _ _ _ _).
      intros [= <- <-] ?. replace (k <=? 0xffff) with false by lia. rewrite andb_false_r.
      by replace (0xffff <? k) with true by lia.
    + intros [= <- <-] _. assert (l7 <= 127) by lia.
      replace (126 <=? l7) with false by lia. by replace (0xffff <? l7) with false by lia.
Qed.

(** The parser with the length and the payload in these terms. *)
Lemma parse_frame_eq inp max : is_bytes inp ->
  websocket_server_parse_frame inp max =
  if zlen inp <? 2 then FRAME_INCOMPLETE else
  let opcode := Z.land (zget inp 0) 0x0f in
  let final := has_flag (zget inp 0) 0x80 in
  let control := websocket_protocol_opcode_is_control opcode in
  if has_flag (zget inp 0) 0x70 || negb (has_flag (zget inp 1) 0x80)
     || negb (websocket_protocol_opcode_is_valid opcode) then FRAME_PROTOCOL_ERROR else
  let l7 := Z.land (zget inp 1) 0x7f in
  match unpack_length inp l7 with
  | None => FRAME_INCOMPLETE
  | Some (n, pos) =>
    if negb (minimal_length l7 n) || (control && (negb final || (125 <? n))) then FRAME_PROTOCOL_ERROR else
    if negb control && (max <? n) then FRAME_MESSAGE_TOO_BIG else
    if (SIZE_MAX - (pos + 4) <? n) || (zlen inp <? pos + 4 + n) then FRAME_INCOMPLETE else
    let payload := payload_at inp pos n in
    if negb (close_payload_ok opcode payload) then FRAME_PROTOCOL_ERROR
    else if negb (close_reason_ok opcode payload) then FRAME_INVALID_PAYLOAD
    else FRAME_OK (mk_server_frame opcode final (pos + 4 + n) payload)
  end.
Proof.
  intros Hin. unfold websocket_server_parse_frame. destruct (_ <? 2); [done|]. cbv zeta.
  destruct (has_flag (zget inp 0) 0x70 || _); cbn [orb]; [done|].
  destruct (websocket_protocol_opcode_is_valid _); cbn [negb orb]; [|done].
  rewrite parse_length_unpack by done.
  destruct (unpack_length inp _) as [[n pos]|] eqn:Hul; [|done].
  destruct (minimal_length _ n); cbn [negb orb]; [|done].
  destruct (_ && (_ || _)); [done|]. destruct (_ && _); [done|].
  apply unpack_length_bounds in Hul as [? ?]; [|done].
  by rewrite parse_payload_eq by lia.
Qed.

(** ** Stability *)

Lemma payload_at_app inp rest pos n : 0 <= n -> 0 <= pos -> pos + 4 + n <= zlen inp ->
  payload_at (inp ++ rest) pos n = payload_at inp pos n.
Proof.
  intros. unfold payload_at. f_equal.
  - rewrite zdrop_app_le by lia. apply ztake_app_le. rewrite zlen_zdrop. lia.
  - rewrite zdrop_app_le by lia. apply ztake_app_le. rewrite zlen_zdrop. lia.
Qed.

(** C24. The parser is incremental: any answer but INCOMPLETE stays the same
    whatever bytes arrive after it, so the frames a connection receives do not
    depend on how the stream is cut into reads. *)
Theorem parse_frame_stable inp rest max
    (Hin : is_bytes (inp ++ rest))
    (Hdone : websocket_server_parse_frame inp max <> FRAME_INCOMPLETE) :
  websocket_server_parse_frame (inp ++ rest) max = websocket_server_parse_frame inp max.
Proof.
  pose proof (proj1 (is_bytes_app _ _) Hin) as [Hi _]. pose proof (zlen_nonneg rest). revert Hdone.
  rewrite !parse_frame_eq by done. rewrite zlen_app.
  destruct (Z.ltb_spec (zlen inp) 2); [done|]. replace (zlen inp + zlen rest <? 2) with false by lia.
  rewrite !zget_app_l by lia. cbv zeta. destruct (_ || _ || _); [done|].
  destruct (unpack_length inp _) as [[n pos]|] eqn:Hul; [|done].
  rewrite (unpack_length_app _ _ _ _ Hul). apply unpack_length_bounds in Hul as [? ?]; [|done].
  destruct (_ || (_ && (_ || _))); [done|]. destruct (_ && (max <? n)); [done|].
  destruct (SIZE_MAX - (pos + 4) <? n); cbn [orb]; [done|].
  destruct (Z.ltb_spec (zlen inp) (pos + 4 + n)); [done|].
  replace (zlen inp + zlen rest <? pos + 4 + n) with false by lia. intros _.
  by rewrite payload_at_app by lia.
Qed.

Lemma parse_frame_stable_witness :
  websocket_server_parse_frame ([0x81; 0x82; 1; 2; 3; 4; 105; 107] ++ [0x88; 0x80]) 125
  = FRAME_OK (mk_server_frame 1 true 8 [104; 105]).
Proof.
  rewrite (parse_frame_stable [0x81; 0x82; 1; 2; 3; 4; 105; 107] [0x88; 0x80] 125);
    [reflexivity | apply (bool_decide_unpack _); vm_compute; exact I | discriminate].
Defined.

(** ** Soundness, and agreement with the codec *)

(** The flags of a masked frame without reserved bits. *)
Lemma unpack_flags_client b0 b1 : is_byte b0 -> has_flag b0 0x70 = false -> has_flag b1 0x80 = true ->
  unpack_flags b0 b1 = Z.lor (if has_flag b0 0x80 then WEBSOCKET_FLAG_FIN else 0) WEBSOCKET_FLAG_MASK.
Proof.
  intros Hb Hrsv Hm. unfold unpack_flags. rewrite Hm.
  byte_fact (fun b => has_flag b 0x70 || (negb (has_flag b 0x40) && negb (has_flag b 0x20) && negb (has_flag b 0x10))) b0 as T.
  rewrite Hrsv in T. cbn [orb] in T. by destruct (has_flag b0 0x40), (has_flag b0 0x20), (has_flag b0 0x10).
Qed.

(** A close payload that passes the checks: not one byte, and a code and a reason. *)
Lemma close_payload_checked payload : zlen payload <> 0 ->
  close_payload_ok WEBSOCKET_OPCODE_CLOSE payload = true -> close_reason_ok WEBSOCKET_OPCODE_CLOSE payload = true ->
  websocket_protocol_close_code_is_valid (close_code_of payload) = true /\
  websocket_protocol_is_valid_utf8 (zdrop 2 payload) = true.
Proof.
  intros Hn. unfold close_payload_ok, close_reason_ok.
  change (WEBSOCKET_OPCODE_CLOSE =? WEBSOCKET_OPCODE_CLOSE) with true. cbn [negb orb].
  replace (zlen payload =? 0) with false by lia. cbn [orb]. by destruct (2 <=? zlen payload).
Qed.

(** C8. What the parser accepts from arbitrary bytes: a masked frame without
    reserved bits, inside the buffer, whose length is in shortest form (its header
    takes 2, 4 or 10 bytes as its length requires, then the mask key), of a known
    opcode; a control frame is final and carries at most 125 bytes, a data
    frame at most [max_message_size].  The codec reads the same frame: the same
    opcode, FIN bit, payload and size; a close code is valid and its reason
    UTF-8. *)
Theorem parse_frame_sound (big : bool) inp max frame
    (Hin : is_bytes inp) (Hlen : zlen inp < 2 ^ 63)
    (Hok : websocket_server_parse_frame inp max = FRAME_OK frame) :
  6 <= sf_bytes_consumed frame <= zlen inp /\ zlen (sf_payload frame) <= sf_bytes_consumed frame - 6 /\
  sf_bytes_consumed frame
    = (if zlen (sf_payload frame) <? 126 then 2 else if zlen (sf_payload frame) <? 0x10000 then 4 else 10)
      + 4 + zlen (sf_payload frame) /\
  websocket_protocol_opcode_is_valid (sf_opcode frame) = true /\
  (if websocket_protocol_opcode_is_control (sf_opcode frame)
   then sf_final frame = true /\ zlen (sf_payload frame) <= 125
   else zlen (sf_payload frame) <= max) /\
  Protocol_unpack big inp =
    unpack_payload (sf_opcode frame)
      (Z.lor (if sf_final frame then WEBSOCKET_FLAG_FIN else 0) WEBSOCKET_FLAG_MASK)
      (sf_final frame) (sf_payload frame) (sf_bytes_consumed frame) /\
  (sf_opcode frame = WEBSOCKET_OPCODE_CLOSE -> 0 < zlen (sf_payload frame) ->
     websocket_protocol_close_code_is_valid (close_code_of (sf_payload frame)) = true /\
     websocket_protocol_is_valid_utf8 (zdrop 2 (sf_payload frame)) = true).
Proof.
  revert Hok. rewrite parse_frame_eq by done.
  unfold Protocol_unpack, websocket_protocol_unpack.
  destruct (Z.ltb_spec (zlen inp) 2); [done|]. cbv zeta.
  set (b0 := zget inp 0). set (b1 := zget inp 1).
  destruct (has_flag b0 0x70) eqn:Hrsv; cbn [orb]; [done|].
  destruct (has_flag b1 0x80) eqn:Hm; cbn [negb orb andb]; [|done].
  destruct (websocket_protocol_opcode_is_valid (Z.land b0 15)) eqn:Hv; cbn [negb]; [|done].
  destruct (unpack_length inp _) as [[n pos]|] eqn:Hul; [|done].
  pose proof (minimal_length_header inp n pos Hin Hul) as Hhl.
  apply unpack_length_bounds in Hul as [Hn Hp]; [|done].
  destruct (minimal_length _ n); cbn [negb orb]; [|done]. specialize (Hhl eq_refl).
  destruct (websocket_protocol_opcode_is_control (Z.land b0 15) && _) eqn:Hc; [done|].
  destruct (negb _ && (max <? n)) eqn:Hmax; [done|].
  destruct (SIZE_MAX - (pos + 4) <? n) eqn:Hs; cbn [orb]; [done|].
  destruct (Z.ltb_spec (zlen inp) (pos + 4 + n)); [done|].
  set (payload := payload_at inp pos n).
  assert (Hpl : zlen payload = n) by (apply zlen_payload_at; lia).
  destruct (close_payload_ok _ payload) eqn:Hcp; cbn [negb]; [|done].
  destruct (close_reason_ok _ payload) eqn:Hcr; cbn [negb]; [|done].
  intros [= <-]. cbn [sf_opcode sf_final sf_payload sf_bytes_consumed].
  replace (SIZE_MAX <? n) with false by (unfold SIZE_MAX in *; lia).
  replace (zlen inp <? pos + 4) with false by lia. cbn [andb orb].
  rewrite Hpl. split_and!; [lia|lia|lia| |done| | |].
  - clear -Hhl Hn Hp. subst pos. unfold pack_header_len. change 0xffff with 65535. change 0x10000 with 65536.
    destruct (Z.leb_spec 126 n), (Z.leb_spec n 65535), (Z.ltb_spec 65535 n), (Z.ltb_spec n 126), (Z.ltb_spec n 65536);
      cbn [andb]; lia.
  - destruct (websocket_protocol_opcode_is_control (Z.land b0 15)); cbn [andb negb] in *; [|lia].
    destruct (has_flag b0 0x80); cbn [negb orb] in *; [|done]. split; [done|lia].
  - assert (Hc1 : (Z.land b0 15 =? WEBSOCKET_OPCODE_CLOSE) && (n =? 1) = false).
    { unfold close_payload_ok in Hcp. rewrite Hpl in Hcp.
      destruct (_ =? WEBSOCKET_OPCODE_CLOSE), (Z.eqb_spec n 1); try done. cbn [negb orb] in Hcp.
      replace (n =? 0) with false in Hcp by lia. by replace (2 <=? n) with false in Hcp by lia. }
    rewrite mask_payload_copy_bytewise; [|auto with ws|auto with ws|]; last first.
    { apply Nat2Z.inj. change (zlen (ztake 4 (zdrop pos inp)) = 4). rewrite zlen_ztake, zlen_zdrop. lia. }
    fold (payload_at inp pos n). fold payload.
    rewrite Hc1.
    rewrite (unpack_flags_client b0 b1 (zget_byte inp 0 Hin) Hrsv Hm). f_equal. unfold zend_long. by replace (_ <? 2 ^ 63) with true by lia.
  - intros Hop Hpos. rewrite Hop in *. apply close_payload_checked; [lia|done..].
Qed.

Lemma parse_frame_sound_witness :
  Protocol_unpack true [0x88; 0x83; 0; 0; 0; 0; 3; 232; 66]
  = Ok (DCloseFrame (mk_CloseFrame 1000 [66] 33 9)).
Proof.
  apply (parse_frame_sound true [0x88; 0x83; 0; 0; 0; 0; 3; 232; 66] 10 (mk_server_frame 8 true 9 [3; 232; 66]));
    [apply (bool_decide_unpack _); vm_compute; exact I | by vm_compute | reflexivity].
Defined.

(** ** What clients send *)

Lemma minimal_length_pack (inp : bytes) n l7 : unpack_length inp l7 = Some (n, pack_header_len n) ->
  0 <= n < 2 ^ 63 -> minimal_length l7 n = true.
Proof.
  intros Hul Hn. apply (f_equal (option_map snd)) in Hul. revert Hul.
  unfold unpack_length, minimal_length, pack_header_len.
  destruct (l7 =? 126); [|destruct (l7 =? 127); [|done]]; (destruct (_ <? _); cbn [option_map snd]; [done|]);
    (destruct (Z.leb_spec 126 n); cbn [andb]);
    repeat match goal with
    | |- context [0xffff <? n] => destruct (Z.ltb_spec 0xffff n)
    | |- context [n <=? 0xffff] => destruct (Z.leb_spec n 0xffff)
    end; intros E; first [discriminate E | lia].
Qed.

Lemma zget_close_payload code reason : 0 <= code < 65536 ->
  close_code_of (code / 256 :: code mod 256 :: reason) = code.
Proof. intros. unfold close_code_of. by apply close_code_bytes. Qed.

Section Client.
Context (big : bool) (opcode flags : Z) (mask payload : bytes).
Hypothesis (Hop : websocket_protocol_opcode_is_valid opcode = true) (Hfl : 0 <= flags < 64).
Hypothesis (Hmask : is_bytes mask) (Hmask4 : length mask = 4%nat) (Hpay : is_bytes payload).
Hypothesis (Hmasked : has_flag flags WEBSOCKET_FLAG_MASK = true).
Hypothesis (Hrsv : has_flag (pack_byte0 opcode flags) 0x70 = false).
Hypothesis (Hcp : close_payload_ok opcode payload = true) (Hcr : close_reason_ok opcode payload = true).

(** The server's parser on an encoded client frame followed by anything. *)
Lemma parse_wire rest max :
  is_bytes rest -> zlen (frame_wire big opcode flags mask payload ++ rest) < 2 ^ 63 ->
  (if websocket_protocol_opcode_is_control opcode
   then has_flag flags WEBSOCKET_FLAG_FIN = true /\ zlen payload <= 125 else zlen payload <= max) ->
  websocket_server_parse_frame (frame_wire big opcode flags mask payload ++ rest) max
  = FRAME_OK (mk_server_frame opcode (has_flag flags WEBSOCKET_FLAG_FIN)
                (zlen (frame_wire big opcode flags mask payload)) payload).
Proof using All.
  intros Hrest Hlen Hsize. pose proof (opcode_valid_range opcode Hop) as Hop16.
  assert (Hmok : mask_ok flags mask) by (unfold mask_ok; by rewrite Hmasked).
  pose proof (zlen_nonneg rest). pose proof (zlen_nonneg payload).
  pose proof (pack_header_len_pos (zlen payload)) as Hph.
  pose proof (wire_len big opcode flags mask payload Hmok Hpay) as Hwl. rewrite Hmasked in Hwl.
  destruct (pack_byte0_bits opcode flags Hop16 Hfl) as (Hb0 & Hopb & Hfin & _).
  set (n := zlen payload) in *. set (hl := pack_header_len n) in *.
  rewrite zlen_app in Hlen. set (inp := frame_wire _ _ _ _ _ ++ rest).
  assert (Hinp : inp = pack_byte0 opcode flags :: pack_length true n ++
      (mask ++ websocket_server_mask_payload payload mask ++ rest)).
  { subst inp. unfold frame_wire. rewrite Hmasked, mask_payload_copy_bytewise by done.
    cbn [app]. by rewrite <- !app_assoc. }
  assert (Hbody : is_bytes (websocket_server_mask_payload payload mask)) by by apply mask_bytes_from_bytes.
  assert (Htail : is_bytes (mask ++ websocket_server_mask_payload payload mask ++ rest))
    by (rewrite !is_bytes_app; by split_and!).
  destruct (unpack_length_pack _ true n _ inp Hb0 Htail ltac:(lia) Hinp) as [Hm Hul].
  assert (Hib : is_bytes inp).
  { rewrite Hinp. apply is_bytes_cons. split; [done|]. apply is_bytes_app.
    split; [apply pack_length_bytes; lia|done]. }
  assert (Hil : zlen inp = hl + 4 + n + zlen rest) by (subst inp; rewrite zlen_app; lia).
  assert (Hd : zdrop hl inp = mask ++ websocket_server_mask_payload payload mask ++ rest).
  { subst hl. rewrite Hinp, <- (zlen_pack_length true), app_comm_cons.
    rewrite <- (zlen_cons (pack_byte0 opcode flags)). apply zdrop_app_exact. }
  assert (Hm4 : zlen mask = 4) by (unfold zlen; lia).
  assert (Hpa : payload_at inp hl n = payload).
  { unfold payload_at. rewrite <- zdrop_zdrop, Hd by lia.
    rewrite <- Hm4, !zdrop_app_exact, ztake_app_exact.
    replace n with (zlen (websocket_server_mask_payload payload mask)) by apply zlen_server_mask.
    rewrite ztake_app_exact. apply mask_bytes_from_involutive. }
  rewrite parse_frame_eq by done. cbv zeta.
  replace (zget inp 0) with (pack_byte0 opcode flags) by (by rewrite Hinp).
  rewrite Hm, Hul, Hopb, Hfin, Hrsv, Hop. fold hl. rewrite Hpa, Hcp, Hcr.
  rewrite (minimal_length_pack inp n _ Hul) by lia.
  replace (zlen inp <? 2) with false by lia.
  replace ((SIZE_MAX - (hl + 4) <? n) || (zlen inp <? hl + 4 + n)) with false by (unfold SIZE_MAX; lia).
  replace (hl + 4 + n) with (zlen (frame_wire big opcode flags mask payload)) by lia. cbn [negb orb andb].
  destruct (websocket_protocol_opcode_is_control opcode); cbn [negb andb].
  - destruct Hsize as [-> ?]. by replace (125 <? n) with false by lia.
  - by replace (max <? n) with false by lia.
Qed.
End Client.

(** C23. The server understands its own client encoder: whatever [Protocol::pack]
    makes of a payload with the MASK flag (and FIN or not), the server's parser
    reads back, whatever bytes follow, as a frame of the same opcode, FIN bit and
    payload that spans exactly the encoding; a data payload must be within
    [max_message_size] and a close payload be empty or made by
    [websocket_protocol_close_payload]. *)
Theorem parse_frame_packed (big : bool) (key payload rest bs : bytes) (opcode max : Z) (final : bool)
    (Hpay : is_bytes payload) (Hkey : is_bytes key) (Hkey4 : length key = 4%nat) (Hrest : is_bytes rest)
    (Hpack : Protocol_pack big (Some key) (DataString payload) opcode
               (Z.lor (if final then WEBSOCKET_FLAG_FIN else 0) WEBSOCKET_FLAG_MASK) = Ok bs)
    (Hclose : opcode = WEBSOCKET_OPCODE_CLOSE -> payload = [] \/
                exists code reason, websocket_protocol_close_payload code reason = Ok payload)
    (Hmax : websocket_protocol_opcode_is_control opcode = false -> zlen payload <= max)
    (Hlen : zlen (bs ++ rest) < 2 ^ 63) :
  websocket_server_parse_frame (bs ++ rest) max = FRAME_OK (mk_server_frame opcode final (zlen bs) payload).
Proof.
  set (flags := Z.lor _ _) in *.
  apply Protocol_pack_Ok in Hpack as (p & op & fl & Hsrc & Hop & Hctl & _ & Hbs).
  injection Hsrc as <- <- <-.
  assert (Hpf : pack_payload_flags flags = flags) by (subst flags; by destruct final).
  assert (Hm : has_flag flags WEBSOCKET_FLAG_MASK = true) by (subst flags; by destruct final).
  assert (Hf : has_flag flags WEBSOCKET_FLAG_FIN = final) by (subst flags; by destruct final).
  unfold frame_mask in Hbs. rewrite Hpf, Hm in Hbs. subst bs. rewrite <- Hf at 1.
  assert (Hcp : close_payload_ok opcode payload = true /\ close_reason_ok opcode payload = true).
  { unfold close_payload_ok, close_reason_ok. destruct (Z.eqb_spec opcode WEBSOCKET_OPCODE_CLOSE) as [Hc|]; [|done].
    destruct (Hclose Hc) as [->|(code & reason & Hcr)]; [done|].
    apply close_payload_Ok in Hcr as (Hv & _ & Hu & ->). pose proof (valid_close_code_range code Hv).
    rewrite zget_close_payload by lia. rewrite !zlen_cons. pose proof (zlen_nonneg reason).
    replace (2 <=? 1 + (1 + zlen reason)) with true by lia. rewrite Hv. cbn [negb andb orb].
    rewrite orb_true_r. change (zdrop 2 _) with reason. by rewrite Hu. }
  destruct Hcp as [Hcp Hcr].
  apply parse_wire; try done.
  - subst flags. destruct final; by vm_compute.
  - pose proof (opcode_valid_range opcode Hop) as Ho.
    pose proof (small_cases 16 (fun o => negb (has_flag (pack_byte0 o (Z.lor WEBSOCKET_FLAG_FIN WEBSOCKET_FLAG_MASK)) 0x70)
      && negb (has_flag (pack_byte0 o (Z.lor 0 WEBSOCKET_FLAG_MASK)) 0x70)) ltac:(vm_compute; reflexivity) opcode ltac:(lia)) as T.
    cbn beta in T. apply andb_true_iff in T as [T1 T2]. subst flags.
    destruct final; [by apply negb_true_iff in T1|by apply negb_true_iff in T2].
  - destruct (websocket_protocol_opcode_is_control opcode) eqn:Hc; [by apply Hctl|by apply Hmax].
Qed.

Lemma parse_frame_packed_witness :
  websocket_server_parse_frame ([0x81; 0x82; 1; 2; 3; 4; 105; 107] ++ [7]) 2
  = FRAME_OK (mk_server_frame 1 true 8 [104; 105]).
Proof.
  apply (parse_frame_packed false [1; 2; 3; 4] [104; 105] [7] [0x81; 0x82; 1; 2; 3; 4; 105; 107] 1 2 true);
    [ apply (bool_decide_unpack _); vm_compute; exact I
    | apply (bool_decide_unpack _); vm_compute; exact I
    | reflexivity
    | apply (bool_decide_unpack _); vm_compute; exact I
    | vm_compute; reflexivity | discriminate | intros _; by vm_compute | by vm_compute ].
Defined.

(** ** The size of the read buffer *)

Lemma grow_loop_spec fuel capacity needed : 0 < capacity ->
  capacity <= grow_loop fuel capacity needed /\
  (needed <= capacity * 2 ^ Z.of_nat fuel -> needed <= grow_loop fuel capacity needed) /\
  (grow_loop fuel capacity needed = capacity \/ grow_loop fuel capacity needed < 2 * needed).
Proof.
  revert capacity. induction fuel as [|fuel IH]; intros capacity Hc; cbn [grow_loop].
  - split_and!; [lia| |by left]. rewrite Z.mul_1_r. done.
  - destruct (Z.ltb_spec capacity needed); [|by split_and!; [lia|lia|left]].
    destruct (IH (capacity * 2) ltac:(lia)) as (I1 & I2 & I3). split_and!; [lia| |].
    + intros Hn. apply I2. rewrite Nat2Z.inj_succ, Z.pow_succ_r in Hn by lia. lia.
    + right. destruct I3 as [->|]; lia.
Qed.

Lemma ensure_capacity_outcome append_len limit c
    (Happend : 0 <= append_len) (Hlimit : limit <= SIZE_MAX)
    (Hcap : 0 <= c_read_buffer_capacity c) :
  let needed := zlen (c_read_buffer c) + append_len in
  match websocket_connection_ensure_read_capacity append_len limit c with
  | None => limit < needed
  | Some capacity =>
      needed <= limit /\ needed <= capacity /\
      capacity <= Z.max (c_read_buffer_capacity c) (Z.min limit (Z.max 1024 (2 * needed)))
  end.
Proof.
  cbv zeta. unfold websocket_connection_ensure_read_capacity.
  pose proof (zlen_nonneg (c_read_buffer c)).
  destruct ((limit <? append_len) || _) eqn:E; [lia|]. cbv zeta.
  set (needed := zlen (c_read_buffer c) + append_len) in *.
  destruct (Z.leb_spec needed (c_read_buffer_capacity c)).
  { lia. }
  set (start := if 0 <? c_read_buffer_capacity c then _ else 1024).
  assert (Hs : 0 < start /\ (start = c_read_buffer_capacity c \/ start = 1024))
    by (subst start; destruct (Z.ltb_spec 0 (c_read_buffer_capacity c)); lia).
  destruct (grow_loop_spec 64 start needed (proj1 Hs)) as (G1 & G2 & G3).
  change (2 ^ Z.of_nat 64) with (SIZE_MAX + 1) in G2. specialize (G2 ltac:(unfold SIZE_MAX in *; nia)).
  destruct (Z.ltb_spec limit (grow_loop 64 start needed)); lia.
Qed.

(** C30. The read buffer: it is refused exactly when the bytes would exceed the
    limit; otherwise they fit the new capacity, which exceeds neither the limit,
    nor (unless it already did) twice what is needed or 1024. *)
Theorem ensure_read_capacity_spec append_len limit c
    (Happend : 0 <= append_len) (Hlimit : limit <= SIZE_MAX)
    (Hcap : 0 <= c_read_buffer_capacity c) :
  let needed := zlen (c_read_buffer c) + append_len in
  match websocket_connection_ensure_read_capacity append_len limit c with
  | None => limit < needed
  | Some capacity =>
      needed <= limit /\ needed <= capacity /\
      capacity <= Z.max (c_read_buffer_capacity c) (Z.min limit (Z.max 1024 (2 * needed)))
  end.
Proof. by apply ensure_capacity_outcome. Qed.

Lemma ensure_read_capacity_spec_witness :
  exists capacity, websocket_connection_ensure_read_capacity 1500 8192 websocket_connection_create_object
    = Some capacity /\ 1500 <= capacity.
Proof.
  pose proof (ensure_read_capacity_spec 1500 8192 websocket_connection_create_object
    ltac:(by vm_compute) ltac:(by vm_compute) ltac:(by vm_compute)) as H.
  eexists. split; [reflexivity|]. by apply H.
Defined.
