(* ===== verification/World.v ===== *)
(** * The world of a running server

    [websocket_server_object] and the module globals of [php_websocket.h]; the
    PHP objects, the driver and the kernel the server works on; PHP user code.

    PHP code is a [program]: a finite tree of the calls it makes on connections
    and on the server, whose branches are their results, ending in a return or a
    throw.  A closure is a function from its arguments and the user's own state
    [U] to a program.  [V] is the type of the PHP values of an options array. *)
From stdpp Require Import gmap.
From S2P Require Import Prelude Constants Protocol Http Kernel Driver ConnState Connection Options.

(** [WebSocket\Request] and [WebSocket\HandshakeResponse]. *)
Record request := mk_request {
  req_method : bytes;
  req_target : bytes;
  req_headers : list (bytes * bytes)
}.

Record HandshakeResponse := mk_HandshakeResponse {
  hr_status : Z;
  hr_headers : list (bytes * bytes);
  hr_body : bytes
}.

(** The errors the server itself throws. *)
Inductive server_error : Type :=
| HandshakeReturnType    (* WebSocket handshake handler must return void *)
| CannotResolve          (* Cannot resolve WebSocket listen address *)
| CannotListen           (* Cannot listen on *)
| CannotNonblock         (* Cannot make accepted WebSocket connection non-blocking *)
| CannotWatchConnection  (* Cannot watch accepted WebSocket connection *)
| CannotWatchListener    (* Cannot watch WebSocket listener *)
| LoopFailed             (* WebSocket server loop failed *)
| AlreadyRunning         (* The WebSocket server is already running *)
| RunBeforeListen        (* Cannot run WebSocket server before listen() *)
| NoDriver.              (* No suitable I/O driver available *)

(** [EG(exception)]: a [HandshakeException] with its response, an uncaught error
    of a connection method, an error of the server, or another PHP exception. *)
Inductive php_exception : Type :=
| ExHandshake (response : option HandshakeResponse)
| ExConnection (e : connection_error)
| ExServer (e : server_error)
| ExUser (n : Z).

(** What a closure returns: nothing (or null), false, or another value. *)
Inductive php_return : Type := ReturnNull | ReturnFalse | ReturnOther.

#[export] Instance php_return_eq_dec : EqDecision php_return.
Proof. solve_decision. Defined.

Inductive program (U : Type) : Type :=
| PReturn (u : U) (v : php_return)
| PThrow (u : U) (e : php_exception)
| PSend (c : Z) (payload : bytes) (type : option message_type) (k : option connection_error -> program U)
| PClose (c : Z) (code : option Z) (reason : option bytes) (k : option connection_error -> program U)
| PIsOpen (c : Z) (k : bool -> program U)
| PProperty (c : Z) (p : connection_property) (k : option bytes -> program U)
| PKeep (c : Z) (k : program U)
| PDrop (c : Z) (k : program U)
| PStop (k : program U).
Arguments PReturn {U} _ _.
Arguments PThrow {U} _ _.
Arguments PSend {U} _ _ _ _.
Arguments PClose {U} _ _ _ _.
Arguments PIsOpen {U} _ _.
Arguments PProperty {U} _ _ _.
Arguments PKeep {U} _ _.
Arguments PDrop {U} _ _.
Arguments PStop {U} _.

(** ** The server object

    [s_subprotocols] is the list of the array's keys.  [on_open_cache] is left
    out: it caches the closure of [s_on_open].  One setter per field. *)
Record websocket_server_object (U V : Type) := mk_server {
  s_options : options_zval V;
  s_subprotocols : option (list bytes);
  s_on_open : option (option Z -> U -> program U);
  s_on_handshake : option (request -> U -> program U);
  s_on_message : option (Z -> bytes -> message_type -> U -> program U);
  s_on_close : option (Z -> U -> program U);
  s_on_error : option (U -> program U);
  s_on_open_param_count : Z;
  s_host : option bytes;
  s_port : Z;
  s_listening : bool;
  s_running : bool;
  s_listener_fd : Z;
  s_reusable_connection : option Z;
  s_connections : list Z;
  s_connection_capacity : Z
}.
Arguments s_options {U V} _.
Arguments s_subprotocols {U V} _.
Arguments s_on_open {U V} _.
Arguments s_on_handshake {U V} _.
Arguments s_on_message {U V} _.
Arguments s_on_close {U V} _.
Arguments s_on_error {U V} _.
Arguments s_on_open_param_count {U V} _.
Arguments s_host {U V} _.
Arguments s_port {U V} _.
Arguments s_listening {U V} _.
Arguments s_running {U V} _.
Arguments s_listener_fd {U V} _.
Arguments s_reusable_connection {U V} _.
Arguments s_connections {U V} _.
Arguments s_connection_capacity {U V} _.
Arguments mk_server {U V} _ _ _ _ _ _ _ _ _ _ _ _ _ _ _ _.

Definition set_options {U V} (v : options_zval V) (x : websocket_server_object U V) : websocket_server_object U V :=
  mk_server v (s_subprotocols x) (s_on_open x) (s_on_handshake x) (s_on_message x) (s_on_close x)
    (s_on_error x) (s_on_open_param_count x) (s_host x) (s_port x) (s_listening x) (s_running x)
    (s_listener_fd x) (s_reusable_connection x) (s_connections x) (s_connection_capacity x).
Definition set_subprotocols {U V} (v : option (list bytes)) (x : websocket_server_object U V) : websocket_server_object U V :=
  mk_server (s_options x) v (s_on_open x) (s_on_handshake x) (s_on_message x) (s_on_close x) (s_on_error x)
    (s_on_open_param_count x) (s_host x) (s_port x) (s_listening x) (s_running x) (s_listener_fd x)
    (s_reusable_connection x) (s_connections x) (s_connection_capacity x).
Definition set_on_open {U V} (v : option (option Z -> U -> program U)) (x : websocket_server_object U V) : websocket_server_object U V :=
  mk_server (s_options x) (s_subprotocols x) v (s_on_handshake x) (s_on_message x) (s_on_close x)
    (s_on_error x) (s_on_open_param_count x) (s_host x) (s_port x) (s_listening x) (s_running x)
    (s_listener_fd x) (s_reusable_connection x) (s_connections x) (s_connection_capacity x).
Definition set_on_handshake {U V} (v : option (request -> U -> program U)) (x : websocket_server_object U V) : websocket_server_object U V :=
  mk_server (s_options x) (s_subprotocols x) (s_on_open x) v (s_on_message x) (s_on_close x) (s_on_error x)
    (s_on_open_param_count x) (s_host x) (s_port x) (s_listening x) (s_running x) (s_listener_fd x)
    (s_reusable_connection x) (s_connections x) (s_connection_capacity x).
Definition set_on_message {U V} (v : option (Z -> bytes -> message_type -> U -> program U)) (x : websocket_server_object U V) : websocket_server_object U V :=
  mk_server (s_options x) (s_subprotocols x) (s_on_open x) (s_on_handshake x) v (s_on_close x) (s_on_error
    x) (s_on_open_param_count x) (s_host x) (s_port x) (s_listening x) (s_running x) (s_listener_fd x)
    (s_reusable_connection x) (s_connections x) (s_connection_capacity x).
Definition set_on_close {U V} (v : option (Z -> U -> program U)) (x : websocket_server_object U V) : websocket_server_object U V :=
  mk_server (s_options x) (s_subprotocols x) (s_on_open x) (s_on_handshake x) (s_on_message x) v (s_on_error
    x) (s_on_open_param_count x) (s_host x) (s_port x) (s_listening x) (s_running x) (s_listener_fd x)
    (s_reusable_connection x) (s_connections x) (s_connection_capacity x).
Definition set_on_error {U V} (v : option (U -> program U)) (x : websocket_server_object U V) : websocket_server_object U V :=
  mk_server (s_options x) (s_subprotocols x) (s_on_open x) (s_on_handshake x) (s_on_message x) (s_on_close
    x) v (s_on_open_param_count x) (s_host x) (s_port x) (s_listening x) (s_running x) (s_listener_fd x)
    (s_reusable_connection x) (s_connections x) (s_connection_capacity x).
Definition set_on_open_param_count {U V} (v : Z) (x : websocket_server_object U V) : websocket_server_object U V :=
  mk_server (s_options x) (s_subprotocols x) (s_on_open x) (s_on_handshake x) (s_on_message x) (s_on_close
    x) (s_on_error x) v (s_host x) (s_port x) (s_listening x) (s_running x) (s_listener_fd x)
    (s_reusable_connection x) (s_connections x) (s_connection_capacity x).
Definition set_host {U V} (v : option bytes) (x : websocket_server_object U V) : websocket_server_object U V :=
  mk_server (s_options x) (s_subprotocols x) (s_on_open x) (s_on_handshake x) (s_on_message x) (s_on_close
    x) (s_on_error x) (s_on_open_param_count x) v (s_port x) (s_listening x) (s_running x) (s_listener_fd x)
    (s_reusable_connection x) (s_connections x) (s_connection_capacity x).
Definition set_port {U V} (v : Z) (x : websocket_server_object U V) : websocket_server_object U V :=
  mk_server (s_options x) (s_subprotocols x) (s_on_open x) (s_on_handshake x) (s_on_message x) (s_on_close
    x) (s_on_error x) (s_on_open_param_count x) (s_host x) v (s_listening x) (s_running x) (s_listener_fd x)
    (s_reusable_connection x) (s_connections x) (s_connection_capacity x).
Definition set_listening {U V} (v : bool) (x : websocket_server_object U V) : websocket_server_object U V :=
  mk_server (s_options x) (s_subprotocols x) (s_on_open x) (s_on_handshake x) (s_on_message x) (s_on_close
    x) (s_on_error x) (s_on_open_param_count x) (s_host x) (s_port x) v (s_running x) (s_listener_fd x)
    (s_reusable_connection x) (s_connections x) (s_connection_capacity x).
Definition set_server_running {U V} (v : bool) (x : websocket_server_object U V) : websocket_server_object U V :=
  mk_server (s_options x) (s_subprotocols x) (s_on_open x) (s_on_handshake x) (s_on_message x) (s_on_close
    x) (s_on_error x) (s_on_open_param_count x) (s_host x) (s_port x) (s_listening x) v (s_listener_fd x)
    (s_reusable_connection x) (s_connections x) (s_connection_capacity x).
Definition set_listener_fd {U V} (v : Z) (x : websocket_server_object U V) : websocket_server_object U V :=
  mk_server (s_options x) (s_subprotocols x) (s_on_open x) (s_on_handshake x) (s_on_message x) (s_on_close
    x) (s_on_error x) (s_on_open_param_count x) (s_host x) (s_port x) (s_listening x) (s_running x) v
    (s_reusable_connection x) (s_connections x) (s_connection_capacity x).
Definition set_reusable_connection {U V} (v : option Z) (x : websocket_server_object U V) : websocket_server_object U V :=
  mk_server (s_options x) (s_subprotocols x) (s_on_open x) (s_on_handshake x) (s_on_message x) (s_on_close
    x) (s_on_error x) (s_on_open_param_count x) (s_host x) (s_port x) (s_listening x) (s_running x)
    (s_listener_fd x) v (s_connections x) (s_connection_capacity x).
Definition set_connections {U V} (v : list Z) (x : websocket_server_object U V) : websocket_server_object U V :=
  mk_server (s_options x) (s_subprotocols x) (s_on_open x) (s_on_handshake x) (s_on_message x) (s_on_close
    x) (s_on_error x) (s_on_open_param_count x) (s_host x) (s_port x) (s_listening x) (s_running x)
    (s_listener_fd x) (s_reusable_connection x) v (s_connection_capacity x).
Definition set_connection_capacity {U V} (v : Z) (x : websocket_server_object U V) : websocket_server_object U V :=
  mk_server (s_options x) (s_subprotocols x) (s_on_open x) (s_on_handshake x) (s_on_message x) (s_on_close
    x) (s_on_error x) (s_on_open_param_count x) (s_host x) (s_port x) (s_listening x) (s_running x)
    (s_listener_fd x) (s_reusable_connection x) (s_connections x) v.

(** ** The world

    The connection objects by handle, with the next handle; the handles PHP
    variables hold ([w_kept]); the module globals; the pending exception. *)
Record world (D U V : Type) := mk_world {
  w_server : websocket_server_object U V;
  w_heap : gmap Z websocket_connection_object;
  w_objects : Z;
  w_kept : list Z;
  w_driver : option D;
  w_kernel : kernel;
  w_next_connection_id : Z;
  w_running : bool;
  w_stopped : bool;
  w_exception : option php_exception;
  w_user : U
}.
Arguments w_server {D U V} _.
Arguments w_heap {D U V} _.
Arguments w_objects {D U V} _.
Arguments w_kept {D U V} _.
Arguments w_driver {D U V} _.
Arguments w_kernel {D U V} _.
Arguments w_next_connection_id {D U V} _.
Arguments w_running {D U V} _.
Arguments w_stopped {D U V} _.
Arguments w_exception {D U V} _.
Arguments w_user {D U V} _.
Arguments mk_world {D U V} _ _ _ _ _ _ _ _ _ _ _.

Definition set_w_server {D U V} (v : websocket_server_object U V) (x : world D U V) : world D U V :=
  mk_world v (w_heap x) (w_objects x) (w_kept x) (w_driver x) (w_kernel x) (w_next_connection_id x)
    (w_running x) (w_stopped x) (w_exception x) (w_user x).
Definition set_w_heap {D U V} (v : gmap Z websocket_connection_object) (x : world D U V) : world D U V :=
  mk_world (w_server x) v (w_objects x) (w_kept x) (w_driver x) (w_kernel x) (w_next_connection_id x)
    (w_running x) (w_stopped x) (w_exception x) (w_user x).
Definition set_w_objects {D U V} (v : Z) (x : world D U V) : world D U V :=
  mk_world (w_server x) (w_heap x) v (w_kept x) (w_driver x) (w_kernel x) (w_next_connection_id x)
    (w_running x) (w_stopped x) (w_exception x) (w_user x).
Definition set_w_kept {D U V} (v : list Z) (x : world D U V) : world D U V :=
  mk_world (w_server x) (w_heap x) (w_objects x) v (w_driver x) (w_kernel x) (w_next_connection_id x)
    (w_running x) (w_stopped x) (w_exception x) (w_user x).
Definition set_w_driver {D U V} (v : option D) (x : world D U V) : world D U V :=
  mk_world (w_server x) (w_heap x) (w_objects x) (w_kept x) v (w_kernel x) (w_next_connection_id x)
    (w_running x) (w_stopped x) (w_exception x) (w_user x).
Definition set_w_kernel {D U V} (v : kernel) (x : world D U V) : world D U V :=
  mk_world (w_server x) (w_heap x) (w_objects x) (w_kept x) (w_driver x) v (w_next_connection_id x)
    (w_running x) (w_stopped x) (w_exception x) (w_user x).
Definition set_w_next_connection_id {D U V} (v : Z) (x : world D U V) : world D U V :=
  mk_world (w_server x) (w_heap x) (w_objects x) (w_kept x) (w_driver x) (w_kernel x) v (w_running x)
    (w_stopped x) (w_exception x) (w_user x).
Definition set_w_running {D U V} (v : bool) (x : world D U V) : world D U V :=
  mk_world (w_server x) (w_heap x) (w_objects x) (w_kept x) (w_driver x) (w_kernel x) (w_next_connection_id
    x) v (w_stopped x) (w_exception x) (w_user x).
Definition set_w_stopped {D U V} (v : bool) (x : world D U V) : world D U V :=
  mk_world (w_server x) (w_heap x) (w_objects x) (w_kept x) (w_driver x) (w_kernel x) (w_next_connection_id
    x) (w_running x) v (w_exception x) (w_user x).
Definition set_w_exception {D U V} (v : option php_exception) (x : world D U V) : world D U V :=
  mk_world (w_server x) (w_heap x) (w_objects x) (w_kept x) (w_driver x) (w_kernel x) (w_next_connection_id
    x) (w_running x) (w_stopped x) v (w_user x).
Definition set_w_user {D U V} (v : U) (x : world D U V) : world D U V :=
  mk_world (w_server x) (w_heap x) (w_objects x) (w_kept x) (w_driver x) (w_kernel x) (w_next_connection_id
    x) (w_running x) (w_stopped x) (w_exception x) v.

(** ** Access to the state *)

Section World.
Context {D U V : Type} `{Driver D}.
Context (getnameinfo : bytes -> option (bytes * bytes)) (sa_family : bytes -> Z) (AF_INET6 : Z).

Local Abbreviation W := (ST (world D U V)).

Definition get_server : W (websocket_server_object U V) := st_gets w_server.
Definition mod_server (f : websocket_server_object U V -> websocket_server_object U V) : W () :=
  st_modify (fun w => set_w_server (f (w_server w)) w).

Definition world_kernel {A} (f : kernel -> A * kernel) : W A :=
  fun w => let '(x, k) := f (w_kernel w) in (x, set_w_kernel k w).
Definition world_errno : W Z := st_gets (fun w => k_errno (w_kernel w)).

(** The object of a handle. *)
Definition conn_of (h : Z) (w : world D U V) : websocket_connection_object :=
  default websocket_connection_create_object (w_heap w !! h).
Definition get_connection (h : Z) : W websocket_connection_object := st_gets (conn_of h).

(** Run a function of [websocket_connection.c] on the object of a handle. *)
Definition on_conn {A} (h : Z) (m : ST (cstate D) A) : W A :=
  fun w => let '(x, s) := m (mk_cs (conn_of h w) (w_driver w) (w_kernel w)) in
           (x, set_w_kernel (cs_kernel s) (set_w_driver (cs_driver s)
                 (set_w_heap (<[h := cs_conn s]> (w_heap w)) w))).

Definition mod_connection (h : Z) (f : websocket_connection_object -> websocket_connection_object) : W () :=
  st_modify (fun w => set_w_heap (<[h := f (conn_of h w)]> (w_heap w)) w).

(** [!EG(exception)] *)
Definition no_exception : W bool :=
  st_gets (fun w => match w_exception w with None => true | Some _ => false end).
Definition throw (e : php_exception) : W () := st_modify (set_w_exception (Some e)).

(** [zval_ptr_dtor] on a reference to a connection: the last one frees it. *)
Definition release_connection (h : Z) : W () :=
  mod_connection h (fun c => set_refcount (c_refcount c - 1) c);;
  c ← get_connection h;
  if c_refcount c <=? 0 then
    on_conn h websocket_connection_free_object;;
    st_modify (fun w => set_w_heap (delete h (w_heap w)) w)
  else mret ().

(** ** PHP code *)

Definition WebSocket_Server_stop : W () :=
  mod_server (set_server_running false);; st_modify (set_w_stopped true).

(** The result is [None] when the program threw. *)
Fixpoint run_program (p : program U) : W (option php_return) :=
  match p with
  | PReturn u v => st_modify (set_w_user u);; mret (Some v)
  | PThrow u e => st_modify (set_w_user u);; throw e;; mret None
  | PSend c payload type k => r ← on_conn c (Connection_send payload type); run_program (k r)
  | PClose c code reason k => r ← on_conn c (Connection_close code reason); run_program (k r)
  | PIsOpen c k => r ← on_conn c Connection_isOpen; run_program (k r)
  | PProperty c p k =>
      r ← on_conn c (websocket_connection_read_property getnameinfo sa_family AF_INET6 p);
      run_program (k r)
  | PKeep c k =>
      exists_ ← st_gets (fun w => (0 <=? c) && (c <? w_objects w));
      (if (exists_ : bool) then
         mod_connection c (fun x => set_refcount (c_refcount x + 1) x);;
         st_modify (fun w => set_w_kept (c :: w_kept w) w)
       else mret ());;
      run_program k
  | PDrop c k =>
      kept ← st_gets w_kept;
      (if bool_decide (c ∈ kept) then
         st_modify (fun w => set_w_kept (remove_one c (w_kept w)) w);;
         release_connection c
       else mret ());;
      run_program k
  | PStop k => WebSocket_Server_stop;; run_program k
  end.

(** [call_user_function] on a closure; PHP does not start a call while an
    exception is pending. *)
Definition call_user (ev : event) (f : U -> program U) : W (option php_return) :=
  ok ← no_exception;
  if negb ok then mret None else
  world_kernel (fun k => ((), emit ev k));;
  u ← st_gets w_user;
  run_program (f u).

(** The reference the call's argument holds. *)
Definition with_reference {A} (h : Z) (m : W A) : W A :=
  mod_connection h (fun c => set_refcount (c_refcount c + 1) c);;
  r ← m;
  mod_connection h (fun c => set_refcount (c_refcount c - 1) c);;
  mret r.
End World.
