(* ===== verification/Runtime.v ===== *)
(** * The server's event loop: [websocket_server_runtime.c]

    One definition per function, in the order of the file.  A loop that waits for
    answers of the kernel has the number of answers left as its fuel, a loop over
    the read buffer the number of its bytes; [Termination] proves them enough.
    Handlers are closures, so [call_user_function] never reports FAILURE. *)
From stdpp Require Import gmap.
From S2P Require Import Prelude Constants Utf8 Protocol Http Kernel Driver ConnState Connection Options Frames World.
From Stdlib Require String.
Import (notations) String.

Definition WEBSOCKET_ACCEPT_BATCH_LIMIT : Z := 1024.
Definition WEBSOCKET_LOOP_TIMEOUT_USEC : Z := 100000.
Definition WEBSOCKET_READ_CHUNK_SIZE : Z := 4096.

Definition status_response (status : bytes) : bytes :=
  status ++ crlf ++ str "Connection: close" ++ crlf ++ str "Content-Length: 0" ++ crlf ++ crlf.
Definition websocket_bad_request_response : bytes := status_response (str "HTTP/1.1 400 Bad Request").
Definition websocket_service_unavailable_response : bytes := status_response (str "HTTP/1.1 503 Service Unavailable").
Definition websocket_forbidden_response : bytes := status_response (str "HTTP/1.1 403 Forbidden").

(** ** System calls *)

Definition websocket_server_close_fd (fd : Z) (k : kernel) : kernel :=
  if 0 <=? fd then close_retry fd k else k.

(** [fcntl(F_GETFL)], then [fcntl(F_SETFL)]. *)
Definition websocket_server_set_nonblocking (k : kernel) : bool * kernel :=
  match syscall k with
  | (AErr _, k) => (false, k)
  | (AOk _ _, k) =>
    match syscall k with
    | (AErr _, k) => (false, k)
    | (AOk _ _, k) => (true, k)
    end
  end.

Fixpoint send_bytes_loop (fuel : nat) (fd : Z) (buffer : bytes) (sent : Z) (k : kernel) : bool * kernel :=
  match fuel with
  | O => (true, k)
  | S fuel =>
    if negb (sent <? zlen buffer) then (true, k) else
    let '(written, k) := sys_send fd (zdrop sent buffer) k in
    if 0 <? written then send_bytes_loop fuel fd buffer (sent + written) k
    else if (written <? 0) && (k_errno k =? EINTR) then send_bytes_loop fuel fd buffer sent k
    else (false, k)
  end.

Definition websocket_server_send_bytes (fd : Z) (buffer : bytes) (k : kernel) : bool * kernel :=
  send_bytes_loop (S (length (k_answers k))) fd buffer 0 k.

(** [socket], [setsockopt], non-blocking mode, [bind] and [listen] on one address:
    the descriptor, or -1. *)
Definition listen_on (k : kernel) : Z * kernel :=
  match sys_open k with
  | (AErr _, k) => (-1, k)
  | (AOk listener_fd _, k) =>
    if listener_fd <? 0 then (-1, k) else
    let k := (syscall k).2 in
    let '(ok, k) := websocket_server_set_nonblocking k in
    if negb ok then (-1, websocket_server_close_fd listener_fd k) else
    match syscall k with
    | (AErr _, k) => (-1, websocket_server_close_fd listener_fd k)
    | (AOk _ _, k) =>
      match syscall k with
      | (AErr _, k) => (-1, websocket_server_close_fd listener_fd k)
      | (AOk _ _, k) => (listener_fd, k)
      end
    end
  end.

(** The addresses are tried in order until one listens. *)
Fixpoint listen_loop (addresses : list bytes) (k : kernel) : Z * kernel :=
  match addresses with
  | [] => (-1, k)
  | _ :: addresses =>
    let '(listener_fd, k) := listen_on k in
    if listener_fd <? 0 then listen_loop addresses k else (listener_fd, k)
  end.

(** ** The handshake response of a rejection *)

Definition websocket_http_reason_phrase (status : Z) : bytes :=
  if status =? 200 then str "OK"
  else if status =? 400 then str "Bad Request"
  else if status =? 401 then str "Unauthorized"
  else if status =? 403 then str "Forbidden"
  else if status =? 404 then str "Not Found"
  else if status =? 429 then str "Too Many Requests"
  else if status =? 500 then str "Internal Server Error"
  else if status =? 503 then str "Service Unavailable"
  else str "Rejected".

(** [zend_string_equals_literal_ci] *)
Definition zend_equals_ci (a b : bytes) : bool :=
  bool_decide (zend_string_tolower a = zend_string_tolower b).

(** [%ld] of a status: [HandshakeResponse] statuses are positive. *)
Definition handshake_response_bytes (r : HandshakeResponse) : bytes :=
  let has_connection := existsb (fun h => zend_equals_ci h.1 (str "Connection")) (hr_headers r) in
  let has_content_length := existsb (fun h => negb (zend_equals_ci h.1 (str "Connection"))
                                              && zend_equals_ci h.1 (str "Content-Length")) (hr_headers r) in
  str "HTTP/1.1 " ++ decimal (hr_status r) ++ str " " ++ websocket_http_reason_phrase (hr_status r) ++ crlf ++
  concat (map (fun h => h.1 ++ str ": " ++ h.2 ++ crlf) (hr_headers r)) ++
  (if has_connection then [] else str "Connection: close" ++ crlf) ++
  (if has_content_length then [] else str "Content-Length: " ++ decimal (zlen (hr_body r)) ++ crlf) ++
  crlf ++ hr_body r.

Definition websocket_server_send_handshake_response (fd : Z) (r : HandshakeResponse) (k : kernel) : bool * kernel :=
  websocket_server_send_bytes fd (handshake_response_bytes r) k.

Section Runtime.
Context {D U V : Type} `{Driver D}.
Context (getnameinfo : bytes -> option (bytes * bytes)) (sa_family : bytes -> Z) (AF_INET6 : Z).
Context (getaddrinfo : bytes -> bytes -> option (list bytes)).
Context (sha1 base64_encode : bytes -> bytes) (base64_decode_ex : bytes -> option bytes).
Context (zval_get_long : V -> Z).

Local Abbreviation W := (ST (world D U V)).
Local Abbreviation call := (call_user getnameinfo sa_family AF_INET6).

Definition get_options : W (options_zval V) := st_gets (fun w => s_options (w_server w)).
Definition now_usec : W Z := world_kernel websocket_server_now_usec.
Definition send_bytes (fd : Z) (buffer : bytes) : W bool := world_kernel (websocket_server_send_bytes fd buffer).
Definition close_fd (fd : Z) : W () := world_kernel (fun k => ((), websocket_server_close_fd fd k)).

(** [WEBSOCKET_G(driver)->watch_read(fd) != FAILURE] *)
Definition world_watch_read (fd : Z) : W bool :=
  fun w => match w_driver w with
           | None => (false, w)
           | Some d => let '(ok, (d, k)) := watch_read fd (d, w_kernel w) in
                       (ok, set_w_kernel k (set_w_driver (Some d) w))
           end.
Definition world_unwatch (fd : Z) : W () :=
  fun w => match w_driver w with
           | None => ((), w)
           | Some d => let '(d, k) := unwatch fd (d, w_kernel w) in
                       ((), set_w_kernel k (set_w_driver (Some d) w))
           end.
(** [run] has selected a driver before it waits. *)
Definition world_wait (timeout : Z) : W (Z * Z) :=
  fun w => match w_driver w with
           | None => ((-1, -1), set_w_kernel (set_errno EBADF (w_kernel w)) w)
           | Some d => let '(r, (d, k)) := wait timeout (d, w_kernel w) in
                       (r, set_w_kernel k (set_w_driver (Some d) w))
           end.

(** ** Calling the handlers

    The event names the connection concerned, whether or not the closure takes
    it as an argument. *)

(** [websocket_server_call_handler], on the handler [onClose]. *)
Definition websocket_server_call_handler (handler : option (Z -> U -> program U)) (connection : Z) : W bool :=
  match handler with
  | None => mret true
  | Some f =>
      with_reference connection (call (EvCall OnClose (Some connection) [] None) (f connection));;
      no_exception
  end.

(** The result and [*close_requested]. *)
Definition websocket_server_call_open_handler (connection : Z) (needs_connection : bool) : W (bool * bool) :=
  s ← get_server;
  match s_on_open s with
  | None => mret (true, false)
  | Some f =>
      let ev := EvCall OnOpen (Some connection) [] None in
      retval ← (if needs_connection then with_reference connection (call ev (f (Some connection)))
                else call ev (f None));
      ok ← no_exception;
      mret (ok, bool_decide (retval = Some ReturnFalse))
  end.

Definition websocket_server_create_request (up : websocket_http_upgrade) : request :=
  mk_request (up_method up) (up_target up) (websocket_http_upgrade_request_headers up).

(** [true] when the pending exception was a [HandshakeException]. *)
Definition websocket_server_handle_handshake_exception (connection : Z) : W bool :=
  e ← st_gets w_exception;
  match e with
  | Some (ExHandshake response) =>
      st_modify (set_w_exception None);;
      c ← get_connection connection;
      (match response with
       | Some r => world_kernel (websocket_server_send_handshake_response (c_fd c) r)
       | None => send_bytes (c_fd c) websocket_forbidden_response
       end);;
      mod_connection connection (set_open false);;
      mret true
  | _ => mret false
  end.

(** The result and [*accepted]. *)
Definition websocket_server_call_handshake_handler (r : request) (connection : Z) : W (bool * bool) :=
  s ← get_server;
  match s_on_handshake s with
  | None => mret (true, true)
  | Some f =>
      retval ← call (EvCall OnHandshake (Some connection) [] None) (f r);
      ok ← no_exception;
      if negb ok then
        handled ← websocket_server_handle_handshake_exception connection;
        mret (if (handled : bool) then (true, false) else (false, true))
      else if bool_decide (retval <> Some ReturnNull) then
        throw (ExServer HandshakeReturnType);; mret (false, true)
      else mret (true, true)
  end.

(** ** The listener *)

Definition websocket_server_create_listener : W Z :=
  s ← get_server;
  match getaddrinfo (default [] (s_host s)) (decimal (s_port s)) with
  | None => throw (ExServer CannotResolve);; mret (-1)
  | Some addresses =>
      listener_fd ← world_kernel (listen_loop addresses);
      (if listener_fd <? 0 then throw (ExServer CannotListen) else mret ());;
      mret listener_fd
  end.

(** ** The array of connections *)

Definition websocket_server_ensure_connection_capacity : W bool :=
  s ← get_server;
  if zlen (s_connections s) <? s_connection_capacity s then mret true else
  mod_server (set_connection_capacity
    (if s_connection_capacity s =? 0 then 8 else s_connection_capacity s * 2));;
  mret true.

Definition websocket_server_close_connection_at (index : nat) (notify : bool) : W bool :=
  s ← get_server;
  match s_connections s !! index with
  | None => mret true
  | Some connection =>
    mod_server (set_connections (delete index (s_connections s)));;
    mod_connection connection (set_open false);;
    c ← get_connection connection;
    (if 0 <=? c_fd c then world_unwatch (c_fd c) else mret ());;
    ok ← (if notify && c_upgraded c && negb (c_close_notified c) && bool_decide (s_on_close s <> None) then
            mod_connection connection (set_close_notified true);;
            websocket_server_call_handler (s_on_close s) connection
          else mret true);
    on_conn connection websocket_connection_close_socket;;
    release_connection connection;;
    mret ok
  end.

Fixpoint purge_loop (fuel : nat) (i : nat) : W bool :=
  match fuel with
  | O => mret true
  | S fuel =>
    s ← get_server;
    match s_connections s !! i with
    | None => mret true
    | Some connection =>
      c ← get_connection connection;
      if negb (c_open c) then
        ok ← websocket_server_close_connection_at i true;
        if negb ok then mret false else purge_loop fuel i
      else purge_loop fuel (S i)
    end
  end.

Definition websocket_server_purge_closed_connections : W bool :=
  s ← get_server; purge_loop (S (length (s_connections s))) 0.

Fixpoint close_all_loop (fuel : nat) (notify : bool) : W bool :=
  match fuel with
  | O => mret true
  | S fuel =>
    s ← get_server;
    if 0 <? zlen (s_connections s) then
      ok ← websocket_server_close_connection_at (pred (length (s_connections s))) notify;
      if negb ok then mret false else close_all_loop fuel notify
    else mret true
  end.

Definition websocket_server_close_all_connections (notify : bool) : W bool :=
  s ← get_server; close_all_loop (S (length (s_connections s))) notify.

Definition websocket_server_notify_connection_closed (connection : Z) : W bool :=
  s ← get_server;
  c ← get_connection connection;
  if negb (c_upgraded c) || c_close_notified c || bool_decide (s_on_close s = None) then mret true else
  mod_connection connection (set_close_notified true);;
  websocket_server_call_handler (s_on_close s) connection.
(** ** Timeouts *)

Definition websocket_server_connection_expired (options : options_zval V) (c : websocket_connection_object)
    (now : Z) : bool :=
  if now =? 0 then false else
  let last_activity := if c_last_activity_usec c =? 0 then c_accepted_at_usec c else c_last_activity_usec c in
  if (last_activity =? 0) || (now <? last_activity) then false else
  let timeout := if negb (c_upgraded c) then websocket_server_handshake_timeout_usec zval_get_long options
                 else websocket_server_idle_timeout_usec zval_get_long options in
  (0 <? timeout) && (timeout <=? now - last_activity).

(** [websocket_server_close_with_code]; it always returns [true]. *)
Definition websocket_server_close_with_code (connection : Z) (code : Z) (reason : bytes) : W bool :=
  ok ← on_conn connection (websocket_connection_send_close_frame code reason);
  (if (ok : bool) then on_conn connection websocket_connection_close_after_write
   else on_conn connection websocket_connection_close_socket);;
  mret true.

Definition websocket_server_close_expired_connection (connection : Z) : W () :=
  c ← get_connection connection;
  if c_upgraded c then
    websocket_server_close_with_code connection WEBSOCKET_CLOSE_NORMAL (str "idle timeout");; mret ()
  else on_conn connection websocket_connection_close_socket.

Definition websocket_server_process_heartbeat (connection : Z) (now : Z) : W bool :=
  options ← get_options;
  c ← get_connection connection;
  let ping_interval := websocket_server_ping_interval_usec zval_get_long options in
  let last_activity := if c_last_activity_usec c =? 0 then c_accepted_at_usec c else c_last_activity_usec c in
  if (ping_interval =? 0) || (now =? 0) || negb (c_open c) || negb (c_upgraded c) || c_close_after_write c
  then mret true else
  if c_awaiting_pong c then
    let pong_timeout := websocket_server_pong_timeout_usec zval_get_long options in
    if (0 <? c_last_ping_usec c) && (c_last_ping_usec c <=? now) && (pong_timeout <=? now - c_last_ping_usec c)
    then websocket_server_close_with_code connection WEBSOCKET_CLOSE_NORMAL (str "pong timeout")
    else mret true
  else
  if (last_activity =? 0) || (now <? last_activity) || (now - last_activity <? ping_interval) then mret true else
  ok ← on_conn connection (websocket_connection_send_frame [] WEBSOCKET_OPCODE_PING);
  if negb ok then websocket_server_close_with_code connection WEBSOCKET_CLOSE_NORMAL (str "heartbeat failed") else
  mod_connection connection (fun c => set_last_ping_usec now (set_awaiting_pong true c));;
  mret true.

(** ** Frames *)

Definition websocket_server_call_message_handler (connection : Z) (payload : bytes) (opcode : Z) : W bool :=
  s ← get_server;
  match s_on_message s with
  | None => mret true
  | Some f =>
    match websocket_protocol_message_type_from_opcode opcode with
    | None => mret true
    | Some type =>
        with_reference connection
          (call (EvCall OnMessage (Some connection) payload (Some type)) (f connection payload type));;
        no_exception
    end
  end.

Definition websocket_server_handle_data_frame (connection : Z) (frame : websocket_server_frame) : W bool :=
  options ← get_options;
  let max_message_size := websocket_server_max_message_size zval_get_long options in
  c ← get_connection connection;
  if sf_opcode frame =? WEBSOCKET_OPCODE_CONTINUATION then
    if negb (c_fragmented c) then
      websocket_server_close_with_code connection WEBSOCKET_CLOSE_PROTOCOL_ERROR (str "protocol error")
    else
    match websocket_server_append_fragment (sf_payload frame) max_message_size c with
    | None =>
        mod_connection connection websocket_server_clear_fragment;;
        websocket_server_close_with_code connection WEBSOCKET_CLOSE_MESSAGE_TOO_BIG (str "message too big")
    | Some payload =>
      mod_connection connection (set_fragmented_payload (Some payload));;
      if negb (sf_final frame) then mret true else
      if (c_fragmented_opcode c =? WEBSOCKET_OPCODE_TEXT) && negb (websocket_protocol_is_valid_utf8 payload) then
        mod_connection connection websocket_server_clear_fragment;;
        websocket_server_close_with_code connection WEBSOCKET_CLOSE_INVALID_PAYLOAD (str "invalid utf-8")
      else
      ok ← websocket_server_call_message_handler connection payload (c_fragmented_opcode c);
      mod_connection connection websocket_server_clear_fragment;;
      mret ok
    end
  else if c_fragmented c then
    mod_connection connection websocket_server_clear_fragment;;
    websocket_server_close_with_code connection WEBSOCKET_CLOSE_PROTOCOL_ERROR (str "protocol error")
  else if sf_final frame then
    if (sf_opcode frame =? WEBSOCKET_OPCODE_TEXT) && negb (websocket_protocol_is_valid_utf8 (sf_payload frame)) then
      websocket_server_close_with_code connection WEBSOCKET_CLOSE_INVALID_PAYLOAD (str "invalid utf-8")
    else websocket_server_call_message_handler connection (sf_payload frame) (sf_opcode frame)
  else
    mod_connection connection (fun c => set_fragmented_payload (Some (sf_payload frame))
      (set_fragmented_opcode (sf_opcode frame) (set_fragmented true c)));;
    mret true.

Definition websocket_server_handle_frame (connection : Z) (frame : websocket_server_frame) : W bool :=
  let opcode := sf_opcode frame in
  ok ← (if (opcode =? WEBSOCKET_OPCODE_TEXT) || (opcode =? WEBSOCKET_OPCODE_BINARY)
           || (opcode =? WEBSOCKET_OPCODE_CONTINUATION)
        then websocket_server_handle_data_frame connection frame
        else if opcode =? WEBSOCKET_OPCODE_PING
        then on_conn connection (websocket_connection_send_frame (sf_payload frame) WEBSOCKET_OPCODE_PONG)
        else if opcode =? WEBSOCKET_OPCODE_PONG
        then mod_connection connection (fun c => set_last_ping_usec 0 (set_awaiting_pong false c));; mret true
        else if opcode =? WEBSOCKET_OPCODE_CLOSE
        then
          c ← get_connection connection;
          ok ← (if c_open c && c_upgraded c
                then on_conn connection (websocket_connection_send_frame (sf_payload frame) WEBSOCKET_OPCODE_CLOSE)
                else mret true);
          mod_connection connection websocket_server_clear_fragment;;
          (if (ok : bool) then on_conn connection websocket_connection_close_after_write
           else on_conn connection websocket_connection_close_socket);;
          mret true
        else websocket_server_close_with_code connection WEBSOCKET_CLOSE_PROTOCOL_ERROR (str "protocol error"));
  e ← no_exception;
  mret (ok && e).

(** A rejected frame: the message under way is dropped and the connection closed. *)
Definition refuse_frame (connection code : Z) (reason : bytes) : W bool :=
  mod_connection connection websocket_server_clear_fragment;;
  websocket_server_close_with_code connection code reason;;
  mret true.

Fixpoint buffered_frames_loop (fuel : nat) (connection max_message_size : Z) : W bool :=
  match fuel with
  | O => mret true
  | S fuel =>
    c ← get_connection connection;
    if negb (c_open c && negb (c_close_after_write c) && c_upgraded c && (0 <? zlen (c_read_buffer c)))
    then mret true else
    match websocket_server_parse_frame (c_read_buffer c) max_message_size with
    | FRAME_INCOMPLETE => mret true
    | FRAME_MESSAGE_TOO_BIG => refuse_frame connection WEBSOCKET_CLOSE_MESSAGE_TOO_BIG (str "message too big")
    | FRAME_INVALID_PAYLOAD => refuse_frame connection WEBSOCKET_CLOSE_INVALID_PAYLOAD (str "invalid utf-8")
    | FRAME_PROTOCOL_ERROR => refuse_frame connection WEBSOCKET_CLOSE_PROTOCOL_ERROR (str "protocol error")
    | FRAME_OK frame =>
      mod_connection connection (websocket_connection_discard_read_bytes (sf_bytes_consumed frame));;
      ok ← websocket_server_handle_frame connection frame;
      if negb ok then mret false else buffered_frames_loop fuel connection max_message_size
    end
  end.

Definition websocket_server_process_buffered_frames (connection : Z) : W bool :=
  options ← get_options;
  c ← get_connection connection;
  buffered_frames_loop (S (length (c_read_buffer c))) connection
    (websocket_server_max_message_size zval_get_long options).

(** ** The handshake *)

Definition websocket_server_finish_upgrade (connection : Z) (accept_key : bytes) (selected_subprotocol : option bytes)
    (bytes_consumed : Z) : W bool :=
  s ← get_server;
  let needs_connection := bool_decide (s_on_open s = None) || (0 <? s_on_open_param_count s) in
  c ← get_connection connection;
  ok ← send_bytes (c_fd c) (websocket_http_upgrade_response accept_key selected_subprotocol);
  if negb ok then mod_connection connection (set_open false);; mret true else
  mod_connection connection (fun c => websocket_connection_discard_read_bytes bytes_consumed
    (set_upgraded true (set_selected_subprotocol selected_subprotocol c)));;
  r ← (if needs_connection then
         mod_connection connection (set_defer_close true);;
         r ← websocket_server_call_open_handler connection true;
         mod_connection connection (set_defer_close false);;
         mret r
       else websocket_server_call_open_handler connection false);
  let '(ok, close_requested) := r in
  if negb ok then mod_connection connection (set_open false);; mret false else
  (if (close_requested : bool) then mod_connection connection (set_open false) else mret ());;
  c ← get_connection connection;
  if negb (c_open c) then websocket_server_notify_connection_closed connection
  else websocket_server_process_buffered_frames connection.

(** What [websocket_server_process_handshake] does with a complete request. *)
Definition handshake_request (connection : Z) (parsed : websocket_http_upgrade) : W bool :=
  s ← get_server;
  r ← (if bool_decide (s_on_handshake s <> None)
       then websocket_server_call_handshake_handler (websocket_server_create_request parsed) connection
       else mret (true, true));
  let '(ok, accepted) := r in
  if negb ok then mret false else
  if negb accepted then mret true else
  websocket_server_finish_upgrade connection (default [] (up_accept_key parsed))
    (up_selected_subprotocol parsed) (up_bytes_consumed parsed).

(** A request that is refused with 400. *)
Definition bad_request (connection : Z) : W bool :=
  c ← get_connection connection;
  send_bytes (c_fd c) websocket_bad_request_response;;
  mod_connection connection (set_open false);;
  mret true.

Fixpoint handshake_loop (fuel : nat) (connection : Z) : W bool :=
  match fuel with
  | O => mret true
  | S fuel =>
    c ← get_connection connection;
    if negb (c_open c && negb (c_upgraded c)) then mret true else
    chunk ← world_kernel (sys_recv WEBSOCKET_READ_CHUNK_SIZE);
    match chunk with
    | Some [] => mod_connection connection (set_open false);; mret true
    | Some chunk =>
      now ← now_usec;
      mod_connection connection (set_last_activity_usec now);;
      c ← get_connection connection;
      match websocket_connection_ensure_read_capacity (zlen chunk) WEBSOCKET_HTTP_MAX_REQUEST_SIZE c with
      | None => bad_request connection
      | Some capacity =>
        mod_connection connection (append_read_bytes capacity chunk);;
        c ← get_connection connection;
        s ← get_server;
        let '(result, parsed) := websocket_http_parse_upgrade sha1 base64_encode base64_decode_ex
          (s_subprotocols s) (c_read_buffer c) in
        match result with
        | UPGRADE_INCOMPLETE => handshake_loop fuel connection
        | UPGRADE_INVALID => bad_request connection
        | UPGRADE_OK => handshake_request connection parsed
        end
      end
    | None =>
      e ← world_errno;
      if e =? EINTR then handshake_loop fuel connection else
      if (e =? EAGAIN) || (e =? EWOULDBLOCK) then mret true else
      mod_connection connection (set_open false);; mret true
    end
  end.

Definition websocket_server_process_handshake (connection : Z) : W bool :=
  fuel ← st_gets (fun w => S (length (k_answers (w_kernel w)))); handshake_loop fuel connection.

(** ** Reading frames *)

Definition read_limit (max_message_size : Z) : Z :=
  if SIZE_MAX - WEBSOCKET_READ_CHUNK_SIZE - 14 <? max_message_size then SIZE_MAX
  else max_message_size + WEBSOCKET_READ_CHUNK_SIZE + 14.

Fixpoint frame_reads_loop (fuel : nat) (connection limit : Z) : W bool :=
  match fuel with
  | O => mret true
  | S fuel =>
    c ← get_connection connection;
    if negb (c_open c && negb (c_close_after_write c) && c_upgraded c) then mret true else
    chunk ← world_kernel (sys_recv WEBSOCKET_READ_CHUNK_SIZE);
    match chunk with
    | Some [] => mod_connection connection (set_open false);; mret true
    | Some chunk =>
      now ← now_usec;
      mod_connection connection (set_last_activity_usec now);;
      c ← get_connection connection;
      match websocket_connection_ensure_read_capacity (zlen chunk) limit c with
      | None =>
          websocket_server_close_with_code connection WEBSOCKET_CLOSE_MESSAGE_TOO_BIG (str "message too big");;
          mret true
      | Some capacity =>
        mod_connection connection (append_read_bytes capacity chunk);;
        ok ← websocket_server_process_buffered_frames connection;
        if negb ok then mret false else frame_reads_loop fuel connection limit
      end
    | None =>
      e ← world_errno;
      if e =? EINTR then frame_reads_loop fuel connection limit else
      if (e =? EAGAIN) || (e =? EWOULDBLOCK) then websocket_server_process_buffered_frames connection else
      mod_connection connection (set_open false);; mret true
    end
  end.

Definition websocket_server_process_frame_reads (connection : Z) : W bool :=
  options ← get_options;
  fuel ← st_gets (fun w => S (length (k_answers (w_kernel w))));
  frame_reads_loop fuel connection (read_limit (websocket_server_max_message_size zval_get_long options)).

(** ** Accepting *)

Definition websocket_server_create_connection_zval : W Z :=
  s ← get_server;
  match s_reusable_connection s with
  | Some connection => mod_server (set_reusable_connection None);; mret connection
  | None =>
      h ← st_gets w_objects;
      st_modify (fun w => set_w_objects (h + 1) (set_w_heap (<[h := websocket_connection_create_object]> (w_heap w)) w));;
      mret h
  end.

(** [WEBSOCKET_G(next_connection_id)++] *)
Definition next_connection_id : W Z :=
  id ← st_gets w_next_connection_id;
  st_modify (set_w_next_connection_id (u64 (id + 1)));; mret id.

Definition websocket_server_accept_connection : W bool :=
  s ← get_server;
  a ← world_kernel sys_open;
  match a with
  | AErr _ => mret false
  | AOk client_fd remote_addr =>
    if client_fd <? 0 then mret false else
    world_kernel (fun k => ((), set_errno 0 k));;
    if websocket_server_max_connections zval_get_long (s_options s) <=? zlen (s_connections s) then
      send_bytes client_fd websocket_service_unavailable_response;;
      close_fd client_fd;; mret true
    else
    ok ← world_kernel websocket_server_set_nonblocking;
    if negb ok then close_fd client_fd;; throw (ExServer CannotNonblock);; mret false else
    connection ← websocket_server_create_connection_zval;
    id ← next_connection_id;
    on_conn connection (websocket_connection_open id (Some remote_addr) client_fd);;
    now ← now_usec;
    mod_connection connection (fun c =>
      set_max_queued_bytes (websocket_server_max_queued_bytes zval_get_long (s_options s))
        (set_last_activity_usec now (set_accepted_at_usec now c)));;
    ok ← websocket_server_ensure_connection_capacity;
    if negb ok then
      on_conn connection websocket_connection_close_socket;;
      release_connection connection;; mret false
    else
    ok ← world_watch_read client_fd;
    if negb ok then
      on_conn connection websocket_connection_close_socket;;
      release_connection connection;;
      throw (ExServer CannotWatchConnection);; mret false
    else
    mod_server (fun s => set_connections (s_connections s ++ [connection]) s);;
    mret true
  end.

Fixpoint accept_loop (fuel : nat) (accepted : Z) : W bool :=
  match fuel with
  | O => mret true
  | S fuel =>
    s ← get_server;
    stopped ← st_gets w_stopped;
    if negb (s_running s && negb stopped && (accepted <? WEBSOCKET_ACCEPT_BATCH_LIMIT)) then mret true else
    ok ← websocket_server_accept_connection;
    if negb ok then
      no_e ← no_exception;
      if negb no_e then mret false else
      e ← world_errno;
      if (e =? EAGAIN) || (e =? EWOULDBLOCK) then mret true else
      if e =? EINTR then accept_loop fuel accepted else no_exception
    else accept_loop fuel (accepted + 1)
  end.

Definition websocket_server_accept_pending : W bool :=
  fuel ← st_gets (fun w => S (length (k_answers (w_kernel w)))); accept_loop fuel 0.

(** ** One round over the connections *)

(** The part both rounds share: timeouts, the heartbeat and pending writes.
    [None]: go on with reading; [Some b]: the round is over for the connection,
    [b] being [false] for a return of [false]. *)
Definition service_connection (connection now : Z) : W (option bool) :=
  options ← get_options;
  c ← get_connection connection;
  if negb (c_open c) then mret (Some true) else
  if websocket_server_connection_expired options c now then
    websocket_server_close_expired_connection connection;; mret (Some true)
  else
  ok ← websocket_server_process_heartbeat connection now;
  if negb ok then mret (Some false) else
  pending ← on_conn connection websocket_connection_has_pending_writes;
  flushed ← (if (pending : bool) then on_conn connection websocket_connection_flush else mret true);
  if negb flushed then mret (Some true) else
  c ← get_connection connection;
  if negb (c_open c) || c_close_after_write c then mret (Some true) else mret None.

Fixpoint find_connection (fd : Z) (l : list Z) (w : world D U V) : option Z :=
  match l with
  | [] => None
  | connection :: l => if c_fd (conn_of connection w) =? fd then Some connection else find_connection fd l w
  end.

Definition websocket_server_process_connection_fd (fd : Z) : W bool :=
  now ← now_usec;
  s ← get_server;
  found ← st_gets (find_connection fd (s_connections s));
  match found with
  | None => mret true
  | Some connection =>
    r ← service_connection connection now;
    match r with
    | Some ok => mret ok
    | None =>
      c ← get_connection connection;
      if negb (c_upgraded c) then websocket_server_process_handshake connection
      else websocket_server_process_frame_reads connection
    end
  end.

(** No step of the loop changes the array, so it runs over its entries. *)
Fixpoint process_connections_loop (l : list Z) (now : Z) : W bool :=
  match l with
  | [] => mret true
  | connection :: l =>
    r ← service_connection connection now;
    match r with
    | Some false => mret false
    | Some true => process_connections_loop l now
    | None =>
      c ← get_connection connection;
      ok ← (if negb (c_upgraded c) then websocket_server_process_handshake connection else mret true);
      if negb ok then mret false else
      c ← get_connection connection;
      ok ← (if c_upgraded c && (0 <? zlen (c_read_buffer c))
            then websocket_server_process_buffered_frames connection else mret true);
      if negb ok then mret false else process_connections_loop l now
    end
  end.

Definition websocket_server_process_connections : W bool :=
  now ← now_usec;
  s ← get_server;
  process_connections_loop (s_connections s) now.

(** ** Running *)

Definition websocket_server_runtime_close (notify : bool) : W () :=
  s ← get_server;
  (if 0 <=? s_listener_fd s then
     world_unwatch (s_listener_fd s);;
     close_fd (s_listener_fd s);;
     mod_server (set_listener_fd (-1))
   else mret ());;
  ok ← websocket_server_close_all_connections notify;
  if negb ok then websocket_server_close_all_connections false;; mret () else mret ().

Definition websocket_server_runtime_free : W () :=
  websocket_server_runtime_close false;;
  s ← get_server;
  match s_reusable_connection s with
  | Some connection => release_connection connection;; mod_server (set_reusable_connection None)
  | None => mret ()
  end;;
  mod_server (fun s => set_connection_capacity 0 (set_connections [] s)).

Fixpoint run_loop (fuel : nat) : W () :=
  match fuel with
  | O => mret ()
  | S fuel =>
    s ← get_server;
    stopped ← st_gets w_stopped;
    if negb (s_running s && negb stopped) then mret () else
    r ← world_wait WEBSOCKET_LOOP_TIMEOUT_USEC;
    let '(ready, ready_fd) := r in
    if ready <? 0 then
      e ← world_errno;
      if e =? EINTR then run_loop fuel else throw (ExServer LoopFailed)
    else
    s ← get_server;
    ok ← (if (0 <? ready) && (ready_fd =? s_listener_fd s) then websocket_server_accept_pending
          else if (0 <? ready) && (0 <=? ready_fd) then websocket_server_process_connection_fd ready_fd
          else mret true);
    if negb ok then mret () else
    ok ← websocket_server_process_connections;
    if negb ok then mret () else
    ok ← websocket_server_purge_closed_connections;
    if negb ok then mret () else run_loop fuel
  end.

Definition websocket_server_runtime_run : W bool :=
  listener_fd ← websocket_server_create_listener;
  mod_server (set_listener_fd listener_fd);;
  if listener_fd <? 0 then mret false else
  ok ← world_watch_read listener_fd;
  if negb ok then
    throw (ExServer CannotWatchListener);;
    websocket_server_runtime_close false;; mret false
  else
  fuel ← st_gets (fun w => S (length (k_answers (w_kernel w))));
  run_loop fuel;;
  no_e ← no_exception;
  websocket_server_runtime_close no_e;;
  no_exception.
End Runtime.
