(* ===== verification/RuntimeFacts.v ===== *)
(** * What every step of the server respects

    Relations between the state before and after a step, each a preorder: what a
    function of [websocket_connection.c] may do to a connection ([cs_step]), what
    PHP code may do to the world ([user_step]), and what the handling of one
    connection may do ([proc_step]).  Each function is shown to respect them, one
    lemma per function, collected in the database [pres]. *)
From stdpp Require Import gmap.
From S2P Require Import Prelude Constants Utf8 Protocol Http Kernel Driver ConnState Connection ConnectionFacts.
From S2P Require Import Options Frames World Runtime.

(** ** The handler calls of a connection *)

(** The handlers called for [h], newest first. *)
Fixpoint calls (h : Z) (t : list event) : list handler :=
  match t with
  | [] => []
  | EvCall a (Some h') _ _ :: t => if h =? h' then a :: calls h t else calls h t
  | _ :: t => calls h t
  end.

(** A step of the kernel that calls no handler. *)
Definition quiet (k k' : kernel) : Prop :=
  (forall h, calls h (k_trace k') = calls h (k_trace k)) /\ answers_left k k'.

#[export] Instance quiet_preorder : PreOrder quiet.
Proof.
  split.
  - intros k. by split.
  - intros k1 k2 k3 [A1 A2] [B1 B2]. split; [intros h; by rewrite B1|by transitivity k2].
Qed.

Lemma driver_step_quiet k k' : driver_step k k' -> quiet k k'.
Proof. intros (E & _ & A). split; [intros h; by rewrite E|done]. Qed.

Lemma syscall_quiet k : quiet k (syscall k).2.
Proof. apply driver_step_quiet, syscall_step. Qed.

Lemma sys_open_quiet k : quiet k (sys_open k).2.
Proof.
  unfold sys_open. pose proof (syscall_quiet k) as Q. destruct (syscall k) as [[fd d|e] k1]; [|done].
  cbn [snd] in *. destruct (0 <=? fd); [|done]. exact Q.
Qed.

Lemma sys_send_quiet fd data k : quiet k (sys_send fd data k).2.
Proof.
  unfold sys_send. pose proof (syscall_quiet k) as Q. destruct (syscall k) as [[n d|e] k1]; cbn in *; [|done].
  destruct (0 <? _); [|done]. exact Q.
Qed.

Lemma write_some_quiet fuel fd frame o w k : quiet k (write_some_loop fuel fd frame o w k).2.
Proof.
  revert o w k. induction fuel as [|fuel IH]; intros o w k; cbn [write_some_loop]; [done|].
  destruct (negb _); [done|]. pose proof (sys_send_quiet fd (zdrop o frame) k) as Q.
  destruct (sys_send _ _ _) as [n k1]; cbn in Q.
  repeat case_match; cbn; try done; etransitivity; try exact Q; apply IH.
Qed.

Lemma close_retry_quiet fd k : quiet k (close_retry fd k).
Proof.
  destruct (close_retry_facts fd k) as (E & _ & A). split; [|done]. intros h. by rewrite E.
Qed.

Lemma now_usec_quiet k : quiet k (websocket_server_now_usec k).2.
Proof.
  unfold websocket_server_now_usec. destruct (k_clock k); [reflexivity|].
  split; [done|]. unfold answers_left. reflexivity.
Qed.

Lemma sys_recv_quiet n k : quiet k (sys_recv n k).2.
Proof. unfold sys_recv. pose proof (syscall_quiet k) as Q. by destruct (syscall k) as [[]]. Qed.

Lemma set_errno_quiet e k : quiet k (set_errno e k).
Proof. apply driver_step_quiet, driver_step_errno. Qed.

Lemma close_fd_quiet fd k : quiet k (websocket_server_close_fd fd k).
Proof. unfold websocket_server_close_fd. case_match; [apply close_retry_quiet|done]. Qed.

Lemma set_nonblocking_quiet k : quiet k (websocket_server_set_nonblocking k).2.
Proof.
  unfold websocket_server_set_nonblocking. pose proof (syscall_quiet k) as Q1.
  destruct (syscall k) as [[n d|e] k1]; cbn in *; [|done].
  pose proof (syscall_quiet k1) as Q2. destruct (syscall k1) as [[n2 d2|e2] k2]; cbn in *; by etransitivity.
Qed.

Lemma send_bytes_quiet fd buffer k : quiet k (websocket_server_send_bytes fd buffer k).2.
Proof.
  unfold websocket_server_send_bytes. generalize (S (length (k_answers k))) as fuel, 0 as o. intros fuel o.
  revert o k. induction fuel as [|fuel IH]; intros o k; cbn [send_bytes_loop]; [done|].
  destruct (negb _); [done|]. pose proof (sys_send_quiet fd (zdrop o buffer) k) as Q.
  destruct (sys_send _ _ _) as [n k1]; cbn in Q.
  repeat case_match; cbn; try done; etransitivity; try exact Q; apply IH.
Qed.

(** ** Connections *)

(** What the functions of [websocket_connection.c], [open] aside, may do to a
    connection. *)
Record conn_step (c c' : websocket_connection_object) : Prop := {
  cst_upgraded : c_upgraded c' = c_upgraded c;
  cst_notified : c_close_notified c' = c_close_notified c;
  cst_open : c_open c' = true -> c_open c = true;
  cst_fd : c_fd c' = c_fd c \/ c_fd c' < 0;
  cst_read : c_read_buffer c' = c_read_buffer c \/ c_read_buffer c' = [];
  cst_fragment : c_fragmented_payload c' = c_fragmented_payload c \/ c_fragmented_payload c' = None;
  cst_capacity : c_read_buffer_capacity c' = c_read_buffer_capacity c \/
                 (c_read_buffer_capacity c' = 0 /\ c_read_buffer c' = [])
}.

#[export] Instance conn_step_preorder : PreOrder conn_step.
Proof.
  split.
  - intros c. by constructor; auto.
  - intros c1 c2 c3 [] []. constructor; try congruence; try tauto.
    + destruct cst_fd0, cst_fd1; lia.
    + destruct cst_read0, cst_read1; (left; congruence) || (right; congruence).
    + destruct cst_fragment0, cst_fragment1; (left; congruence) || (right; congruence).
    + destruct cst_capacity0 as [|[]], cst_capacity1 as [|[]], cst_read1; intuition congruence.
Qed.

Section ConnSteps.
Context {D : Type} `{HD : Driver D} `{!DriverLaws D}.
Context (getnameinfo : bytes -> option (bytes * bytes)) (sa_family : bytes -> Z) (AF_INET6 : Z).

Definition cs_step (s s' : cstate D) : Prop :=
  driver_ok (cs_driver s) ->
  (conn_step (cs_conn s) (cs_conn s') /\ c_refcount (cs_conn s') = c_refcount (cs_conn s)) /\
  driver_ok (cs_driver s') /\ quiet (cs_kernel s) (cs_kernel s').

#[export] Instance cs_step_preorder : PreOrder cs_step.
Proof.
  split.
  - intros s Hd. by split_and!.
  - intros s1 s2 s3 A B Hd. destruct (A Hd) as (A1 & A2 & A3). destruct (B A2) as (B1 & B2 & B3).
    destruct A1, B1. split_and!; [by etransitivity|congruence|done|by etransitivity].
Qed.

Lemma mod_conn_step f : (forall c, conn_step c (f c) /\ c_refcount (f c) = c_refcount c) -> relates cs_step (mod_conn (D := D) f).
Proof. intros Hf s Hd. by split; [apply Hf|]. Qed.

Lemma on_kernel_step {A} (f : kernel -> A * kernel) : (forall k, quiet k (f k).2) -> relates cs_step (on_kernel (D := D) f).
Proof.
  intros Hf [c d k] Hd. unfold on_kernel. cbn. specialize (Hf k). destruct (f k); cbn in *. by split_and!.
Qed.

Lemma mod_kernel_step f : (forall k, quiet k (f k)) -> relates cs_step (mod_kernel (D := D) f).
Proof. intros Hf [c d k] Hd. by split_and!; [| | |apply Hf]. Qed.

Lemma driver_unwatch_write_step fd : relates cs_step (driver_do (D := D) unwatch_write fd).
Proof.
  intros [c [d|] k] Hd; unfold driver_do; cbn [cs_driver cs_kernel cs_conn] in *; [|by split_and!].
  pose proof (unwatch_write_law fd d k Hd) as L. destruct (unwatch_write _ _) as [d' k']; cbn.
  destruct L as (? & ? & _). split_and!; [done|done|done|by apply driver_step_quiet].
Qed.

Lemma driver_unwatch_step fd : relates cs_step (driver_do (D := D) unwatch fd).
Proof.
  intros [c [d|] k] Hd; unfold driver_do; cbn [cs_driver cs_kernel cs_conn] in *; [|by split_and!].
  pose proof (unwatch_law fd d k Hd) as L. destruct (unwatch _ _) as [d' k']; cbn.
  destruct L as (? & ? & _). split_and!; [done|done|done|by apply driver_step_quiet].
Qed.

Lemma driver_watch_write_step fd : relates cs_step (driver_watch_write (D := D) fd).
Proof.
  intros [c [d|] k] Hd; unfold driver_watch_write; cbn [cs_driver cs_kernel cs_conn] in *; [|by split_and!].
  pose proof (watch_write_law fd d k Hd) as L. destruct (watch_write _ _) as [ok [d' k']]; cbn.
  destruct L as (? & ? & _). split_and!; [done|done|done|by apply driver_step_quiet].
Qed.

#[local] Hint Extern 2 (relates cs_step (mod_conn _)) =>
  apply mod_conn_step; intros []; split; [constructor; cbn; solve [auto | lia | congruence]|reflexivity] : pres.
#[local] Hint Extern 2 (relates cs_step (on_kernel _)) => apply on_kernel_step; intros ? : pres.
#[local] Hint Extern 2 (relates cs_step (mod_kernel _)) => apply mod_kernel_step; intros ? : pres.
#[local] Hint Resolve driver_unwatch_write_step driver_unwatch_step driver_watch_write_step
  syscall_quiet close_retry_quiet set_errno_quiet : pres.
#[local] Hint Extern 3 (relates _ get_conn) => apply relates_gets; apply _ : pres.
#[local] Hint Extern 3 (relates _ get_errno) => apply relates_gets; apply _ : pres.
#[local] Hint Extern 3 (quiet _ (websocket_connection_write_some _ _ _ _).2) => apply write_some_quiet : pres.

Lemma cache_address_step : relates cs_step (websocket_connection_cache_remote_address (D := D)).
Proof. unfold websocket_connection_cache_remote_address. pres. Qed.
#[local] Hint Resolve cache_address_step : pres.

Lemma read_property_step p :
  relates cs_step (websocket_connection_read_property (D := D) getnameinfo sa_family AF_INET6 p).
Proof.
  unfold websocket_connection_read_property, websocket_connection_make_id, websocket_connection_make_remote_address.
  pres.
Qed.

Lemma clear_queue_step : relates cs_step (websocket_connection_clear_write_queue (D := D)).
Proof. unfold websocket_connection_clear_write_queue. pres. Qed.
#[local] Hint Resolve clear_queue_step : pres.

Lemma close_socket_step : relates cs_step (websocket_connection_close_socket (D := D)).
Proof. unfold websocket_connection_close_socket. pres. Qed.
#[local] Hint Resolve close_socket_step : pres.

Lemma queue_frame_step frame o : relates cs_step (websocket_connection_queue_frame (D := D) frame o).
Proof. unfold websocket_connection_queue_frame, websocket_connection_ensure_write_capacity. pres. Qed.
#[local] Hint Resolve queue_frame_step : pres.

Lemma flush_loop_step fuel : relates cs_step (flush_loop (D := D) fuel).
Proof. induction fuel; cbn [flush_loop]; pres. Qed.
#[local] Hint Resolve flush_loop_step : pres.

Lemma flush_step : relates cs_step (websocket_connection_flush (D := D)).
Proof. unfold websocket_connection_flush. pres. Qed.

Lemma has_pending_step : relates cs_step (websocket_connection_has_pending_writes (D := D)).
Proof. unfold websocket_connection_has_pending_writes. pres. Qed.
#[local] Hint Resolve has_pending_step : pres.

Lemma close_after_write_step : relates cs_step (websocket_connection_close_after_write (D := D)).
Proof. unfold websocket_connection_close_after_write. pres. Qed.

Lemma send_frame_step p op : relates cs_step (websocket_connection_send_frame (D := D) p op).
Proof. unfold websocket_connection_send_frame. pres. Qed.
#[local] Hint Resolve send_frame_step close_after_write_step : pres.

Lemma send_close_frame_step code reason :
  relates cs_step (websocket_connection_send_close_frame (D := D) code reason).
Proof. unfold websocket_connection_send_close_frame. pres. Qed.
#[local] Hint Resolve send_close_frame_step : pres.

Lemma Connection_send_step p t : relates cs_step (Connection_send (D := D) p t).
Proof. unfold Connection_send. pres. Qed.

Lemma Connection_close_step code reason : relates cs_step (Connection_close (D := D) code reason).
Proof. unfold Connection_close. pres. Qed.

Lemma Connection_isOpen_step : relates cs_step (Connection_isOpen (D := D)).
Proof. unfold Connection_isOpen. pres. Qed.

Lemma free_object_step : relates cs_step (websocket_connection_free_object (D := D)).
Proof. unfold websocket_connection_free_object. pres. Qed.
End ConnSteps.

#[export] Hint Resolve read_property_step close_socket_step flush_step has_pending_step close_after_write_step
  send_frame_step send_close_frame_step Connection_send_step Connection_close_step Connection_isOpen_step
  free_object_step : pres.
