(* ===== verification/WorldFacts.v ===== *)
(** * What the steps of the server do to the world

    [user_step]: what PHP code and the functions of [websocket_connection.c] may
    do.  [proc_step]: what the handling of one connection may do.  Both say that
    the array of connections and the configuration stay, that sockets are only
    given up, and that the kernel's answers are only consumed. *)
From stdpp Require Import gmap.
From S2P Require Import Prelude Constants Utf8 Protocol Http Kernel Driver ConnState Connection.
From S2P Require Import Options Frames World Runtime RuntimeFacts.

(** A connection object that was freed, or never used. *)
Record dead (c : websocket_connection_object) : Prop := {
  dead_open : c_open c = false;
  dead_upgraded : c_upgraded c = false;
  dead_fd : c_fd c < 0;
  dead_read : c_read_buffer c = [];
  dead_fragment : c_fragmented_payload c = None;
  dead_capacity : c_read_buffer_capacity c = 0
}.

Definition obj_step (c c' : websocket_connection_object) : Prop := conn_step c c' \/ dead c'.

Lemma dead_step c c' : dead c -> conn_step c c' -> dead c'.
Proof.
  intros [] []. constructor; try congruence; [|lia|..].
  - destruct (c_open c'); [|done]. rewrite cst_open in dead_open0 by done. done.
  - destruct cst_read; congruence.
  - destruct cst_fragment; congruence.
  - destruct cst_capacity as [|[]]; congruence.
Qed.

#[export] Instance obj_step_preorder : PreOrder obj_step.
Proof.
  split; [intros c; by left|]. intros c1 c2 c3 [H1|H1] [H2|H2]; try by right.
  - left. by etransitivity.
  - right. by eapply dead_step.
Qed.

Lemma dead_create : dead websocket_connection_create_object.
Proof. by constructor. Qed.

Section WorldFacts.
Context {D U V : Type} `{HD : Driver D} `{!DriverLaws D}.
Context (getnameinfo : bytes -> option (bytes * bytes)) (sa_family : bytes -> Z) (AF_INET6 : Z).
Context (getaddrinfo : bytes -> bytes -> option (list bytes)).
Context (sha1 base64_encode : bytes -> bytes) (base64_decode_ex : bytes -> option bytes).
Context (zval_get_long : V -> Z).
Implicit Types (w : world D U V).

Definition same_server (s s' : websocket_server_object U V) : Prop := s' = s \/ s' = set_server_running false s.

#[export] Instance same_server_preorder : PreOrder same_server.
Proof.
  split; [intros s; by left|]. intros s1 s2 s3 [->| ->] [->| ->]; unfold same_server; auto.
Qed.

(** The parts of the world a step of the loop keeps, but for the objects and the
    handler calls. *)
Record world_frame w w' : Prop := {
  wf_server : same_server (w_server w) (w_server w');
  wf_objects : w_objects w' = w_objects w;
  wf_ids : w_next_connection_id w' = w_next_connection_id w;
  wf_running : w_running w' = w_running w;
  wf_stopped : w_stopped w = true -> w_stopped w' = true;
  wf_drv : driver_ok (w_driver w');
  wf_answers : answers_left (w_kernel w) (w_kernel w')
}.

Lemma world_frame_refl w : driver_ok (w_driver w) -> world_frame w w.
Proof. intros. by constructor. Qed.

Lemma world_frame_trans w1 w2 w3 : world_frame w1 w2 -> world_frame w2 w3 -> world_frame w1 w3.
Proof. intros [] []. constructor; try congruence; auto; by etransitivity. Qed.

(** *** Steps that call no handler *)
Definition user_step w w' : Prop :=
  driver_ok (w_driver w) ->
  world_frame w w' /\ (forall h, obj_step (conn_of h w) (conn_of h w')) /\
  (forall h, calls h (k_trace (w_kernel w')) = calls h (k_trace (w_kernel w))).

#[export] Instance user_step_preorder : PreOrder user_step.
Proof.
  split.
  - intros w Hd. split_and!; [by apply world_frame_refl|intros h; reflexivity|done].
  - intros w1 w2 w3 A B Hd. destruct (A Hd) as (A1 & A2 & A3).
    destruct (B (wf_drv _ _ A1)) as (B1 & B2 & B3).
    split_and!; [by eapply world_frame_trans|intros h; transitivity (conn_of h w2); auto|intros h; by rewrite B3].
Qed.

(** The same, and no exception is thrown. *)
Definition quiet_step w w' : Prop := user_step w w' /\ w_exception w' = w_exception w.

#[export] Instance quiet_step_preorder : PreOrder quiet_step.
Proof.
  split; [intros w; by split|]. intros w1 w2 w3 [A1 A2] [B1 B2]. split; [by transitivity w2|congruence].
Qed.

(** *** Steps of the loop on one connection *)
Definition fd_step (c c' : websocket_connection_object) : Prop := c_fd c' = c_fd c \/ c_fd c' < 0.

#[export] Instance fd_step_preorder : PreOrder fd_step.
Proof. split; [intros c; by left|]. intros c1 c2 c3 [] []; unfold fd_step; lia. Qed.

Lemma obj_fd_step c c' : obj_step c c' -> fd_step c c'.
Proof. intros [[]|[]]; [done|by right]. Qed.

Definition proc_step w w' : Prop :=
  driver_ok (w_driver w) -> world_frame w w' /\ (forall h, fd_step (conn_of h w) (conn_of h w')).

#[export] Instance proc_step_preorder : PreOrder proc_step.
Proof.
  split.
  - intros w Hd. split; [by apply world_frame_refl|intros h; reflexivity].
  - intros w1 w2 w3 A B Hd. destruct (A Hd) as (A1 & A2).
    destruct (B (wf_drv _ _ A1)) as (B1 & B2).
    split; [by eapply world_frame_trans|intros h; transitivity (conn_of h w2); auto].
Qed.

Lemma user_proc_step {A} (m : ST (world D U V) A) : relates user_step m -> relates proc_step m.
Proof. intros H w Hd. destruct (H w Hd) as (F & O & _). split; [done|]. intros h. apply obj_fd_step, O. Qed.

Lemma quiet_user_step {A} (m : ST (world D U V) A) : relates quiet_step m -> relates user_step m.
Proof. intros H w. apply H. Qed.

(** ** The primitives *)

Lemma conn_of_insert h h' c w :
  conn_of h' (set_w_heap (<[h := c]> (w_heap w)) w) = if decide (h' = h) then c else conn_of h' w.
Proof.
  unfold conn_of. cbn. destruct (decide (h' = h)) as [->|Hn]; [by rewrite lookup_insert_eq|].
  by rewrite lookup_insert_ne by congruence.
Qed.

Lemma on_conn_step {A} h (m : ST (cstate D) A) : relates cs_step m -> relates quiet_step (on_conn (U := U) (V := V) h m).
Proof.
  intros Hm w. unfold on_conn. specialize (Hm (mk_cs (conn_of h w) (w_driver w) (w_kernel w))).
  destruct (m _) as [x [c' d' k']] eqn:E. cbn in Hm. cbn [snd cs_conn cs_driver cs_kernel]. split; [|done].
  intros Hd. destruct (Hm Hd) as ([C _] & Hd' & Hq & Ha). cbn [cs_conn cs_driver cs_kernel] in *. split_and!.
  - by constructor.
  - intros h'. change (obj_step (conn_of h' w) (conn_of h' (set_w_heap (<[h:=c']> (w_heap w)) w))).
    rewrite conn_of_insert. destruct (decide (h' = h)) as [->|]; [by left|reflexivity].
  - exact Hq.
Qed.

Lemma mod_connection_quiet h f : (forall c, conn_step c (f c)) ->
  relates quiet_step (mod_connection (D := D) (U := U) (V := V) h f).
Proof.
  intros Hf w. split; [|done]. intros Hd. split_and!; [by constructor| |done].
  intros h'. unfold mod_connection, st_modify. cbn [snd]. rewrite conn_of_insert.
  destruct (decide (h' = h)) as [->|]; [left; apply Hf|reflexivity].
Qed.

Lemma mod_connection_proc h f : (forall c, fd_step c (f c)) ->
  relates proc_step (mod_connection (D := D) (U := U) (V := V) h f).
Proof.
  intros Hf w Hd. split; [by constructor|].
  intros h'. unfold mod_connection, st_modify. cbn [snd]. rewrite conn_of_insert.
  destruct (decide (h' = h)) as [->|]; [apply Hf|reflexivity].
Qed.

Lemma world_kernel_quiet {A} (f : kernel -> A * kernel) : (forall k, quiet k (f k).2) ->
  relates quiet_step (world_kernel (D := D) (U := U) (V := V) f).
Proof.
  intros Hf w. unfold world_kernel. specialize (Hf (w_kernel w)). destruct (f (w_kernel w)) as [x k]; cbn in *.
  destruct Hf as [Hc Ha]. split; [|done]. intros Hd. by split_and!.
Qed.

Lemma get_connection_step R `{!PreOrder R} h : relates R (get_connection (D := D) (U := U) (V := V) h).
Proof. intros w. cbn. reflexivity. Qed.

Lemma release_step h : relates quiet_step (release_connection (D := D) (U := U) (V := V) h).
Proof.
  unfold release_connection. pres.
  - apply mod_connection_quiet. intros []. by constructor; auto.
  - apply (get_connection_step quiet_step).
  - apply on_conn_step, free_object_step.
  - intros w. split; [|done]. intros Hd. split_and!; [by constructor| |done].
    intros h'. unfold st_modify, conn_of. cbn. destruct (decide (h' = h)) as [->|Hn].
    + rewrite lookup_delete_eq. right. apply dead_create.
    + by rewrite lookup_delete_ne by congruence.
Qed.

(** The driver's operations. *)
Lemma driver_op_quiet w d k : w_driver w = Some d \/ driver_wf d -> driver_step (w_kernel w) k ->
  quiet_step w (set_w_kernel k (set_w_driver (Some d) w)).
Proof.
  intros Hd' Hk. split; [|done]. intros Hd. destruct (driver_step_quiet _ _ Hk) as [Q A].
  split_and!; [|intros h; reflexivity|exact Q]. constructor; try done. cbn. destruct Hd' as [E|]; [|done]. by rewrite E in Hd.
Qed.

Lemma quiet_if_ok w w' : (driver_ok (w_driver w) -> quiet_step w w') -> w_exception w' = w_exception w -> quiet_step w w'.
Proof. intros H E. split; [|done]. intros Hd. by apply H. Qed.

Lemma world_watch_read_quiet fd : relates quiet_step (world_watch_read (U := U) (V := V) fd).
Proof.
  intros w. unfold world_watch_read. destruct (w_driver w) as [d|] eqn:Ed; cbn; [|reflexivity].
  apply quiet_if_ok; [|by destruct (watch_read _ _) as [? []]]. rewrite Ed. intros Hd.
  pose proof (watch_read_law fd d (w_kernel w) Hd) as L. destruct (watch_read _ _) as [ok [d' k']]; cbn.
  destruct L as (? & ? & _). apply driver_op_quiet; [by right|done].
Qed.

Lemma world_unwatch_quiet fd : relates quiet_step (world_unwatch (U := U) (V := V) fd).
Proof.
  intros w. unfold world_unwatch. destruct (w_driver w) as [d|] eqn:Ed; cbn; [|reflexivity].
  apply quiet_if_ok; [|by destruct (unwatch _ _)]. rewrite Ed. intros Hd.
  pose proof (unwatch_law fd d (w_kernel w) Hd) as L. destruct (unwatch _ _) as [d' k']; cbn.
  destruct L as (? & ? & _). apply driver_op_quiet; [by right|done].
Qed.

Lemma world_wait_quiet timeout : relates quiet_step (world_wait (U := U) (V := V) timeout).
Proof.
  intros w. unfold world_wait. destruct (w_driver w) as [d|] eqn:Ed; cbn.
  - apply quiet_if_ok; [|by destruct (wait _ _) as [? []]]. rewrite Ed. intros Hd.
    pose proof (wait_law timeout d (w_kernel w) Hd) as L. destruct (wait _ _) as [r [d' k']]; cbn.
    destruct r, L as (? & ? & _). apply driver_op_quiet; [by right|done].
  - split; [|done]. intros Hd. split_and!; [|intros h; reflexivity|done].
    constructor; try done. apply driver_step_errno.
Qed.

Lemma keep_step f : relates quiet_step (st_modify (fun w => set_w_kept (f w) w)).
Proof. intros w. split; [|done]. intros Hd. by split_and!. Qed.

Lemma stop_step : relates quiet_step (WebSocket_Server_stop (D := D) (U := U) (V := V)).
Proof. intros w. split; [|done]. intros Hd. split_and!; [|done..]. constructor; try done. by right. Qed.

Lemma set_user_step u : relates user_step (st_modify (set_w_user (D := D) (V := V) u)).
Proof. intros w Hd. by split_and!. Qed.

Lemma throw_step e : relates user_step (throw (D := D) (U := U) (V := V) e).
Proof. intros w Hd. by split_and!. Qed.

#[local] Hint Resolve quiet_user_step : pres.
#[local] Hint Resolve on_conn_step release_step keep_step stop_step set_user_step throw_step : pres.
#[local] Hint Extern 2 (relates quiet_step (mod_connection _ _)) =>
  apply mod_connection_quiet; intros []; by constructor; auto : pres.
#[local] Hint Extern 1 (relates ?R (st_gets _)) => apply (relates_gets R) : pres.

(** ** PHP code *)

Lemma run_program_step p :
  relates user_step (run_program (D := D) (V := V) getnameinfo sa_family AF_INET6 (U := U) p).
Proof.
  induction p; cbn [run_program]; pres;
    try (apply quiet_user_step; solve [eauto 4 with pres]); auto.
Qed.

(** ** The loop on one connection *)

Lemma emit_proc ev : relates proc_step (world_kernel (D := D) (U := U) (V := V) (fun k => ((), emit ev k))).
Proof.
  intros w Hd. split; [|intros h; reflexivity]. constructor; try done. unfold answers_left. cbn. reflexivity.
Qed.

Lemma world_kernel_proc {A} (f : kernel -> A * kernel) : (forall k, quiet k (f k).2) ->
  relates proc_step (world_kernel (D := D) (U := U) (V := V) f).
Proof. intros Hf. by apply user_proc_step, quiet_user_step, world_kernel_quiet. Qed.

Lemma on_conn_proc {A} h (m : ST (cstate D) A) : relates cs_step m -> relates proc_step (on_conn (U := U) (V := V) h m).
Proof. intros. by apply user_proc_step, quiet_user_step, on_conn_step. Qed.

Lemma run_program_proc p :
  relates proc_step (run_program (D := D) (V := V) getnameinfo sa_family AF_INET6 (U := U) p).
Proof. apply user_proc_step, run_program_step. Qed.

Lemma set_exception_proc e : relates proc_step (st_modify (set_w_exception (D := D) (U := U) (V := V) e)).
Proof. intros w Hd. split; [by constructor|intros h; reflexivity]. Qed.

Lemma throw_proc e : relates proc_step (throw (D := D) (U := U) (V := V) e).
Proof. apply set_exception_proc. Qed.
End WorldFacts.

(** The hints of the two relations. *)
#[export] Hint Resolve quiet_user_step on_conn_step release_step on_conn_proc run_program_step run_program_proc
  emit_proc set_exception_proc throw_proc throw_step : pres.
#[export] Hint Resolve world_watch_read_quiet world_unwatch_quiet world_wait_quiet : pres.
#[export] Hint Resolve syscall_quiet sys_open_quiet sys_recv_quiet sys_send_quiet set_errno_quiet now_usec_quiet
  send_bytes_quiet close_fd_quiet set_nonblocking_quiet : pres.
#[export] Hint Extern 2 (relates quiet_step (mod_connection _ _)) =>
  apply mod_connection_quiet; intros []; by constructor; auto : pres.
#[export] Hint Extern 2 (relates proc_step (mod_connection _ _)) =>
  apply mod_connection_proc; intros ?; left;
  unfold websocket_connection_discard_read_bytes; repeat case_match; reflexivity : pres.
#[export] Hint Extern 2 (relates quiet_step (world_kernel _)) =>
  apply world_kernel_quiet; intros ? : pres.
#[export] Hint Extern 2 (relates proc_step (world_kernel _)) =>
  apply world_kernel_proc; intros ? : pres.
#[export] Hint Extern 1 (relates ?R (st_gets _)) => apply (relates_gets R) : pres.
#[export] Hint Extern 1 (relates ?R get_server) => apply (relates_gets R) : pres.
#[export] Hint Extern 1 (relates ?R get_options) => apply (relates_gets R) : pres.
#[export] Hint Extern 1 (relates ?R no_exception) => apply (relates_gets R) : pres.
#[export] Hint Extern 1 (relates ?R world_errno) => apply (relates_gets R) : pres.
#[export] Hint Extern 1 (relates ?R (get_connection _)) => apply (get_connection_step R) : pres.

Section ProcFacts.
Context {D U V : Type} `{HD : Driver D} `{!DriverLaws D}.
Context (getnameinfo : bytes -> option (bytes * bytes)) (sa_family : bytes -> Z) (AF_INET6 : Z).
Context (getaddrinfo : bytes -> bytes -> option (list bytes)).
Context (sha1 base64_encode : bytes -> bytes) (base64_decode_ex : bytes -> option bytes).
Context (zval_get_long : V -> Z).
Local Abbreviation W A := (ST (world D U V) A).

Lemma call_user_proc ev f :
  relates proc_step (call_user getnameinfo sa_family AF_INET6 ev f : W _).
Proof. unfold call_user. pres. Qed.
Hint Resolve call_user_proc : pres.

Lemma with_reference_proc {A} h (m : W A) : relates proc_step m -> relates proc_step (with_reference h m).
Proof. intros. unfold with_reference. pres. Qed.
Hint Resolve with_reference_proc : pres.

Lemma call_handler_proc f h :
  relates proc_step (websocket_server_call_handler getnameinfo sa_family AF_INET6 f h : W _).
Proof. unfold websocket_server_call_handler. pres. Qed.
Hint Resolve call_handler_proc : pres.

Lemma call_open_proc h b :
  relates proc_step (websocket_server_call_open_handler getnameinfo sa_family AF_INET6 h b : W _).
Proof. unfold websocket_server_call_open_handler. pres. Qed.
Hint Resolve call_open_proc : pres.

Lemma call_handshake_proc r h :
  relates proc_step (websocket_server_call_handshake_handler getnameinfo sa_family AF_INET6 r h : W _).
Proof.
  unfold websocket_server_call_handshake_handler, websocket_server_handle_handshake_exception,
    websocket_server_send_handshake_response, send_bytes. pres.
Qed.
Hint Resolve call_handshake_proc : pres.

Lemma notify_closed_proc h :
  relates proc_step (websocket_server_notify_connection_closed getnameinfo sa_family AF_INET6 h : W _).
Proof. unfold websocket_server_notify_connection_closed. pres. Qed.
Hint Resolve notify_closed_proc : pres.

Lemma close_with_code_quiet h code reason :
  relates quiet_step (websocket_server_close_with_code h code reason : W _).
Proof. unfold websocket_server_close_with_code. pres. Qed.

Lemma close_with_code_proc h code reason :
  relates proc_step (websocket_server_close_with_code h code reason : W _).
Proof. apply user_proc_step, quiet_user_step, close_with_code_quiet. Qed.
Hint Resolve close_with_code_proc close_with_code_quiet : pres.

Lemma service_connection_quiet h now :
  relates quiet_step (service_connection zval_get_long h now : W _).
Proof.
  unfold service_connection, websocket_server_close_expired_connection, websocket_server_process_heartbeat. pres.
Qed.

Lemma service_connection_proc h now :
  relates proc_step (service_connection zval_get_long h now : W _).
Proof. apply user_proc_step, quiet_user_step, service_connection_quiet. Qed.
Hint Resolve service_connection_proc : pres.

Lemma call_message_proc h payload op :
  relates proc_step (websocket_server_call_message_handler getnameinfo sa_family AF_INET6 h payload op : W _).
Proof. unfold websocket_server_call_message_handler. pres. Qed.
Hint Resolve call_message_proc : pres.

Lemma handle_data_frame_proc h frame :
  relates proc_step (websocket_server_handle_data_frame getnameinfo sa_family AF_INET6 zval_get_long h frame : W _).
Proof. unfold websocket_server_handle_data_frame. pres. Qed.
Hint Resolve handle_data_frame_proc : pres.

Lemma handle_frame_proc h frame :
  relates proc_step (websocket_server_handle_frame getnameinfo sa_family AF_INET6 zval_get_long h frame : W _).
Proof. unfold websocket_server_handle_frame. pres. Qed.
Hint Resolve handle_frame_proc : pres.

Lemma buffered_frames_proc fuel h max :
  relates proc_step (buffered_frames_loop getnameinfo sa_family AF_INET6 zval_get_long fuel h max : W _).
Proof. induction fuel; cbn [buffered_frames_loop]; unfold refuse_frame; pres. Qed.
Hint Resolve buffered_frames_proc : pres.

Lemma process_buffered_proc h :
  relates proc_step (websocket_server_process_buffered_frames getnameinfo sa_family AF_INET6 zval_get_long h : W _).
Proof. unfold websocket_server_process_buffered_frames. pres. Qed.
Hint Resolve process_buffered_proc : pres.

Lemma finish_upgrade_proc h key sel consumed :
  relates proc_step (websocket_server_finish_upgrade getnameinfo sa_family AF_INET6 zval_get_long h key sel consumed : W _).
Proof. unfold websocket_server_finish_upgrade, send_bytes. pres. Qed.
Hint Resolve finish_upgrade_proc : pres.

Lemma bad_request_proc h : relates proc_step (bad_request h : W _).
Proof. unfold bad_request, send_bytes. pres. Qed.
Hint Resolve bad_request_proc : pres.

Lemma handshake_loop_proc fuel h :
  relates proc_step (handshake_loop getnameinfo sa_family AF_INET6 sha1 base64_encode base64_decode_ex
    zval_get_long fuel h : W _).
Proof. induction fuel; cbn [handshake_loop]; unfold handshake_request, now_usec; pres. Qed.
Hint Resolve handshake_loop_proc : pres.

Lemma process_handshake_proc h :
  relates proc_step (websocket_server_process_handshake getnameinfo sa_family AF_INET6 sha1 base64_encode
    base64_decode_ex zval_get_long h : W _).
Proof. unfold websocket_server_process_handshake. pres. Qed.
Hint Resolve process_handshake_proc : pres.

Lemma frame_reads_proc fuel h limit :
  relates proc_step (frame_reads_loop getnameinfo sa_family AF_INET6 zval_get_long fuel h limit : W _).
Proof. induction fuel; cbn [frame_reads_loop]; unfold now_usec; pres. Qed.
Hint Resolve frame_reads_proc : pres.

Lemma process_frame_reads_proc h :
  relates proc_step (websocket_server_process_frame_reads getnameinfo sa_family AF_INET6 zval_get_long h : W _).
Proof. unfold websocket_server_process_frame_reads. pres. Qed.
Hint Resolve process_frame_reads_proc : pres.

Lemma process_connection_fd_proc fd :
  relates proc_step (websocket_server_process_connection_fd getnameinfo sa_family AF_INET6 sha1 base64_encode
    base64_decode_ex zval_get_long fd : W _).
Proof. unfold websocket_server_process_connection_fd, now_usec. pres. Qed.

Lemma process_connections_proc :
  relates proc_step (websocket_server_process_connections getnameinfo sa_family AF_INET6 sha1 base64_encode
    base64_decode_ex zval_get_long : W _).
Proof.
  unfold websocket_server_process_connections, now_usec. pres.
  match goal with |- relates _ (process_connections_loop _ _ _ _ _ _ _ ?l _) => induction l end;
    cbn [process_connections_loop]; pres.
Qed.
End ProcFacts.

#[export] Hint Resolve call_user_proc with_reference_proc call_handler_proc call_open_proc call_handshake_proc
  process_handshake_proc process_buffered_proc process_frame_reads_proc service_connection_proc process_connection_fd_proc
  process_connections_proc close_with_code_quiet close_with_code_proc service_connection_quiet : pres.
