(* ===== verification/Server.v ===== *)
(** * The PHP classes of the server: [websocket_server.c]

    [WebSocket\Server], [HandshakeResponse] and [HandshakeException], and the
    module globals of [websocket.c].  The checks of PHP's own parameter parser
    (argument counts and declared types) are not the program's. *)
From stdpp Require Import gmap.
From S2P Require Import Prelude Constants Http Kernel Driver ConnState Connection Options World Runtime.
From Stdlib Require String.
Import (notations) String.

(** ** Construction and configuration *)

Section Object.
Context {U V : Type}.

Definition websocket_server_create_object : websocket_server_object U V :=
  {| s_options := OptUndef; s_subprotocols := None; s_on_open := None; s_on_handshake := None;
     s_on_message := None; s_on_close := None; s_on_error := None; s_on_open_param_count := 1;
     s_host := None; s_port := 0; s_listening := false; s_running := false; s_listener_fd := -1;
     s_reusable_connection := None; s_connections := []; s_connection_capacity := 0 |}.

(** The argument of the constructor: none, an array, a [ServerOptions], or a value
    of another type. *)
Inductive construct_arg : Type :=
| NoOptions
| ArrayOptions (a : list (bytes * V))
| ObjectOptions (o : ServerOptions)
| OtherOptions.

(** [None] is the TypeError. *)
Definition WebSocket_Server_construct (options : construct_arg) (s : websocket_server_object U V)
    : option (websocket_server_object U V) :=
  match options with
  | OtherOptions => None
  | NoOptions => Some (set_subprotocols (Some []) (set_options (OptArray []) s))
  | ArrayOptions a => Some (set_subprotocols (Some []) (set_options (OptArray a) s))
  | ObjectOptions o => Some (set_subprotocols (Some []) (set_options (OptObject o) s))
  end.

Inductive subprotocols_error : Type :=
| SubprotocolsWhileRunning
| SubprotocolNotString (argument : Z)
| SubprotocolNotToken (argument : Z)
| SubprotocolDuplicate (argument : Z).

(** One argument: a string, or a value of another type.  [normalized] is the list
    of the keys added so far, in order; [seen] has the same keys. *)
Fixpoint subprotocols_loop (i : Z) (protocols : list (option bytes)) (normalized : list bytes)
    : result subprotocols_error (list bytes) :=
  match protocols with
  | [] => Ok normalized
  | None :: _ => Err (SubprotocolNotString (i + 1))
  | Some protocol :: protocols =>
    if negb (websocket_http_validate_subprotocol_token protocol) then Err (SubprotocolNotToken (i + 1)) else
    if hash_exists normalized protocol then Err (SubprotocolDuplicate (i + 1)) else
    subprotocols_loop (i + 1) protocols (normalized ++ [protocol])
  end.

Definition WebSocket_Server_subprotocols (protocols : list (option bytes)) (s : websocket_server_object U V)
    : result subprotocols_error (websocket_server_object U V) :=
  if s_running s then Err SubprotocolsWhileRunning else
  match subprotocols_loop 0 protocols [] with
  | Err e => Err e
  | Ok normalized => Ok (set_subprotocols (Some normalized) s)
  end.

Inductive listen_error : Type := ListenBadPort | ListenNullByte.

Definition WebSocket_Server_listen (host : bytes) (port : Z) (s : websocket_server_object U V)
    : result listen_error (websocket_server_object U V) :=
  if (port <? 1) || (65535 <? port) then Err ListenBadPort else
  if negb (zlen (cstr host) =? zlen host) then Err ListenNullByte else
  Ok (set_listening true (set_port port (set_host (Some host) s))).

(** The closure's declared parameters decide whether it is given the connection. *)
Definition WebSocket_Server_onOpen (num_args : Z) (variadic : bool) (f : option Z -> U -> program U)
    (s : websocket_server_object U V) : websocket_server_object U V :=
  set_on_open_param_count (if (num_args =? 0) && negb variadic then 0 else 1) (set_on_open (Some f) s).

Definition WebSocket_Server_onHandshake (f : request -> U -> program U) (s : websocket_server_object U V)
    : websocket_server_object U V := set_on_handshake (Some f) s.
Definition WebSocket_Server_onMessage (f : Z -> bytes -> message_type -> U -> program U)
    (s : websocket_server_object U V) : websocket_server_object U V := set_on_message (Some f) s.
Definition WebSocket_Server_onClose (f : Z -> U -> program U) (s : websocket_server_object U V)
    : websocket_server_object U V := set_on_close (Some f) s.
Definition WebSocket_Server_onError (f : U -> program U) (s : websocket_server_object U V)
    : websocket_server_object U V := set_on_error (Some f) s.
End Object.
Arguments construct_arg V : clear implicits.

(** ** Rejections *)

Inductive response_error : Type :=
| ResponseBadStatus | ResponseBadName | ResponseBadType | ResponseBadValue.

Definition websocket_header_value_is_valid (value : bytes) : bool :=
  match memchr CR value, memchr LF value with None, None => true | _, _ => false end.

(** An entry of the headers array: a key that is not a string and a value that is
    not one are [None]. *)
Fixpoint response_headers_loop (headers : list (option bytes * option bytes)) (normalized : list (bytes * bytes))
    : result response_error (list (bytes * bytes)) :=
  match headers with
  | [] => Ok normalized
  | (name, value) :: headers =>
    match name with
    | None => Err ResponseBadName
    | Some name =>
      if negb (websocket_http_validate_subprotocol_token name) then Err ResponseBadName else
      match value with
      | None => Err ResponseBadType
      | Some value =>
        if negb (websocket_header_value_is_valid value) then Err ResponseBadValue else
        response_headers_loop headers (normalized ++ [(name, value)])
      end
    end
  end.

(** [WebSocket\HandshakeResponse::__construct] *)
Definition HandshakeResponse_construct (status : option Z) (headers : option (list (option bytes * option bytes)))
    (body : option bytes) : result response_error HandshakeResponse :=
  let status := default 403 status in
  let body := default [] body in
  if (status <? 100) || (599 <? status) || (status =? 101) then Err ResponseBadStatus else
  match response_headers_loop (default [] headers) [] with
  | Err e => Err e
  | Ok normalized => Ok (mk_HandshakeResponse status normalized body)
  end.

(** [WebSocket\HandshakeException::__construct] *)
Definition HandshakeException_construct (response : option HandshakeResponse) : php_exception :=
  ExHandshake (Some (match response with
                     | Some r => r
                     | None => mk_HandshakeResponse 403 [] []
                     end)).

(** ** Running *)

Section Run.
Context {D U V : Type} `{Driver D}.
Context (getnameinfo : bytes -> option (bytes * bytes)) (sa_family : bytes -> Z) (AF_INET6 : Z).
Context (getaddrinfo : bytes -> bytes -> option (list bytes)).
Context (sha1 base64_encode : bytes -> bytes) (base64_decode_ex : bytes -> option bytes).
Context (zval_get_long : V -> Z).
(** [websocket_select_best_driver]: see [Drivers.v]. *)
Context (best_driver : kernel -> option D * kernel).

Local Abbreviation W := (ST (world D U V)).

(** [PHP_RINIT_FUNCTION(websocket)] *)
Definition request_init (w : world D U V) : world D U V :=
  set_w_stopped false (set_w_running false (set_w_next_connection_id 1 (set_w_driver None w))).

(** [PHP_RSHUTDOWN_FUNCTION(websocket)] *)
Definition request_shutdown (w : world D U V) : world D U V :=
  match w_driver w with
  | None => w
  | Some d => set_w_kernel (shutdown (d, w_kernel w)).2 (set_w_driver None w)
  end.

(** [websocket_server_free_object]: the closures are released first, so no handler
    is left for the connections closed after it. *)
Definition websocket_server_free_object : W () :=
  mod_server (fun s => set_on_error None (set_on_close None (set_on_message None (set_on_handshake None
    (set_on_open None (set_subprotocols None (set_options OptUndef s)))))));;
  websocket_server_runtime_free getnameinfo sa_family AF_INET6;;
  mod_server (set_host None).

(** [if (!WEBSOCKET_G(driver)) WEBSOCKET_G(driver) = websocket_select_best_driver();] *)
Definition ensure_driver : W () :=
  fun w => match w_driver w with
           | Some _ => ((), w)
           | None => let '(d, k) := best_driver (w_kernel w) in ((), set_w_kernel k (set_w_driver d w))
           end.

Definition WebSocket_Server_run : W () :=
  running ← st_gets w_running;
  s ← get_server;
  if (running : bool) then throw (ExServer AlreadyRunning) else
  if negb (s_listening s) then throw (ExServer RunBeforeListen) else
  ensure_driver;;
  d ← st_gets w_driver;
  match d with
  | None => throw (ExServer NoDriver)
  | Some _ =>
      st_modify (fun w => set_w_stopped false (set_w_running true w));;
      mod_server (set_server_running true);;
      websocket_server_runtime_run getnameinfo sa_family AF_INET6 getaddrinfo sha1 base64_encode
        base64_decode_ex zval_get_long;;
      mod_server (set_server_running false);;
      st_modify (set_w_running false)
  end.
End Run.
