(* ===== verification/Scenario.v ===== *)
(** * A concrete server

    An echo server with the [select] driver, on which the theorems about the
    server are applied: freshly configured, and with one upgraded connection. *)
From stdpp Require Import gmap.
From S2P Require Import Prelude Constants Protocol Http Kernel Driver FdTable SelectDriver ConnState Connection Options Frames.
From S2P Require Import World Runtime Server.
From Stdlib Require String.
Import (notations) String.

(** The message handler sends the message back and throws what [send] throws. *)
Definition echo_server : websocket_server_object unit Z :=
  set_host (Some (str "::")) (set_port 8080 (set_listening true
    (WebSocket_Server_onMessage (fun c payload type u =>
        PSend c payload (Some type) (fun r => match r with
                                              | None => PReturn u ReturnNull
                                              | Some e => PThrow u (ExConnection e)
                                              end))
    (WebSocket_Server_onClose (fun _ u => PReturn u ReturnNull)
    (WebSocket_Server_onOpen 1 false (fun _ u => PReturn u ReturnNull)
      (set_options (OptArray []) websocket_server_create_object)))))).

(** Before [run]. *)
Definition echo_world (answers : list answer) : world select_state unit Z :=
  mk_world echo_server ∅ 0 [] None (mk_kernel answers [] 0 []) 1 false false None tt.

(** While it runs: the listener on descriptor 3, one client on descriptor 4. *)
Definition live_conn : websocket_connection_object :=
  set_max_queued_bytes 1048576 (set_numeric_id 1 (set_upgraded true (set_open true
    (set_fd 4 websocket_connection_create_object)))).

Definition live_driver : select_state := mk_select [mk_select_fd 3 true false; mk_select_fd 4 true false] 8.

Definition live_world (c : websocket_connection_object) (answers : list answer) : world select_state unit Z :=
  mk_world (set_connection_capacity 8 (set_connections [0] (set_listener_fd 3 (set_server_running true echo_server))))
    {[0 := c]} 1 [] (Some live_driver)
    (mk_kernel answers [mk_clock (Some (10, 0)) None] 0 [EvCall OnOpen (Some 0) [] None]) 2 true false None tt.

(** The libraries: no reverse lookup, one address to listen on, and stand-ins for
    the digests. *)
Definition no_names (_ : bytes) : option (bytes * bytes) := None.
Definition ipv4 (_ : bytes) : Z := 2.
Definition one_address (_ _ : bytes) : option (list bytes) := Some [[2]].

(** Only [select] is compiled in. *)
Definition select_only (k : kernel) : option select_state * kernel := (Some websocket_select_init, k).

Definition echo_run (answers : list answer) : world select_state unit Z :=
  (WebSocket_Server_run no_names ipv4 10 one_address (fun x => x) (fun x => x) example_decode (fun z => z)
     select_only (echo_world answers)).2.

(** The kernel's side of a short run: the listener is opened; a client is
    accepted, upgrades, sends "hi", gets it back, and closes. *)
Definition echo_script : list answer :=
  let ok := AOk 0 [] in
  [AOk 3 []; ok; ok; ok; ok; ok;
   AOk 1 [1]; AOk 4 [9; 9]; ok; ok; AErr EAGAIN; AErr EAGAIN;
   AOk 1 [0; 1]; AOk 0 example_request; AOk 1000 [];
   AOk 1 [0; 1]; AOk 0 [0x81; 0x82; 0; 0; 0; 0; 72; 105]; AOk 100 []; AErr EAGAIN;
   AOk 1 [0; 1]; AOk 0 [0x88; 0x80; 0; 0; 0; 0]; AOk 100 []].

Lemma select_only_law : init_law select_only.
Proof.
  intros k. split; [reflexivity|]. intros d [= <-]. split; [|done]. apply select_init_wf.
Qed.

Lemma live_driver_wf : select_wf live_driver.
Proof. split; [|by vm_compute]. unfold distinct_fds. cbn. apply (bool_decide_unpack _). by vm_compute. Qed.

Lemma live_ok c answers : driver_ok (w_driver (live_world c answers)).
Proof. exact live_driver_wf. Qed.
