(* ===== verification/Termination.v ===== *)
(** * The loops end

    Every loop of the server that waits for the kernel uses up an answer in each
    iteration, and the loop over the read buffer at least six bytes: more fuel
    than that changes nothing. *)
From stdpp Require Import gmap.
From S2P Require Import Prelude Constants Words Utf8 Mask Protocol Http Kernel Driver ConnState Connection.
From S2P Require Import Options Frames World Runtime RuntimeFacts WorldFacts.
From S2P Require Import SelectDriver Scenario.

(** ** The parser makes progress *)

(** On any buffer, bytes or not. *)
Lemma parse_frame_consumed inp max frame :
  websocket_server_parse_frame inp max = FRAME_OK frame ->
  6 <= sf_bytes_consumed frame <= zlen inp /\
  (websocket_protocol_opcode_is_control (sf_opcode frame) = false -> zlen (sf_payload frame) <= max) /\
  websocket_protocol_opcode_is_valid (sf_opcode frame) = true.
Proof.
  unfold websocket_server_parse_frame. destruct (_ <? 2); [done|]. cbv zeta.
  destruct (has_flag _ 0x70 || _); [done|].
  destruct (websocket_protocol_opcode_is_valid _) eqn:Hv; cbn [negb]; [|done].
  destruct (parse_length inp _) as [[n pos]|st] eqn:Hl.
  2:{ intros ->. exfalso. unfold parse_length in Hl. repeat case_match; simplify_eq. }
  assert (Hn : 0 <= n /\ 2 <= pos).
  { unfold parse_length in Hl. pose proof (Z.land_nonneg (zget inp 1) 0x7f) as Hz.
    destruct (_ =? 126); [|destruct (_ =? 127)].
    - destruct (_ <? 4); [done|]. destruct (Z.ltb_spec (Z.lor (Z.shiftl (zget inp 2) 8) (zget inp 3)) 126); [done|].
      injection Hl as <- <-. lia.
    - destruct (_ <? 10); [done|]. destruct (negb _); [done|]. cbv zeta in Hl. revert Hl.
      generalize (be64_loop 8 inp 0 0). intros l Hl. destruct (Z.leb_spec l 0xffff); [done|].
      injection Hl as <- <-. lia.
    - injection Hl as <- <-. split; [apply Hz; lia|lia]. }
  destruct (websocket_protocol_opcode_is_control _ && _); [done|].
  destruct (negb _ && (max <? n)) eqn:Hm; [done|]. unfold parse_payload. cbv zeta.
  destruct (_ || (zlen inp <? pos + 4)); [done|].
  destruct ((SIZE_MAX - (pos + 4) <? n) || _) eqn:Hs; [done|].
  repeat (case_match; [done|]). intros [= <-]. cbn [sf_bytes_consumed sf_opcode sf_payload].
  apply orb_false_iff in Hs as [_ Hs]. split_and!; [lia|lia| |done].
  intros Hc. rewrite Hc in Hm. cbn [negb andb] in Hm. unfold websocket_server_mask_payload, zlen.
  rewrite Mask.length_mask_bytes_from. fold (zlen (ztake n (zdrop (pos + 4) inp))). rewrite zlen_ztake. lia.
Qed.

(** ** Steps that only use answers up *)

Lemma sys_recv_progress n k :
  (length (k_answers (sys_recv n k).2) < length (k_answers k))%nat \/
  ((sys_recv n k).1 = None /\ k_errno (sys_recv n k).2 = EAGAIN).
Proof.
  unfold sys_recv. pose proof (syscall_progress k) as P.
  destruct (syscall k) as [[m d|e] k1]; cbn in *; destruct P as [?|[? ?]]; auto; simplify_eq; auto.
Qed.

Section Termination.
Context {D U V : Type} `{HD : Driver D} `{!DriverLaws D}.
Context (getnameinfo : bytes -> option (bytes * bytes)) (sa_family : bytes -> Z) (AF_INET6 : Z).
Context (getaddrinfo : bytes -> bytes -> option (list bytes)).
Context (sha1 base64_encode : bytes -> bytes) (base64_decode_ex : bytes -> option bytes).
Context (zval_get_long : V -> Z).
Local Abbreviation W A := (ST (world D U V) A).
Implicit Types (w : world D U V).

Definition any_step w w' : Prop :=
  driver_ok (w_driver w) -> driver_ok (w_driver w') /\ answers_left (w_kernel w) (w_kernel w').

#[export] Instance any_step_preorder : PreOrder any_step.
Proof.
  split.
  - intros w Hd. split; [done|]. unfold answers_left. reflexivity.
  - intros w1 w2 w3 A B Hd. destruct (A Hd) as [A1 A2]. destruct (B A1). split; [done|by etransitivity].
Qed.

Lemma proc_any {A} (m : W A) : relates proc_step m -> relates any_step m.
Proof. intros H w Hd. destruct (H w Hd) as [[] _]. done. Qed.

Lemma quiet_any {A} (m : W A) : relates quiet_step m -> relates any_step m.
Proof. intros. by apply proc_any, user_proc_step, quiet_user_step. Qed.
Lemma on_conn_any {A} h (m : ST (cstate D) A) : relates cs_step m -> relates any_step (on_conn h m : W A).
Proof. intros. by apply quiet_any, on_conn_step. Qed.
Hint Resolve quiet_any proc_any on_conn_any : pres.

Lemma pure_any (f : world D U V -> world D U V) :
  (forall w, w_driver (f w) = w_driver w /\ w_kernel (f w) = w_kernel w) -> relates any_step (st_modify f).
Proof.
  intros Hf w Hd. destruct (Hf w) as [E1 E2]. cbn. rewrite E1, E2. split; [done|].
  unfold answers_left. reflexivity.
Qed.
Hint Extern 2 (relates any_step (st_modify _)) => apply pure_any; intros ?; split; reflexivity : pres.
Hint Extern 2 (relates any_step (mod_server _)) => apply pure_any; intros ?; split; reflexivity : pres.
Hint Extern 2 (relates any_step (mod_connection _ _)) => apply pure_any; intros ?; split; reflexivity : pres.
Hint Extern 2 (relates any_step (throw _)) => apply pure_any; intros ?; split; reflexivity : pres.
Hint Extern 2 (relates any_step (world_kernel _)) => apply quiet_any, world_kernel_quiet; intros ? : pres.

(** [open] is the one connection function that is not a [cs_step]. *)
Definition cs_any (s s' : cstate D) : Prop :=
  driver_ok (cs_driver s) -> driver_ok (cs_driver s') /\ quiet (cs_kernel s) (cs_kernel s').

#[local] Instance cs_any_preorder : PreOrder cs_any.
Proof.
  split; [intros s Hd; by split|]. intros s1 s2 s3 A B Hd. destruct (A Hd) as [A1 A2]. destruct (B A1).
  split; [done|by etransitivity].
Qed.

Lemma open_any id addr fd : relates cs_any (websocket_connection_open (D := D) id addr fd).
Proof.
  unfold websocket_connection_open. pres;
    solve [intros s Hd; by split | intros s Hd; by destruct (clear_queue_step s Hd) as (_ & ? & ?)].
Qed.

Lemma on_conn_open_any h id addr fd : relates any_step (on_conn h (websocket_connection_open id addr fd) : W _).
Proof.
  intros w Hd. unfold on_conn. pose proof (open_any id addr fd (mk_cs (conn_of h w) (w_driver w) (w_kernel w)) Hd) as O.
  destruct (websocket_connection_open _ _ _ _) as [x [c d k]]. cbn in *. by destruct O as [? [_ ?]].
Qed.
Hint Resolve on_conn_open_any : pres.

Lemma accept_any : relates any_step (websocket_server_accept_connection zval_get_long : W _).
Proof.
  unfold websocket_server_accept_connection, websocket_server_create_connection_zval, next_connection_id,
    websocket_server_ensure_connection_capacity, now_usec, send_bytes, close_fd. pres.
Qed.
Hint Resolve accept_any : pres.

Lemma accept_loop_any fuel n : relates any_step (accept_loop zval_get_long fuel n : W _).
Proof. revert n. induction fuel; intros n; cbn [accept_loop]; pres. Qed.
Hint Resolve accept_loop_any : pres.

Lemma close_at_any i b : relates any_step (websocket_server_close_connection_at getnameinfo sa_family AF_INET6 i b : W _).
Proof. unfold websocket_server_close_connection_at. pres. Qed.
Hint Resolve close_at_any : pres.

Lemma purge_any : relates any_step (websocket_server_purge_closed_connections getnameinfo sa_family AF_INET6 : W _).
Proof.
  unfold websocket_server_purge_closed_connections. pres.
  match goal with |- relates _ (purge_loop _ _ _ ?f _) => generalize f as fuel end.
  generalize 0%nat as i. intros i fuel. revert i. induction fuel; intros i; cbn [purge_loop]; pres.
Qed.
Hint Resolve purge_any : pres.

Lemma accept_pending_any : relates any_step (websocket_server_accept_pending zval_get_long : W _).
Proof. unfold websocket_server_accept_pending. pres. Qed.
Hint Resolve accept_pending_any : pres.

(** ** What is left to do decreases *)

Definition answers w : nat := length (k_answers (w_kernel w)).

Lemma any_answers {A} (m : W A) w : relates any_step m -> driver_ok (w_driver w) ->
  driver_ok (w_driver (m w).2) /\ (answers (m w).2 <= answers w)%nat.
Proof. intros H Hd. destruct (H w Hd). split; [done|by apply answers_left_length]. Qed.

Lemma recv_less w n :
  let r := world_kernel (sys_recv n) w in
  w_driver r.2 = w_driver w /\ (forall h, conn_of h r.2 = conn_of h w) /\
  ((answers r.2 < answers w)%nat \/ (r.1 = None /\ k_errno (w_kernel r.2) = EAGAIN)).
Proof.
  unfold world_kernel, answers. pose proof (sys_recv_progress n (w_kernel w)) as P.
  destruct (sys_recv n (w_kernel w)) as [x k]; cbn in *. done.
Qed.

Lemma now_any : relates any_step (now_usec : W _).
Proof. apply quiet_any. unfold now_usec. pres. Qed.
Hint Resolve now_any : pres.

Lemma accept_less w : driver_ok (w_driver w) ->
  let r := websocket_server_accept_connection zval_get_long w in
  (answers r.2 < answers w)%nat \/ (r.1 = false /\ k_errno (w_kernel r.2) = EAGAIN).
Proof.
  intros Hd. cbv zeta. unfold websocket_server_accept_connection.
  rewrite (st_bind_run get_server). cbn [fst snd get_server st_gets]. rewrite (st_bind_run (world_kernel sys_open)).
  assert (P : (answers (world_kernel sys_open w).2 < answers w)%nat \/
              ((world_kernel sys_open w).1 = AErr EAGAIN /\ k_errno (w_kernel (world_kernel sys_open w).2) = EAGAIN)).
  { unfold world_kernel, answers. pose proof (syscall_progress (w_kernel w)) as P.
    rewrite <- sys_open_answers, <- sys_open_answer, <- sys_open_errno in P. by destruct (sys_open (w_kernel w)). }
  assert (Hd1 : driver_ok (w_driver (world_kernel sys_open w).2)).
  { unfold world_kernel. by destruct (sys_open (w_kernel w)). }
  destruct (world_kernel sys_open w) as [a w1]; cbn [fst snd] in *.
  destruct P as [P|[-> P]]; [left|by right].
  match goal with |- (answers (?m w1).2 < _)%nat => assert (Hm : relates any_step m) end.
  { unfold websocket_server_create_connection_zval, next_connection_id,
      websocket_server_ensure_connection_capacity, send_bytes, close_fd. pres. }
  destruct (any_answers _ w1 Hm Hd1). lia.
Qed.

Lemma wait_less w timeout : driver_ok (w_driver w) ->
  let r := world_wait timeout w in
  (answers r.2 < answers w)%nat \/ (r.1.1 < 0 /\ k_errno (w_kernel r.2) <> EINTR).
Proof.
  intros Hd. unfold world_wait, answers. destruct (w_driver w) as [d|]; cbn; [|right; split; [lia|done]].
  pose proof (wait_law timeout d (w_kernel w) Hd) as L.
  destruct (wait timeout (d, w_kernel w)) as [[r fd] [d' k']]; cbn. by destruct L as (_ & _ & _ & _ & L).
Qed.

(** ** Loops that wait for the kernel *)

Lemma handshake_loop_fuel f1 f2 h w : (answers w < f1)%nat -> (answers w < f2)%nat ->
  handshake_loop getnameinfo sa_family AF_INET6 sha1 base64_encode base64_decode_ex zval_get_long f1 h w =
  handshake_loop getnameinfo sa_family AF_INET6 sha1 base64_encode base64_decode_ex zval_get_long f2 h w.
Proof.
  revert f2 w. induction f1 as [|f1 IH]; intros f2 w H1 H2; [lia|]. destruct f2 as [|f2]; [lia|].
  cbn [handshake_loop]. rewrite !(st_bind_run (get_connection h)). destruct (negb _); [done|].
  rewrite !(st_bind_run (world_kernel _)).
  destruct (recv_less (get_connection h w).2 WEBSOCKET_READ_CHUNK_SIZE) as (_ & _ & P). cbn [get_connection st_gets snd] in *.
  destruct (world_kernel (sys_recv _) w) as [[[|b chunk]|] w1]; cbn [fst snd] in *; [done| |].
  - destruct P as [P|[? ?]]; [|done]. rewrite !(st_bind_run now_usec).
    assert (A2 : (answers (now_usec w1).2 <= answers w1)%nat).
    { unfold now_usec, world_kernel, answers. pose proof (now_usec_quiet (w_kernel w1)) as [_ Q].
      destruct (websocket_server_now_usec _); cbn in *. by apply answers_left_length. }
    destruct (now_usec w1) as [now w2]. cbn [fst snd] in A2.
    rewrite !(st_bind_run (mod_connection _ _)), !(st_bind_run (get_connection h)). cbn [fst snd get_connection st_gets].
    destruct (websocket_connection_ensure_read_capacity _ _ _); [|done].
    rewrite !(st_bind_run (mod_connection _ _)), !(st_bind_run (get_connection h)), !(st_bind_run get_server).
    destruct (websocket_http_parse_upgrade _ _ _ _ _) as [[| |] parsed]; [|done..].
    apply IH; cbn; unfold answers in *; cbn; lia.
  - rewrite !(st_bind_run world_errno). cbn [fst snd world_errno st_gets].
    destruct (Z.eqb_spec (k_errno (w_kernel w1)) EINTR) as [E|]; [|done].
    destruct P as [P|[_ P]]; [apply IH; lia|]. rewrite P in E. done.
Qed.

Lemma process_buffered_any h :
  relates any_step (websocket_server_process_buffered_frames getnameinfo sa_family AF_INET6 zval_get_long h : W _).
Proof. apply proc_any, process_buffered_proc. Qed.

Lemma frame_reads_loop_fuel f1 f2 h limit w : driver_ok (w_driver w) ->
  (answers w < f1)%nat -> (answers w < f2)%nat ->
  frame_reads_loop getnameinfo sa_family AF_INET6 zval_get_long f1 h limit w =
  frame_reads_loop getnameinfo sa_family AF_INET6 zval_get_long f2 h limit w.
Proof.
  revert f2 w. induction f1 as [|f1 IH]; intros f2 w Hd H1 H2; [lia|]. destruct f2 as [|f2]; [lia|].
  cbn [frame_reads_loop]. rewrite !(st_bind_run (get_connection h)). destruct (negb _); [done|].
  rewrite !(st_bind_run (world_kernel _)). cbn [fst snd get_connection st_gets].
  destruct (recv_less w WEBSOCKET_READ_CHUNK_SIZE) as (D1 & _ & P). rewrite <- D1 in Hd.
  destruct (world_kernel (sys_recv _) w) as [[[|b chunk]|] w1]; cbn [fst snd] in *; [done| |].
  - destruct P as [P|[? ?]]; [|done]. rewrite !(st_bind_run now_usec).
    destruct (any_answers now_usec w1 now_any Hd) as [Hd2 A2].
    destruct (now_usec w1) as [now w2]. cbn [fst snd] in *.
    rewrite !(st_bind_run (mod_connection _ _)), !(st_bind_run (get_connection h)). cbn [fst snd get_connection st_gets].
    destruct (websocket_connection_ensure_read_capacity _ _ _); [|done].
    rewrite !(st_bind_run (mod_connection _ _)), !(st_bind_run (websocket_server_process_buffered_frames _ _ _ _ _)).
    match goal with |- context [websocket_server_process_buffered_frames _ _ _ _ _ ?w0] =>
      destruct (any_answers _ w0 (process_buffered_any h) Hd2) as [Hd3 A3] end.
    change (answers (mod_connection _ _ (mod_connection _ _ w2).2).2) with (answers w2) in A3.
    destruct (websocket_server_process_buffered_frames _ _ _ _ _ _) as [ok w3]. cbn [fst snd] in *.
    destruct ok; [|done]. apply IH; [done|lia..].
  - rewrite !(st_bind_run world_errno). cbn [fst snd world_errno st_gets].
    destruct (Z.eqb_spec (k_errno (w_kernel w1)) EINTR) as [E|]; [|done].
    destruct P as [P|[_ P]]; [apply IH; [done|lia..]|]. rewrite P in E. done.
Qed.

Lemma accept_loop_fuel f1 f2 n w : driver_ok (w_driver w) -> (answers w < f1)%nat -> (answers w < f2)%nat ->
  accept_loop zval_get_long f1 n w = accept_loop zval_get_long f2 n w.
Proof.
  revert f2 n w. induction f1 as [|f1 IH]; intros f2 n w Hd H1 H2; [lia|]. destruct f2 as [|f2]; [lia|].
  cbn [accept_loop]. rewrite !(st_bind_run get_server), !(st_bind_run (st_gets w_stopped)). cbn [fst snd get_server st_gets].
  destruct (negb _); [done|]. rewrite !(st_bind_run (websocket_server_accept_connection _)).
  pose proof (accept_less w Hd) as P. destruct (any_answers _ w accept_any Hd) as [Hd1 _]. cbv zeta in P.
  destruct (websocket_server_accept_connection _ w) as [ok w1]. cbn [fst snd] in *.
  destruct ok; cbn [negb].
  - destruct P as [P|[? _]]; [apply IH; [done|lia..]|done].
  - rewrite !(st_bind_run no_exception). destruct (negb _); [done|].
    rewrite !(st_bind_run world_errno). cbn [fst snd world_errno no_exception st_gets].
    destruct (_ || _); [done|]. destruct (Z.eqb_spec (k_errno (w_kernel w1)) EINTR) as [E|]; [|done].
    destruct P as [P|[_ P]]; [apply IH; [done|lia..]|]. rewrite P in E. done.
Qed.

Lemma process_connections_any :
  relates any_step (websocket_server_process_connections getnameinfo sa_family AF_INET6 sha1 base64_encode
    base64_decode_ex zval_get_long : W _).
Proof. apply proc_any, process_connections_proc. Qed.

Lemma run_loop_fuel f1 f2 w : driver_ok (w_driver w) -> (answers w < f1)%nat -> (answers w < f2)%nat ->
  run_loop getnameinfo sa_family AF_INET6 sha1 base64_encode base64_decode_ex zval_get_long f1 w =
  run_loop getnameinfo sa_family AF_INET6 sha1 base64_encode base64_decode_ex zval_get_long f2 w.
Proof.
  revert f2 w. induction f1 as [|f1 IH]; intros f2 w Hd H1 H2; [lia|]. destruct f2 as [|f2]; [lia|].
  cbn [run_loop]. rewrite !(st_bind_run get_server), !(st_bind_run (st_gets w_stopped)). cbn [fst snd get_server st_gets].
  destruct (negb _); [done|]. rewrite !(st_bind_run (world_wait _)).
  pose proof (wait_less w WEBSOCKET_LOOP_TIMEOUT_USEC Hd) as P.
  destruct (any_answers _ w (quiet_any _ (world_wait_quiet WEBSOCKET_LOOP_TIMEOUT_USEC)) Hd) as [Hd1 _]. cbv zeta in P.
  destruct (world_wait _ w) as [[ready fd] w1]. cbn [fst snd] in *.
  destruct (Z.ltb_spec ready 0) as [R|R].
  - rewrite !(st_bind_run world_errno). cbn [fst snd world_errno st_gets].
    destruct (Z.eqb_spec (k_errno (w_kernel w1)) EINTR) as [E|]; [|done].
    destruct P as [P|[_ P]]; [apply IH; [done|lia..]|done].
  - destruct P as [P|[? _]]; [|lia].
    rewrite !(st_bind_run get_server). cbn [fst snd get_server st_gets].
    match goal with |- (?m ≫= _) w1 = _ =>
      assert (Hm : relates any_step m) by pres; rewrite !(st_bind_run m);
      destruct (any_answers _ w1 Hm Hd1) as [Hd2 A2]; destruct (m w1) as [ok w2] end. cbn [fst snd] in *. destruct ok; [|done]. cbn [negb].
    rewrite !(st_bind_run (websocket_server_process_connections _ _ _ _ _ _ _)).
    destruct (any_answers _ w2 process_connections_any Hd2) as [Hd3 A3].
    destruct (websocket_server_process_connections _ _ _ _ _ _ _ w2) as [ok w3]. cbn [fst snd] in *.
    destruct ok; [|done]. cbn [negb].
    rewrite !(st_bind_run (websocket_server_purge_closed_connections _ _ _)).
    destruct (any_answers _ w3 purge_any Hd3) as [Hd4 A4].
    destruct (websocket_server_purge_closed_connections _ _ _ w3) as [ok w4]. cbn [fst snd] in *.
    destruct ok; [|done]. apply IH; [done|lia..].
Qed.

(** ** The loop over the read buffer *)

(** No read buffer grows. *)
Definition input_step w w' : Prop :=
  driver_ok (w_driver w) -> driver_ok (w_driver w') /\
  forall h, zlen (c_read_buffer (conn_of h w')) <= zlen (c_read_buffer (conn_of h w)).

#[local] Instance input_step_preorder : PreOrder input_step.
Proof.
  split; [by intros w Hd|]. intros w1 w2 w3 A B Hd. destruct (A Hd) as [A1 A2]. destruct (B A1) as [B1 B2].
  split; [done|]. intros h. etransitivity; [apply B2|apply A2].
Qed.

Lemma user_input {A} (m : W A) : relates user_step m -> relates input_step m.
Proof.
  intros H w Hd. destruct (H w Hd) as ([] & O & _). split; [done|]. intros h.
  destruct (O h) as [[]|[]].
  - destruct cst_read as [->| ->]; zlia.
  - rewrite dead_read. zlia.
Qed.

Lemma quiet_input {A} (m : W A) : relates quiet_step m -> relates input_step m.
Proof. intros. by apply user_input, quiet_user_step. Qed.

Lemma mod_connection_input h f : (forall c, zlen (c_read_buffer (f c)) <= zlen (c_read_buffer c)) ->
  relates input_step (mod_connection h f : W _).
Proof.
  intros Hf w Hd. split; [done|]. intros h'. unfold mod_connection, st_modify. cbn [snd].
  rewrite conn_of_insert. destruct (decide (h' = h)) as [->|]; [apply Hf|done].
Qed.
Hint Resolve user_input quiet_input : pres.
Hint Extern 2 (relates input_step (mod_connection _ _)) =>
  apply mod_connection_input; intros ?; cbn; reflexivity : pres.

Lemma on_conn_input {A} h (m : ST (cstate D) A) : relates cs_step m -> relates input_step (on_conn h m : W A).
Proof. intros. by apply quiet_input, on_conn_step. Qed.
Hint Resolve on_conn_input : pres.

Lemma call_user_input ev f : relates input_step (call_user getnameinfo sa_family AF_INET6 ev f : W _).
Proof.
  unfold call_user. pres. by intros w Hd.
Qed.
Hint Resolve call_user_input : pres.

Lemma handle_frame_input h frame :
  relates input_step (websocket_server_handle_frame getnameinfo sa_family AF_INET6 zval_get_long h frame : W _).
Proof.
  unfold websocket_server_handle_frame, websocket_server_handle_data_frame, websocket_server_call_message_handler,
    with_reference. pres.
Qed.

Lemma discard_shrinks n c : 0 < n -> (0 < zlen (c_read_buffer c)) ->
  zlen (c_read_buffer (websocket_connection_discard_read_bytes n c)) < zlen (c_read_buffer c).
Proof.
  intros Hn Hc. unfold websocket_connection_discard_read_bytes.
  destruct (Z.leb_spec (zlen (c_read_buffer c)) n); cbn; zlia.
Qed.

Lemma conn_of_mod h f w : conn_of h (mod_connection h f w).2 = f (conn_of h w).
Proof. unfold mod_connection, st_modify. cbn [snd]. rewrite conn_of_insert. by rewrite decide_True. Qed.

Lemma buffered_frames_loop_fuel f1 f2 h max w : driver_ok (w_driver w) ->
  zlen (c_read_buffer (conn_of h w)) < Z.of_nat f1 -> zlen (c_read_buffer (conn_of h w)) < Z.of_nat f2 ->
  buffered_frames_loop getnameinfo sa_family AF_INET6 zval_get_long f1 h max w =
  buffered_frames_loop getnameinfo sa_family AF_INET6 zval_get_long f2 h max w.
Proof.
  revert f2 w. induction f1 as [|f1 IH]; intros f2 w Hd H1 H2; [zlia|]. destruct f2 as [|f2]; [zlia|].
  cbn [buffered_frames_loop]. rewrite !(st_bind_run (get_connection h)). cbn [fst snd get_connection st_gets].
  destruct (c_open _ && _ && _ && (0 <? _)) eqn:Hc; [|done]. apply andb_true_iff in Hc as [_ Hc]. cbn [negb].
  destruct (websocket_server_parse_frame _ _) as [|frame| | |] eqn:Hp; [done| |done..].
  apply parse_frame_consumed in Hp as [[Hp _] _].
  rewrite !(st_bind_run (mod_connection _ _)), !(st_bind_run (websocket_server_handle_frame _ _ _ _ _ _)).
  match goal with |- context [websocket_server_handle_frame _ _ _ _ _ _ ?w0] =>
    destruct (handle_frame_input h frame w0 Hd) as [Hd2 Hi]; specialize (Hi h) end.
  rewrite conn_of_mod in Hi.
  pose proof (discard_shrinks (sf_bytes_consumed frame) (conn_of h w) ltac:(lia) ltac:(lia)).
  destruct (websocket_server_handle_frame _ _ _ _ _ _ _) as [ok w2]. cbn [fst snd] in *.
  destruct ok; [|done]. apply IH; [done|lia..].
Qed.

(** ** The loops over the array of connections *)

Lemma close_at_connections i b w : driver_ok (w_driver w) ->
  s_connections (w_server (websocket_server_close_connection_at getnameinfo sa_family AF_INET6 i b w).2) =
  delete i (s_connections (w_server w)).
Proof.
  intros Hd. unfold websocket_server_close_connection_at. rewrite (st_bind_run get_server). cbn [fst snd get_server st_gets].
  destruct (s_connections (w_server w) !! i) as [h|] eqn:Hi.
  2:{ cbn. rewrite delete_take_drop. apply lookup_ge_None in Hi. by rewrite take_ge, drop_ge, app_nil_r by lia. }
  rewrite (st_bind_run (mod_server _)).
  match goal with |- context [(?m (mod_server ?f w).2).2] =>
    assert (Hm : relates proc_step m); [|destruct (Hm (mod_server f w).2 Hd) as [[[E|E] _ _ _ _ _ _] _]; by rewrite E] end.
  assert (Hu : forall fd, relates proc_step (world_unwatch fd : W ()))
    by (intros; apply user_proc_step, quiet_user_step, world_unwatch_quiet).
  assert (Hr : relates proc_step (release_connection h : W ()))
    by (apply user_proc_step, quiet_user_step, release_step).
  pres.
Qed.

Definition connection_count w : nat := length (s_connections (w_server w)).

Lemma close_at_count i b w h : driver_ok (w_driver w) -> s_connections (w_server w) !! i = Some h ->
  let w' := (websocket_server_close_connection_at getnameinfo sa_family AF_INET6 i b w).2 in
  driver_ok (w_driver w') /\ S (connection_count w') = connection_count w.
Proof.
  intros Hd Hi. unfold connection_count. cbv zeta. rewrite (close_at_connections i b w Hd).
  destruct (close_at_any i b w Hd) as [Hd' _]. split; [done|].
  rewrite length_delete by done. apply lookup_lt_Some in Hi. lia.
Qed.

Lemma purge_loop_fuel f1 f2 i w : driver_ok (w_driver w) ->
  (connection_count w - i < f1)%nat -> (connection_count w - i < f2)%nat ->
  purge_loop getnameinfo sa_family AF_INET6 f1 i w = purge_loop getnameinfo sa_family AF_INET6 f2 i w.
Proof.
  revert f2 i w. induction f1 as [|f1 IH]; intros f2 i w Hd H1 H2; [lia|]. destruct f2 as [|f2]; [lia|].
  cbn [purge_loop]. rewrite !(st_bind_run get_server). cbn [fst snd get_server st_gets].
  destruct (s_connections (w_server w) !! i) as [h|] eqn:Hi; [|done].
  pose proof (lookup_lt_Some _ _ _ Hi). fold (connection_count w) in *.
  rewrite !(st_bind_run (get_connection h)). cbn [fst snd get_connection st_gets].
  destruct (c_open (conn_of h w)); cbn [negb]; [apply IH; [done|lia..]|].
  rewrite !(st_bind_run (websocket_server_close_connection_at _ _ _ _ _)).
  destruct (close_at_count i true w h Hd Hi) as [Hd' Hc].
  destruct (websocket_server_close_connection_at _ _ _ _ _ w) as [ok w']. cbn [fst snd] in *.
  destruct ok; [|done]. apply IH; [done|lia..].
Qed.

Lemma close_all_loop_fuel f1 f2 b w : driver_ok (w_driver w) ->
  (connection_count w < f1)%nat -> (connection_count w < f2)%nat ->
  close_all_loop getnameinfo sa_family AF_INET6 f1 b w = close_all_loop getnameinfo sa_family AF_INET6 f2 b w.
Proof.
  revert f2 w. induction f1 as [|f1 IH]; intros f2 w Hd H1 H2; [lia|]. destruct f2 as [|f2]; [lia|].
  cbn [close_all_loop]. rewrite !(st_bind_run get_server). cbn [fst snd get_server st_gets].
  destruct (Z.ltb_spec 0 (zlen (s_connections (w_server w)))) as [Hn|]; [|done].
  destruct (lookup_lt_is_Some_2 (s_connections (w_server w)) (pred (length (s_connections (w_server w))))) as [h Hi];
    [unfold zlen in Hn; lia|].
  rewrite !(st_bind_run (websocket_server_close_connection_at _ _ _ _ _)).
  destruct (close_at_count _ b w h Hd Hi) as [Hd' Hc].
  destruct (websocket_server_close_connection_at _ _ _ _ _ w) as [ok w']. cbn [fst snd] in *.
  destruct ok; [|done]. apply IH; [done|lia..].
Qed.

Lemma send_bytes_loop_fuel f1 f2 fd buffer o k :
  (length (k_answers k) < f1)%nat -> (length (k_answers k) < f2)%nat ->
  send_bytes_loop f1 fd buffer o k = send_bytes_loop f2 fd buffer o k.
Proof.
  revert f2 o k. induction f1 as [|f1 IH]; intros f2 o k H1 H2; [lia|]. destruct f2 as [|f2]; [lia|].
  cbn [send_bytes_loop]. destruct (negb _); [done|].
  pose proof (sys_send_spec fd (zdrop o buffer) k) as S. destruct (sys_send _ _ _) as [n k'].
  destruct S as (_ & _ & _ & _ & Hl & _ & Hnil & _). cbv zeta in *.
  destruct (k_answers k) as [|a l] eqn:Ek.
  - destruct (Hnil eq_refl) as [-> ->]. done.
  - cbn [length pred] in *. repeat case_match; try done; apply IH; lia.
Qed.

(** C14. Every loop of the server ends: each stops for a reason of its own, and
    allowing it any number of further iterations changes neither its result nor
    its effects.  The loops over the kernel's answers (the event loop, accepting,
    the handshake, reading, sending) end because every iteration that continues
    has used one up; the loop over the read buffer because a frame takes at least
    six bytes; the loops over the array because every iteration removes or skips
    a connection. *)
Theorem loops_terminate (more : nat) w h fd buffer (notify : bool)
    (Hd : driver_ok (w_driver w)) :
  let fuel := (more + S (answers w))%nat in
  let options := s_options (w_server w) in
  let max := websocket_server_max_message_size zval_get_long options in
  run_loop getnameinfo sa_family AF_INET6 sha1 base64_encode base64_decode_ex zval_get_long fuel w =
  run_loop getnameinfo sa_family AF_INET6 sha1 base64_encode base64_decode_ex zval_get_long (S (answers w)) w /\
  accept_loop zval_get_long fuel 0 w = websocket_server_accept_pending zval_get_long w /\
  handshake_loop getnameinfo sa_family AF_INET6 sha1 base64_encode base64_decode_ex zval_get_long fuel h w =
  websocket_server_process_handshake getnameinfo sa_family AF_INET6 sha1 base64_encode base64_decode_ex
    zval_get_long h w /\
  frame_reads_loop getnameinfo sa_family AF_INET6 zval_get_long fuel h (read_limit max) w =
  websocket_server_process_frame_reads getnameinfo sa_family AF_INET6 zval_get_long h w /\
  send_bytes_loop fuel fd buffer 0 (w_kernel w) = websocket_server_send_bytes fd buffer (w_kernel w) /\
  buffered_frames_loop getnameinfo sa_family AF_INET6 zval_get_long
    (more + S (length (c_read_buffer (conn_of h w)))) h max w =
  websocket_server_process_buffered_frames getnameinfo sa_family AF_INET6 zval_get_long h w /\
  purge_loop getnameinfo sa_family AF_INET6 (more + S (connection_count w)) 0 w =
  websocket_server_purge_closed_connections getnameinfo sa_family AF_INET6 w /\
  close_all_loop getnameinfo sa_family AF_INET6 (more + S (connection_count w)) notify w =
  websocket_server_close_all_connections getnameinfo sa_family AF_INET6 notify w.
Proof.
  cbv zeta. split_and!.
  - apply run_loop_fuel; [done|lia..].
  - apply accept_loop_fuel; [done|unfold answers; lia..].
  - apply handshake_loop_fuel; unfold answers; lia.
  - apply frame_reads_loop_fuel; [done|unfold answers; lia..].
  - apply send_bytes_loop_fuel; unfold answers; lia.
  - apply buffered_frames_loop_fuel; [done|unfold zlen; lia..].
  - apply purge_loop_fuel; [done|unfold connection_count; lia..].
  - apply close_all_loop_fuel; [done|unfold connection_count; lia..].
Qed.
End Termination.

(** Reading the echo client's frames with fuel to spare. *)
Lemma loops_terminate_witness :
  let w := live_world live_conn [AOk 0 [0x81; 0x82; 0; 0; 0; 0; 72; 105]; AOk 100 []; AErr EAGAIN] in
  frame_reads_loop no_names ipv4 10 (fun z => z) 9 0 (read_limit 16777216) w =
  websocket_server_process_frame_reads no_names ipv4 10 (fun z => z) 0 w.
Proof.
  set (w := live_world _ _).
  destruct (loops_terminate no_names ipv4 10 (fun x => x) (fun x => x) example_decode (fun z => z) 5 w 0 0 [] true
    (live_ok _ _)) as (_ & _ & _ & E & _).
  change (5 + S (answers w))%nat with 9%nat in E.
  change (websocket_server_max_message_size _ _) with 16777216 in E. exact E.
Defined.
