(* ===== verification/ServerInvariant.v ===== *)
(** * The structure of the server between two steps

    Which connections the array holds, which objects have a socket, and that the
    array is never written out of its bounds; kept by every step of the event
    loop, whatever the handlers do. *)
From stdpp Require Import gmap.
From S2P Require Import Prelude Constants Words Utf8 Mask Protocol Http Kernel Driver ConnState Connection.
From S2P Require Import ConnectionFacts Options Frames World Runtime RuntimeFacts WorldFacts Server Scenario Termination.
From S2P Require Import SelectDriver.

Section ServerInvariant.
Context {D U V : Type} `{HD : Driver D} `{!DriverLaws D}.
Context (getnameinfo : bytes -> option (bytes * bytes)) (sa_family : bytes -> Z) (AF_INET6 : Z).
Context (getaddrinfo : bytes -> bytes -> option (list bytes)).
Context (sha1 base64_encode : bytes -> bytes) (base64_decode_ex : bytes -> option bytes).
Context (zval_get_long : V -> Z).
Local Abbreviation W A := (ST (world D U V) A).
Implicit Types (w : world D U V) (local : option Z).

Definition max_connections w : Z := websocket_server_max_connections zval_get_long (s_options (w_server w)).

(** [local]: the connection being accepted or closed, not in the array. *)
Record server_inv (local : option Z) w : Prop := {
  si_driver : driver_ok (w_driver w);
  si_reusable : s_reusable_connection (w_server w) = None;
  si_nodup : NoDup (s_connections (w_server w));
  si_handles : forall h, h ∈ s_connections (w_server w) -> 0 <= h < w_objects w;
  si_objects : 0 <= w_objects w;
  si_local : forall h, local = Some h -> 0 <= h < w_objects w /\ h ∉ s_connections (w_server w);
  si_fds : forall h, 0 <= c_fd (conn_of h w) -> h ∈ s_connections (w_server w) \/ local = Some h;
  si_max : zlen (s_connections (w_server w)) + (match local with Some _ => 1 | None => 0 end) <= max_connections w;
  si_capacity : zlen (s_connections (w_server w)) <= s_connection_capacity (w_server w)
}.

(** ** Steps that keep the array *)

Lemma si_proc local w w' : proc_step w w' -> server_inv local w -> server_inv local w'.
Proof.
  intros P []. destruct (P si_driver0) as [[S Ho _ _ _ Hd _] F].
  assert (E : s_connections (w_server w') = s_connections (w_server w) /\
              s_reusable_connection (w_server w') = s_reusable_connection (w_server w) /\
              s_options (w_server w') = s_options (w_server w) /\
              s_connection_capacity (w_server w') = s_connection_capacity (w_server w))
    by (destruct S as [->| ->]; by split_and!).
  destruct E as (E1 & E2 & E3 & E4).
  constructor; unfold max_connections in *; rewrite ?E1, ?E2, ?E3, ?E4, ?Ho; try done.
  intros h Hh. apply si_fds0. destruct (F h); lia.
Qed.

Lemma hoare_proc {A} local (m : W A) : relates proc_step m -> hoare (server_inv local) m (fun _ => server_inv local).
Proof. intros H. eapply hoare_relates; [exact H|]. intros _ w w' I P. by apply (si_proc local w). Qed.

Lemma quiet_proc {A} (m : W A) : relates quiet_step m -> relates proc_step m.
Proof. intros. by apply user_proc_step, quiet_user_step. Qed.

Definition room w : Prop := zlen (s_connections (w_server w)) < max_connections w.

Lemma room_proc w w' : driver_ok (w_driver w) -> proc_step w w' -> room w -> room w'.
Proof.
  intros Hd P. destruct (P Hd) as [[[S|S] _ _ _ _ _ _] _]; unfold room, max_connections; by rewrite S.
Qed.

Lemma hoare_room {A} (m : W A) : relates proc_step m ->
  hoare (fun w => server_inv None w /\ room w) m (fun _ w => server_inv None w /\ room w).
Proof.
  intros H. eapply hoare_relates; [exact H|]. intros _ w w' [I R] P.
  split; [by apply (si_proc None w)|by apply (room_proc w w' (si_driver _ _ I))].
Qed.

(** ** Giving up a socket *)

Lemma on_conn_run {A} h (m : ST (cstate D) A) w :
  let r := m (mk_cs (conn_of h w) (w_driver w) (w_kernel w)) in
  (on_conn h m w).1 = r.1 /\
  w_server (on_conn h m w).2 = w_server w /\ w_objects (on_conn h m w).2 = w_objects w /\
  w_driver (on_conn h m w).2 = cs_driver r.2 /\ w_kernel (on_conn h m w).2 = cs_kernel r.2 /\
  w_exception (on_conn h m w).2 = w_exception w /\
  (forall h', conn_of h' (on_conn h m w).2 = if decide (h' = h) then cs_conn r.2 else conn_of h' w).
Proof.
  unfold on_conn. cbv zeta. destruct (m _) as [x [c d k]]. cbn. split_and!; try done.
  intros h'. change (conn_of h' (set_w_heap (<[h:=c]> (w_heap w)) w) = if decide (h' = h) then c else conn_of h' w).
  apply conn_of_insert.
Qed.

Lemma close_socket_closes h w : driver_ok (w_driver w) ->
  c_fd (conn_of h (on_conn h websocket_connection_close_socket w).2) < 0.
Proof.
  intros Hd. destruct (on_conn_run h websocket_connection_close_socket w) as (_ & _ & _ & _ & _ & _ & E).
  rewrite E, decide_True by done. destruct (close_socket_spec (mk_cs (conn_of h w) (w_driver w) (w_kernel w)) Hd) as [C _].
  destruct C. done.
Qed.

Lemma inv_released h w : server_inv (Some h) w -> c_fd (conn_of h w) < 0 -> server_inv None w.
Proof.
  intros [] Hfd. constructor; try done; [|lia]. intros h' Hh'. destruct (si_fds0 h' Hh') as [?|E]; [by left|].
  injection E as <-. lia.
Qed.

Lemma close_socket_inv h :
  hoare (server_inv (Some h)) (on_conn h websocket_connection_close_socket : W _) (fun _ => server_inv None).
Proof.
  intros w I. apply (inv_released h); [|apply close_socket_closes, (si_driver _ _ I)].
  revert w I. by apply hoare_proc, quiet_proc, on_conn_step, close_socket_step.
Qed.

Lemma release_inv local h : hoare (server_inv local) (release_connection h : W _) (fun _ => server_inv local).
Proof. by apply hoare_proc, quiet_proc, release_step. Qed.

(** ** Finding a connection *)

Lemma find_connection_in fd l w h : find_connection fd l w = Some h -> h ∈ l.
Proof.
  induction l as [|h' l IH]; cbn [find_connection]; [done|]. destruct (_ =? fd); [intros [= ->]; left|].
  intros E. right. by apply IH.
Qed.

(** ** Leaving the array *)

Lemma remove_inv i h w : server_inv None w -> s_connections (w_server w) !! i = Some h ->
  server_inv (Some h) ((mod_server (set_connections (delete i (s_connections (w_server w)))) : W ()) w).2.
Proof.
  intros [] Hi. cbn. destruct (delete_members i h _ Hi) as (Hin & Hof & Hlen).
  pose proof (delete_NoDup i h _ si_nodup0 Hi) as Hnot.
  constructor; cbn; try done; unfold max_connections; cbn.
  - by apply Hnot.
  - auto.
  - intros h' [= <-]. split; [|by apply Hnot]. apply si_handles0, list_elem_of_lookup. by exists i.
  - intros h' Hh'. destruct (si_fds0 h' Hh') as [H|H]; [|done]. destruct (Hin h' H) as [?| ->]; auto.
  - unfold max_connections in si_max0. lia.
  - lia.
Qed.

Lemma close_at_inv i b :
  hoare (server_inv None) (websocket_server_close_connection_at getnameinfo sa_family AF_INET6 i b : W _)
    (fun _ => server_inv None).
Proof.
  intros w I. unfold websocket_server_close_connection_at. rewrite (st_bind_run get_server). cbn [fst snd get_server st_gets].
  destruct (s_connections (w_server w) !! i) as [h|] eqn:Hi; [|done].
  pose proof (remove_inv i h w I Hi) as I1. rewrite (st_bind_run (mod_server _)).
  match goal with |- server_inv None (?m (mod_server _ w).2).2 =>
    enough (H : hoare (server_inv (Some h)) m (fun _ => server_inv None)) by (by apply H) end.
  clear I1. generalize (w_server w). intros s.
  assert (Hu : forall fd, relates proc_step (world_unwatch fd : W ())) by (intros; apply quiet_proc, world_unwatch_quiet).
  eapply hoare_bind; [apply hoare_proc; pres|intros ?].
  eapply hoare_bind; [apply hoare_proc; pres|intros c].
  eapply hoare_bind; [apply hoare_proc; pres|intros ?].
  eapply hoare_bind; [apply hoare_proc; pres|intros ok].
  eapply hoare_bind; [apply close_socket_inv|intros ?].
  eapply hoare_bind; [apply release_inv|intros ?]. by apply hoare_ret.
Qed.

Lemma purge_loop_inv fuel i :
  hoare (server_inv None) (purge_loop getnameinfo sa_family AF_INET6 fuel i : W _) (fun _ => server_inv None).
Proof.
  revert i. induction fuel as [|fuel IH]; intros i; cbn [purge_loop]; [by apply hoare_ret|].
  eapply hoare_bind; [apply hoare_proc; pres|intros s].
  destruct (s_connections s !! i) as [h|]; [|by apply hoare_ret].
  eapply hoare_bind; [apply hoare_proc; pres|intros c]. destruct (negb _); [|apply IH].
  eapply hoare_bind; [apply close_at_inv|intros ok]. destruct (negb ok); [by apply hoare_ret|apply IH].
Qed.

Lemma purge_inv :
  hoare (server_inv None) (websocket_server_purge_closed_connections getnameinfo sa_family AF_INET6 : W _)
    (fun _ => server_inv None).
Proof.
  unfold websocket_server_purge_closed_connections.
  eapply hoare_bind; [apply hoare_proc; pres|intros s]. apply purge_loop_inv.
Qed.

Lemma close_all_loop_inv fuel b :
  hoare (server_inv None) (close_all_loop getnameinfo sa_family AF_INET6 fuel b : W _) (fun _ => server_inv None).
Proof.
  induction fuel as [|fuel IH]; cbn [close_all_loop]; [by apply hoare_ret|].
  eapply hoare_bind; [apply hoare_proc; pres|intros s]. destruct (0 <? _); [|by apply hoare_ret].
  eapply hoare_bind; [apply close_at_inv|intros ok]. destruct (negb ok); [by apply hoare_ret|apply IH].
Qed.

(** ** Entering the array *)

(** The object for the new connection: its handle, and the invariant. *)
Lemma create_zval_inv :
  hoare (fun w => server_inv None w /\ room w) (websocket_server_create_connection_zval : W _)
    (fun h w => (server_inv None w /\ room w) /\ 0 <= h < w_objects w /\ h ∉ s_connections (w_server w)).
Proof.
  intros w [[] R]. unfold websocket_server_create_connection_zval. rewrite (st_bind_run get_server).
  cbn [fst snd get_server st_gets]. rewrite si_reusable0, !st_bind_run. cbn. split_and!; try lia; try done.
  - constructor; cbn; try done; try lia.
    + intros h Hh. specialize (si_handles0 h Hh). lia.
    + intros h. set (w2 := set_w_objects _ _).
      change (0 <= c_fd (conn_of h w2) -> (h ∈ s_connections (w_server w)) \/ None = Some h).
      change (conn_of h w2) with (conn_of h (set_w_heap (<[w_objects w := websocket_connection_create_object]> (w_heap w)) w)).
      rewrite conn_of_insert. destruct (decide _); [cbn; lia|]. apply si_fds0.
  - intros Hh. specialize (si_handles0 _ Hh). lia.
Qed.

Definition fresh_conn h w : Prop := 0 <= h < w_objects w /\ h ∉ s_connections (w_server w).

Lemma open_inv h id addr fd :
  hoare (fun w => (server_inv None w /\ room w) /\ fresh_conn h w)
    (on_conn h (websocket_connection_open id addr fd) : W _) (fun _ => server_inv (Some h)).
Proof.
  intros w [[I R] [Hh Hn]]. destruct (on_conn_run h (websocket_connection_open id addr fd) w) as (_ & E1 & E2 & E3 & _ & _ & E).
  destruct (open_any id addr fd (mk_cs (conn_of h w) (w_driver w) (w_kernel w)) (si_driver _ _ I)) as [Hd _].
  rewrite <- E3 in Hd. revert E1 E2 Hd E. generalize (on_conn h (websocket_connection_open (D := D) id addr fd) w).
  intros [[] w'] E1 E2 Hd E. cbn [snd] in *. destruct I.
  constructor; unfold max_connections in *; rewrite ?E1, ?E2; try done.
  - by intros h' [= <-].
  - intros h'. rewrite E. destruct (decide (h' = h)) as [->|]; [by right|]. intros Hf. left.
    by destruct (si_fds0 h' Hf).
  - unfold room, max_connections in R. lia.
Qed.

Lemma hoare_same {A} s (m : W A) : relates proc_step m ->
  hoare (fun w => server_inv None w /\ same_server s (w_server w)) m
    (fun _ w => server_inv None w /\ same_server s (w_server w)).
Proof.
  intros H. eapply hoare_relates; [exact H|]. intros _ w w' [I S] P.
  split; [by apply (si_proc None w)|]. destruct (P (si_driver _ _ I)) as [[S' _ _ _ _ _ _] _].
  by transitivity (w_server w).
Qed.

Definition spare w : Prop := zlen (s_connections (w_server w)) < s_connection_capacity (w_server w).

Lemma hoare_spare {A} h (m : W A) : relates proc_step m ->
  hoare (fun w => server_inv (Some h) w /\ spare w) m (fun _ w => server_inv (Some h) w /\ spare w).
Proof.
  intros H. eapply hoare_relates; [exact H|]. intros _ w w' [I S] P.
  split; [by apply (si_proc (Some h) w)|].
  destruct (P (si_driver _ _ I)) as [[[S'|S'] _ _ _ _ _ _] _]; unfold spare; by rewrite S'.
Qed.

Lemma capacity_inv h :
  hoare (server_inv (Some h)) (websocket_server_ensure_connection_capacity : W _)
    (fun ok w => ok = true /\ server_inv (Some h) w /\ spare w).
Proof.
  intros w I. unfold websocket_server_ensure_connection_capacity. rewrite (st_bind_run get_server).
  cbn [fst snd get_server st_gets]. pose proof (zlen_nonneg (s_connections (w_server w))).
  pose proof (si_capacity _ _ I).
  destruct (Z.ltb_spec (zlen (s_connections (w_server w))) (s_connection_capacity (w_server w))) as [Hlt|Hge]; [done|].
  rewrite st_bind_run. cbn [fst snd mod_server st_modify mret ST_ret].
  assert (zlen (s_connections (w_server w)) <
          (if s_connection_capacity (w_server w) =? 0 then 8 else s_connection_capacity (w_server w) * 2)).
  { destruct (Z.eqb_spec (s_connection_capacity (w_server w)) 0); lia. }
  split_and!; [done| |done]. destruct I. constructor; try done. cbn. lia.
Qed.

Lemma append_inv h w : server_inv (Some h) w -> spare w ->
  server_inv None ((mod_server (fun s => set_connections (s_connections s ++ [h]) s) : W ()) w).2.
Proof.
  unfold spare. intros [] Hc. destruct (si_local0 h eq_refl) as [Hh Hn]. cbn. constructor; cbn; try done.
  - apply NoDup_app. split_and!; [done| |apply NoDup_singleton]. intros x Hx Hx2.
    apply list_elem_of_singleton in Hx2 as ->. done.
  - intros x Hx. apply elem_of_app in Hx as [Hx|Hx]; [by apply si_handles0|].
    apply list_elem_of_singleton in Hx as ->. done.
  - intros x Hx. left. apply elem_of_app. destruct (si_fds0 x Hx) as [?|[= <-]]; [by left|right].
    by apply list_elem_of_singleton.
  - unfold max_connections in *. cbn in *. rewrite zlen_app. cbn. zlia.
  - rewrite zlen_app. zlia.
Qed.

Lemma accept_inv :
  hoare (server_inv None) (websocket_server_accept_connection zval_get_long : W _) (fun _ => server_inv None).
Proof.
  unfold websocket_server_accept_connection, send_bytes, close_fd, now_usec.
  eapply hoare_bind with (R := fun s w => server_inv None w /\ same_server s (w_server w)).
  { apply hoare_gets. intros w I. split; [done|by left]. }
  intros s. eapply hoare_bind; [apply hoare_same; pres|intros a]. destruct a as [client addr|e]; [|by apply hoare_ret; intros ? []].
  destruct (client <? 0); [by apply hoare_ret; intros ? []|].
  eapply hoare_bind; [apply hoare_same; pres|intros ?].
  destruct (Z.leb_spec (websocket_server_max_connections zval_get_long (s_options s)) (zlen (s_connections s))) as [|Hroom].
  { eapply hoare_conseq; [apply hoare_same with (s := s)|done|by intros ? ? []]. pres. }
  eapply hoare_conseq with (P' := fun w => server_inv None w /\ room w) (Q' := fun _ => server_inv None); [|
    |done].
  2:{ intros w [I [S|S]]; (split; [done|]); unfold room, max_connections; by rewrite S. }
  eapply hoare_bind; [apply hoare_room; pres|intros ok]. destruct (negb ok).
  { eapply hoare_conseq; [apply hoare_room|done|by intros ? ? []]. pres. }
  eapply hoare_bind; [apply create_zval_inv|intros h].
  eapply hoare_bind with (R := fun _ w => (server_inv None w /\ room w) /\ fresh_conn h w).
  { intros w [[I R] F]. unfold next_connection_id. rewrite st_bind_run. cbn. split; [|done].
    split; [by destruct I|done]. }
  intros id. eapply hoare_bind; [apply open_inv|intros ?].
  eapply hoare_bind; [apply hoare_proc; pres|intros now].
  eapply hoare_bind; [apply hoare_proc; pres|intros ?].
  eapply hoare_bind; [apply capacity_inv|intros ok2].
  destruct ok2; cbn [negb]; [|by intros w []].
  eapply hoare_conseq with (P' := fun w => server_inv (Some h) w /\ spare w) (Q' := fun _ => server_inv None);
    [|by intros w []|done].
  eapply hoare_bind; [apply hoare_spare, quiet_proc, world_watch_read_quiet|intros ok3]. destruct (negb ok3).
  - eapply hoare_conseq with (P' := server_inv (Some h)) (Q' := fun _ => server_inv None); [|by intros w []|done].
    eapply hoare_bind; [apply close_socket_inv|intros ?].
    eapply hoare_bind; [apply release_inv|intros ?]. apply hoare_proc. pres.
  - intros w [I S]. rewrite st_bind_run. by apply append_inv.
Qed.

Lemma accept_loop_inv fuel n :
  hoare (server_inv None) (accept_loop zval_get_long fuel n : W _) (fun _ => server_inv None).
Proof.
  revert n. induction fuel as [|fuel IH]; intros n; cbn [accept_loop]; [by apply hoare_ret|].
  eapply hoare_bind; [apply hoare_proc; pres|intros s]. eapply hoare_bind; [apply hoare_proc; pres|intros stopped].
  destruct (negb _); [by apply hoare_ret|]. eapply hoare_bind; [apply accept_inv|intros ok].
  destruct (negb ok); [|apply IH]. eapply hoare_bind; [apply hoare_proc; pres|intros ne].
  destruct (negb ne); [by apply hoare_ret|]. eapply hoare_bind; [apply hoare_proc; pres|intros e].
  destruct (_ || _); [by apply hoare_ret|]. destruct (e =? EINTR); [apply IH|]. apply hoare_proc. pres.
Qed.

Lemma accept_pending_inv :
  hoare (server_inv None) (websocket_server_accept_pending zval_get_long : W _) (fun _ => server_inv None).
Proof.
  unfold websocket_server_accept_pending. eapply hoare_bind; [apply hoare_proc; pres|intros f]. apply accept_loop_inv.
Qed.

(** ** The event loop as a step relation *)

(** One execution of the loop's body: [true] when the loop goes on. *)
Definition loop_iteration : W bool :=
  s ← get_server;
  stopped ← st_gets w_stopped;
  if negb (s_running s && negb stopped) then mret false else
  r ← world_wait WEBSOCKET_LOOP_TIMEOUT_USEC;
  let '(ready, ready_fd) := r in
  if ready <? 0 then
    e ← world_errno;
    if e =? EINTR then mret true else throw (ExServer LoopFailed);; mret false
  else
  s ← get_server;
  ok ← (if (0 <? ready) && (ready_fd =? s_listener_fd s) then websocket_server_accept_pending zval_get_long
        else if (0 <? ready) && (0 <=? ready_fd)
        then websocket_server_process_connection_fd getnameinfo sa_family AF_INET6 sha1 base64_encode
               base64_decode_ex zval_get_long ready_fd
        else mret true);
  if negb ok then mret false else
  ok ← websocket_server_process_connections getnameinfo sa_family AF_INET6 sha1 base64_encode base64_decode_ex
         zval_get_long;
  if negb ok then mret false else
  websocket_server_purge_closed_connections getnameinfo sa_family AF_INET6.

Local Abbreviation run_loop := (run_loop getnameinfo sa_family AF_INET6 sha1 base64_encode base64_decode_ex zval_get_long).

Lemma run_loop_iteration fuel w :
  run_loop (S fuel) w = (if (loop_iteration w).1 then run_loop fuel (loop_iteration w).2
                         else ((), (loop_iteration w).2)).
Proof.
  cbn [Runtime.run_loop]. unfold loop_iteration. rewrite !(st_bind_run get_server), !(st_bind_run (st_gets w_stopped)).
  cbn [fst snd get_server st_gets]. destruct (negb _); [done|]. rewrite !(st_bind_run (world_wait _)).
  destruct (world_wait _ w) as [[ready fd] w1]. cbn [fst snd]. destruct (ready <? 0).
  - rewrite !(st_bind_run world_errno). cbn [fst snd world_errno st_gets]. destruct (_ =? EINTR); [done|].
    by rewrite st_bind_run.
  - rewrite !(st_bind_run get_server). cbn [fst snd get_server st_gets].
    match goal with |- (?m ≫= _) w1 = _ => rewrite !(st_bind_run m); destruct (m w1) as [ok w2] end.
    cbn [fst snd]. destruct ok; cbn [negb]; [|done].
    rewrite !(st_bind_run (websocket_server_process_connections _ _ _ _ _ _ _)).
    destruct (websocket_server_process_connections _ _ _ _ _ _ _ w2) as [ok w3]. cbn [fst snd].
    destruct ok; cbn [negb]; [|done].
    rewrite (st_bind_run (websocket_server_purge_closed_connections _ _ _)).
    destruct (websocket_server_purge_closed_connections _ _ _ w3) as [[] w4]; done.
Qed.

(** The states between two iterations. *)
Inductive reachable w : world D U V -> Prop :=
| reachable_refl : reachable w w
| reachable_step w1 : reachable w w1 -> (loop_iteration w1).1 = true -> reachable w (loop_iteration w1).2.

(** The loop ends after an iteration from a reachable state. *)
Lemma run_loop_reachable fuel w w1 : reachable w w1 ->
  exists w2, reachable w w2 /\ ((run_loop fuel w1).2 = w2 \/ (run_loop fuel w1).2 = (loop_iteration w2).2).
Proof.
  revert w1. induction fuel as [|fuel IH]; intros w1 R; [by exists w1; split; [|left]|].
  rewrite run_loop_iteration. destruct (loop_iteration w1).1 eqn:E; [apply IH; by apply reachable_step|].
  exists w1. split; [done|by right].
Qed.

Lemma loop_iteration_inv : hoare (server_inv None) loop_iteration (fun _ => server_inv None).
Proof.
  unfold loop_iteration.
  eapply hoare_bind; [apply hoare_proc; pres|intros s]. eapply hoare_bind; [apply hoare_proc; pres|intros stopped].
  destruct (negb _); [by apply hoare_ret|].
  eapply hoare_bind; [apply hoare_proc, quiet_proc, world_wait_quiet|intros [ready fd]]. destruct (ready <? 0).
  - eapply hoare_bind; [apply hoare_proc; pres|intros e]. destruct (e =? EINTR); [by apply hoare_ret|].
    apply hoare_proc. pres.
  - eapply hoare_bind; [apply hoare_proc; pres|intros s2].
    eapply hoare_bind with (R := fun _ => server_inv None); [|intros ok].
    { destruct (_ && _); [apply accept_pending_inv|]. destruct (_ && _); [|by apply hoare_ret]. apply hoare_proc. pres. }
    destruct (negb ok); [by apply hoare_ret|].
    eapply hoare_bind; [apply hoare_proc; pres|intros ok2]. destruct (negb ok2); [by apply hoare_ret|]. apply purge_inv.
Qed.

Lemma reachable_inv w w' : server_inv None w -> reachable w w' -> server_inv None w'.
Proof. intros I R. induction R; [done|]. by apply loop_iteration_inv. Qed.

(** C11. The invariant of the server.  Between any two iterations of the event
    loop, whatever the clients send, the kernel answers and the handlers do: the
    driver's table is well formed; the array names distinct existing connections,
    at most [maxConnections] of them, and never more than it has room for; and no
    object outside the array has a socket. *)
Theorem server_invariant w w' (Hinv : server_inv None w) (Hr : reachable w w') : server_inv None w'.
Proof. by apply (reachable_inv w). Qed.

Lemma run_loop_inv fuel : hoare (server_inv None) (run_loop fuel) (fun _ => server_inv None).
Proof.
  intros w I. destruct (run_loop_reachable fuel w w (reachable_refl w)) as (w2 & R & [-> | ->]);
    pose proof (reachable_inv w w2 I R); [done|]. by apply loop_iteration_inv.
Qed.

(** ** Shutting down *)

(** Without the notification closing cannot fail. *)
Lemma close_at_silent i w : (websocket_server_close_connection_at getnameinfo sa_family AF_INET6 i false w).1 = true.
Proof.
  unfold websocket_server_close_connection_at. rewrite (st_bind_run get_server). cbn [fst snd get_server st_gets].
  destruct (s_connections (w_server w) !! i) as [h|]; [|done].
  rewrite !st_bind_run. cbn [andb fst mret ST_ret]. done.
Qed.

(** The array is empty afterwards, unless a notification failed. *)
Lemma close_all_empties b w : driver_ok (w_driver w) ->
  let r := websocket_server_close_all_connections getnameinfo sa_family AF_INET6 b w in
  (b = false -> r.1 = true) /\ (r.1 = true -> s_connections (w_server r.2) = []).
Proof.
  intros Hd. unfold websocket_server_close_all_connections. rewrite (st_bind_run get_server). cbn [fst snd get_server st_gets].
  assert (Hf : (connection_count w < S (length (s_connections (w_server w))))%nat) by (unfold connection_count; lia).
  revert Hf. generalize (S (length (s_connections (w_server w)))) as fuel. intros fuel. revert w Hd.
  induction fuel as [|fuel IH]; intros w Hd Hf; [lia|]. cbn [close_all_loop].
  rewrite (st_bind_run get_server). cbn [fst snd get_server st_gets].
  destruct (Z.ltb_spec 0 (zlen (s_connections (w_server w)))) as [Hn|Hn].
  2:{ split; [done|]. intros _. cbn. pose proof (zlen_nonneg (s_connections (w_server w))). apply zlen_0_inv. lia. }
  destruct (lookup_lt_is_Some_2 (s_connections (w_server w)) (pred (length (s_connections (w_server w))))) as [h Hi];
    [unfold zlen in Hn; lia|].
  rewrite (st_bind_run (websocket_server_close_connection_at _ _ _ _ _)).
  destruct (close_at_count getnameinfo sa_family AF_INET6 _ b w h Hd Hi) as [Hd' Hc].
  pose proof (close_at_silent (pred (length (s_connections (w_server w)))) w) as Hs. cbv zeta in Hc.
  destruct b.
  - destruct (websocket_server_close_connection_at _ _ _ _ _ w) as [[] w']; [|done].
    cbn [fst snd] in *. apply IH; [done|lia].
  - destruct (websocket_server_close_connection_at _ _ _ _ _ w) as [ok w']. cbn [fst snd] in *. subst ok.
    apply IH; [done|lia].
Qed.

(** Nothing is left open. *)
Record shut w : Prop := {
  shut_inv : server_inv None w;
  shut_connections : s_connections (w_server w) = [];
  shut_sockets : forall h, c_fd (conn_of h w) < 0;
  shut_listener : s_listener_fd (w_server w) < 0
}.

Lemma close_all_inv b :
  hoare (server_inv None) (websocket_server_close_all_connections getnameinfo sa_family AF_INET6 b : W _)
    (fun _ => server_inv None).
Proof.
  unfold websocket_server_close_all_connections. eapply hoare_bind; [apply hoare_proc; pres|intros s].
  apply close_all_loop_inv.
Qed.

(** Closing connections leaves the listener alone. *)
Definition listener_step w w' : Prop :=
  driver_ok (w_driver w) ->
  driver_ok (w_driver w') /\ s_listener_fd (w_server w') = s_listener_fd (w_server w).

#[local] Instance listener_step_preorder : PreOrder listener_step.
Proof.
  split; [by intros w Hd|]. intros w1 w2 w3 A B Hd. destruct (A Hd) as [A1 A2]. destruct (B A1). split; congruence.
Qed.

Lemma proc_listener {A} (m : W A) : relates proc_step m -> relates listener_step m.
Proof. intros H w Hd. destruct (H w Hd) as [[[S|S] _ _ _ _ ? _] _]; split; try done; by rewrite S. Qed.

Lemma quiet_listener {A} (m : W A) : relates quiet_step m -> relates listener_step m.
Proof. intros. by apply proc_listener, quiet_proc. Qed.
Hint Resolve proc_listener quiet_listener : pres.
Hint Extern 2 (relates listener_step (mod_server _)) => by intros ? ? : pres.
Hint Extern 2 (relates listener_step (mod_connection _ _)) => by intros ? ? : pres.
Hint Extern 2 (relates listener_step (on_conn _ _)) => apply quiet_listener, on_conn_step; eauto with pres : pres.

Lemma close_all_listener b :
  relates listener_step (websocket_server_close_all_connections getnameinfo sa_family AF_INET6 b : W _).
Proof.
  unfold websocket_server_close_all_connections. pres.
  match goal with |- relates _ (close_all_loop _ _ _ ?f _) => induction f end;
    cbn [close_all_loop]; unfold websocket_server_close_connection_at; pres.
Qed.

Lemma runtime_close_shuts b :
  hoare (server_inv None) (websocket_server_runtime_close getnameinfo sa_family AF_INET6 b : W _) (fun _ => shut).
Proof.
  unfold websocket_server_runtime_close.
  eapply hoare_bind with (R := fun s w => server_inv None w /\ s = w_server w); [by apply hoare_gets|intros s].
  eapply hoare_bind with (R := fun _ w => server_inv None w /\ s_listener_fd (w_server w) < 0).
  { intros w [I ->]. destruct (Z.leb_spec 0 (s_listener_fd (w_server w))); [|done].
    rewrite !st_bind_run. split; [|cbn; lia].
    pose proof (hoare_proc None (world_unwatch (s_listener_fd (w_server w)))
      (quiet_proc _ (world_unwatch_quiet _)) w I) as I1.
    pose proof (hoare_proc None (close_fd (s_listener_fd (w_server w))) ltac:(unfold close_fd; pres) _ I1) as I2.
    destruct I2. by constructor. }
  intros _ w [I Hl]. rewrite st_bind_run.
  pose proof (close_all_empties b w (si_driver _ _ I)) as [_ E1]. pose proof (close_all_inv b w I) as I1.
  destruct (close_all_listener b w (si_driver _ _ I)) as [_ L1].
  destruct (websocket_server_close_all_connections _ _ _ b w) as [ok w1]. cbn [fst snd] in *.
  assert (Hshut : forall w2, server_inv None w2 -> s_connections (w_server w2) = [] ->
    s_listener_fd (w_server w2) < 0 -> shut w2).
  { intros w2 I2 E2 L2. constructor; try done. intros h. destruct (Z.le_gt_cases 0 (c_fd (conn_of h w2))) as [Hh|]; [|lia].
    destruct (si_fds _ _ I2 h Hh) as [H|H]; [|done]. rewrite E2 in H. by apply not_elem_of_nil in H. }
  destruct ok; cbn [negb]; [cbn [snd mret ST_ret]; apply Hshut; [done|by apply E1|lia]|].
  rewrite st_bind_run. pose proof (close_all_empties false w1 (si_driver _ _ I1)) as [E2 E3].
  pose proof (close_all_inv false w1 I1) as I2. destruct (close_all_listener false w1 (si_driver _ _ I1)) as [_ L2].
  apply Hshut; [done|by apply E3, E2|]. cbn [snd mret ST_ret]. lia.
Qed.

(** ** The whole run *)

Lemma shut_close w : server_inv None w -> s_connections (w_server w) = [] -> s_listener_fd (w_server w) < 0 -> shut w.
Proof.
  intros I E L. constructor; try done. intros h. destruct (Z.le_gt_cases 0 (c_fd (conn_of h w))) as [Hh|]; [|lia].
  destruct (si_fds _ _ I h Hh) as [H|H]; [|done]. rewrite E in H. by apply not_elem_of_nil in H.
Qed.

Lemma listen_on_quiet k : quiet k (listen_on k).2.
Proof.
  unfold listen_on. pose proof (sys_open_quiet k) as Q. destruct (sys_open k) as [[fd ?|?] k1]; cbn in Q; [|done].
  destruct (fd <? 0); [done|]. pose proof (syscall_quiet k1) as Q1. pose proof (set_nonblocking_quiet (syscall k1).2) as Q2.
  destruct (websocket_server_set_nonblocking _) as [ok k3]; cbn [snd] in Q2.
  assert (Q3 : quiet k k3) by (transitivity k1; [done|by transitivity (syscall k1).2]).
  destruct (negb ok); cbn [snd]; [by transitivity k3; [|apply close_fd_quiet]|].
  pose proof (syscall_quiet k3) as Q4. destruct (syscall k3) as [[] k4]; cbn [snd] in *.
  - pose proof (syscall_quiet k4) as Q5. destruct (syscall k4) as [[] k5]; cbn [snd] in *.
    + transitivity k3; [done|by transitivity k4].
    + transitivity k3; [done|]. transitivity k4; [done|]. transitivity k5; [done|apply close_fd_quiet].
  - transitivity k3; [done|]. transitivity k4; [done|apply close_fd_quiet].
Qed.

Lemma listen_loop_quiet l k : quiet k (listen_loop l k).2.
Proof.
  revert k. induction l as [|a l IH]; intros k; cbn [listen_loop]; [done|].
  pose proof (listen_on_quiet k) as Q. destruct (listen_on k) as [fd k1]; cbn [snd] in Q.
  destruct (fd <? 0); [transitivity k1; [done|apply IH]|done].
Qed.
Hint Resolve listen_loop_quiet : pres.

Lemma create_listener_proc : relates proc_step (websocket_server_create_listener getaddrinfo : W _).
Proof. unfold websocket_server_create_listener. pres. Qed.

Lemma runtime_run_shuts :
  hoare shut (websocket_server_runtime_run getnameinfo sa_family AF_INET6 getaddrinfo sha1 base64_encode
    base64_decode_ex zval_get_long : W _) (fun _ => shut).
Proof.
  unfold websocket_server_runtime_run.
  eapply hoare_bind with (R := fun _ w => server_inv None w /\ s_connections (w_server w) = []).
  { intros w [I E _ _]. split; [by apply (hoare_proc None); [apply create_listener_proc|]|].
    destruct (create_listener_proc w (si_driver _ _ I)) as [[[S|S] _ _ _ _ _ _] _]; by rewrite S. }
  intros fd. eapply hoare_bind with (R := fun _ w => server_inv None w /\ s_connections (w_server w) = [] /\
    s_listener_fd (w_server w) = fd).
  { intros w [[] E]. split_and!; [by constructor|done..]. }
  intros _. destruct (Z.ltb_spec fd 0).
  { apply hoare_ret. intros w (I & E & <-). by apply shut_close. }
  eapply hoare_conseq with (P' := server_inv None) (Q' := fun _ => shut); [|by intros w []|done].
  eapply hoare_bind; [apply hoare_proc, quiet_proc, world_watch_read_quiet|intros ok]. destruct (negb ok).
  - eapply hoare_bind; [apply hoare_proc; pres|intros ?].
    eapply hoare_bind; [apply runtime_close_shuts|intros ?]. by apply hoare_ret.
  - eapply hoare_bind; [apply hoare_proc; pres|intros f].
    eapply hoare_bind; [apply run_loop_inv|intros ?]. eapply hoare_bind; [apply hoare_proc; pres|intros ne].
    eapply hoare_bind; [apply runtime_close_shuts|intros ?]. by apply hoare_gets.
Qed.

(** Choosing the driver, when none is selected. *)
Lemma ensure_driver_step (best_driver : kernel -> option D * kernel) w : init_law best_driver -> driver_ok (w_driver w) ->
  let w1 := (ensure_driver best_driver w).2 in
  w_server w1 = w_server w /\ w_heap w1 = w_heap w /\ w_objects w1 = w_objects w /\ w_running w1 = w_running w /\
  w_exception w1 = w_exception w /\ k_trace (w_kernel w1) = k_trace (w_kernel w) /\ driver_ok (w_driver w1).
Proof.
  intros Hb Hd. unfold ensure_driver. destruct (w_driver w) as [d|] eqn:Ed; cbn; [by rewrite Ed|].
  destruct (Hb (w_kernel w)) as [(Ht & _) Hwf]. destruct (best_driver (w_kernel w)) as [[d|] k]; cbn in *; split_and!; try done.
  by apply Hwf.
Qed.

Lemma shut_same w w1 : w_server w1 = w_server w -> w_heap w1 = w_heap w -> w_objects w1 = w_objects w ->
  driver_ok (w_driver w1) -> shut w -> shut w1.
Proof.
  intros E1 E2 E3 Hd [[] S2 S3 S4].
  assert (E : forall h, conn_of h w1 = conn_of h w) by (intros h; unfold conn_of; by rewrite E2).
  constructor; [constructor|..]; unfold max_connections in *; rewrite ?E1, ?E3; try done;
    intros h; rewrite E; auto.
Qed.

(** However a run ends, the server holds nothing. *)
Lemma run_shuts (best_driver : kernel -> option D * kernel) w
    (Hdriver : init_law best_driver) (Hshut : shut w) (Hrun : w_running w = false)
    (Hs : s_running (w_server w) = false) :
  let w' := (WebSocket_Server_run getnameinfo sa_family AF_INET6 getaddrinfo sha1 base64_encode base64_decode_ex
               zval_get_long best_driver w).2 in
  shut w' /\ w_running w' = false /\ s_running (w_server w') = false.
Proof.
  cbv zeta. unfold WebSocket_Server_run. rewrite (st_bind_run (st_gets w_running)), (st_bind_run get_server).
  cbn [fst snd get_server st_gets]. rewrite Hrun. destruct (negb (s_listening (w_server w))).
  { cbn. split_and!; try done. destruct Hshut as [[] ? ? ?]. by constructor; [constructor|..]. }
  rewrite (st_bind_run (ensure_driver _)), (st_bind_run (st_gets w_driver)). cbn [fst snd st_gets].
  pose proof (ensure_driver_step best_driver w Hdriver (si_driver _ _ (shut_inv _ Hshut))) as E. cbv zeta in E.
  revert E. generalize (ensure_driver best_driver w).2. intros w1 (E1 & E2 & E3 & E4 & E5 & E6 & E7).
  assert (H1 : shut w1) by (by apply (shut_same w)). rewrite <- E4 in Hrun. rewrite <- E1 in Hs.
  destruct (w_driver w1) eqn:Ed.
  2:{ cbn. split_and!; try done. destruct H1 as [[] ? ? ?]. by constructor; [constructor|..]. }
  rewrite (st_bind_run (st_modify _)), (st_bind_run (mod_server _)).
  cbn [fst snd st_modify mod_server].
  rewrite (st_bind_run (websocket_server_runtime_run _ _ _ _ _ _ _ _)).
  match goal with |- context [websocket_server_runtime_run _ _ _ _ _ _ _ _ ?w2] =>
    assert (S2 : shut w2); [|pose proof (runtime_run_shuts w2 S2) as S3] end.
  { destruct H1 as [[] ? ? ?]. by constructor; [constructor|..]. }
  destruct (websocket_server_runtime_run _ _ _ _ _ _ _ _ _) as [ok w3]. cbn [fst snd] in *.
  split; [|done]. destruct S3 as [[] ? ? ?]. by constructor; [constructor|..].
Qed.
End ServerInvariant.

(** ** At concrete inputs *)

Lemma live_conn_of h c answers : conn_of h (live_world c answers) = if decide (h = 0) then c else websocket_connection_create_object.
Proof.
  unfold conn_of. cbn. destruct (decide (h = 0)) as [->|]; [by rewrite lookup_singleton_eq|].
  by rewrite lookup_singleton_ne by congruence.
Qed.

Lemma live_inv c answers : server_inv (fun z => z) None (live_world c answers).
Proof.
  constructor; try done.
  - exact live_driver_wf.
  - apply NoDup_singleton.
  - intros h Hh. apply list_elem_of_singleton in Hh as ->. done.
  - intros h. rewrite live_conn_of. destruct (decide (h = 0)) as [->|]; [|cbn; lia].
    intros _. left. by apply list_elem_of_singleton.
Qed.

(** One round with a message of the client. *)
Lemma server_invariant_witness :
  exists w', reachable no_names ipv4 10 (fun x => x) (fun x => x) example_decode (fun z => z)
      (live_world live_conn [AOk 1 [0; 1]; AOk 0 [0x81; 0x82; 0; 0; 0; 0; 72; 105]; AOk 100 []; AErr EAGAIN]) w' /\
    k_trace (w_kernel w') = [EvSend 4 [0x81; 2; 72; 105]; EvCall OnMessage (Some 0) [72; 105] (Some Text);
      EvCall OnOpen (Some 0) [] None] /\
    server_inv (fun z => z) None w'.
Proof.
  eexists. split_and!; [apply reachable_step; [apply reachable_refl|by vm_compute]|by vm_compute|].
  eapply server_invariant; [apply live_inv|]. apply reachable_step; [apply reachable_refl|by vm_compute].
Defined.
