(* ===== verification/HandlerOrder.v ===== *)
(** * The order of the handler calls

    For each connection: the handshake handler first, then [onOpen], any number
    of messages, [onClose] at most once and last; whatever the handlers do and
    the clients send. *)
From stdpp Require Import gmap.
From S2P Require Import Prelude Constants Words Utf8 Mask Protocol Http Kernel Driver SelectDriver ConnState Connection.
From S2P Require Import ConnectionFacts Options Frames World Runtime RuntimeFacts WorldFacts Server Scenario Termination.
From S2P Require Import ServerInvariant.

(** ** The protocol

    [Fresh]: nothing called; [Shaken]: the handshake handler; [Opened]: the
    connection is up; [Finished]: [onClose]. *)
Inductive phase : Type := Fresh | Shaken | Opened | Finished.

#[export] Instance phase_eq_dec : EqDecision phase.
Proof. solve_decision. Defined.

Section Protocol.
Context {U V : Type}.
Implicit Types (s : websocket_server_object U V) (p : phase) (t : list handler).

(** What an accepted handshake leads to. *)
Definition accepted_phase s : phase := match s_on_handshake s with Some _ => Shaken | None => Fresh end.

(** Messages and the close notification may be delivered. *)
Definition can_talk s p : bool :=
  bool_decide (p = Opened) || (bool_decide (s_on_open s = None) && bool_decide (p = accepted_phase s)).

Definition advance s p (a : handler) : option phase :=
  match a with
  | OnHandshake => if bool_decide (p = Fresh) then Some Shaken else None
  | OnOpen => if bool_decide (p = accepted_phase s) then Some Opened else None
  | OnMessage => if can_talk s p then Some Opened else None
  | OnClose => if can_talk s p then Some Finished else None
  end.

(** The calls are newest first. *)
Fixpoint phase_of s t : option phase :=
  match t with
  | [] => Some Fresh
  | a :: t => p ← phase_of s t; advance s p a
  end.
End Protocol.

Section HandlerOrder.
Context {D U V : Type} `{HD : Driver D} `{!DriverLaws D}.
Context (getnameinfo : bytes -> option (bytes * bytes)) (sa_family : bytes -> Z) (AF_INET6 : Z).
Context (getaddrinfo : bytes -> bytes -> option (list bytes)).
Context (sha1 base64_encode : bytes -> bytes) (base64_decode_ex : bytes -> option bytes).
Context (zval_get_long : V -> Z).
Local Abbreviation W A := (ST (world D U V) A).
Implicit Types (w : world D U V) (s : websocket_server_object U V).

Definition calls_of (h : Z) w : list handler := calls h (k_trace (w_kernel w)).

(** ** The invariant *)

(** A connection and the handlers called for it. *)
Record conn_ok s (c : websocket_connection_object) (t : list handler) : Prop := {
  co_phase : is_Some (phase_of s t);
  co_open : c_open c = true -> c_close_notified c = false;
  co_talk : c_upgraded c = true -> c_close_notified c = false -> exists p, phase_of s t = Some p /\ can_talk s p = true
}.

(** No handler has been called before the handshake. *)
Definition idle_ok (c : websocket_connection_object) (t : list handler) : Prop :=
  c_open c = true -> c_upgraded c = false -> t = [].

(** [sound]: holds always; [calm]: also between two connections. *)
Record sound w : Prop := {
  so_driver : driver_ok (w_driver w);
  so_objects : forall h, w_objects w <= h -> calls_of h w = [];
  so_conn : forall h, conn_ok (w_server w) (conn_of h w) (calls_of h w)
}.

Definition calm w : Prop := sound w /\ forall h, idle_ok (conn_of h w) (calls_of h w).
Definition quiescent w : Prop := calm w /\ w_exception w = None.

(** The result [true] of a function of the loop. *)
Definition going (b : bool) w : Prop := sound w /\ (b = true -> quiescent w).

(** ** Steps without calls *)

Definition same_handlers s s' : Prop :=
  s_on_open s' = s_on_open s /\ s_on_handshake s' = s_on_handshake s.

Lemma same_handlers_phase s s' t : same_handlers s s' -> phase_of s' t = phase_of s t.
Proof.
  intros [E1 E2]. induction t as [|a t IH]; [done|]. cbn [phase_of]. rewrite IH.
  destruct (phase_of s t) as [p|]; [|done]. cbn. unfold advance, can_talk, accepted_phase. by rewrite E1, E2.
Qed.

Lemma same_handlers_talk s s' p : same_handlers s s' -> can_talk s' p = can_talk s p.
Proof. intros [E1 E2]. unfold can_talk, accepted_phase. by rewrite E1, E2. Qed.

Lemma same_server_handlers s s' : same_server s s' -> same_handlers s s'.
Proof. by intros [-> | ->]. Qed.

(** [lax] also allows what PHP code can do: freeing an object, and throwing. *)
Definition flags_step (lax : bool) (c c' : websocket_connection_object) : Prop :=
  (c_upgraded c' = c_upgraded c /\ c_close_notified c' = c_close_notified c /\
   (c_open c' = true -> c_open c = true)) \/
  (lax = true /\ c_open c' = false /\ c_upgraded c' = false).

Record silent (lax : bool) w w' : Prop := {
  sl_driver : driver_ok (w_driver w');
  sl_handlers : same_handlers (w_server w) (w_server w');
  sl_objects : w_objects w' = w_objects w;
  sl_calls : forall h, calls_of h w' = calls_of h w;
  sl_flags : forall h, flags_step lax (conn_of h w) (conn_of h w');
  sl_exception : lax = false -> w_exception w' = w_exception w
}.
Definition silent_step lax w w' : Prop := driver_ok (w_driver w) -> silent lax w w'.

#[export] Instance flags_step_preorder lax : PreOrder (flags_step lax).
Proof.
  split; [intros c; by left|]. intros c1 c2 c3 [(A1 & A2 & A3)|(A0 & A1 & A2)] [(B1 & B2 & B3)|(B0 & B1 & B2)].
  - left. split_and!; [congruence..|auto].
  - by right.
  - right. split_and!; [done| |congruence]. destruct (c_open c3); [|done]. by rewrite B3 in A1.
  - by right.
Qed.

#[export] Instance silent_step_preorder lax : PreOrder (silent_step lax).
Proof.
  split; [intros w Hd; constructor; try done; intros h; reflexivity|].
  intros w1 w2 w3 A B Hd. destruct (A Hd) as [D1 [H1 H2] O1 C1 F1 X1]. destruct (B D1) as [D2 [H3 H4] O2 C2 F2 X2].
  constructor; [done|split; congruence|congruence|intros h; by rewrite C2|intros h; by transitivity (conn_of h w2)|].
  intros E. by rewrite X2, X1.
Qed.

Lemma conn_step_flags lax c c' : conn_step c c' -> flags_step lax c c'.
Proof. intros []. by left. Qed.

Lemma user_silent {A} (m : W A) : relates user_step m -> relates (silent_step true) m.
Proof.
  intros H w Hd. destruct (H w Hd) as ([] & O & C). constructor; try done; [by apply same_server_handlers|].
  intros h. destruct (O h) as [Hc|[]]; [by apply conn_step_flags|by right].
Qed.

Lemma on_conn_silent {A} lax h (m : ST (cstate D) A) : relates cs_step m -> relates (silent_step lax) (on_conn h m : W A).
Proof.
  intros H w Hd. destruct (on_conn_step (U := U) (V := V) h m H w) as [Q _]. destruct (Q Hd) as ([] & _ & C).
  destruct (on_conn_run h m w) as (_ & _ & _ & _ & _ & _ & E).
  destruct (H (mk_cs (conn_of h w) (w_driver w) (w_kernel w)) Hd) as [[Hc _] _].
  constructor; try done; [by apply same_server_handlers| |].
  2:{ intros _. apply on_conn_run. }
  intros h'. rewrite E. destruct (decide (h' = h)) as [->|]; [by apply conn_step_flags|reflexivity].
Qed.

Lemma kernel_silent {A} lax (f : kernel -> A * kernel) : (forall k, quiet k (f k).2) ->
  relates (silent_step lax) (world_kernel f : W A).
Proof.
  intros H w Hd. unfold world_kernel. destruct (H (w_kernel w)) as [C _]. destruct (f (w_kernel w)) as [x k]; cbn in *.
  by constructor.
Qed.

Lemma mod_connection_silent lax h f : (forall c, flags_step lax c (f c)) ->
  relates (silent_step lax) (mod_connection h f : W ()).
Proof.
  intros Hf w Hd. constructor; try done. intros h'. unfold mod_connection, st_modify. cbn [snd]. rewrite conn_of_insert.
  destruct (decide (h' = h)) as [->|]; [apply Hf|reflexivity].
Qed.

Lemma modify_silent lax (f : world D U V -> world D U V) :
  (forall w, w_driver (f w) = w_driver w /\ same_handlers (w_server w) (w_server (f w)) /\
     w_objects (f w) = w_objects w /\ w_kernel (f w) = w_kernel w /\ w_heap (f w) = w_heap w /\
     (lax = false -> w_exception (f w) = w_exception w)) ->
  relates (silent_step lax) (st_modify f).
Proof.
  intros Hf w Hd. destruct (Hf w) as (E1 & E2 & E3 & E4 & E5 & E6). cbn. constructor; try done.
  - by rewrite E1.
  - intros h. unfold calls_of. by rewrite E4.
  - intros h. unfold conn_of. rewrite E5. reflexivity.
Qed.

(** ** What the steps keep *)

Lemma conn_ok_flags lax s s' c c' t : same_handlers s s' -> flags_step lax c c' -> conn_ok s c t -> conn_ok s' c' t.
Proof.
  intros Hs F []. constructor.
  - by rewrite (same_handlers_phase s s').
  - destruct F as [(_ & E & O)|(_ & E & _)]; intros H; [rewrite E; auto|congruence].
  - intros H1 H2. destruct F as [(E1 & E2 & _)|(_ & _ & E)]; [|congruence]. rewrite E1 in H1. rewrite E2 in H2.
    destruct (co_talk0 H1 H2) as (p & Ep & Hp). exists p.
    by rewrite (same_handlers_phase s s'), (same_handlers_talk s s').
Qed.

Lemma idle_ok_flags lax c c' t : flags_step lax c c' -> idle_ok c t -> idle_ok c' t.
Proof.
  intros [(E1 & _ & O)|(_ & E & _)] I H1 H2; [apply I; [auto|congruence]|congruence].
Qed.

Lemma sound_silent lax w w' : silent_step lax w w' -> sound w -> sound w'.
Proof.
  intros H []. destruct (H so_driver0). constructor; [done| |].
  - intros h Hh. rewrite sl_calls0. apply so_objects0. lia.
  - intros h. rewrite sl_calls0. eapply conn_ok_flags; eauto.
Qed.

Lemma calm_silent lax w w' : silent_step lax w w' -> calm w -> calm w'.
Proof.
  intros H [S I]. split; [by eapply sound_silent|]. destruct S. destruct (H so_driver0). intros h. rewrite sl_calls0.
  eapply idle_ok_flags; eauto.
Qed.

Lemma quiescent_silent w w' : silent_step false w w' -> quiescent w -> quiescent w'.
Proof.
  intros H [C E]. split; [by eapply calm_silent|]. destruct C as [[] _]. destruct (H so_driver0).
  by rewrite sl_exception0.
Qed.

Lemma quiescent_driver w : quiescent w -> driver_ok (w_driver w).
Proof. intros [[[] _] _]. done. Qed.

Lemma hoare_sound {A} lax (m : W A) : relates (silent_step lax) m -> hoare sound m (fun _ => sound).
Proof. intros H. eapply hoare_relates; [exact H|]. intros _ w w' S R. by eapply sound_silent. Qed.

Lemma hoare_calm {A} lax (m : W A) : relates (silent_step lax) m -> hoare calm m (fun _ => calm).
Proof. intros H. eapply hoare_relates; [exact H|]. intros _ w w' S R. by eapply calm_silent. Qed.

Lemma hoare_quiescent {A} (m : W A) : relates (silent_step false) m -> hoare quiescent m (fun _ => quiescent).
Proof. intros H. eapply hoare_relates; [exact H|]. intros _ w w' S R. by eapply quiescent_silent. Qed.

(** What is known of the connection at hand. *)
Definition conn_pred : Type := websocket_server_object U V -> websocket_connection_object -> list handler -> Prop.
Implicit Types (P : conn_pred).

Definition at_conn P (h : Z) w : Prop := h < w_objects w /\ P (w_server w) (conn_of h w) (calls_of h w).

Definition steady P : Prop :=
  forall s s' c c' t, same_handlers s s' -> flags_step false c c' -> P s c t -> P s' c' t.

Definition anything : conn_pred := fun _ _ _ => True.
Definition talking : conn_pred := fun _ c _ => c_upgraded c = true /\ c_close_notified c = false.
Definition closing : conn_pred := fun _ c _ => c_open c = false.
Definition unshaken : conn_pred := fun _ c t => c_upgraded c = false /\ t = [].
Definition shaken : conn_pred := fun s c t =>
  c_upgraded c = false /\ phase_of s t = Some (accepted_phase s) /\ (c_open c = true -> c_close_notified c = false).

Lemma steady_anything : steady anything.
Proof. by intros s s' c c' t. Qed.
Lemma steady_talking : steady talking.
Proof. intros s s' c c' t _ [(E1 & E2 & _)|[? _]]; [unfold talking; by rewrite E1, E2|done]. Qed.
Lemma steady_closing : steady closing.
Proof. unfold closing. intros s s' c c' t _ [(_ & _ & O)|[? _]] E; [|done]. destruct (c_open c'); [by rewrite O in E|done]. Qed.
Lemma steady_unshaken : steady unshaken.
Proof. intros s s' c c' t _ [(E1 & _)|[? _]]; [unfold unshaken; by rewrite E1|done]. Qed.
Lemma steady_shaken : steady shaken.
Proof.
  intros s s' c c' t Hs [(E1 & E2 & O)|[? _]]; [|done]. unfold shaken. rewrite E1, E2, (same_handlers_phase s s' t Hs).
  destruct Hs as [_ Hs]. unfold accepted_phase. rewrite Hs. intros (? & ? & ?). split_and!; auto.
Qed.
Hint Resolve steady_anything steady_talking steady_closing steady_unshaken steady_shaken : pres.

Lemma at_silent P h w w' : steady P -> driver_ok (w_driver w) -> silent_step false w w' -> at_conn P h w -> at_conn P h w'.
Proof.
  intros HP Hd R [Hh Hp]. destruct (R Hd). split; [lia|]. rewrite sl_calls0. eapply HP; eauto.
Qed.

Lemma hoare_at {A} P h (m : W A) : steady P -> relates (silent_step false) m ->
  hoare (fun w => quiescent w /\ at_conn P h w) m (fun _ w => quiescent w /\ at_conn P h w).
Proof.
  intros HP H. eapply hoare_relates; [exact H|]. intros _ w w' [Q C] R. split; [by eapply quiescent_silent|].
  eapply at_silent; eauto. apply Q.
Qed.

(** ** Calling a handler *)

Lemma calls_of_emit a h payload type w h' :
  calls_of h' (set_w_kernel (emit (EvCall a (Some h) payload type) (w_kernel w)) w) =
  if decide (h' = h) then a :: calls_of h w else calls_of h' w.
Proof.
  unfold calls_of. cbn. destruct (Z.eqb_spec h' h) as [->|Hn]; [by rewrite decide_True|by rewrite decide_False].
Qed.

Lemma emit_sound a h payload type w : sound w -> h < w_objects w ->
  conn_ok (w_server w) (conn_of h w) (a :: calls_of h w) ->
  sound (set_w_kernel (emit (EvCall a (Some h) payload type) (w_kernel w)) w).
Proof.
  intros [] Hh Hc. constructor; [done| |].
  - intros h'. rewrite calls_of_emit. cbn. destruct (decide (h' = h)); [lia|apply so_objects0].
  - intros h'. rewrite calls_of_emit. destruct (decide (h' = h)) as [->|]; [exact Hc|apply so_conn0].
Qed.

Lemma emit_calm a h payload type w : calm w -> h < w_objects w ->
  conn_ok (w_server w) (conn_of h w) (a :: calls_of h w) -> idle_ok (conn_of h w) (a :: calls_of h w) ->
  calm (set_w_kernel (emit (EvCall a (Some h) payload type) (w_kernel w)) w).
Proof.
  intros [S I] Hh Hc Hi. split; [by apply emit_sound|]. intros h'. rewrite calls_of_emit.
  destruct (decide (h' = h)) as [->|]; [exact Hi|apply I].
Qed.

Lemma call_user_spec (P Q : world D U V -> Prop) ev f :
  (forall w, P w -> w_exception w = None) ->
  (forall w, P w -> Q (set_w_kernel (emit ev (w_kernel w)) w)) ->
  (forall w w', silent_step true w w' -> Q w -> Q w') ->
  hoare P (call_user getnameinfo sa_family AF_INET6 ev f : W _) (fun _ => Q).
Proof.
  intros HP Hev HQ. unfold call_user.
  intros w Hw. rewrite (st_bind_run no_exception). unfold no_exception at 1 2. cbn [fst snd st_gets]. rewrite (HP w Hw).
  cbn [negb]. rewrite (st_bind_run (world_kernel _)), (st_bind_run (st_gets _)). cbn [fst snd st_gets].
  specialize (Hev w Hw). unfold world_kernel. cbn [fst snd].
  eapply HQ; [|exact Hev]. apply user_silent, run_program_step.
Qed.

Lemma with_reference_spec {A} (P : world D U V -> Prop) (Q : A -> world D U V -> Prop) h (m : W A) :
  (forall w w', silent_step false w w' -> P w -> P w') ->
  (forall x w w', silent_step false w w' -> Q x w -> Q x w') ->
  hoare P m Q -> hoare P (with_reference h m) Q.
Proof.
  intros HP HQ Hm. unfold with_reference.
  assert (Hr : forall n, relates (silent_step false) (mod_connection h (fun c => set_refcount (c_refcount c + n) c) : W ())).
  { intros n. apply mod_connection_silent. intros c. by left. }
  eapply hoare_bind; [|intros ?].
  { eapply hoare_relates; [apply Hr|]. intros ? w w' Hw R. by eapply HP. }
  eapply hoare_bind; [exact Hm|intros r]. eapply hoare_bind with (R := fun _ => Q r); [|intros ?; by apply hoare_ret].
  eapply hoare_relates; [apply (Hr (-1))|]. intros ? w w' Hw R. by eapply HQ.
Qed.

(** After a call: the invariant, and the exception the handler may have thrown. *)
Lemma no_exception_going : hoare calm (no_exception : W _) going.
Proof.
  apply hoare_gets. intros w C. split; [apply C|]. destruct (w_exception w) eqn:E; [done|]. by split.
Qed.

Lemma quiescent_at_exception P h w : quiescent w /\ at_conn P h w -> w_exception w = None.
Proof. by intros [[_ E] _]. Qed.

Lemma going_quiescent b w : quiescent w -> going b w.
Proof. intros Q. split; [apply Q|done]. Qed.

Lemma message_spec h payload type f :
  hoare (fun w => quiescent w /\ at_conn talking h w)
    (call_user getnameinfo sa_family AF_INET6 (EvCall OnMessage (Some h) payload type) f : W _) (fun _ => calm).
Proof.
  apply call_user_spec; [apply quiescent_at_exception| |apply calm_silent].
  intros w [[C _] [Hh [T1 T2]]]. pose proof (so_conn _ (proj1 C) h) as [[p Ep] Ho Ht].
  destruct (Ht T1 T2) as (p' & Ep' & Hp). rewrite Ep in Ep'. injection Ep' as <-.
  apply emit_calm; [done..| |].
  - assert (E : phase_of (w_server w) (OnMessage :: calls_of h w) = Some Opened).
    { cbn [phase_of]. rewrite Ep. cbn. by rewrite Hp. }
    constructor; [by rewrite E|done|]. intros _ _. by exists Opened.
  - intros _. congruence.
Qed.

Lemma close_spec h f :
  hoare (fun w => calm w /\ w_exception w = None /\ h < w_objects w /\ c_open (conn_of h w) = false /\
           c_close_notified (conn_of h w) = true /\ c_upgraded (conn_of h w) = true /\
           exists p, phase_of (w_server w) (calls_of h w) = Some p /\ can_talk (w_server w) p = true)
    (call_user getnameinfo sa_family AF_INET6 (EvCall OnClose (Some h) [] None) f : W _) (fun _ => calm).
Proof.
  apply call_user_spec; [by intros w (_ & E & _)| |apply calm_silent].
  intros w (C & _ & Hh & Ho & Hn & Hu & p & Ep & Hp). apply emit_calm; [done..| |].
  - assert (E : phase_of (w_server w) (OnClose :: calls_of h w) = Some Finished).
    { cbn [phase_of]. rewrite Ep. cbn. by rewrite Hp. }
    constructor; [by rewrite E|congruence|congruence].
  - intros H. congruence.
Qed.

(** ** The functions that call no handler *)

Hint Resolve on_conn_silent : pres.
Hint Extern 2 (relates (silent_step _) (world_kernel _)) => apply kernel_silent; intros ? : pres.
Hint Extern 2 (relates (silent_step _) (mod_connection _ _)) =>
  apply mod_connection_silent; intros ?; left;
  unfold websocket_connection_discard_read_bytes; repeat case_match; by split_and! : pres.
Hint Extern 2 (relates (silent_step _) (mod_server _)) => apply modify_silent; intros ?; by split_and! : pres.
Hint Extern 2 (relates (silent_step _) (st_modify _)) => apply modify_silent; intros ?; by split_and! : pres.
Hint Extern 2 (relates (silent_step true) (throw _)) => apply modify_silent; intros ?; by split_and! : pres.

Lemma close_with_code_silent lax h code reason :
  relates (silent_step lax) (websocket_server_close_with_code h code reason : W _).
Proof. unfold websocket_server_close_with_code. pres. Qed.
Hint Resolve close_with_code_silent : pres.

Lemma service_silent lax h now : relates (silent_step lax) (service_connection zval_get_long h now : W _).
Proof.
  unfold service_connection, websocket_server_close_expired_connection, websocket_server_process_heartbeat. pres.
Qed.
Hint Resolve service_silent : pres.

Lemma refuse_silent lax h code reason : relates (silent_step lax) (refuse_frame h code reason : W _).
Proof. unfold refuse_frame. pres. Qed.
Hint Resolve refuse_silent : pres.

(** *** Combining *)

Lemma hoare_going {A} (m : W A) (f : A -> bool) : relates (silent_step false) m ->
  hoare quiescent m (fun x => going (f x)).
Proof.
  intros H. eapply hoare_relates; [exact H|]. intros x w w' Q R. apply going_quiescent. by eapply quiescent_silent.
Qed.

(** Drop what is known of the connection. *)
Lemma hoare_drop {A} P h (m : W A) Q : hoare quiescent m Q -> hoare (fun w => quiescent w /\ at_conn P h w) m Q.
Proof. intros H w [Hq _]. by apply H. Qed.

Lemma going_silent {A} b (m : W A) : relates (silent_step false) m -> hoare (going b) m (fun _ => going b).
Proof.
  intros H. eapply hoare_relates; [exact H|]. intros _ w w' [S Q] R. split; [by eapply sound_silent|].
  intros E. eapply quiescent_silent; [exact R|auto].
Qed.

(** ** Messages *)

Lemma call_message_spec h payload opcode :
  hoare (fun w => quiescent w /\ at_conn talking h w)
    (websocket_server_call_message_handler getnameinfo sa_family AF_INET6 h payload opcode : W _) going.
Proof.
  unfold websocket_server_call_message_handler.
  eapply hoare_bind; [apply hoare_at; [apply steady_talking|pres]|intros s].
  destruct (s_on_message s) as [f|]; [|apply hoare_ret; intros w [Q _]; by apply going_quiescent].
  destruct (websocket_protocol_message_type_from_opcode opcode) as [type|];
    [|apply hoare_ret; intros w [Q _]; by apply going_quiescent].
  eapply hoare_bind; [|intros ?; apply no_exception_going].
  eapply with_reference_spec; [| |apply message_spec].
  - intros w w' R [Q C]. split; [by eapply quiescent_silent|]. eapply at_silent; eauto; [apply steady_talking|apply Q].
  - intros x w w'. apply calm_silent.
Qed.

Lemma handle_data_spec h frame :
  hoare (fun w => quiescent w /\ at_conn talking h w)
    (websocket_server_handle_data_frame getnameinfo sa_family AF_INET6 zval_get_long h frame : W _) going.
Proof.
  unfold websocket_server_handle_data_frame.
  assert (Hsilent : forall m : W bool, relates (silent_step false) m ->
    hoare (fun w => quiescent w /\ at_conn talking h w) m going)
    by (intros m Hm; apply hoare_drop; exact (hoare_going m id Hm)).
  eapply hoare_bind; [apply hoare_at; [apply steady_talking|pres]|intros options].
  eapply hoare_bind; [apply hoare_at; [apply steady_talking|pres]|intros c]. cbv zeta.
  destruct (sf_opcode frame =? _).
  - destruct (negb _); [apply Hsilent; pres|].
    destruct (websocket_server_append_fragment _ _ _) as [payload|]; [|apply Hsilent; pres].
    eapply hoare_bind; [apply hoare_at; [apply steady_talking|pres]|intros ?].
    destruct (negb _); [apply Hsilent; pres|]. destruct (_ && _); [apply Hsilent; pres|].
    eapply hoare_bind; [apply call_message_spec|intros ok].
    eapply hoare_bind; [apply going_silent; pres|intros ?]. by apply hoare_ret.
  - destruct (c_fragmented c); [apply Hsilent; pres|]. destruct (sf_final frame); [|apply Hsilent; pres].
    destruct (_ && _); [apply Hsilent; pres|]. apply call_message_spec.
Qed.

Lemma handle_frame_spec h frame :
  hoare (fun w => quiescent w /\ at_conn talking h w)
    (websocket_server_handle_frame getnameinfo sa_family AF_INET6 zval_get_long h frame : W _) going.
Proof.
  unfold websocket_server_handle_frame. cbv zeta.
  eapply hoare_bind with (R := going).
  - destruct (_ || _); [apply handle_data_spec|]. apply hoare_drop.
    match goal with |- hoare _ ?m _ => apply (hoare_going m id) end. pres.
  - intros ok w [S Q]. rewrite st_bind_run. cbn [fst snd mret ST_ret]. split; [exact S|].
    intros E. apply andb_true_iff in E as [E _]. by apply Q.
Qed.

(** [known h]: the handle is an object's. *)
Definition known h w : Prop := h < w_objects w.

Lemma hoare_known {A} (P : world D U V -> Prop) (Q : A -> world D U V -> Prop) h (m : W A) :
  relates proc_step m -> (forall w, P w -> driver_ok (w_driver w)) ->
  hoare (fun w => P w /\ known h w) m Q ->
  hoare (fun w => P w /\ known h w) m (fun x w => Q x w /\ known h w).
Proof.
  intros Hm Hd H w [Hp Hk]. split; [by apply H|]. destruct (Hm w (Hd w Hp)) as [F _]. unfold known. by rewrite (wf_objects _ _ F).
Qed.

Lemma buffered_frames_spec fuel h max :
  hoare (fun w => quiescent w /\ known h w)
    (buffered_frames_loop getnameinfo sa_family AF_INET6 zval_get_long fuel h max : W _) going.
Proof.
  induction fuel as [|fuel IH]; intros w [Q K]; cbn [buffered_frames_loop]; [by apply going_quiescent|].
  rewrite (st_bind_run (get_connection h)). cbn [fst snd get_connection st_gets].
  destruct (c_open (conn_of h w) && _ && c_upgraded (conn_of h w) && _) eqn:Hc; cbn [negb]; [|by apply going_quiescent].
  assert (T : at_conn talking h w).
  { apply andb_true_iff in Hc as [Hc _]. apply andb_true_iff in Hc as [Hc Hu]. apply andb_true_iff in Hc as [Ho _].
    split; [done|]. split; [done|]. by apply (so_conn _ (proj1 (proj1 Q)) h). }
  assert (Hr : forall code reason, relates (silent_step false) (refuse_frame h code reason : W _)) by (intros; pres).
  destruct (websocket_server_parse_frame _ _) as [|frame| | |];
    [by apply going_quiescent| |by apply (hoare_going (refuse_frame h _ _) id)..].
  rewrite (st_bind_run (mod_connection _ _)).
  destruct (hoare_at talking h (mod_connection h (websocket_connection_discard_read_bytes (sf_bytes_consumed frame)))
    steady_talking ltac:(pres) w (conj Q T)) as [Q1 T1].
  match goal with |- context [(mod_connection h ?f w).2] => generalize dependent (mod_connection h f w) end.
  intros [[] w1] Q1 T1. cbn [fst snd] in *. rewrite (st_bind_run (websocket_server_handle_frame _ _ _ _ _ _)).
  destruct (hoare_known _ _ h _ (handle_frame_proc getnameinfo sa_family AF_INET6 zval_get_long h frame)
    (fun w2 H => quiescent_driver w2 (proj1 H)) (fun w2 H => handle_frame_spec h frame w2 (proj1 H)) w1
    (conj (conj Q1 T1) (proj1 T1))) as [G K2].
  destruct (websocket_server_handle_frame _ _ _ _ _ _ w1) as [ok w2]. cbn [fst snd] in *.
  destruct ok; cbn [negb]; [|exact G]. apply IH. split; [by apply G|done].
Qed.

Lemma hoare_quiet_known {A} h (m : W A) : relates (silent_step false) m -> relates proc_step m ->
  hoare (fun w => quiescent w /\ known h w) m (fun _ w => quiescent w /\ known h w).
Proof.
  intros Hm Hp. apply (hoare_known quiescent (fun _ => quiescent)); [done|apply quiescent_driver|].
  intros w [Q _]. by apply hoare_quiescent.
Qed.

Lemma process_buffered_spec h :
  hoare (fun w => quiescent w /\ known h w)
    (websocket_server_process_buffered_frames getnameinfo sa_family AF_INET6 zval_get_long h : W _) going.
Proof.
  unfold websocket_server_process_buffered_frames.
  eapply hoare_bind; [apply hoare_quiet_known; pres|intros options].
  eapply hoare_bind; [apply hoare_quiet_known; pres|intros c]. apply buffered_frames_spec.
Qed.

(** ** The close notification *)

(** Marked as notified, and [onClose] not called yet. *)
Definition notifying : conn_pred := fun s c t =>
  c_open c = false /\ c_close_notified c = true /\ c_upgraded c = true /\
  exists p, phase_of s t = Some p /\ can_talk s p = true.

Lemma steady_notifying : steady notifying.
Proof.
  intros s s' c c' t Hs [(E1 & E2 & O)|[? _]] (N1 & N2 & N3 & p & N4 & N5); [|done].
  unfold notifying. rewrite E1, E2, (same_handlers_phase s s' t Hs). split_and!; [|done..|].
  - destruct (c_open c'); [by rewrite O in N1|done].
  - exists p. by rewrite (same_handlers_talk s s').
Qed.

Lemma call_handler_spec f h :
  hoare (fun w => quiescent w /\ at_conn notifying h w)
    (websocket_server_call_handler getnameinfo sa_family AF_INET6 f h : W _) going.
Proof.
  unfold websocket_server_call_handler. destruct f as [f|]; [|intros w [Q _]; by apply going_quiescent].
  eapply hoare_bind; [|intros ?; apply no_exception_going].
  eapply with_reference_spec with (P := fun w => quiescent w /\ at_conn notifying h w) (Q := fun _ => calm).
  - intros w w' R [Q C]. split; [by eapply quiescent_silent|].
    eapply at_silent; eauto; [apply steady_notifying|by apply quiescent_driver].
  - intros x w w'. apply calm_silent.
  - eapply hoare_conseq; [apply close_spec| |done]. intros w [[C E] [Hh (N1 & N2 & N3 & N4)]]. by split_and!.
Qed.

(** Setting the flag, on a connection that is no longer open. *)
Lemma set_notified_spec h :
  hoare (fun w => quiescent w /\ at_conn closing h w /\ at_conn talking h w)
    (mod_connection h (set_close_notified true) : W _) (fun _ w => quiescent w /\ at_conn notifying h w).
Proof.
  intros w ([[[] I] E] & [Hh Ho] & [_ [Hu Hn]]). unfold closing in Ho.
  destruct (co_talk _ _ _ (so_conn0 h) Hu Hn) as (p & Ep & Hp).
  assert (Hc : forall h', conn_of h' (mod_connection h (set_close_notified true) w).2 =
    if decide (h' = h) then set_close_notified true (conn_of h w) else conn_of h' w)
    by (intros h'; apply conn_of_insert).
  split; [split; [split; [constructor|]|]|]; try done.
  - intros h'. rewrite Hc. destruct (decide (h' = h)) as [->|]; [|apply so_conn0].
    constructor; cbn; [apply so_conn0|congruence|done].
  - intros h'. rewrite Hc. destruct (decide (h' = h)) as [->|]; [|apply I]. intros H1 H2. cbn in H1. congruence.
  - split; [done|]. rewrite Hc, decide_True by done. split_and!; [exact Ho|done|exact Hu|by exists p].
Qed.

Lemma notify_spec h :
  hoare (fun w => quiescent w /\ at_conn closing h w)
    (websocket_server_notify_connection_closed getnameinfo sa_family AF_INET6 h : W _) going.
Proof.
  intros w [Q C]. unfold websocket_server_notify_connection_closed.
  rewrite (st_bind_run get_server), (st_bind_run (get_connection h)). cbn [fst snd get_server get_connection st_gets].
  destruct (negb (c_upgraded (conn_of h w)) || c_close_notified (conn_of h w) || _) eqn:Hc; [by apply going_quiescent|].
  apply orb_false_iff in Hc as [Hc _]. apply orb_false_iff in Hc as [Hu Hn]. apply negb_false_iff in Hu.
  rewrite (st_bind_run (mod_connection _ _)).
  apply call_handler_spec, (set_notified_spec h w). split_and!; [done..|]. split; [apply C|by split].
Qed.

(** ** Opening *)

(** Upgraded, and the open handler not called yet. *)
Definition opening : conn_pred := fun s c t =>
  c_upgraded c = true /\ phase_of s t = Some (accepted_phase s) /\ (c_open c = true -> c_close_notified c = false).

Lemma steady_opening : steady opening.
Proof.
  intros s s' c c' t Hs [(E1 & E2 & O)|[? _]]; [|done]. unfold opening. rewrite E1, E2, (same_handlers_phase s s' t Hs).
  destruct Hs as [_ Hs]. unfold accepted_phase. rewrite Hs. intros (? & ? & ?). split_and!; auto.
Qed.

(** The other connections are between two steps. *)
Record elsewhere P (h : Z) w : Prop := {
  el_driver : driver_ok (w_driver w);
  el_objects : forall h', w_objects w <= h' -> calls_of h' w = [];
  el_conn : forall h', h' <> h -> conn_ok (w_server w) (conn_of h' w) (calls_of h' w);
  el_idle : forall h', h' <> h -> idle_ok (conn_of h' w) (calls_of h' w);
  el_exception : w_exception w = None;
  el_here : at_conn P h w
}.

Lemma elsewhere_silent P h w w' : steady P -> silent_step false w w' -> elsewhere P h w -> elsewhere P h w'.
Proof.
  intros HP R []. pose proof (at_silent P h w w' HP el_driver0 R el_here0). destruct (R el_driver0).
  constructor; [done| | | |by rewrite sl_exception0|done].
  - intros h' Hh. rewrite sl_calls0. apply el_objects0. lia.
  - intros h' Hh. rewrite sl_calls0. eapply conn_ok_flags; eauto.
  - intros h' Hh. rewrite sl_calls0. eapply idle_ok_flags; eauto.
Qed.

Lemma hoare_elsewhere {A} P h (m : W A) : steady P -> relates (silent_step false) m ->
  hoare (elsewhere P h) m (fun _ => elsewhere P h).
Proof. intros HP H. eapply hoare_relates; [exact H|]. intros ? w w' E R. by eapply elsewhere_silent. Qed.

(** With the connection in order too, all are. *)
Lemma elsewhere_quiescent P h w : elsewhere P h w ->
  conn_ok (w_server w) (conn_of h w) (calls_of h w) -> idle_ok (conn_of h w) (calls_of h w) -> quiescent w.
Proof.
  intros [] Hc Hi. split; [split; [constructor|]|]; try done; intros h'; destruct (decide (h' = h)) as [->|]; auto.
Qed.

Lemma elsewhere_sound h w : elsewhere shaken h w -> sound w.
Proof.
  intros [? ? ? ? ? [_ (S1 & S2 & S3)]]. constructor; try done. intros h'. destruct (decide (h' = h)) as [->|]; [|auto].
  constructor; [by rewrite S2|done|congruence].
Qed.

(** Giving the connection up. *)
Lemma set_open_false_spec h :
  hoare (elsewhere shaken h) (mod_connection h (set_open false) : W _) (fun _ => quiescent).
Proof.
  intros w E. pose proof (elsewhere_sound h w E) as S. destruct E as [? ? ? ? ? [Hh _]].
  assert (Hc : forall h', conn_of h' (mod_connection h (set_open false) w).2 =
    if decide (h' = h) then set_open false (conn_of h w) else conn_of h' w) by (intros h'; apply conn_of_insert).
  split; [split; [constructor|]|]; try done; intros h'; rewrite Hc; destruct (decide (h' = h)) as [->|]; auto.
  - destruct (so_conn _ S h). by constructor.
  - by intros ?.
Qed.

(** The connection is upgraded. *)
Lemma upgrade_spec h sub n :
  hoare (elsewhere shaken h)
    (mod_connection h (fun c => websocket_connection_discard_read_bytes n
       (set_upgraded true (set_selected_subprotocol sub c))) : W _) (fun _ => elsewhere opening h).
Proof.
  intros w [? ? ? ? ? [Hh (S1 & S2 & S3)]].
  set (f := fun c => websocket_connection_discard_read_bytes n _).
  assert (Hc : forall h', conn_of h' (mod_connection h f w).2 = if decide (h' = h) then f (conn_of h w) else conn_of h' w)
    by (intros h'; apply conn_of_insert).
  assert (Hf : c_open (f (conn_of h w)) = c_open (conn_of h w) /\ c_upgraded (f (conn_of h w)) = true /\
    c_close_notified (f (conn_of h w)) = c_close_notified (conn_of h w))
    by (subst f; cbn; unfold websocket_connection_discard_read_bytes; by case_match).
  constructor; try done; try (intros h' Hn; rewrite Hc, decide_False by done; auto).
  split; [done|]. rewrite Hc, decide_True by done. destruct Hf as (F1 & F2 & F3). unfold opening. rewrite F1, F3.
  split_and!; [exact F2|exact S2|exact S3].
Qed.

Lemma call_open_spec h b :
  hoare (elsewhere opening h)
    (websocket_server_call_open_handler getnameinfo sa_family AF_INET6 h b : W _) (fun r => going r.1).
Proof.
  intros w E. unfold websocket_server_call_open_handler. rewrite (st_bind_run get_server). cbn [fst snd get_server st_gets].
  destruct (s_on_open (w_server w)) as [f|] eqn:Ef.
  2:{ apply going_quiescent. pose proof E as [_ _ _ _ _ [Hh (O1 & O2 & O3)]]. apply (elsewhere_quiescent _ _ _ E).
      - constructor; [by rewrite O2|done|]. intros _ _. exists (accepted_phase (w_server w)). split; [done|].
        unfold can_talk. apply orb_true_iff. right. apply andb_true_iff. by split; apply bool_decide_eq_true.
      - intros _ H. congruence. }
  assert (Hcall : forall g, hoare (elsewhere opening h)
    (call_user getnameinfo sa_family AF_INET6 (EvCall OnOpen (Some h) [] None) g : W _) (fun _ => calm)).
  { intros g. apply call_user_spec; [by intros w0 []| |apply calm_silent].
    intros w0 [? ? ? ? ? [Hh (O1 & O2 & O3)]].
    assert (Ep : phase_of (w_server w0) (OnOpen :: calls_of h w0) = Some Opened).
    { cbn [phase_of]. rewrite O2. cbn. by rewrite bool_decide_true. }
    split; [constructor; [done| |]|]; intros h'; rewrite calls_of_emit; cbn.
    - destruct (decide (h' = h)); [lia|auto].
    - destruct (decide (h' = h)) as [->|]; [|apply el_conn0; done]. constructor; [by rewrite Ep|done|].
      intros _ _. by exists Opened.
    - destruct (decide (h' = h)) as [->|]; [|apply el_idle0; done].
      intros _ H. change (c_upgraded (conn_of h w0) = false) in H. congruence. }
  match goal with |- going (?m w).1.1 _ => enough (H : hoare (elsewhere opening h) m (fun r => going r.1)) by auto end.
  eapply hoare_bind with (R := fun _ => calm).
  - destruct b; [|apply Hcall]. eapply with_reference_spec; [| |apply Hcall].
    + intros w1 w2 R. apply elsewhere_silent; [apply steady_opening|done].
    + intros ? w1 w2. apply calm_silent.
  - intros r. eapply hoare_bind; [apply no_exception_going|intros ok]. by apply hoare_ret.
Qed.

Lemma finish_upgrade_spec h key sub n :
  hoare (elsewhere shaken h)
    (websocket_server_finish_upgrade getnameinfo sa_family AF_INET6 zval_get_long h key sub n : W _) going.
Proof.
  unfold websocket_server_finish_upgrade, send_bytes.
  eapply hoare_bind; [apply hoare_elsewhere; [apply steady_shaken|pres]|intros s]. cbv zeta.
  eapply hoare_bind; [apply hoare_elsewhere; [apply steady_shaken|pres]|intros c].
  eapply hoare_bind; [apply hoare_elsewhere; [apply steady_shaken|pres]|intros sent]. destruct (negb sent).
  { eapply hoare_bind; [apply set_open_false_spec|intros ?]. apply hoare_ret. intros w. apply going_quiescent. }
  eapply hoare_bind; [apply upgrade_spec|intros ?].
  eapply hoare_bind with (R := fun r w => going r.1 w /\ known h w).
  { match goal with |- hoare _ ?m _ => enough (H : hoare (elsewhere opening h) m (fun r => going r.1)) end.
    { match goal with |- hoare _ ?m _ => assert (Hp : relates proc_step m) by pres end.
      intros w E. split; [by apply H|]. destruct (Hp w (el_driver _ _ _ E)) as [F _]. unfold known.
      rewrite (wf_objects _ _ F). by destruct (el_here _ _ _ E). }
    destruct (_ || _); [|apply call_open_spec].
    eapply hoare_bind; [apply hoare_elsewhere; [apply steady_opening|pres]|intros ?].
    eapply hoare_bind; [apply call_open_spec|intros r].
    eapply hoare_bind; [apply going_silent; pres|intros ?]. by apply hoare_ret. }
  intros [ok req]. cbn [fst]. destruct ok; cbn [negb].
  2:{ eapply hoare_conseq with (P' := going false) (Q' := going); [|by intros w []|done].
      eapply hoare_bind; [apply going_silent; pres|intros ?]. by apply hoare_ret. }
  eapply hoare_conseq with (P' := fun w => quiescent w /\ known h w) (Q' := going); [|intros w [G K]; split; [by apply G|done]|done].
  eapply hoare_bind; [apply hoare_quiet_known; destruct req; pres|intros ?].
  eapply hoare_bind with (R := fun c w => (quiescent w /\ known h w) /\ c = conn_of h w); [by apply hoare_gets|].
  intros c2 w [[Q K] ->]. destruct (c_open (conn_of h w)) eqn:Ho; cbn [negb].
  - by apply process_buffered_spec.
  - by apply notify_spec.
Qed.

(** ** The handshake *)

Lemma unshaken_shaken h w : quiescent w -> at_conn unshaken h w -> s_on_handshake (w_server w) = None ->
  elsewhere shaken h w.
Proof.
  intros [[[] I] E] [Hh [U1 U2]] Hs. constructor; [done|done|intros h' _; apply so_conn0|intros h' _; apply I|done|].
  split; [done|]. split_and!; [done| |apply so_conn0]. rewrite U2. unfold accepted_phase. by rewrite Hs.
Qed.

(** After the handshake handler: in order but for the connection at hand, whatever
    the handler threw. *)
Definition after_handshake (h : Z) w : Prop := elsewhere shaken h (set_w_exception None w).

Lemma after_handshake_silent h w w' : silent_step true w w' -> after_handshake h w -> after_handshake h w'.
Proof.
  intros R [? ? ? ? _ [Hh (S1 & S2 & S3)]]. destruct (R el_driver0). constructor; try done.
  - intros h' Hh'. change (calls_of h' w' = []). rewrite sl_calls0. apply el_objects0. cbn in *. lia.
  - intros h' Hh'. change (conn_ok (w_server w') (conn_of h' w') (calls_of h' w')). rewrite sl_calls0.
    eapply conn_ok_flags; [done|apply sl_flags0|by apply el_conn0].
  - intros h' Hh'. change (idle_ok (conn_of h' w') (calls_of h' w')). rewrite sl_calls0.
    eapply idle_ok_flags; [apply sl_flags0|by apply el_idle0].
  - split; [cbn in *; lia|]. change (shaken (w_server w') (conn_of h w') (calls_of h w')). rewrite sl_calls0.
    change (c_upgraded (conn_of h w) = false) in S1.
    change (phase_of (w_server w) (calls_of h w) = Some (accepted_phase (w_server w))) in S2.
    change (c_open (conn_of h w) = true -> c_close_notified (conn_of h w) = false) in S3.
    unfold shaken. rewrite (same_handlers_phase _ _ _ sl_handlers0).
    destruct sl_handlers0 as [_ Hs]. unfold accepted_phase. rewrite Hs. fold (accepted_phase (w_server w)).
    destruct (sl_flags0 h) as [(E1 & E2 & O)|(_ & E1 & E2)]; [rewrite E1, E2; by auto|]. by rewrite E1, E2.
Qed.

Lemma handshake_call_spec h f :
  hoare (fun w => (quiescent w /\ at_conn unshaken h w) /\ s_on_handshake (w_server w) <> None)
    (call_user getnameinfo sa_family AF_INET6 (EvCall OnHandshake (Some h) [] None) f : W _)
    (fun _ => after_handshake h).
Proof.
  apply call_user_spec; [by intros w [[[_ E] _] _]| |apply after_handshake_silent].
  intros w [[[[[] I] E] [Hh [U1 U2]]] Hs]. constructor; try done.
  - intros h' Hh'. change (calls_of h' (set_w_kernel (emit (EvCall OnHandshake (Some h) [] None) (w_kernel w)) w) = []).
    rewrite calls_of_emit. cbn in Hh'. destruct (decide (h' = h)); [lia|auto].
  - intros h' Hn. change (conn_ok (w_server w) (conn_of h' w)
      (calls_of h' (set_w_kernel (emit (EvCall OnHandshake (Some h) [] None) (w_kernel w)) w))).
    rewrite calls_of_emit, decide_False by done. apply so_conn0.
  - intros h' Hn. change (idle_ok (conn_of h' w)
      (calls_of h' (set_w_kernel (emit (EvCall OnHandshake (Some h) [] None) (w_kernel w)) w))).
    rewrite calls_of_emit, decide_False by done. apply I.
  - split; [done|]. change (shaken (w_server w) (conn_of h w)
      (calls_of h (set_w_kernel (emit (EvCall OnHandshake (Some h) [] None) (w_kernel w)) w))).
    rewrite calls_of_emit, decide_True by done. unfold calls_of in *. rewrite U2.
    split_and!; [done| |apply so_conn0]. unfold accepted_phase.
    destruct (s_on_handshake (w_server w)); [done|]. by destruct Hs.
Qed.

(** Accepted: ready for the upgrade; refused: all in order; failed: sound. *)
Definition handshake_post (h : Z) (r : bool * bool) w : Prop :=
  sound w /\ (r.1 = true -> if r.2 then elsewhere shaken h w else quiescent w).

Lemma after_handshake_sound h w : after_handshake h w -> sound w.
Proof. intros E%elsewhere_sound. destruct E. by constructor. Qed.

Lemma handle_exception_spec h :
  hoare (after_handshake h) (websocket_server_handle_handshake_exception h : W _)
    (fun handled w => sound w /\ (handled = true -> quiescent w)).
Proof.
  intros w A. unfold websocket_server_handle_handshake_exception. rewrite (st_bind_run (st_gets w_exception)).
  cbn [fst snd st_gets].
  destruct (w_exception w) as [[response| | |]|]; try (split; [by apply (after_handshake_sound h)|done]).
  rewrite (st_bind_run (st_modify _)). cbn [fst snd st_modify]. revert A. unfold after_handshake.
  generalize (set_w_exception None w). clear w. intros w A.
  match goal with |- sound (?m w).2 /\ _ =>
    enough (H : hoare (elsewhere shaken h) m (fun _ => quiescent)) by (split; [|intros _]; by apply H) end.
  unfold send_bytes, websocket_server_send_handshake_response.
  eapply hoare_bind; [apply hoare_elsewhere; [apply steady_shaken|pres]|intros c].
  eapply hoare_bind; [apply hoare_elsewhere; [apply steady_shaken|pres]|intros ?].
  eapply hoare_bind; [apply set_open_false_spec|intros ?]. by apply hoare_ret.
Qed.

Lemma call_handshake_spec r h :
  hoare (fun w => quiescent w /\ at_conn unshaken h w)
    (websocket_server_call_handshake_handler getnameinfo sa_family AF_INET6 r h : W _) (handshake_post h).
Proof.
  intros w [Q C]. unfold websocket_server_call_handshake_handler. rewrite (st_bind_run get_server).
  cbn [fst snd get_server st_gets]. destruct (s_on_handshake (w_server w)) as [f|] eqn:Ef.
  2:{ split; [apply Q|]. intros _. by apply unshaken_shaken. }
  rewrite (st_bind_run (call_user _ _ _ _ _)).
  assert (A : after_handshake h (call_user getnameinfo sa_family AF_INET6 (EvCall OnHandshake (Some h) [] None) (f r) w).2)
    by (apply handshake_call_spec; by rewrite Ef).
  destruct (call_user _ _ _ _ _ w) as [retval w1]. cbn [fst snd] in *. clear w Q C Ef.
  rewrite (st_bind_run no_exception). cbn [fst snd no_exception st_gets].
  destruct (w_exception w1) as [e|] eqn:Ex; cbn [negb].
  - rewrite (st_bind_run (websocket_server_handle_handshake_exception h)).
    pose proof (handle_exception_spec h w1 A) as [S Q].
    destruct (websocket_server_handle_handshake_exception h w1) as [[] w2]; (split; [exact S|]); [exact Q|done].
  - assert (E : elsewhere shaken h w1) by (destruct A; by constructor).
    pose proof (elsewhere_sound h w1 E) as S. destruct (bool_decide _); [|by split].
    rewrite st_bind_run. split; [|done]. by destruct S.
Qed.

Lemma handshake_request_spec h parsed :
  hoare (fun w => quiescent w /\ at_conn unshaken h w)
    (handshake_request getnameinfo sa_family AF_INET6 zval_get_long h parsed : W _) going.
Proof.
  unfold handshake_request.
  eapply hoare_bind with (R := fun s w => (quiescent w /\ at_conn unshaken h w) /\ s = w_server w); [by apply hoare_gets|].
  intros s. eapply hoare_bind with (R := handshake_post h).
  - intros w [[Q C] ->]. case_bool_decide as Hs.
    + by apply call_handshake_spec.
    + split; [apply Q|]. intros _. apply unshaken_shaken; [done..|].
      exact Hs.
  - intros [ok accepted] w [S P]. cbn [fst snd] in P. destruct ok; cbn [negb]; [|by split].
    specialize (P eq_refl). destruct accepted; cbn [negb]; [by apply finish_upgrade_spec|by apply going_quiescent].
Qed.

Lemma bad_request_going h : hoare quiescent (bad_request h : W _) going.
Proof. unfold bad_request, send_bytes. match goal with |- hoare _ ?m _ => apply (hoare_going m id) end. pres. Qed.

Lemma handshake_loop_spec fuel h :
  hoare (fun w => quiescent w /\ known h w)
    (handshake_loop getnameinfo sa_family AF_INET6 sha1 base64_encode base64_decode_ex zval_get_long fuel h : W _) going.
Proof.
  induction fuel as [|fuel IH]; intros w [Q K]; cbn [handshake_loop]; [by apply going_quiescent|].
  rewrite (st_bind_run (get_connection h)). cbn [fst snd get_connection st_gets].
  destruct (c_open (conn_of h w) && negb (c_upgraded (conn_of h w))) eqn:Hc; cbn [negb]; [|by apply going_quiescent].
  apply andb_true_iff in Hc as [Ho Hu]. apply negb_true_iff in Hu.
  assert (Un : at_conn unshaken h w) by (split; [done|split; [done|by apply (proj2 (proj1 Q) h)]]).
  match goal with |- going (?m w).1 (?m w).2 =>
    enough (H : hoare (fun w => quiescent w /\ at_conn unshaken h w) m going) by (apply H; done) end.
  assert (IH' : hoare (fun w => quiescent w /\ at_conn unshaken h w)
    (handshake_loop getnameinfo sa_family AF_INET6 sha1 base64_encode base64_decode_ex zval_get_long fuel h : W _) going)
    by (intros w0 [? []]; apply IH; done).
  assert (Hclose : hoare (fun w => quiescent w /\ at_conn unshaken h w)
    (mod_connection h (set_open false);; mret true : W _) going)
    by (apply hoare_drop; match goal with |- hoare _ ?m _ => apply (hoare_going m id) end; pres).
  clear w Q K Ho Hu Un. eapply hoare_bind; [apply hoare_at; [apply steady_unshaken|pres]|intros chunk].
  destruct chunk as [[|b chunk]|]; [exact Hclose| |].
  - unfold now_usec. eapply hoare_bind; [apply hoare_at; [apply steady_unshaken|pres]|intros now].
    eapply hoare_bind; [apply hoare_at; [apply steady_unshaken|pres]|intros ?].
    eapply hoare_bind; [apply hoare_at; [apply steady_unshaken|pres]|intros c].
    destruct (websocket_connection_ensure_read_capacity _ _ _); [|apply hoare_drop, bad_request_going].
    eapply hoare_bind; [apply hoare_at; [apply steady_unshaken|pres]|intros ?].
    eapply hoare_bind; [apply hoare_at; [apply steady_unshaken|pres]|intros c2].
    eapply hoare_bind; [apply hoare_at; [apply steady_unshaken|pres]|intros s].
    destruct (websocket_http_parse_upgrade _ _ _ _ _) as [[| |] parsed];
      [exact IH'|apply handshake_request_spec|apply hoare_drop, bad_request_going].
  - eapply hoare_bind; [apply hoare_at; [apply steady_unshaken|pres]|intros e].
    destruct (e =? EINTR); [exact IH'|].
    destruct (_ || _); [apply hoare_ret; intros w [Q _]; by apply going_quiescent|exact Hclose].
Qed.

Lemma process_handshake_spec h :
  hoare (fun w => quiescent w /\ known h w)
    (websocket_server_process_handshake getnameinfo sa_family AF_INET6 sha1 base64_encode base64_decode_ex
       zval_get_long h : W _) going.
Proof.
  unfold websocket_server_process_handshake. eapply hoare_bind; [apply hoare_quiet_known; pres|intros f].
  apply handshake_loop_spec.
Qed.

(** ** Reading *)

Lemma frame_reads_spec fuel h limit :
  hoare (fun w => quiescent w /\ known h w)
    (frame_reads_loop getnameinfo sa_family AF_INET6 zval_get_long fuel h limit : W _) going.
Proof.
  induction fuel as [|fuel IH]; cbn [frame_reads_loop]; [intros w [Q _]; by apply going_quiescent|].
  assert (Hdone : hoare (fun w => quiescent w /\ known h w) (mret true : W _) going)
    by (intros w [Q _]; by apply going_quiescent).
  assert (Hsilent : forall m : W bool, relates (silent_step false) m ->
    hoare (fun w => quiescent w /\ known h w) m going)
    by (intros m Hm w [Q _]; by apply (hoare_going m id)).
  eapply hoare_bind; [apply hoare_quiet_known; pres|intros c]. destruct (negb _); [exact Hdone|].
  eapply hoare_bind; [apply hoare_quiet_known; pres|intros chunk].
  destruct chunk as [[|b chunk]|]; [apply Hsilent; pres| |].
  - unfold now_usec. eapply hoare_bind; [apply hoare_quiet_known; pres|intros now].
    eapply hoare_bind; [apply hoare_quiet_known; pres|intros ?].
    eapply hoare_bind; [apply hoare_quiet_known; pres|intros c2].
    destruct (websocket_connection_ensure_read_capacity _ _ _); [|apply Hsilent; pres].
    eapply hoare_bind; [apply hoare_quiet_known; pres|intros ?].
    eapply hoare_bind with (R := fun ok w => going ok w /\ known h w).
    { apply (hoare_known quiescent going); [pres|apply quiescent_driver|apply process_buffered_spec]. }
    intros ok. destruct ok; cbn [negb]; [|by intros w [G _]]. intros w [G K]. apply IH. split; [by apply G|done].
  - eapply hoare_bind; [apply hoare_quiet_known; pres|intros e]. destruct (e =? EINTR); [exact IH|].
    destruct (_ || _); [apply process_buffered_spec|apply Hsilent; pres].
Qed.

Lemma process_frame_reads_spec h :
  hoare (fun w => quiescent w /\ known h w)
    (websocket_server_process_frame_reads getnameinfo sa_family AF_INET6 zval_get_long h : W _) going.
Proof.
  unfold websocket_server_process_frame_reads. eapply hoare_bind; [apply hoare_quiet_known; pres|intros options].
  eapply hoare_bind; [apply hoare_quiet_known; pres|intros f]. apply frame_reads_spec.
Qed.

(** ** One round over the connections *)

(** All entries of the array are known. *)
Definition all_known w : Prop := forall h, h ∈ s_connections (w_server w) -> known h w.

Lemma process_connection_fd_spec fd :
  hoare (fun w => quiescent w /\ all_known w)
    (websocket_server_process_connection_fd getnameinfo sa_family AF_INET6 sha1 base64_encode base64_decode_ex
       zval_get_long fd : W _) going.
Proof.
  unfold websocket_server_process_connection_fd, now_usec.
  eapply hoare_bind with (R := fun _ w => quiescent w /\ all_known w).
  { intros w [Q K]. split; [apply hoare_quiescent; [pres|done]|]. unfold world_kernel. by destruct (_ (w_kernel w)). }
  intros now. eapply hoare_bind with (R := fun s w => (quiescent w /\ all_known w) /\ s = w_server w); [by apply hoare_gets|].
  intros s. eapply hoare_bind with (R := fun found w => quiescent w /\ match found with Some h => known h w | None => True end).
  { apply hoare_gets. intros w [[Q K] ->]. split; [done|].
    destruct (find_connection _ _ _) as [h|] eqn:E; [|done]. apply K. by apply find_connection_in in E. }
  intros [h|]; [|apply hoare_ret; intros w [Q _]; by apply going_quiescent].
  eapply hoare_bind; [apply hoare_quiet_known; pres|intros r].
  destruct r as [ok|]; [apply hoare_ret; intros w [Q _]; by apply going_quiescent|].
  eapply hoare_bind; [apply hoare_quiet_known; pres|intros c].
  destruct (negb _); [apply process_handshake_spec|apply process_frame_reads_spec].
Qed.

Lemma process_connections_spec :
  hoare (fun w => quiescent w /\ all_known w)
    (websocket_server_process_connections getnameinfo sa_family AF_INET6 sha1 base64_encode base64_decode_ex
       zval_get_long : W _) going.
Proof.
  unfold websocket_server_process_connections, now_usec.
  eapply hoare_bind with (R := fun _ w => quiescent w /\ all_known w).
  { intros w [Q K]. split; [apply hoare_quiescent; [pres|done]|]. unfold world_kernel. by destruct (_ (w_kernel w)). }
  intros now. eapply hoare_bind with (R := fun s w => quiescent w /\ forall h, h ∈ s_connections s -> known h w);
    [by apply hoare_gets|].
  intros s. generalize (s_connections s). clear s. intros l.
  assert (Hk : forall {A} (Q : A -> world D U V -> Prop) (m : W A) h l, relates proc_step m ->
    hoare (fun w => quiescent w /\ known h w) m Q ->
    hoare (fun w => quiescent w /\ forall h', h' ∈ h :: l -> known h' w) m
      (fun x w => Q x w /\ forall h', h' ∈ h :: l -> known h' w)).
  { intros A Q m h l0 Hp Hm w [Hq Hl]. split; [apply Hm; split; [done|apply Hl; left]|].
    destruct (Hp w (quiescent_driver w Hq)) as [F _]. intros h' Hh'. unfold known. rewrite (wf_objects _ _ F). by apply Hl. }
  induction l as [|h l IH]; cbn [process_connections_loop]; [intros w [Q _]; by apply going_quiescent|].
  assert (IH' : hoare (fun w => quiescent w /\ forall h', h' ∈ h :: l -> known h' w)
    (process_connections_loop getnameinfo sa_family AF_INET6 sha1 base64_encode base64_decode_ex zval_get_long l now : W _) going).
  { intros w [Q K]. apply IH. split; [done|]. intros h' Hh'. apply K. by right. }
  assert (Hq : forall {A} (m : W A), relates (silent_step false) m ->
    hoare (fun w => quiescent w /\ known h w) m (fun _ => quiescent))
    by (intros A m Hm w [Q _]; by apply hoare_quiescent).
  assert (Hgo : forall (m : bool -> W bool) (Q : world D U V -> Prop),
    hoare (fun w => quiescent w /\ Q w) (m true) going -> (forall w, m false w = (false, w)) ->
    forall ok, hoare (fun w => going ok w /\ Q w) (m ok) going).
  { intros m Q Ht Hf [] w [G Hw]; [apply Ht; split; [by apply G|done]|]. by rewrite Hf. }
  eapply hoare_bind; [apply Hk; [pres|apply Hq; pres]|intros r].
  destruct r as [[]|]; [exact IH'|apply hoare_ret; intros w [Q _]; by apply going_quiescent|].
  eapply hoare_bind; [apply Hk; [pres|apply Hq; pres]|intros c].
  eapply hoare_bind; [apply Hk with (Q := going); [pres|]|].
  { destruct (negb _); [apply process_handshake_spec|]. intros w [Q _]. by apply going_quiescent. }
  apply (Hgo (fun ok => if negb ok then mret false else _)); [|done]. cbn [negb].
  eapply hoare_bind; [apply Hk; [pres|apply Hq; pres]|intros c2].
  eapply hoare_bind; [apply Hk with (Q := going); [pres|]|].
  { destruct (_ && _); [apply process_buffered_spec|]. intros w [Q _]. by apply going_quiescent. }
  apply (Hgo (fun ok => if negb ok then mret false else _)); [exact IH'|done].
Qed.

(** ** Closing and accepting *)

Lemma quiet_silent {A} lax (m : W A) : relates quiet_step m -> (forall w, w_heap (m w).2 = w_heap w) ->
  relates (silent_step lax) m.
Proof.
  intros H Hh w Hd. destruct (H w) as [Hu He]. destruct (Hu Hd) as ([] & _ & C). constructor; try done.
  - by apply same_server_handlers.
  - intros h. unfold conn_of. rewrite Hh. reflexivity.
Qed.

Lemma unwatch_silent lax fd : relates (silent_step lax) (world_unwatch fd : W _).
Proof.
  apply quiet_silent; [apply world_unwatch_quiet|]. intros w. unfold world_unwatch.
  destruct (w_driver w); [|done]. by destruct (unwatch _ _).
Qed.

Lemma watch_read_silent lax fd : relates (silent_step lax) (world_watch_read fd : W _).
Proof.
  apply quiet_silent; [apply world_watch_read_quiet|]. intros w. unfold world_watch_read.
  destruct (w_driver w); [|done]. by destruct (watch_read _ _) as [? []].
Qed.

Lemma wait_silent lax timeout : relates (silent_step lax) (world_wait timeout : W _).
Proof.
  apply quiet_silent; [apply world_wait_quiet|]. intros w. unfold world_wait.
  destruct (w_driver w); [|done]. by destruct (wait _ _) as [? []].
Qed.
Hint Resolve unwatch_silent watch_read_silent wait_silent : pres.

Lemma going_quiet {A} b (m : W A) : relates quiet_step m -> hoare (going b) m (fun _ => going b).
Proof.
  intros H w [S Q]. split.
  - by apply (sound_silent true w); [apply user_silent, quiet_user_step|].
  - intros E. destruct (Q E) as [C Ex]. split.
    + by apply (calm_silent true w); [apply user_silent, quiet_user_step|].
    + destruct (H w) as [_ He]. by rewrite He.
Qed.

(** Marking a closed connection as notified, in any sound state. *)
Lemma notified_sound h w : sound w -> c_open (conn_of h w) = false ->
  sound ((mod_connection h (set_close_notified true) : W ()) w).2.
Proof.
  intros [] Ho. constructor; try done. intros h'. unfold mod_connection, st_modify. cbn [snd].
  change (calls_of h' (set_w_heap _ w)) with (calls_of h' w). rewrite conn_of_insert.
  destruct (decide (h' = h)) as [->|]; [|apply so_conn0]. constructor; cbn; [apply so_conn0|congruence|done].
Qed.

Lemma call_handler_sound f h :
  hoare (fun w => sound w /\ at_conn notifying h w)
    (websocket_server_call_handler getnameinfo sa_family AF_INET6 f h : W _) (fun _ => sound).
Proof.
  unfold websocket_server_call_handler. destruct f as [f|]; [|by intros w []].
  eapply hoare_bind with (R := fun _ => sound); [|intros ?; by apply hoare_gets].
  eapply with_reference_spec with (P := fun w => sound w /\ at_conn notifying h w) (Q := fun _ => sound).
  - intros w w' R [S C]. split; [by eapply sound_silent|].
    eapply at_silent; eauto; [apply steady_notifying|by apply so_driver].
  - intros x w w'. apply sound_silent.
  - intros w [S [Hh (N1 & N2 & N3 & p & N4 & N5)]]. unfold call_user. rewrite (st_bind_run no_exception).
    cbn [fst snd no_exception st_gets]. destruct (w_exception w); cbn [negb]; [done|].
    rewrite (st_bind_run (world_kernel _)), (st_bind_run (st_gets _)). cbn [fst snd st_gets].
    eapply (sound_silent true); [apply user_silent, run_program_step|].
    apply emit_sound; [done..|].
    assert (E : phase_of (w_server w) (OnClose :: calls_of h w) = Some Finished).
    { cbn [phase_of]. rewrite N4. cbn. by rewrite N5. }
    constructor; [by rewrite E|congruence|congruence].
Qed.

(** The notification of [close_connection_at]. *)
Lemma notify_closed_spec (b : bool) f h w :
  sound w -> known h w -> c_open (conn_of h w) = false ->
  let m : W bool := if b && c_upgraded (conn_of h w) && negb (c_close_notified (conn_of h w)) &&
                  bool_decide (f <> None)
               then mod_connection h (set_close_notified true);;
                    websocket_server_call_handler getnameinfo sa_family AF_INET6 f h
               else mret true in
  sound (m w).2 /\ (quiescent w -> going (m w).1 (m w).2).
Proof.
  intros S K Ho. cbv zeta. destruct (b && _ && _ && _) eqn:Hc; [|by split; [|intros Q; apply going_quiescent]].
  apply andb_true_iff in Hc as [Hc _]. apply andb_true_iff in Hc as [Hc Hn]. apply andb_true_iff in Hc as [_ Hu].
  apply negb_true_iff in Hn. rewrite (st_bind_run (mod_connection _ _)). split.
  - apply call_handler_sound. split; [by apply notified_sound|].
    destruct (co_talk _ _ _ (so_conn _ S h) Hu Hn) as (p & Ep & Hp). split; [done|].
    unfold mod_connection, st_modify. cbn [snd]. rewrite conn_of_insert, decide_True by done.
    split_and!; [exact Ho|done|exact Hu|by exists p].
  - intros Q. apply call_handler_spec, (set_notified_spec h w). split_and!; [done| |]; (split; [done|]); [done|by split].
Qed.

Lemma close_at_spec i b :
  hoare (fun w => sound w /\ all_known w)
    (websocket_server_close_connection_at getnameinfo sa_family AF_INET6 i b : W _) (fun _ => sound) /\
  hoare (fun w => quiescent w /\ all_known w)
    (websocket_server_close_connection_at getnameinfo sa_family AF_INET6 i b : W _) going.
Proof.
  enough (H : forall w, sound w -> all_known w ->
    let r := websocket_server_close_connection_at getnameinfo sa_family AF_INET6 i b w in
    sound r.2 /\ (quiescent w -> going r.1 r.2)).
  { split; intros w [Hw K]; [by destruct (H w Hw K)|].
    destruct (H w (proj1 (proj1 Hw)) K) as [_ G]. by apply G. }
  intros w S K. cbv zeta. unfold websocket_server_close_connection_at. rewrite (st_bind_run get_server).
  cbn [fst snd get_server st_gets].
  destruct (s_connections (w_server w) !! i) as [h|] eqn:Hi; [|by split; [|intros Q; apply going_quiescent]].
  assert (Kh : known h w) by (apply K, list_elem_of_lookup; by exists i).
  rewrite (st_bind_run (mod_server _)), (st_bind_run (mod_connection _ _)), (st_bind_run (get_connection h)).
  cbn [fst snd get_connection st_gets].
  set (w1 := (mod_connection h (set_open false) _).2).
  assert (H1 : sound w1 /\ (quiescent w -> quiescent w1) /\ known h w1 /\ c_open (conn_of h w1) = false).
  { assert (R : relates (silent_step false) (mod_server (set_connections (delete i (s_connections (w_server w))));;
      mod_connection h (set_open false) : W ())) by pres.
    assert (E1 : w1 = ((mod_server (set_connections (delete i (s_connections (w_server w))));;
      mod_connection h (set_open false) : W ()) w).2) by (by rewrite st_bind_run).
    rewrite E1. split_and!; [eapply sound_silent; [apply R|done]|intros Q; eapply quiescent_silent; [apply R|done]|done|].
    rewrite <- E1. unfold w1. by rewrite conn_of_mod. }
  destruct H1 as (S1 & Q1 & K1 & O1). clearbody w1.
  match goal with |- sound (?m w1).2 /\ _ => enough (H : sound (m w1).2 /\ (quiescent w1 -> going (m w1).1 (m w1).2)) end.
  { destruct H as [Ha Hb]. split; [exact Ha|intros Q; by apply Hb, Q1]. }
  generalize (w_server w). intros s. clear w Hi S K Kh Q1.
  set (m1 := if 0 <=? c_fd (conn_of h w1) then world_unwatch (c_fd (conn_of h w1)) else mret ()).
  assert (R1 : relates (silent_step false) m1) by (subst m1; pres).
  assert (E1 : conn_of h (m1 w1).2 = conn_of h w1).
  { subst m1. destruct (0 <=? _); [|done]. unfold world_unwatch.
    destruct (w_driver w1); [|done]. by destruct (unwatch _ _). }
  rewrite (st_bind_run m1).
  assert (H2 : sound (m1 w1).2 /\ (quiescent w1 -> quiescent (m1 w1).2) /\ known h (m1 w1).2).
  { split_and!; [eapply sound_silent; [apply R1|done]|intros Q; eapply quiescent_silent; [apply R1|done]|].
    unfold known. by rewrite (sl_objects _ _ _ (R1 w1 (so_driver _ S1))). }
  rewrite <- E1 in O1 |- *. destruct H2 as (S2 & Q2 & K2). clear E1. revert S2 Q2 K2 O1.
  generalize (m1 w1). intros [[] w2] S2 Q2 K2 O1. cbn [fst snd] in *.
  pose proof (notify_closed_spec b (s_on_close s) h w2 S2 K2 O1) as N. cbv zeta in N.
  match goal with |- sound ((?m ≫= ?f) w2).2 /\ _ =>
    rewrite (st_bind_run m); assert (Hq : forall ok, relates quiet_step (f ok)) by (intros; pres);
    assert (Hr : forall ok w, (f ok w).1 = ok) by (intros; by rewrite !st_bind_run);
    destruct (m w2) as [ok w3] end. cbn [fst snd] in *. destruct N as [S3 G3]. split.
  - eapply (sound_silent true); [apply user_silent, quiet_user_step, (Hq ok)|done].
  - intros Q. rewrite Hr. apply (going_quiet ok _ (Hq ok)). auto.
Qed.

Local Abbreviation server_inv := (server_inv zval_get_long).

Lemma inv_known w : server_inv None w -> all_known w.
Proof. intros I h Hh. by apply (si_handles _ _ _ I). Qed.

Lemma purge_loop_spec fuel i :
  hoare (fun w => server_inv None w /\ quiescent w) (purge_loop getnameinfo sa_family AF_INET6 fuel i : W _) going.
Proof.
  revert i. induction fuel as [|fuel IH]; intros i w [I Q]; cbn [purge_loop]; [by apply going_quiescent|].
  rewrite (st_bind_run get_server). cbn [fst snd get_server st_gets].
  destruct (s_connections (w_server w) !! i) as [h|]; [|by apply going_quiescent].
  rewrite (st_bind_run (get_connection h)). cbn [fst snd get_connection st_gets].
  destruct (negb _); [|by apply IH].
  rewrite (st_bind_run (websocket_server_close_connection_at _ _ _ _ _)).
  pose proof (close_at_inv getnameinfo sa_family AF_INET6 zval_get_long i true w I) as I2.
  destruct (close_at_spec i true) as [_ G]. specialize (G w (conj Q (inv_known w I))).
  destruct (websocket_server_close_connection_at _ _ _ _ _ w) as [ok w2]. cbn [fst snd] in *.
  destruct ok; cbn [negb]; [|exact G]. apply IH. split; [done|by apply G].
Qed.

Lemma purge_spec :
  hoare (fun w => server_inv None w /\ quiescent w)
    (websocket_server_purge_closed_connections getnameinfo sa_family AF_INET6 : W _) going.
Proof.
  intros w H. unfold websocket_server_purge_closed_connections. rewrite (st_bind_run get_server). by apply purge_loop_spec.
Qed.

Lemma close_all_sound b :
  hoare (fun w => server_inv None w /\ sound w)
    (websocket_server_close_all_connections getnameinfo sa_family AF_INET6 b : W _) (fun _ => sound).
Proof.
  intros w H. unfold websocket_server_close_all_connections. rewrite (st_bind_run get_server). cbn [fst snd get_server st_gets].
  generalize (S (length (s_connections (w_server w)))). intros fuel. revert w H.
  induction fuel as [|fuel IH]; intros w [I S]; cbn [close_all_loop]; [done|].
  rewrite (st_bind_run get_server). cbn [fst snd get_server st_gets]. destruct (0 <? _); [|done].
  rewrite (st_bind_run (websocket_server_close_connection_at _ _ _ _ _)).
  pose proof (close_at_inv getnameinfo sa_family AF_INET6 zval_get_long
    (pred (length (s_connections (w_server w)))) b w I) as I2.
  destruct (close_at_spec (pred (length (s_connections (w_server w)))) b) as [G _].
  specialize (G w (conj S (inv_known w I))).
  destruct (websocket_server_close_connection_at _ _ _ _ _ w) as [ok w2]. cbn [fst snd] in *.
  destruct ok; cbn [negb]; [by apply IH|done].
Qed.

(** A connection no handler has been called for. *)
Definition unused : conn_pred := fun _ _ t => t = [].

Lemma steady_unused : steady unused.
Proof. by intros s s' c c' t. Qed.

Lemma create_zval_spec :
  hoare (fun w => server_inv None w /\ quiescent w) (websocket_server_create_connection_zval : W _)
    (fun h w => quiescent w /\ at_conn unused h w).
Proof.
  intros w [I [[[] Hi] E]]. unfold websocket_server_create_connection_zval. rewrite (st_bind_run get_server).
  cbn [fst snd get_server st_gets]. rewrite (si_reusable _ _ _ I), !st_bind_run. cbn [fst snd st_gets st_modify mret ST_ret].
  set (h := w_objects w). set (w2 := set_w_objects _ _).
  assert (Hc : forall h', conn_of h' w2 = if decide (h' = h) then websocket_connection_create_object else conn_of h' w)
    by (intros h'; apply (conn_of_insert h h')).
  assert (Ht : calls_of h w = []) by (apply so_objects0; lia).
  assert (Hw : forall h', calls_of h' w2 = calls_of h' w) by done.
  split; [split; [split; [constructor|]|]|]; try done.
  - intros h' Hh'. apply so_objects0. cbn in Hh'. lia.
  - intros h'. rewrite Hc, Hw. destruct (decide (h' = h)) as [->|]; [|apply so_conn0]. rewrite Ht. by constructor.
  - intros h'. rewrite Hc, Hw. destruct (decide (h' = h)) as [->|]; [|apply Hi]. by rewrite Ht.
  - split; [cbn; lia|]. unfold unused. by rewrite Hw.
Qed.

Definition cleared (x : cstate D) : Prop :=
  driver_ok (cs_driver x) /\ c_upgraded (cs_conn x) = false /\ c_close_notified (cs_conn x) = false.

Lemma open_flags id addr fd :
  hoare (fun x => driver_ok (cs_driver x)) (websocket_connection_open id addr fd : ST (cstate D) ()) (fun _ => cleared).
Proof.
  unfold websocket_connection_open.
  eapply hoare_bind with (R := fun _ x => driver_ok (cs_driver x)); [by intros x Hd|intros ?].
  eapply hoare_bind with (R := fun _ x => driver_ok (cs_driver x)).
  { destruct addr as [a|]; [destruct (zlen a <=? 128)|]; by intros y Hd. }
  intros ?. eapply hoare_bind with (R := fun _ => cleared); [by intros y Hd|intros ?].
  eapply hoare_bind with (R := fun _ => cleared); [|by intros ? y (? & ? & ?)].
  intros y (Hd & E1 & E2). destruct (clear_queue_step y Hd) as [[[F1 F2 _ _ _ _ _] _] [Hd' _]].
  split_and!; [done|by rewrite F1|by rewrite F2].
Qed.

Lemma open_spec h id addr fd :
  hoare (fun w => quiescent w /\ at_conn unused h w)
    (on_conn h (websocket_connection_open id addr fd) : W _) (fun _ w => quiescent w /\ at_conn unused h w).
Proof.
  intros w [[[[] Hi] E] [Hh Ht]]. unfold unused in Ht.
  destruct (on_conn_run h (websocket_connection_open id addr fd) w) as (_ & E1 & E2 & E3 & E4 & E5 & Ec).
  destruct (open_any id addr fd (mk_cs (conn_of h w) (w_driver w) (w_kernel w)) so_driver0) as [Hd [Hq _]].
  destruct (open_flags id addr fd (mk_cs (conn_of h w) (w_driver w) (w_kernel w)) so_driver0) as (_ & F1 & F2).
  rewrite <- E3 in Hd. rewrite <- E4 in Hq. cbn [cs_kernel] in Hq.
  assert (Hw : forall h', calls_of h' (on_conn h (websocket_connection_open id addr fd) w).2 = calls_of h' w) by exact Hq.
  split; [split; [split; [constructor|]|]|].
  - done.
  - intros h' Hh'. rewrite Hw. apply so_objects0. lia.
  - intros h'. rewrite Hw, Ec, E1. destruct (decide (h' = h)) as [->|]; [|apply so_conn0]. rewrite Ht.
    by constructor; [|rewrite F2|rewrite F1].
  - intros h'. rewrite Hw, Ec. destruct (decide (h' = h)) as [->|]; [|apply Hi]. by rewrite Ht.
  - by rewrite E5.
  - split; [by rewrite E2|]. unfold unused. by rewrite Hw.
Qed.

(** In order, and [true] only without an exception. *)
Definition accepted_post (b : bool) w : Prop := calm w /\ (b = true -> w_exception w = None).

Lemma accept_spec :
  hoare (fun w => server_inv None w /\ quiescent w)
    (websocket_server_accept_connection zval_get_long : W _) accepted_post.
Proof.
  unfold websocket_server_accept_connection, send_bytes, close_fd, now_usec.
  assert (Hquit : forall (b : bool), hoare quiescent (mret b : W _) accepted_post)
    by (intros b; apply hoare_ret; by intros w []).
  assert (Hboth : forall {A} (m : W A), relates (silent_step false) m -> relates proc_step m ->
    hoare (fun w => server_inv None w /\ quiescent w) m (fun _ w => server_inv None w /\ quiescent w)).
  { intros A m Hs Hp w [I Q]. split; [by apply (hoare_proc zval_get_long None m Hp)|by apply hoare_quiescent]. }
  eapply hoare_bind; [apply Hboth; pres|intros s]. eapply hoare_bind; [apply Hboth; pres|intros a].
  destruct a as [client addr|e]; [|intros w []; by apply Hquit]. destruct (client <? 0); [intros w []; by apply Hquit|].
  eapply hoare_bind; [apply Hboth; pres|intros ?].
  assert (Hfail : forall (m : W ()), relates (silent_step false) m ->
    hoare quiescent (m;; mret true : W _) accepted_post).
  { intros m Hm. eapply hoare_bind; [by apply hoare_quiescent|intros ?; apply Hquit]. }
  destruct (_ <=? _).
  { intros w [_ Q]. revert w Q. change (hoare quiescent (world_kernel (websocket_server_send_bytes client
      websocket_service_unavailable_response);; world_kernel (fun k => ((), websocket_server_close_fd client k));;
      mret true) accepted_post).
    eapply hoare_bind; [apply hoare_quiescent; pres|intros ?]. apply Hfail. pres. }
  eapply hoare_bind; [apply Hboth; pres|intros ok]. destruct (negb ok).
  { eapply hoare_conseq with (P' := calm) (Q' := accepted_post); [|by intros w [_ []]|done].
    eapply hoare_bind; [eapply (hoare_calm true); pres|intros ?].
    eapply hoare_bind; [eapply (hoare_calm true); pres|intros ?]. by apply hoare_ret. }
  eapply hoare_bind; [apply create_zval_spec|intros h].
  eapply hoare_bind; [apply hoare_at; [apply steady_unused|unfold next_connection_id; pres]|intros id].
  eapply hoare_bind; [apply open_spec|intros ?].
  eapply hoare_conseq with (P' := quiescent) (Q' := accepted_post); [|by intros w []|done].
  eapply hoare_bind; [apply hoare_quiescent; pres|intros now].
  eapply hoare_bind; [apply hoare_quiescent; pres|intros ?].
  eapply hoare_bind; [apply hoare_quiescent; unfold websocket_server_ensure_connection_capacity; pres|intros ok2].
  assert (Hgive : forall (m : W ()), relates (silent_step true) m ->
    hoare quiescent (on_conn h websocket_connection_close_socket;; release_connection h;; m;; mret false : W _)
      accepted_post).
  { intros m Hm. eapply hoare_conseq with (P' := calm) (Q' := accepted_post); [|by intros w []|done].
    eapply hoare_bind; [eapply (hoare_calm true); pres|intros ?].
    eapply hoare_bind; [eapply (hoare_calm true), user_silent, quiet_user_step, release_step|intros ?].
    eapply hoare_bind; [eapply (hoare_calm true); exact Hm|intros ?]. by apply hoare_ret. }
  destruct (negb ok2).
  { intros w Q. pose proof (Hgive (mret ()) ltac:(pres) w Q) as G. by rewrite !st_bind_run in G |- *. }
  eapply hoare_bind; [apply hoare_quiescent; pres|intros ok3]. destruct (negb ok3); [apply Hgive; pres|].
  apply Hfail. pres.
Qed.

Lemma accept_loop_spec fuel n :
  hoare (fun w => server_inv None w /\ quiescent w) (accept_loop zval_get_long fuel n : W _) going.
Proof.
  revert n. induction fuel as [|fuel IH]; intros n w [I Q]; cbn [accept_loop]; [by apply going_quiescent|].
  rewrite (st_bind_run get_server), (st_bind_run (st_gets w_stopped)). cbn [fst snd get_server st_gets].
  destruct (negb _); [by apply going_quiescent|]. rewrite (st_bind_run (websocket_server_accept_connection _)).
  pose proof (accept_inv zval_get_long w I) as I2. destruct (accept_spec w (conj I Q)) as [C E].
  destruct (websocket_server_accept_connection _ w) as [ok w2]. cbn [fst snd] in *.
  destruct ok; cbn [negb]; [apply IH; by split; [|split; [|apply E]]|].
  rewrite (st_bind_run no_exception). cbn [fst snd no_exception st_gets].
  destruct (w_exception w2) eqn:Ex; cbn [negb]; [by split; [apply C|]|].
  rewrite (st_bind_run world_errno). cbn [fst snd world_errno st_gets].
  assert (Q2 : quiescent w2) by done.
  destruct (_ || _); [by apply going_quiescent|]. destruct (_ =? EINTR); [by apply IH|].
  by apply no_exception_going.
Qed.

(** ** The event loop and the run *)

Local Abbreviation loop_iteration := (loop_iteration getnameinfo sa_family AF_INET6 sha1 base64_encode base64_decode_ex
  zval_get_long : W bool).
Local Abbreviation reachable := (reachable getnameinfo sa_family AF_INET6 sha1 base64_encode base64_decode_ex zval_get_long).

Lemma loop_iteration_spec : hoare (fun w => server_inv None w /\ quiescent w) loop_iteration going.
Proof.
  unfold ServerInvariant.loop_iteration.
  assert (Hboth : forall {A} (m : W A), relates (silent_step false) m -> relates proc_step m ->
    hoare (fun w => server_inv None w /\ quiescent w) m (fun _ w => server_inv None w /\ quiescent w)).
  { intros A m Hs Hp w [I Q]. split; [by apply (hoare_proc zval_get_long None m Hp)|by apply hoare_quiescent]. }
  assert (Hgoing : forall {A} (m : W A) (Q : A -> world D U V -> Prop), hoare (server_inv None) m (fun _ => server_inv None) ->
    hoare (fun w => server_inv None w /\ quiescent w) m Q ->
    hoare (fun w => server_inv None w /\ quiescent w) m (fun x w => server_inv None w /\ Q x w)).
  { intros A m Q Hi Hm w [I W]. split; [by apply Hi|by apply Hm]. }
  assert (Hret : forall b, hoare (fun w => server_inv None w /\ quiescent w) (mret b : W _) going)
    by (intros b w [_ Q]; by apply going_quiescent).
  assert (Hok : forall m : W bool, hoare (fun w => server_inv None w /\ quiescent w) m going ->
    forall ok, hoare (fun w => server_inv None w /\ going ok w) (if negb ok then mret false else m) going).
  { intros m Hm [] w [I G]; cbn [negb]; [apply Hm; split; [done|by apply G]|exact G]. }
  eapply hoare_bind; [apply Hboth; pres|intros s]. eapply hoare_bind; [apply Hboth; pres|intros stopped].
  destruct (negb _); [apply Hret|].
  eapply hoare_bind; [apply Hboth; [pres|apply quiet_proc, world_wait_quiet]|intros [ready fd]]. destruct (ready <? 0).
  - eapply hoare_bind; [apply Hboth; pres|intros e]. destruct (e =? EINTR); [apply Hret|].
    intros w [_ [[S _] _]]. rewrite st_bind_run. split; [|done]. by destruct S.
  - eapply hoare_bind; [apply Hboth; pres|intros s2].
    eapply hoare_bind with (R := fun ok w => server_inv None w /\ going ok w).
    { apply Hgoing.
      - destruct (_ && _); [apply accept_pending_inv|]. destruct (_ && _); [|by apply hoare_ret]. apply hoare_proc. pres.
      - destruct (_ && _).
        + unfold websocket_server_accept_pending. eapply hoare_bind; [apply Hboth; pres|intros f]. apply accept_loop_spec.
        + destruct (_ && _); [|apply Hret]. intros w [I Q]. apply process_connection_fd_spec. split; [done|by apply inv_known]. }
    apply Hok. eapply hoare_bind with (R := fun ok w => server_inv None w /\ going ok w).
    { apply Hgoing; [apply hoare_proc; pres|]. intros w [I Q]. apply process_connections_spec. split; [done|by apply inv_known]. }
    apply Hok, purge_spec.
Qed.

Lemma reachable_quiescent w w' : reachable w w' -> server_inv None w -> quiescent w -> quiescent w'.
Proof.
  intros R I Q. induction R as [|w1 R IH E]; [done|].
  pose proof (reachable_inv getnameinfo sa_family AF_INET6 sha1 base64_encode base64_decode_ex zval_get_long w w1 I R) as I1.
  apply (loop_iteration_spec w1); [by split|done].
Qed.

Lemma run_loop_sound fuel :
  hoare (fun w => server_inv None w /\ quiescent w)
    (run_loop getnameinfo sa_family AF_INET6 sha1 base64_encode base64_decode_ex zval_get_long fuel : W _)
    (fun _ w => server_inv None w /\ sound w).
Proof.
  intros w [I Q]. split; [by apply run_loop_inv|].
  destruct (run_loop_reachable getnameinfo sa_family AF_INET6 sha1 base64_encode base64_decode_ex zval_get_long fuel w w
    (reachable_refl _ _ _ _ _ _ _ w)) as (w2 & R & E).
  pose proof (reachable_quiescent w w2 R I Q) as Q2.
  pose proof (reachable_inv getnameinfo sa_family AF_INET6 sha1 base64_encode base64_decode_ex zval_get_long w w2 I R) as I2.
  destruct E as [-> | ->]; [exact (proj1 (proj1 Q2))|exact (proj1 (loop_iteration_spec w2 (conj I2 Q2)))].
Qed.

Lemma runtime_close_sound b :
  hoare (fun w => server_inv None w /\ sound w)
    (websocket_server_runtime_close getnameinfo sa_family AF_INET6 b : W _) (fun _ => sound).
Proof.
  unfold websocket_server_runtime_close.
  assert (Hboth : forall {A} (m : W A), relates (silent_step true) m -> hoare (server_inv None) m (fun _ => server_inv None) ->
    hoare (fun w => server_inv None w /\ sound w) m (fun _ w => server_inv None w /\ sound w)).
  { intros A m Hs Hp w [I S]. split; [by apply Hp|by apply (hoare_sound true)]. }
  eapply hoare_bind; [apply Hboth; [pres|apply hoare_proc; pres]|intros s].
  eapply hoare_bind; [apply Hboth; [unfold close_fd; pres|]|intros ?].
  { destruct (0 <=? _); [|by apply hoare_ret]. unfold close_fd.
    eapply hoare_bind; [apply hoare_proc, quiet_proc, world_unwatch_quiet|intros ?].
    eapply hoare_bind; [apply hoare_proc; pres|intros ?]. intros w []. by constructor. }
  eapply hoare_bind with (R := fun _ w => server_inv None w /\ sound w).
  { intros w [I S]. split; [by apply close_all_inv|by apply close_all_sound]. }
  intros ok. destruct (negb ok); [|by intros w []].
  eapply hoare_bind with (R := fun _ => sound); [apply close_all_sound|intros ?]. by apply hoare_ret.
Qed.

Lemma throw_silent e w : silent_step true w (set_w_exception e w).
Proof. intros Hd. by constructor. Qed.

Lemma runtime_run_sound :
  hoare (fun w => shut zval_get_long w /\ quiescent w)
    (websocket_server_runtime_run getnameinfo sa_family AF_INET6 getaddrinfo sha1 base64_encode base64_decode_ex
       zval_get_long : W _) (fun _ => sound).
Proof.
  unfold websocket_server_runtime_run, websocket_server_create_listener.
  eapply hoare_bind with (R := fun fd w => (shut zval_get_long w /\ calm w) /\ (0 <= fd -> w_exception w = None)).
  { intros w [Sh Q]. rewrite (st_bind_run get_server). cbn [fst snd get_server st_gets].
    destruct (getaddrinfo _ _) as [addresses|].
    2:{ rewrite st_bind_run. cbn. split; [split|lia].
        - destruct Sh as [[] ? ? ?]. by constructor; [constructor|..].
        - apply (calm_silent true w); [apply throw_silent|apply Q]. }
    pose proof (listen_loop_quiet addresses) as Hq.
    assert (Hs : relates (silent_step false) (world_kernel (listen_loop addresses) : W _)) by (apply kernel_silent; exact Hq).
    assert (Hp : relates proc_step (world_kernel (listen_loop addresses) : W _)) by (apply world_kernel_proc; exact Hq).
    rewrite (st_bind_run (world_kernel _)).
    pose proof (quiescent_silent w _ (Hs w) Q) as Q1.
    assert (Sh1 : shut zval_get_long ((world_kernel (listen_loop addresses) : W _) w).2).
    { destruct Sh as [I E F L]. pose proof (Hp w (si_driver _ _ _ I)) as [[[Sv|Sv] _ _ _ _ _ _] _].
      - apply shut_close; [by apply (si_proc zval_get_long None w)|by rewrite Sv..].
      - apply shut_close; [by apply (si_proc zval_get_long None w)|by rewrite Sv..]. }
    destruct (world_kernel _ w) as [fd w1]. cbn [fst snd] in *. rewrite !st_bind_run. cbn [fst snd mret ST_ret].
    destruct (Z.ltb_spec fd 0); cbn [snd mret ST_ret].
    - split; [split|lia].
      + destruct Sh1 as [[] ? ? ?]. by constructor; [constructor|..].
      + apply (calm_silent true w1); [apply throw_silent|apply Q1].
    - split; [split; [done|apply Q1]|]. intros _. apply Q1. }
  intros fd.
  eapply hoare_bind with (R := fun _ w => (server_inv None w /\ calm w) /\ (0 <= fd -> w_exception w = None)).
  { intros w [[Sh C] E]. split; [split|done].
    - destruct Sh as [[] ? ? ?]. by constructor.
    - apply (calm_silent false w); [|done]. intros Hd. by constructor. }
  intros ?. destruct (Z.ltb_spec fd 0); [by intros w [[_ [S _]] _]|].
  eapply hoare_conseq with (P' := fun w => server_inv None w /\ quiescent w) (Q' := fun _ => sound);
    [|intros w [[I C] E]; split; [done|split; auto]|done].
  assert (Hboth : forall {A} (m : W A), relates (silent_step false) m -> relates proc_step m ->
    hoare (fun w => server_inv None w /\ quiescent w) m (fun _ w => server_inv None w /\ quiescent w)).
  { intros A m Hs Hp w [I Q]. split; [by apply (hoare_proc zval_get_long None m Hp)|by apply hoare_quiescent]. }
  assert (Hweak : forall {A} (m : W A), relates (silent_step true) m -> relates proc_step m ->
    hoare (fun w => server_inv None w /\ sound w) m (fun _ w => server_inv None w /\ sound w)).
  { intros A m Hs Hp w [I S]. split; [by apply (hoare_proc zval_get_long None m Hp)|by apply (hoare_sound true)]. }
  eapply hoare_bind; [apply Hboth; [pres|apply quiet_proc, world_watch_read_quiet]|intros ok]. destruct (negb ok).
  - eapply hoare_conseq with (P' := fun w => server_inv None w /\ sound w) (Q' := fun _ => sound);
      [|by intros w [I [[S _] _]]|done].
    eapply hoare_bind; [apply Hweak; pres|intros ?]. eapply hoare_bind; [apply runtime_close_sound|intros ?].
    by apply hoare_ret.
  - eapply hoare_bind; [apply Hboth; pres|intros f]. eapply hoare_bind; [apply run_loop_sound|intros ?].
    eapply hoare_bind; [apply Hweak; pres|intros ne]. eapply hoare_bind; [apply runtime_close_sound|intros ?].
    by apply hoare_gets.
Qed.

(** *** The shape of a sequence of calls *)

(** The calls in the order they were made. *)
Definition call_sequence (shaken opened : bool) (messages : nat) (closed : bool) : list handler :=
  (if shaken then [OnHandshake] else []) ++ (if opened then [OnOpen] else []) ++
  repeat OnMessage messages ++ (if closed then [OnClose] else []).

(** An upgraded connection has been through the configured handlers. *)
Definition proper_start s (shaken opened : bool) : Prop :=
  (s_on_handshake s <> None -> shaken = true) /\ (s_on_open s <> None -> opened = true).

Lemma sequence_message a b n : call_sequence a b n false ++ [OnMessage] = call_sequence a b (S n) false.
Proof.
  unfold call_sequence. rewrite !app_nil_r, <- !app_assoc. do 2 f_equal. change [OnMessage] with (repeat OnMessage 1).
  rewrite <- repeat_app. f_equal. lia.
Qed.

Lemma sequence_close a b n : call_sequence a b n false ++ [OnClose] = call_sequence a b n true.
Proof. unfold call_sequence. by rewrite !app_nil_r, <- !app_assoc. Qed.

Definition phase_shape s p t : Prop :=
  match p with
  | Fresh => t = []
  | Shaken => t = [OnHandshake]
  | Opened => exists a b n, rev t = call_sequence a b n false /\ proper_start s a b
  | Finished => exists a b n, rev t = call_sequence a b n true /\ proper_start s a b
  end.

Lemma talk_shape s p t : phase_shape s p t -> can_talk s p = true ->
  exists a b n, rev t = call_sequence a b n false /\ proper_start s a b.
Proof.
  intros Sh Hp. unfold can_talk in Hp. apply orb_true_iff in Hp as [Hp|Hp].
  - apply bool_decide_eq_true in Hp as ->. exact Sh.
  - apply andb_true_iff in Hp as [H1 H2]. apply bool_decide_eq_true in H1, H2. subst p. unfold accepted_phase in Sh.
    unfold proper_start. destruct (s_on_handshake s); cbn in Sh; subst t.
    + by exists true, false, 0%nat.
    + by exists false, false, 0%nat.
Qed.

Lemma phase_of_shape s p t : phase_of s t = Some p -> phase_shape s p t.
Proof.
  revert p. induction t as [|a t IH]; intros p; cbn [phase_of]; [by intros [= <-]|].
  destruct (phase_of s t) as [q|]; [|done]. cbn. specialize (IH q eq_refl). unfold advance. destruct a.
  - case_bool_decide as Hq; [|done]. intros [= <-]. subst q. unfold accepted_phase in IH. cbn.
    destruct (s_on_handshake s) eqn:Es; cbn in IH; subst t; unfold proper_start; rewrite Es.
    + by exists true, true, 0%nat.
    + by exists false, true, 0%nat.
  - case_bool_decide as Hq; [|done]. intros [= <-]. subst q. cbn in *. by subst t.
  - destruct (can_talk s q) eqn:Hq; [|done]. intros [= <-].
    destruct (talk_shape s q t IH Hq) as (x & y & n & E & P). exists x, y, (S n). cbn [rev]. by rewrite E, sequence_message.
  - destruct (can_talk s q) eqn:Hq; [|done]. intros [= <-].
    destruct (talk_shape s q t IH Hq) as (x & y & n & E & P). exists x, y, n. cbn [rev]. by rewrite E, sequence_close.
Qed.

(** C1. The callback protocol.  Over a whole run of a freshly configured server,
    whatever the clients send, the kernel answers and the handlers do (send,
    close, throw, stop), the handlers called for each connection are, in this
    order: [onHandshake] at most once, [onOpen] at most once, any number of
    messages, [onClose] at most once and nothing after it.  And no message or
    close is delivered before the configured handshake and open handlers, nor an
    open before the configured handshake handler. *)
Theorem handler_protocol (best_driver : kernel -> option D * kernel) w h
    (Hdriver : init_law best_driver) (Hshut : shut zval_get_long w) (Hheap : w_heap w = ∅)
    (Hcalls : forall h, calls_of h w = []) (Hexception : w_exception w = None) :
  let w' := (WebSocket_Server_run getnameinfo sa_family AF_INET6 getaddrinfo sha1 base64_encode base64_decode_ex
               zval_get_long best_driver w).2 in
  exists shaken opened messages closed,
    rev (calls_of h w') = call_sequence shaken opened messages closed /\
    (opened || (0 <? Z.of_nat messages) || closed = true -> s_on_handshake (w_server w') <> None -> shaken = true) /\
    ((0 <? Z.of_nat messages) || closed = true -> s_on_open (w_server w') <> None -> opened = true).
Proof.
  cbv zeta. set (w' := (WebSocket_Server_run _ _ _ _ _ _ _ _ _ w).2). enough (S : sound w').
  { destruct (so_conn w' S h) as [[p Ep] _ _]. apply phase_of_shape in Ep. destruct p; cbn in Ep.
    - rewrite Ep. by exists false, false, 0%nat, false.
    - rewrite Ep. by exists true, false, 0%nat, false.
    - destruct Ep as (a & b & n & E & P1 & P2). exists a, b, n, false. split_and!; [done|by intros _..].
    - destruct Ep as (a & b & n & E & P1 & P2). exists a, b, n, true. split_and!; [done|by intros _..]. }
  assert (Q : quiescent w).
  { assert (Hc : forall h', conn_of h' w = websocket_connection_create_object).
    { intros h'. unfold conn_of. by rewrite Hheap, lookup_empty. }
    split; [split; [constructor|]|]; try done.
    - apply Hshut.
    - intros h'. rewrite Hc, Hcalls. by constructor.
    - intros h'. by rewrite Hc. }
  subst w'. unfold WebSocket_Server_run. rewrite (st_bind_run (st_gets w_running)), (st_bind_run get_server).
  cbn [fst snd get_server st_gets].
  assert (Hthrow : forall e w0, sound w0 -> sound (set_w_exception e w0)) by (intros e w0 []; by constructor).
  destruct (w_running w); [by apply Hthrow, Q|]. destruct (negb _); [by apply Hthrow, Q|].
  rewrite (st_bind_run (ensure_driver _)), (st_bind_run (st_gets w_driver)). cbn [fst snd st_gets].
  pose proof (ensure_driver_step best_driver w Hdriver (si_driver _ _ _ (shut_inv _ _ Hshut))) as E. cbv zeta in E.
  revert E. generalize (ensure_driver best_driver w).2. intros w1 (E1 & E2 & E3 & E4 & E5 & E6 & E7).
  assert (H1 : shut zval_get_long w1 /\ quiescent w1).
  { split; [by apply (shut_same _ w)|]. apply (quiescent_silent w); [|done]. intros Hd.
    constructor; try done; intros; unfold calls_of, conn_of; rewrite ?E1, ?E2, ?E6; done || reflexivity. }
  destruct H1 as [Sh1 Q1]. destruct (w_driver w1); [|by apply Hthrow, Q1].
  rewrite (st_bind_run (st_modify _)), (st_bind_run (mod_server _)). cbn [fst snd st_modify mod_server].
  rewrite (st_bind_run (websocket_server_runtime_run _ _ _ _ _ _ _ _)).
  match goal with |- context [websocket_server_runtime_run _ _ _ _ _ _ _ _ ?w2] =>
    assert (H2 : shut zval_get_long w2 /\ quiescent w2); [|pose proof (runtime_run_sound w2 H2) as S3] end.
  { split; [by destruct Sh1 as [[] ? ? ?]; constructor; [constructor|..]|].
    apply (quiescent_silent w1); [|done]. intros Hd. by constructor. }
  destruct (websocket_server_runtime_run _ _ _ _ _ _ _ _ _) as [ok w3]. cbn [fst snd] in S3.
  rewrite (st_bind_run (mod_server _)). apply (sound_silent false w3); [|done]. intros Hd. by constructor.
Qed.
End HandlerOrder.

(** The echo run: opened, one message, closed. *)
Lemma handler_protocol_witness :
  rev (calls_of 0 (echo_run echo_script)) = call_sequence false true 1 true /\
  exists shaken opened messages closed,
    rev (calls_of 0 (echo_run echo_script)) = call_sequence shaken opened messages closed /\
    (opened || (0 <? Z.of_nat messages) || closed = true ->
     s_on_handshake (w_server (echo_run echo_script)) <> None -> shaken = true) /\
    ((0 <? Z.of_nat messages) || closed = true ->
     s_on_open (w_server (echo_run echo_script)) <> None -> opened = true).
Proof.
  split; [by vm_compute|].
  apply (handler_protocol no_names ipv4 10 one_address (fun x => x) (fun x => x) example_decode (fun z => z)
    select_only (echo_world echo_script) 0); [| |done..].
  - apply select_only_law.
  - constructor; [constructor|..]; try done.
    + apply NoDup_nil_2.
    + intros h Hh. by apply not_elem_of_nil in Hh.
Defined.
