(* ===== verification/MemoryBounds.v ===== *)
(** * What a connection may hold

    The read buffer and the fragmented message of every connection stay within
    the configured limits, and the buffer within its allocation, whatever the
    clients send. *)
From stdpp Require Import gmap.
From S2P Require Import Prelude Constants Words Utf8 Mask Protocol Http Kernel Driver SelectDriver ConnState Connection.
From S2P Require Import ConnectionFacts Options Frames FramesSpec World Runtime RuntimeFacts WorldFacts Server Scenario.
From S2P Require Import Termination ServerInvariant.

Section MemoryBounds.
Context {D U V : Type} `{HD : Driver D} `{!DriverLaws D}.
Context (getnameinfo : bytes -> option (bytes * bytes)) (sa_family : bytes -> Z) (AF_INET6 : Z).
Context (sha1 base64_encode : bytes -> bytes) (base64_decode_ex : bytes -> option bytes).
Context (zval_get_long : V -> Z).
Local Abbreviation W A := (ST (world D U V) A).
Implicit Types (w : world D U V).

(** The largest message, and the largest read buffer: a request of the handshake,
    or a message with its frame header and one more chunk. *)
Definition message_limit (o : options_zval V) : Z := websocket_server_max_message_size zval_get_long o.
Definition buffer_limit (o : options_zval V) : Z := Z.max WEBSOCKET_HTTP_MAX_REQUEST_SIZE (read_limit (message_limit o)).

Record within (o : options_zval V) (c : websocket_connection_object) : Prop := {
  wi_buffer : zlen (c_read_buffer c) <= c_read_buffer_capacity c;
  wi_capacity : 0 <= c_read_buffer_capacity c <= buffer_limit o;
  wi_fragment : match c_fragmented_payload c with Some p => zlen p <= message_limit o | None => True end
}.

Definition mem_ok (o : options_zval V) w : Prop :=
  driver_ok (w_driver w) /\ s_options (w_server w) = o /\ forall h, within o (conn_of h w).

Lemma buffer_limit_range o : WEBSOCKET_HTTP_MAX_REQUEST_SIZE <= buffer_limit o <= SIZE_MAX /\
  0 <= read_limit (message_limit o) <= buffer_limit o.
Proof.
  unfold buffer_limit, read_limit, message_limit. pose proof (max_message_size_nonneg zval_get_long o).
  unfold SIZE_MAX, WEBSOCKET_READ_CHUNK_SIZE, WEBSOCKET_HTTP_MAX_REQUEST_SIZE. case_match; lia.
Qed.

Lemma within_create o : within o websocket_connection_create_object.
Proof. constructor; cbn; [done| |done]. pose proof (buffer_limit_range o). unfold WEBSOCKET_HTTP_MAX_REQUEST_SIZE in *. lia. Qed.

Lemma within_step o c c' : conn_step c c' -> within o c -> within o c'.
Proof.
  intros [] []. constructor.
  - destruct cst_capacity as [->|[-> ->]]; [|done]. destruct cst_read as [->| ->]; [done|]. rewrite zlen_nil; lia.
  - destruct cst_capacity as [->|[-> _]]; lia.
  - by destruct cst_fragment as [->| ->].
Qed.

Lemma within_obj o c c' : obj_step c c' -> within o c -> within o c'.
Proof.
  intros [H|[]]; [by apply within_step|]. intros _. constructor; rewrite ?dead_read, ?dead_fragment, ?dead_capacity; try done.
  pose proof (buffer_limit_range o). unfold WEBSOCKET_HTTP_MAX_REQUEST_SIZE in *. lia.
Qed.

(** ** Preservation *)

Lemma same_server_options (s s' : websocket_server_object U V) : same_server s s' -> s_options s' = s_options s.
Proof. by intros [-> | ->]. Qed.

Lemma user_mem {A} o (m : W A) : relates user_step m -> preserves (mem_ok o) m.
Proof.
  intros H w (Hd & Ho & Hc). destruct (H w Hd) as ([] & O & _). split_and!; [done| |].
  - by rewrite (same_server_options _ _ wf_server).
  - intros h. eapply within_obj; eauto.
Qed.

Lemma quiet_mem {A} o (m : W A) : relates quiet_step m -> preserves (mem_ok o) m.
Proof. intros. by apply user_mem, quiet_user_step. Qed.

Lemma on_conn_mem {A} o h (m : ST (cstate D) A) : relates cs_step m -> preserves (mem_ok o) (on_conn h m : W A).
Proof. intros. by apply quiet_mem, on_conn_step. Qed.

Lemma mod_connection_mem o h f : (forall c, within o c -> within o (f c)) -> preserves (mem_ok o) (mod_connection h f : W _).
Proof.
  intros Hf w (Hd & Ho & Hc). split_and!; [done..|]. intros h'. unfold mod_connection, st_modify. cbn [snd].
  rewrite conn_of_insert. destruct (decide (h' = h)); auto.
Qed.

Lemma gets_mem {A} o (f : world D U V -> A) : preserves (mem_ok o) (st_gets f).
Proof. apply preserves_gets. Qed.

Lemma within_neutral o c c' : c_read_buffer c' = c_read_buffer c -> c_read_buffer_capacity c' = c_read_buffer_capacity c ->
  c_fragmented_payload c' = c_fragmented_payload c \/ c_fragmented_payload c' = None -> within o c -> within o c'.
Proof. intros E1 E2 E3 []. constructor; rewrite ?E1, ?E2; try done. by destruct E3 as [->| ->]. Qed.

Lemma within_discard o n c : within o c -> within o (websocket_connection_discard_read_bytes n c).
Proof.
  intros []. unfold websocket_connection_discard_read_bytes. destruct (_ <=? _); constructor; cbn; try done; zlia.
Qed.
Hint Resolve user_mem quiet_mem on_conn_mem : pres.
Hint Extern 1 (preserves _ (st_gets _)) => apply gets_mem : pres.
Hint Extern 1 (preserves _ get_server) => apply gets_mem : pres.
Hint Extern 1 (preserves _ get_options) => apply gets_mem : pres.
Hint Extern 1 (preserves _ no_exception) => apply gets_mem : pres.
Hint Extern 1 (preserves _ world_errno) => apply gets_mem : pres.
Hint Extern 1 (preserves _ (get_connection _)) => apply gets_mem : pres.
Hint Extern 2 (preserves _ (world_kernel _)) => apply quiet_mem, world_kernel_quiet; intros ? : pres.
Hint Extern 2 (preserves _ (mod_connection _ _)) =>
  apply mod_connection_mem; intros ?; apply within_neutral; cbn; auto : pres.
Hint Extern 2 (preserves _ (throw _)) => apply user_mem, throw_step : pres.

Lemma call_user_mem o ev f : preserves (mem_ok o) (call_user getnameinfo sa_family AF_INET6 ev f : W _).
Proof.
  unfold call_user. pres. by intros w.
Qed.
Hint Resolve call_user_mem : pres.

Lemma close_with_code_mem o h code reason : preserves (mem_ok o) (websocket_server_close_with_code h code reason : W _).
Proof. apply quiet_mem, close_with_code_quiet. Qed.
Hint Resolve close_with_code_mem : pres.

Lemma service_mem o h now : preserves (mem_ok o) (service_connection zval_get_long h now : W _).
Proof. apply quiet_mem, service_connection_quiet. Qed.
Hint Resolve service_mem : pres.

Lemma with_reference_mem {A} o h (m : W A) : preserves (mem_ok o) m -> preserves (mem_ok o) (with_reference h m).
Proof. intros. unfold with_reference. pres. Qed.
Hint Resolve with_reference_mem : pres.

Lemma call_handler_mem o f h : preserves (mem_ok o) (websocket_server_call_handler getnameinfo sa_family AF_INET6 f h : W _).
Proof. unfold websocket_server_call_handler. pres. Qed.
Hint Resolve call_handler_mem : pres.

Lemma call_message_mem o h payload opcode :
  preserves (mem_ok o) (websocket_server_call_message_handler getnameinfo sa_family AF_INET6 h payload opcode : W _).
Proof. unfold websocket_server_call_message_handler. pres. Qed.
Hint Resolve call_message_mem : pres.

(** ** The fragmented message *)

Lemma append_fragment_bound payload max c result :
  match c_fragmented_payload c with Some p => zlen p <= max | None => True end ->
  websocket_server_append_fragment payload max c = Some result -> zlen result <= max.
Proof.
  intros Hc. unfold websocket_server_append_fragment. destruct ((max <? zlen payload) || _) eqn:E; [done|].
  destruct (c_fragmented_payload c) as [p|].
  - destruct (zlen payload =? 0); intros [= <-]; [done|]. zlia.
  - intros [= <-]. lia.
Qed.

Lemma set_fragment_mem o h p f : zlen p <= message_limit o ->
  (forall c, c_read_buffer (f c) = c_read_buffer c /\ c_read_buffer_capacity (f c) = c_read_buffer_capacity c) ->
  preserves (mem_ok o) (mod_connection h (fun c => set_fragmented_payload (Some p) (f c)) : W _).
Proof.
  intros Hp Hf. apply mod_connection_mem. intros c []. destruct (Hf c) as [E1 E2].
  constructor; cbn; rewrite ?E1, ?E2; done.
Qed.

(** The parser hands on control frames and data frames within the limit. *)
Definition frame_fits (o : options_zval V) (frame : websocket_server_frame) : Prop :=
  websocket_protocol_opcode_is_control (sf_opcode frame) = false -> zlen (sf_payload frame) <= message_limit o.

Lemma handle_data_mem o h frame : zlen (sf_payload frame) <= message_limit o ->
  preserves (mem_ok o) (websocket_server_handle_data_frame getnameinfo sa_family AF_INET6 zval_get_long h frame : W _).
Proof.
  intros Hp w M. unfold websocket_server_handle_data_frame.
  rewrite (st_bind_run get_options), (st_bind_run (get_connection h)). cbn [fst snd get_options get_connection st_gets].
  cbv zeta. destruct M as (Hd & Ho & Hc). rewrite Ho. fold (message_limit o).
  pose proof (wi_fragment _ _ (Hc h)) as Hfrag. assert (M : mem_ok o w) by done. clear Hd Ho Hc.
  assert (Hrun : forall {A} (m : W A), preserves (mem_ok o) m -> mem_ok o (m w).2) by (intros A m Hm; by apply Hm).
  destruct (sf_opcode frame =? _).
  - destruct (negb _); [apply Hrun; pres|].
    destruct (websocket_server_append_fragment _ _ _) as [p|] eqn:Ef; [|apply Hrun; pres].
    pose proof (append_fragment_bound _ _ _ _ Hfrag Ef) as Hb.
    apply Hrun. apply preserves_bind; [by apply (set_fragment_mem o h p (fun c => c))|intros ?]. pres.
  - destruct (c_fragmented (conn_of h w)); [apply Hrun; pres|].
    destruct (sf_final frame); [destruct (_ && _); apply Hrun; pres|].
    apply Hrun. apply preserves_bind; [by apply set_fragment_mem|intros ?]. pres.
Qed.

Lemma handle_frame_mem o h frame : frame_fits o frame ->
  preserves (mem_ok o) (websocket_server_handle_frame getnameinfo sa_family AF_INET6 zval_get_long h frame : W _).
Proof.
  intros Hf. unfold websocket_server_handle_frame. cbv zeta. apply preserves_bind; [|intros ?; pres].
  destruct (_ || _) eqn:Hop; [|pres]. apply handle_data_mem, Hf.
  unfold websocket_protocol_opcode_is_control. revert Hop. generalize (sf_opcode frame). intros op.
  unfold WEBSOCKET_OPCODE_TEXT, WEBSOCKET_OPCODE_BINARY, WEBSOCKET_OPCODE_CONTINUATION.
  intros Hop. assert (op = 0 \/ op = 1 \/ op = 2) as [-> | [-> | ->]] by lia; done.
Qed.

Lemma buffered_frames_mem o fuel h :
  preserves (mem_ok o)
    (buffered_frames_loop getnameinfo sa_family AF_INET6 zval_get_long fuel h (message_limit o) : W _).
Proof.
  induction fuel as [|fuel IH]; cbn [buffered_frames_loop]; [pres|].
  apply preserves_bind; [pres|intros c]. destruct (negb _); [pres|]. unfold refuse_frame.
  destruct (websocket_server_parse_frame _ _) as [|frame| | |] eqn:Hp; [pres| |pres..].
  apply parse_frame_consumed in Hp as (_ & Hfit & _).
  apply preserves_bind; [apply mod_connection_mem; intros ?; apply within_discard|intros ?].
  apply preserves_bind; [by apply handle_frame_mem|intros ok]. destruct (negb ok); [pres|exact IH].
Qed.

Lemma process_buffered_mem o h :
  preserves (mem_ok o)
    (websocket_server_process_buffered_frames getnameinfo sa_family AF_INET6 zval_get_long h : W _).
Proof.
  intros w M. unfold websocket_server_process_buffered_frames.
  rewrite (st_bind_run get_options), (st_bind_run (get_connection h)). cbn [fst snd get_options get_connection st_gets].
  pose proof M as (_ & Ho & _). rewrite Ho. by apply buffered_frames_mem.
Qed.
Hint Resolve process_buffered_mem : pres.

(** ** Reading *)

Lemma within_append o chunk limit c capacity : 0 <= limit <= buffer_limit o -> within o c ->
  websocket_connection_ensure_read_capacity (zlen chunk) limit c = Some capacity ->
  within o (append_read_bytes capacity chunk c).
Proof.
  intros Hl [] He. pose proof (zlen_nonneg chunk). pose proof (buffer_limit_range o) as [[_ Hs] _].
  pose proof (ensure_capacity_outcome (zlen chunk) limit c ltac:(done) ltac:(lia) ltac:(lia)) as S. cbv zeta in S.
  rewrite He in S. pose proof (zlen_nonneg (c_read_buffer c)). constructor; cbn; [rewrite zlen_app; lia|lia|done].
Qed.

(** Appending what [ensure_read_capacity] made room for, then going on with [m]. *)
Lemma append_mem {A} o h chunk limit (c : websocket_connection_object) capacity (m : W A) w :
  0 <= limit <= buffer_limit o -> mem_ok o w -> c = conn_of h w ->
  websocket_connection_ensure_read_capacity (zlen chunk) limit c = Some capacity ->
  preserves (mem_ok o) m -> mem_ok o ((mod_connection h (append_read_bytes capacity chunk);; m) w).2.
Proof.
  intros Hl M -> He Hm. rewrite st_bind_run. apply Hm. destruct M as (Hd & Ho & Hc). split_and!; [done..|].
  intros h'. unfold mod_connection, st_modify. cbn [snd]. rewrite conn_of_insert.
  destruct (decide (h' = h)) as [->|]; [|done]. by eapply within_append.
Qed.

Lemma finish_upgrade_mem o h key sub n :
  preserves (mem_ok o) (websocket_server_finish_upgrade getnameinfo sa_family AF_INET6 zval_get_long h key sub n : W _).
Proof.
  unfold websocket_server_finish_upgrade, send_bytes, websocket_server_call_open_handler,
    websocket_server_notify_connection_closed. pres.
  apply mod_connection_mem. intros c Hc. apply within_discard. revert Hc. apply within_neutral; cbn; auto.
Qed.
Hint Resolve finish_upgrade_mem : pres.

Lemma call_handshake_mem o r h :
  preserves (mem_ok o) (websocket_server_call_handshake_handler getnameinfo sa_family AF_INET6 r h : W _).
Proof.
  unfold websocket_server_call_handshake_handler, websocket_server_handle_handshake_exception,
    websocket_server_send_handshake_response, send_bytes. pres. by intros w.
Qed.
Hint Resolve call_handshake_mem : pres.

Lemma handshake_request_mem o h parsed :
  preserves (mem_ok o) (handshake_request getnameinfo sa_family AF_INET6 zval_get_long h parsed : W _).
Proof. unfold handshake_request. pres. Qed.

Lemma bad_request_mem o h : preserves (mem_ok o) (bad_request h : W _).
Proof. unfold bad_request, send_bytes. pres. Qed.
Hint Resolve handshake_request_mem bad_request_mem : pres.

Lemma handshake_loop_mem o fuel h :
  preserves (mem_ok o) (handshake_loop getnameinfo sa_family AF_INET6 sha1 base64_encode base64_decode_ex
    zval_get_long fuel h : W _).
Proof.
  induction fuel as [|fuel IH]; cbn [handshake_loop]; [pres|].
  apply preserves_bind; [pres|intros c0]. destruct (negb _); [pres|].
  apply preserves_bind; [pres|intros chunk]. destruct chunk as [[|b chunk]|]; [pres| |].
  - unfold now_usec. apply preserves_bind; [pres|intros now]. apply preserves_bind; [pres|intros ?].
    intros w M. rewrite (st_bind_run (get_connection h)). cbn [fst snd get_connection st_gets].
    destruct (websocket_connection_ensure_read_capacity _ _ _) as [capacity|] eqn:He; [|by apply bad_request_mem].
    pose proof (buffer_limit_range o).
    eapply append_mem; [|done|done|exact He|]; [unfold WEBSOCKET_HTTP_MAX_REQUEST_SIZE in *; lia|].
    apply preserves_bind; [pres|intros c]. apply preserves_bind; [pres|intros s].
    destruct (websocket_http_parse_upgrade _ _ _ _ _) as [[| |] parsed]; [exact IH|pres..].
  - apply preserves_bind; [pres|intros e]. destruct (_ =? EINTR); [exact IH|]. pres.
Qed.

Lemma process_handshake_mem o h :
  preserves (mem_ok o) (websocket_server_process_handshake getnameinfo sa_family AF_INET6 sha1 base64_encode
    base64_decode_ex zval_get_long h : W _).
Proof. unfold websocket_server_process_handshake. apply preserves_bind; [pres|intros f]. apply handshake_loop_mem. Qed.

Lemma frame_reads_mem o fuel h :
  preserves (mem_ok o) (frame_reads_loop getnameinfo sa_family AF_INET6 zval_get_long fuel h
    (read_limit (message_limit o)) : W _).
Proof.
  induction fuel as [|fuel IH]; cbn [frame_reads_loop]; [pres|].
  apply preserves_bind; [pres|intros c0]. destruct (negb _); [pres|].
  apply preserves_bind; [pres|intros chunk]. destruct chunk as [[|b chunk]|]; [pres| |].
  - unfold now_usec. apply preserves_bind; [pres|intros now]. apply preserves_bind; [pres|intros ?].
    intros w M. rewrite (st_bind_run (get_connection h)). cbn [fst snd get_connection st_gets].
    destruct (websocket_connection_ensure_read_capacity _ _ _) as [capacity|] eqn:He.
    2:{ rewrite st_bind_run. by apply close_with_code_mem. }
    pose proof (buffer_limit_range o). eapply append_mem; [|done|done|exact He|]; [lia|].
    apply preserves_bind; [pres|intros ok]. destruct (negb ok); [pres|exact IH].
  - apply preserves_bind; [pres|intros e]. destruct (_ =? EINTR); [exact IH|]. pres.
Qed.

Lemma process_frame_reads_mem o h :
  preserves (mem_ok o) (websocket_server_process_frame_reads getnameinfo sa_family AF_INET6 zval_get_long h : W _).
Proof.
  intros w M. unfold websocket_server_process_frame_reads.
  rewrite (st_bind_run get_options), (st_bind_run (st_gets _)). cbn [fst snd get_options st_gets].
  pose proof M as (_ & Ho & _). rewrite Ho. by apply frame_reads_mem.
Qed.
Hint Resolve process_handshake_mem process_frame_reads_mem : pres.

Lemma process_connection_fd_mem o fd :
  preserves (mem_ok o) (websocket_server_process_connection_fd getnameinfo sa_family AF_INET6 sha1 base64_encode
    base64_decode_ex zval_get_long fd : W _).
Proof. unfold websocket_server_process_connection_fd, now_usec. pres. Qed.

Lemma process_connections_mem o :
  preserves (mem_ok o) (websocket_server_process_connections getnameinfo sa_family AF_INET6 sha1 base64_encode
    base64_decode_ex zval_get_long : W _).
Proof.
  unfold websocket_server_process_connections, now_usec. pres.
  match goal with |- preserves _ (process_connections_loop _ _ _ _ _ _ _ ?l _) => induction l end;
    cbn [process_connections_loop]; pres.
Qed.
Hint Resolve process_connection_fd_mem process_connections_mem : pres.

(** ** Accepting and closing *)

Definition cs_within (o : options_zval V) (x : cstate D) : Prop := driver_ok (cs_driver x) /\ within o (cs_conn x).

Lemma mod_conn_within o f : (forall c, within o c -> within o (f c)) -> preserves (cs_within o) (mod_conn f : ST (cstate D) _).
Proof. intros Hf x [Hd Hc]. split; [done|]. by apply Hf. Qed.

Lemma open_within o id addr fd : preserves (cs_within o) (websocket_connection_open id addr fd : ST (cstate D) ()).
Proof.
  assert (Hn : forall f, (forall c, c_read_buffer (f c) = c_read_buffer c /\ c_read_buffer_capacity (f c) = c_read_buffer_capacity c /\
      (c_fragmented_payload (f c) = c_fragmented_payload c \/ c_fragmented_payload (f c) = None)) ->
      preserves (cs_within o) (mod_conn f : ST (cstate D) _)).
  { intros f Hf. apply mod_conn_within. intros c. destruct (Hf c) as (E1 & E2 & E3). by apply within_neutral. }
  unfold websocket_connection_open. apply preserves_bind; [apply Hn; intros c; by split_and!; [..|left]|intros ?].
  apply preserves_bind.
  { destruct addr as [a|]; [|pres]. destruct (_ <=? _); [|pres]. apply Hn. intros c. by split_and!; [..|left]. }
  intros ?. apply preserves_bind.
  { apply mod_conn_within. intros c []. constructor; cbn; [rewrite zlen_nil; lia|done..]. }
  intros ?. apply preserves_bind.
  { intros y [Hd Hc]. destruct (clear_queue_step y Hd) as ([St _] & Hd' & _). split; [done|]. by apply (within_step o (cs_conn y)). }
  intros ?. apply Hn. intros c. by split_and!; [..|right].
Qed.

Lemma on_conn_open_mem o h id addr fd : preserves (mem_ok o) (on_conn h (websocket_connection_open id addr fd) : W _).
Proof.
  intros w (Hd & Ho & Hc).
  destruct (on_conn_run h (websocket_connection_open id addr fd) w) as (_ & E1 & _ & E3 & _ & _ & Ec).
  destruct (open_within o id addr fd (mk_cs (conn_of h w) (w_driver w) (w_kernel w)) (conj Hd (Hc h))) as [Hd' Hw].
  split_and!; [by rewrite E3|by rewrite E1|]. intros h'. rewrite Ec. destruct (decide (h' = h)); [done|apply Hc].
Qed.

Lemma create_zval_mem o : preserves (mem_ok o) (websocket_server_create_connection_zval : W _).
Proof.
  intros w (Hd & Ho & Hc). unfold websocket_server_create_connection_zval. rewrite (st_bind_run get_server).
  cbn [fst snd get_server st_gets]. destruct (s_reusable_connection (w_server w)) as [h|]; [done|].
  rewrite !st_bind_run. split_and!; [done..|]. cbn [fst snd st_gets st_modify mret ST_ret]. intros h.
  match goal with |- within o (conn_of h ?w2) =>
    change (conn_of h w2) with (conn_of h (set_w_heap (<[w_objects w := websocket_connection_create_object]> (w_heap w)) w)) end.
  rewrite conn_of_insert. destruct (decide _); [apply within_create|apply Hc].
Qed.

Lemma mod_server_mem o (f : websocket_server_object U V -> websocket_server_object U V) :
  (forall s, s_options (f s) = s_options s) -> preserves (mem_ok o) (mod_server f : W _).
Proof. intros Hf w (Hd & Ho & Hc). split_and!; [done| |done]. cbn. by rewrite Hf. Qed.
Hint Resolve on_conn_open_mem create_zval_mem : pres.
Hint Extern 2 (preserves _ (mod_server _)) => apply mod_server_mem; intros ?; reflexivity : pres.
Hint Extern 2 (preserves _ (st_modify (set_w_next_connection_id _))) => by intros ? : pres.
Hint Extern 2 (preserves _ (release_connection _)) => apply quiet_mem, release_step : pres.

Lemma accept_loop_mem o fuel n : preserves (mem_ok o) (accept_loop zval_get_long fuel n : W _).
Proof.
  revert n. induction fuel as [|fuel IH]; intros n; cbn [accept_loop]; [pres|].
  assert (preserves (mem_ok o) (websocket_server_accept_connection zval_get_long : W _)).
  { unfold websocket_server_accept_connection, next_connection_id, websocket_server_ensure_connection_capacity,
      send_bytes, close_fd, now_usec. pres. }
  pres.
Qed.

Lemma close_at_mem o i b : preserves (mem_ok o) (websocket_server_close_connection_at getnameinfo sa_family AF_INET6 i b : W _).
Proof. unfold websocket_server_close_connection_at. pres. Qed.
Hint Resolve close_at_mem : pres.

Lemma purge_loop_mem o fuel i : preserves (mem_ok o) (purge_loop getnameinfo sa_family AF_INET6 fuel i : W _).
Proof. revert i. induction fuel; intros i; cbn [purge_loop]; pres. Qed.
Hint Resolve purge_loop_mem accept_loop_mem : pres.

Lemma loop_iteration_mem o :
  preserves (mem_ok o) (loop_iteration getnameinfo sa_family AF_INET6 sha1 base64_encode base64_decode_ex zval_get_long : W _).
Proof.
  unfold loop_iteration, websocket_server_accept_pending, websocket_server_purge_closed_connections. pres.
Qed.

(** C4. The memory of a connection is bounded by the configuration.  Between any
    two iterations of the event loop, whatever the clients send: the bytes read
    and not yet processed fit their buffer, the buffer is at most the larger of
    the handshake limit (8192) and [maxMessageSize] plus a frame header and a
    chunk, and a message under reassembly is at most [maxMessageSize]. *)
Theorem memory_bounded w w' h
    (Hdriver : driver_ok (w_driver w)) (Hwithin : forall h, within (s_options (w_server w)) (conn_of h w))
    (Hreach : reachable getnameinfo sa_family AF_INET6 sha1 base64_encode base64_decode_ex zval_get_long w w') :
  let c := conn_of h w' in
  let max := websocket_server_max_message_size zval_get_long (s_options (w_server w)) in
  zlen (c_read_buffer c) <= c_read_buffer_capacity c /\
  c_read_buffer_capacity c <= Z.max WEBSOCKET_HTTP_MAX_REQUEST_SIZE (read_limit max) /\
  match c_fragmented_payload c with Some p => zlen p <= max | None => True end.
Proof.
  assert (M : mem_ok (s_options (w_server w)) w') by (induction Hreach; [done|by apply loop_iteration_mem]).
  destruct M as (_ & _ & Hc). destruct (Hc h). split_and!; [done|exact (proj2 wi_capacity0)|done].
Qed.
End MemoryBounds.

(** A frame that arrives in part stays in the buffer. *)
Lemma memory_bounded_witness :
  let w := live_world live_conn [AOk 1 [0; 1]; AOk 0 [0x81; 0x82; 0; 0; 0; 0; 72]; AErr EAGAIN] in
  exists w', reachable no_names ipv4 10 (fun x => x) (fun x => x) example_decode (fun z => z) w w' /\
    c_read_buffer (conn_of 0 w') = [0x81; 0x82; 0; 0; 0; 0; 72] /\
    zlen (c_read_buffer (conn_of 0 w')) <= c_read_buffer_capacity (conn_of 0 w').
Proof.
  cbv zeta. set (w := live_world _ _). eexists.
  split_and!; [apply reachable_step; [apply reachable_refl|by vm_compute]|by vm_compute|].
  apply (memory_bounded no_names ipv4 10 (fun x => x) (fun x => x) example_decode (fun z => z) w _ 0); [apply live_ok| |].
  - intros h. unfold w. rewrite live_conn_of. destruct (decide (h = 0)); [|apply within_create].
    constructor; [by vm_compute| |done]. split; by vm_compute.
  - apply reachable_step; [apply reachable_refl|by vm_compute].
Defined.
