(* ===== verification/MessageSpec.v ===== *)
(** * Messages and control frames

    How the frames of one connection become messages, replies and closes. *)
From stdpp Require Import gmap.
From S2P Require Import Prelude Constants Words Utf8 Mask Protocol Http Kernel Driver SelectDriver ConnState Connection.
From S2P Require Import ConnectionFacts ConnectionSpec Options Frames World Runtime RuntimeFacts WorldFacts Server Scenario.
From S2P Require Import Termination ServerInvariant.
From Stdlib Require String.
Import (notations) String.

Section MessageSpec.
Context {D U V : Type} `{HD : Driver D}.
Context (getnameinfo : bytes -> option (bytes * bytes)) (sa_family : bytes -> Z) (AF_INET6 : Z).
Context (zval_get_long : V -> Z).
Local Abbreviation W A := (ST (world D U V) A).
Implicit Types (w : world D U V).
Local Abbreviation handle_frame := (websocket_server_handle_frame getnameinfo sa_family AF_INET6 zval_get_long).

Definition max_message w : Z := websocket_server_max_message_size zval_get_long (s_options (w_server w)).

(** ** Fragmented messages *)

(** The frames of a message handled one after the other, as the loop over the read
    buffer does: until the connection is closed or closing. *)
Definition talking (c : websocket_connection_object) : bool := c_open c && negb (c_close_after_write c).

Fixpoint handle_frames (h : Z) (frames : list websocket_server_frame) : W bool :=
  match frames with
  | [] => mret true
  | frame :: frames =>
    c ← get_connection h;
    if negb (talking c) then mret true else
    ok ← handle_frame h frame; if (ok : bool) then handle_frames h frames else mret false
  end.

Definition fragment (final : bool) (payload : bytes) : websocket_server_frame :=
  mk_server_frame WEBSOCKET_OPCODE_CONTINUATION final (zlen payload + 6) payload.

(** A message of [opcode] of which [payload] has arrived. *)
Definition under_way (h opcode : Z) (payload : bytes) w : world D U V :=
  (mod_connection h (fun c => set_fragmented_payload (Some payload) (set_fragmented_opcode opcode (set_fragmented true c))) w).2.

Lemma under_way_conn h opcode payload w :
  conn_of h (under_way h opcode payload w) =
  set_fragmented_payload (Some payload) (set_fragmented_opcode opcode (set_fragmented true (conn_of h w))).
Proof. unfold under_way. by rewrite conn_of_mod. Qed.

Lemma under_way_again h opcode p q w :
  (mod_connection h (set_fragmented_payload (Some q)) (under_way h opcode p w)) = ((), under_way h opcode q w).
Proof.
  unfold mod_connection at 1. unfold st_modify. rewrite under_way_conn. unfold under_way, mod_connection, st_modify.
  cbn [snd]. f_equal. unfold set_w_heap. cbn [w_heap]. by rewrite insert_insert_eq.
Qed.

(** One more fragment, not the last. *)
Lemma append_fragment_fits p q max c : c_fragmented_payload c = Some p ->
  zlen (p ++ q) <= max -> websocket_server_append_fragment q max c = Some (p ++ q).
Proof.
  intros Hc Hl. unfold websocket_server_append_fragment. rewrite Hc. rewrite zlen_app in Hl.
  pose proof (zlen_nonneg p). pose proof (zlen_nonneg q).
  replace ((max <? zlen q) || (max - zlen q <? zlen p)) with false by lia.
  destruct (Z.eqb_spec (zlen q) 0) as [E|]; [|done]. apply zlen_0_inv in E as ->. by rewrite app_nil_r.
Qed.

Lemma append_fragment_exceeds p q max c : c_fragmented_payload c = Some p ->
  max < zlen (p ++ q) -> websocket_server_append_fragment q max c = None.
Proof.
  intros Hc Hl. unfold websocket_server_append_fragment. rewrite Hc. rewrite zlen_app in Hl.
  pose proof (zlen_nonneg p). pose proof (zlen_nonneg q).
  by replace ((max <? zlen q) || (max - zlen q <? zlen p)) with true by lia.
Qed.

Definition is_data (opcode : Z) : bool :=
  (opcode =? WEBSOCKET_OPCODE_TEXT) || (opcode =? WEBSOCKET_OPCODE_BINARY) || (opcode =? WEBSOCKET_OPCODE_CONTINUATION).

Lemma handle_frame_data h frame w : is_data (sf_opcode frame) = true ->
  handle_frame h frame w =
  (ok ← websocket_server_handle_data_frame getnameinfo sa_family AF_INET6 zval_get_long h frame;
   e ← no_exception; mret (ok && e)) w.
Proof. unfold is_data, websocket_server_handle_frame. cbv zeta. by intros ->. Qed.

Lemma handle_continuation h final q w : c_fragmented (conn_of h w) = true ->
  websocket_server_handle_data_frame getnameinfo sa_family AF_INET6 zval_get_long h (fragment final q) w =
  match websocket_server_append_fragment q (max_message w) (conn_of h w) with
  | None => (mod_connection h websocket_server_clear_fragment;;
             websocket_server_close_with_code h WEBSOCKET_CLOSE_MESSAGE_TOO_BIG (str "message too big")) w
  | Some payload =>
    (mod_connection h (set_fragmented_payload (Some payload));;
     if negb final then mret true else
     if (c_fragmented_opcode (conn_of h w) =? WEBSOCKET_OPCODE_TEXT) && negb (websocket_protocol_is_valid_utf8 payload) then
       mod_connection h websocket_server_clear_fragment;;
       websocket_server_close_with_code h WEBSOCKET_CLOSE_INVALID_PAYLOAD (str "invalid utf-8")
     else
       ok ← websocket_server_call_message_handler getnameinfo sa_family AF_INET6 h payload (c_fragmented_opcode (conn_of h w));
       mod_connection h websocket_server_clear_fragment;;
       mret ok) w
  end.
Proof.
  intros Hf. unfold websocket_server_handle_data_frame. rewrite (st_bind_run get_options), (st_bind_run (get_connection h)).
  cbn [fst snd get_options get_connection st_gets]. rewrite Hf.
  change (sf_opcode (fragment final q) =? WEBSOCKET_OPCODE_CONTINUATION) with true. cbv iota zeta. cbn [negb].
  change (sf_payload (fragment final q)) with q. change (sf_final (fragment final q)) with final. unfold max_message.
  by destruct (websocket_server_append_fragment _ _ _).
Qed.

Lemma handle_middle h opcode p q w : w_exception w = None -> zlen (p ++ q) <= max_message w ->
  handle_frame h (fragment false q) (under_way h opcode p w) = (true, under_way h opcode (p ++ q) w).
Proof.
  intros He Hl. rewrite handle_frame_data by done. rewrite (st_bind_run (websocket_server_handle_data_frame _ _ _ _ _ _)).
  rewrite handle_continuation by (by rewrite under_way_conn). rewrite under_way_conn.
  rewrite (append_fragment_fits p q); [|done|exact Hl].
  rewrite (st_bind_run (mod_connection _ _)). rewrite under_way_again. cbn [fst snd negb mret ST_ret].
  rewrite (st_bind_run no_exception). unfold no_exception, st_gets. cbn [fst snd].
  change (w_exception (under_way h opcode (p ++ q) w)) with (w_exception w). by rewrite He.
Qed.

Lemma handle_frames_cons h frame frames w : talking (conn_of h w) = true ->
  handle_frames h (frame :: frames) w =
  (ok ← handle_frame h frame; if (ok : bool) then handle_frames h frames else mret false) w.
Proof.
  intros Ht. cbn [handle_frames]. rewrite (st_bind_run (get_connection h)). cbn [fst snd get_connection st_gets].
  by rewrite Ht.
Qed.

Lemma handle_frames_left h frames w : talking (conn_of h w) = false -> handle_frames h frames w = (true, w).
Proof.
  intros Ht. destruct frames as [|frame frames]; cbn [handle_frames]; [done|].
  rewrite (st_bind_run (get_connection h)). cbn [fst snd get_connection st_gets]. by rewrite Ht.
Qed.

Lemma under_way_talking h opcode p w : talking (conn_of h (under_way h opcode p w)) = talking (conn_of h w).
Proof. by rewrite under_way_conn. Qed.

Definition clear_and_close (h code : Z) (reason : bytes) : W bool :=
  mod_connection h websocket_server_clear_fragment;; websocket_server_close_with_code h code reason.

(** The end of a message of [opcode]: refused or delivered. *)
Definition finish_message (h opcode : Z) (message : bytes) : W bool :=
  max ← st_gets max_message;
  if max <? zlen message then clear_and_close h WEBSOCKET_CLOSE_MESSAGE_TOO_BIG (str "message too big")
  else if (opcode =? WEBSOCKET_OPCODE_TEXT) && negb (websocket_protocol_is_valid_utf8 message)
  then clear_and_close h WEBSOCKET_CLOSE_INVALID_PAYLOAD (str "invalid utf-8")
  else
    ok ← websocket_server_call_message_handler getnameinfo sa_family AF_INET6 h message opcode;
    mod_connection h websocket_server_clear_fragment;;
    mret ok.

(** The last fragment. *)
Lemma handle_last h opcode p q w :
  handle_frame h (fragment true q) (under_way h opcode p w) =
  (ok ← finish_message h opcode (p ++ q); e ← no_exception; mret (ok && e))
    (under_way h opcode (if max_message w <? zlen (p ++ q) then p else p ++ q) w).
Proof.
  rewrite handle_frame_data by done. rewrite !(st_bind_run (websocket_server_handle_data_frame _ _ _ _ _ _)).
  rewrite handle_continuation by (by rewrite under_way_conn). rewrite under_way_conn.
  change (max_message (under_way h opcode p w)) with (max_message w).
  rewrite (st_bind_run (finish_message _ _ _)). unfold finish_message.
  destruct (Z.ltb_spec (max_message w) (zlen (p ++ q))) as [Hl|Hl].
  - rewrite (append_fragment_exceeds p q) by done. rewrite !(st_bind_run (st_gets max_message)).
    cbn [fst snd st_gets]. change (max_message (under_way h opcode p w)) with (max_message w).
    by replace (max_message w <? zlen (p ++ q)) with true by lia.
  - rewrite (append_fragment_fits p q) by done. rewrite !(st_bind_run (st_gets max_message)).
    cbn [fst snd st_gets]. change (max_message (under_way h opcode (p ++ q) w)) with (max_message w).
    replace (max_message w <? zlen (p ++ q)) with false by lia.
    rewrite !(st_bind_run (mod_connection h (set_fragmented_payload _))), !under_way_again. cbn [fst snd negb].
    cbn [c_fragmented_opcode set_fragmented_payload set_fragmented_opcode]. done.
Qed.

(** ** A connection that leaves *)

Lemma close_socket_not_open :
  hoare (fun _ => True) (websocket_connection_close_socket (D := D)) (fun _ s => c_open (cs_conn s) = false).
Proof.
  unfold websocket_connection_close_socket, websocket_connection_clear_write_queue.
  eapply hoare_bind with (R := fun _ _ => True); [done|intros c].
  eapply hoare_bind with (R := fun _ _ => True); [done|intros ?].
  eapply hoare_bind with (R := fun _ s => c_open (cs_conn s) = false); [done|intros ?].
  eapply hoare_bind with (R := fun _ s => c_open (cs_conn s) = false); [|by intros ? s Hs].
  eapply hoare_bind with (R := fun _ s => c_open (cs_conn s) = false); [by intros s Hs|intros ?].
  eapply hoare_bind with (R := fun _ s => c_open (cs_conn s) = false); [by intros s Hs|intros c'].
  eapply hoare_bind with (R := fun _ s => c_open (cs_conn s) = false); [|by intros ? s Hs].
  intros s Hs. destruct (_ && _); [|done]. unfold driver_do. destruct (cs_driver s); [|done].
  by destruct (unwatch_write _ _).
Qed.

Lemma close_after_write_ends s : talking (cs_conn (websocket_connection_close_after_write (D := D) s).2) = false.
Proof.
  unfold websocket_connection_close_after_write, websocket_connection_has_pending_writes, talking. run.
  destruct (c_open (cs_conn s)) eqn:Ho; cbn [negb]; [|by cbn; rewrite Ho].
  destruct (0 <? _); cbn [negb]; [by run; rewrite andb_false_r|]. by rewrite (close_socket_not_open s I).
Qed.

(** After [close_with_code] nothing more is read. *)
Lemma close_with_code_ends h code reason w :
  let r := (websocket_server_close_with_code h code reason : W bool) w in
  r.1 = true /\ talking (conn_of h r.2) = false /\ w_exception r.2 = w_exception w.
Proof.
  cbv zeta. unfold websocket_server_close_with_code. rewrite st_bind_run.
  destruct (on_conn_run h (websocket_connection_send_close_frame code reason) w) as (_ & _ & _ & _ & _ & X1 & _).
  destruct (on_conn h _ w) as [ok w1]. cbn [fst snd] in *. rewrite st_bind_run.
  set (m := if ok then websocket_connection_close_after_write (D := D) else websocket_connection_close_socket).
  replace (if ok then _ else _) with (on_conn (D := D) (U := U) (V := V) h m) by (unfold m; by destruct ok).
  destruct (on_conn_run h m w1) as (_ & _ & _ & _ & _ & X2 & E). cbn [fst snd mret ST_ret].
  rewrite E, decide_True, X2 by done. split_and!; [done| |done]. unfold m. destruct ok; [apply close_after_write_ends|].
  unfold talking. by rewrite (close_socket_not_open _ I).
Qed.

(** ** Messages in fragments *)

(** What has arrived of a message when it ends or is refused: [first] and the
    fragments after it, as long as they fit. *)
Fixpoint arrived (max : Z) (p : bytes) (fragments : list bytes) : bytes :=
  match fragments with
  | [] => p
  | q :: fragments => if max <? zlen (p ++ q) then p else arrived max (p ++ q) fragments
  end.

Lemma arrived_fits max p fragments : zlen (p ++ concat fragments) <= max -> arrived max p fragments = p ++ concat fragments.
Proof.
  revert p. induction fragments as [|q fragments IH]; intros p Hl; cbn [arrived concat] in *; [by rewrite app_nil_r|].
  rewrite app_assoc in *. rewrite zlen_app in Hl. pose proof (zlen_nonneg (concat fragments)).
  replace (max <? zlen (p ++ q)) with false by lia. apply IH. rewrite zlen_app. lia.
Qed.

(** The answer to a whole message. *)
Definition answer_message (h opcode : Z) (message : bytes) : W bool :=
  ok ← finish_message h opcode message; e ← no_exception; mret (ok && e).

(** A message that is refused, at whichever frame. *)
Lemma answer_too_big h opcode message w : w_exception w = None -> max_message w < zlen message ->
  answer_message h opcode message w = clear_and_close h WEBSOCKET_CLOSE_MESSAGE_TOO_BIG (str "message too big") w /\
  (answer_message h opcode message w).1 = true /\ talking (conn_of h (answer_message h opcode message w).2) = false.
Proof.
  intros He Hl. unfold answer_message. rewrite st_bind_run. unfold finish_message.
  rewrite (st_bind_run (st_gets max_message)). cbn [fst snd st_gets].
  replace (max_message w <? zlen message) with true by lia. unfold clear_and_close.
  rewrite (st_bind_run (mod_connection _ _)).
  match goal with |- context [websocket_server_close_with_code _ ?c ?r ?w1] =>
    destruct (close_with_code_ends h c r w1) as (E1 & E2 & E3);
    destruct (websocket_server_close_with_code h c r w1) as [ok w2] end.
  cbn [fst snd] in *. subst ok. rewrite (st_bind_run no_exception). unfold no_exception, st_gets. cbn [fst snd mret ST_ret].
  change (w_exception (mod_connection h websocket_server_clear_fragment w).2) with (w_exception w) in E3.
  by rewrite E3, He.
Qed.

Lemma handle_continuation_too_big h opcode final p q w : w_exception w = None -> max_message w < zlen (p ++ q) ->
  handle_frame h (fragment final q) (under_way h opcode p w) = answer_message h opcode (p ++ q) (under_way h opcode p w).
Proof.
  intros He Hl. destruct (answer_too_big h opcode (p ++ q) (under_way h opcode p w) He Hl) as (E & E1 & _).
  rewrite handle_frame_data by done. rewrite !(st_bind_run (websocket_server_handle_data_frame _ _ _ _ _ _)).
  rewrite handle_continuation by (by rewrite under_way_conn). rewrite under_way_conn.
  change (max_message (under_way h opcode p w)) with (max_message w).
  rewrite (append_fragment_exceeds p q) by done. unfold answer_message in E |- *. rewrite !(st_bind_run (finish_message _ _ _)).
  unfold finish_message. rewrite !(st_bind_run (st_gets max_message)). cbn [fst snd st_gets].
  change (max_message (under_way h opcode p w)) with (max_message w).
  by replace (max_message w <? zlen (p ++ q)) with true by lia.
Qed.

(** The fragments after the first. *)
Lemma handle_continuations h opcode p middle last w :
  talking (conn_of h w) = true -> w_exception w = None ->
  handle_frames h (map (fragment false) middle ++ [fragment true last]) (under_way h opcode p w) =
  answer_message h opcode (p ++ concat middle ++ last) (under_way h opcode (arrived (max_message w) p (middle ++ [last])) w).
Proof.
  intros Ht He. revert p. induction middle as [|q middle IH]; intros p; cbn [map app concat arrived];
    rewrite handle_frames_cons by (by rewrite under_way_talking); rewrite (st_bind_run (handle_frame _ _)).
  - destruct (Z.ltb_spec (max_message w) (zlen (p ++ last))) as [Hl|Hl].
    + rewrite handle_continuation_too_big by done.
      destruct (answer_message _ _ _ _) as [[] w2]; done.
    + rewrite handle_last. replace (max_message w <? zlen (p ++ last)) with false by lia.
      fold (answer_message h opcode (p ++ last)). by destruct (answer_message _ _ _ _) as [[] w2].
  - destruct (Z.ltb_spec (max_message w) (zlen (p ++ q))) as [Hl|Hl].
    + rewrite handle_continuation_too_big by done.
      assert (Hl2 : max_message w < zlen (p ++ (q ++ concat middle) ++ last)).
      { rewrite !zlen_app in *. pose proof (zlen_nonneg (concat middle)). pose proof (zlen_nonneg last). lia. }
      destruct (answer_too_big h opcode (p ++ q) (under_way h opcode p w) He Hl) as (E & E1 & E2).
      destruct (answer_too_big h opcode (p ++ (q ++ concat middle) ++ last) (under_way h opcode p w) He Hl2) as (E' & _ & _).
      rewrite E'. rewrite <- E. destruct (answer_message _ _ _ _) as [ok w2]. cbn [fst snd] in *. subst ok.
      by apply handle_frames_left.
    + rewrite handle_middle by (done || lia). cbn [fst snd]. rewrite IH. by rewrite <- !app_assoc.
Qed.

(** C6. Messages in fragments. However a text or binary message is cut into two or
    more frames (with no control frame between them), handling them is handling the
    whole message once.  Over [maxMessageSize] in total it is refused with 1009, at
    the first frame that exceeds it, and the rest is not looked at; text that is not
    UTF-8 as a whole is refused with 1007; otherwise the message handler is called
    once, with the concatenation.  (A fragment need not be UTF-8 by itself.)  The
    message in one frame gets the same answer, its size being the parser's concern. *)
Theorem fragments_reassembled h opcode consumed first middle last w
    (Hop : opcode = WEBSOCKET_OPCODE_TEXT \/ opcode = WEBSOCKET_OPCODE_BINARY)
    (Hopen : talking (conn_of h w) = true) (Hidle : c_fragmented (conn_of h w) = false)
    (Hexception : w_exception w = None) :
  let message := first ++ concat middle ++ last in
  let kept := arrived (max_message w) first (middle ++ [last]) in
  handle_frames h (mk_server_frame opcode false consumed first :: map (fragment false) middle ++ [fragment true last]) w =
    answer_message h opcode message (under_way h opcode kept w) /\
  (zlen message <= max_message w -> kept = message) /\
  (max_message w < zlen message ->
     answer_message h opcode message (under_way h opcode kept w) =
     clear_and_close h WEBSOCKET_CLOSE_MESSAGE_TOO_BIG (str "message too big") (under_way h opcode kept w)) /\
  handle_frame h (mk_server_frame opcode true consumed message) w =
    (ok ← (if (opcode =? WEBSOCKET_OPCODE_TEXT) && negb (websocket_protocol_is_valid_utf8 message)
           then websocket_server_close_with_code h WEBSOCKET_CLOSE_INVALID_PAYLOAD (str "invalid utf-8")
           else websocket_server_call_message_handler getnameinfo sa_family AF_INET6 h message opcode);
     e ← no_exception; mret (ok && e)) w.
Proof.
  cbv zeta. split; [|split_and!].
  - rewrite handle_frames_cons by done. rewrite (st_bind_run (handle_frame _ _)).
    assert (Hfirst : handle_frame h (mk_server_frame opcode false consumed first) w = (true, under_way h opcode first w)).
    { rewrite handle_frame_data by (by destruct Hop as [-> | ->]).
      rewrite (st_bind_run (websocket_server_handle_data_frame _ _ _ _ _ _)). unfold websocket_server_handle_data_frame.
      rewrite (st_bind_run get_options), (st_bind_run (get_connection h)).
      cbn [fst snd get_options get_connection st_gets sf_opcode sf_final sf_payload]. cbv zeta.
      replace (opcode =? WEBSOCKET_OPCODE_CONTINUATION) with false by (by destruct Hop as [-> | ->]). rewrite Hidle.
      rewrite (st_bind_run (mod_connection _ _)). cbn [fst snd mret ST_ret].
      rewrite (st_bind_run no_exception). unfold no_exception, st_gets. cbn [fst snd].
      change (w_exception (mod_connection _ _ w).2) with (w_exception w). by rewrite Hexception. }
    rewrite Hfirst. cbn [fst snd]. by apply handle_continuations.
  - intros Hl. rewrite arrived_fits; rewrite concat_app; cbn [concat]; by rewrite app_nil_r.
  - intros Hl. by apply answer_too_big.
  - rewrite handle_frame_data by (by destruct Hop as [-> | ->]).
    rewrite !(st_bind_run (websocket_server_handle_data_frame _ _ _ _ _ _)). unfold websocket_server_handle_data_frame.
    rewrite (st_bind_run get_options), (st_bind_run (get_connection h)).
    cbn [fst snd get_options get_connection st_gets sf_opcode sf_final sf_payload]. cbv zeta.
    replace (opcode =? WEBSOCKET_OPCODE_CONTINUATION) with false by (by destruct Hop as [-> | ->]). rewrite Hidle.
    symmetry. by rewrite st_bind_run.
Qed.

(** ** Control frames *)

Definition control_frame (opcode : Z) (payload : bytes) : websocket_server_frame :=
  mk_server_frame opcode true (zlen payload + 6) payload.

(** [send_frame] decides the PING, and throws nothing. *)
Lemma handle_ping h consumed payload w : w_exception w = None ->
  let r := (on_conn h (websocket_connection_send_frame payload WEBSOCKET_OPCODE_PONG) : W bool) w in
  handle_frame h (mk_server_frame WEBSOCKET_OPCODE_PING true consumed payload) w = r /\ w_exception r.2 = None.
Proof.
  intros He. cbv zeta.
  assert (E : handle_frame h (mk_server_frame WEBSOCKET_OPCODE_PING true consumed payload) w =
    (ok ← (on_conn h (websocket_connection_send_frame payload WEBSOCKET_OPCODE_PONG) : W bool);
     e ← no_exception; mret (ok && e)) w) by reflexivity.
  destruct (on_conn_run h (websocket_connection_send_frame payload WEBSOCKET_OPCODE_PONG) w) as (_ & _ & _ & _ & _ & X & _).
  rewrite E, st_bind_run. destruct (on_conn h _ w) as [ok w1]. cbn [fst snd] in *.
  rewrite st_bind_run. unfold no_exception, st_gets. cbn [fst snd mret ST_ret]. rewrite X, He.
  by destruct ok.
Qed.

(** ** Steps that leave the server as it is *)

Definition calm w w' : Prop :=
  w_server w' = w_server w /\ w_stopped w' = w_stopped w /\ w_exception w' = w_exception w.

#[local] Instance calm_preorder : PreOrder calm.
Proof. split; [by intros w|]. intros w1 w2 w3 (A1 & A2 & A3) (B1 & B2 & B3). unfold calm. split_and!; congruence. Qed.

Lemma on_conn_calm {A} h (m : ST (cstate D) A) : relates calm (on_conn h m : W A).
Proof. intros w. unfold on_conn. by destruct (m _). Qed.

Lemma world_kernel_calm {A} (f : kernel -> A * kernel) : relates calm (world_kernel f : W A).
Proof. intros w. unfold world_kernel. by destruct (f _). Qed.

Lemma now_usec_calm : relates calm (now_usec : W Z).
Proof. apply world_kernel_calm. Qed.

Lemma mod_connection_calm h f : relates calm (mod_connection h f : W ()).
Proof. by intros w. Qed.

Lemma world_wait_calm timeout : relates calm (world_wait timeout : W _).
Proof. intros w. unfold world_wait. destruct (w_driver w); [|done]. by destruct (wait _ _) as [? []]. Qed.
#[local] Hint Resolve on_conn_calm world_kernel_calm mod_connection_calm world_wait_calm : pres.

Lemma service_connection_calm h now : relates calm (service_connection zval_get_long h now : W _).
Proof.
  unfold service_connection, websocket_server_close_expired_connection, websocket_server_process_heartbeat,
    websocket_server_close_with_code, get_options, get_connection. pres.
Qed.

(** [service_connection] lets a connection be read only if it is open and not
    closing. *)
Lemma service_connection_reads h now w w' : service_connection zval_get_long h now w = (None, w') ->
  talking (conn_of h w') = true.
Proof.
  unfold service_connection. rewrite (st_bind_run get_options), (st_bind_run (get_connection h)).
  cbn [fst snd get_options get_connection st_gets]. destruct (negb _); [done|].
  destruct (websocket_server_connection_expired _ _ _ _); [by rewrite st_bind_run|].
  rewrite st_bind_run. destruct (negb _); [done|]. rewrite st_bind_run, st_bind_run. destruct (negb _); [done|].
  rewrite st_bind_run. cbn [fst snd get_connection st_gets].
  destruct (_ || _) eqn:E; [done|]. intros Hw. apply (f_equal snd) in Hw. cbn [snd mret ST_ret] in Hw.
  apply orb_false_elim in E as [E1 E2]. apply negb_false_iff in E1. unfold talking. by rewrite <- Hw, E1, E2.
Qed.

(** ** A PING that cannot be answered *)

Section Unanswered.
Context (sha1 base64_encode : bytes -> bytes) (base64_decode_ex : bytes -> option bytes).

(** The connection once [chunk] has been read, at [now]. *)
Definition read_chunk (h now capacity : Z) (chunk : bytes) w : world D U V :=
  (mod_connection h (append_read_bytes capacity chunk) (mod_connection h (set_last_activity_usec now) w).2).2.

Lemma read_chunk_conn h now capacity chunk w :
  conn_of h (read_chunk h now capacity chunk w) = append_read_bytes capacity chunk (set_last_activity_usec now (conn_of h w)).
Proof. unfold read_chunk. by rewrite !conn_of_mod. Qed.

Lemma reads_ping_unanswered h now capacity chunk consumed payload w w1 w2 :
  talking (conn_of h w) = true -> c_upgraded (conn_of h w) = true -> w_exception w = None ->
  world_kernel (sys_recv WEBSOCKET_READ_CHUNK_SIZE) w = (Some chunk, w1) -> 0 < zlen chunk ->
  now_usec w1 = (now, w2) ->
  websocket_connection_ensure_read_capacity (zlen chunk) (read_limit (max_message w)) (conn_of h w) = Some capacity ->
  websocket_server_parse_frame (c_read_buffer (conn_of h w) ++ chunk) (max_message w)
    = FRAME_OK (mk_server_frame WEBSOCKET_OPCODE_PING true consumed payload) ->
  let w3 := (mod_connection h (websocket_connection_discard_read_bytes consumed) (read_chunk h now capacity chunk w2)).2 in
  let r := (on_conn h (websocket_connection_send_frame payload WEBSOCKET_OPCODE_PONG) : W bool) w3 in
  r.1 = false ->
  websocket_server_process_frame_reads getnameinfo sa_family AF_INET6 zval_get_long h w = (false, r.2).
Proof.
  intros Ht Hu He Hrecv Hz Hnow Hcap Hparse w3 r Hr.
  pose proof (world_kernel_calm (sys_recv WEBSOCKET_READ_CHUNK_SIZE) w) as (A1 & _ & A3). rewrite Hrecv in A1, A3.
  pose proof (now_usec_calm w1) as (B1 & _ & B3). rewrite Hnow in B1, B3.
  assert (C1 : conn_of h w1 = conn_of h w).
  { unfold world_kernel in Hrecv. destruct (sys_recv _ _). by injection Hrecv as _ <-. }
  assert (C2 : conn_of h w2 = conn_of h w).
  { rewrite <- C1. unfold now_usec, world_kernel in Hnow. destruct (websocket_server_now_usec _). by injection Hnow as _ <-. }
  cbn [snd] in *. pose proof Ht as Ht'. unfold talking in Ht. apply andb_prop in Ht as [Ho Hc]. apply negb_true_iff in Hc.
  unfold websocket_server_process_frame_reads.
  rewrite (st_bind_run get_options), (st_bind_run (st_gets _)). cbn [fst snd get_options st_gets frame_reads_loop].
  rewrite (st_bind_run (get_connection h)). cbn [fst snd get_connection st_gets]. rewrite Ho, Hc, Hu. cbn [negb andb].
  rewrite st_bind_run, Hrecv. cbn [fst snd]. destruct chunk as [|x chunk]; [done|].
  rewrite st_bind_run, Hnow. cbn [fst snd]. rewrite (st_bind_run (mod_connection _ _)), (st_bind_run (get_connection h)).
  cbn [fst snd get_connection st_gets mod_connection st_modify].
  set (w2' := set_w_heap _ w2).
  assert (C3 : conn_of h w2' = set_last_activity_usec now (conn_of h w)).
  { subst w2'. rewrite conn_of_insert, decide_True by done. by rewrite C2. }
  rewrite C3. fold (max_message w).
  assert (Hcap' : websocket_connection_ensure_read_capacity (zlen (x :: chunk)) (read_limit (max_message w))
    (set_last_activity_usec now (conn_of h w)) = Some capacity) by exact Hcap.
  rewrite Hcap'. rewrite (st_bind_run (mod_connection _ _)). cbn [fst].
  change (mod_connection h (append_read_bytes capacity (x :: chunk)) w2').2 with (read_chunk h now capacity (x :: chunk) w2).
  pose proof (read_chunk_conn h now capacity (x :: chunk) w2) as C4. rewrite C2 in C4.
  rewrite st_bind_run. unfold websocket_server_process_buffered_frames.
  rewrite (st_bind_run get_options), (st_bind_run (get_connection h)). cbn [fst snd get_options get_connection st_gets buffered_frames_loop].
  rewrite (st_bind_run (get_connection h)). cbn [fst snd get_connection st_gets]. rewrite C4.
  change (c_open (append_read_bytes _ _ _)) with (c_open (conn_of h w)).
  change (c_close_after_write (append_read_bytes _ _ _)) with (c_close_after_write (conn_of h w)).
  change (c_upgraded (append_read_bytes _ _ _)) with (c_upgraded (conn_of h w)).
  change (c_read_buffer (append_read_bytes _ _ _)) with (c_read_buffer (conn_of h w) ++ x :: chunk).
  rewrite Ho, Hc, Hu. pose proof (zlen_nonneg (c_read_buffer (conn_of h w))).
  replace (0 <? zlen (c_read_buffer (conn_of h w) ++ x :: chunk)) with true by (rewrite zlen_app; lia). cbn [negb andb].
  change (s_options (w_server (read_chunk h now capacity (x :: chunk) w2))) with (s_options (w_server w2)).
  rewrite B1, A1. fold (max_message w). rewrite Hparse. cbn [sf_bytes_consumed].
  rewrite (st_bind_run (mod_connection _ _)). cbn [fst]. fold w3. rewrite st_bind_run.
  destruct (handle_ping h consumed payload w3) as [E _].
  { change (w_exception w3) with (w_exception w2). congruence. }
  cbv zeta in E. rewrite E. fold r. rewrite Hr. done.
Qed.

End Unanswered.
End MessageSpec.

(** "hello" in three frames. *)
Lemma fragments_reassembled_witness :
  let w := live_world live_conn [AOk 100 []] in
  let r := handle_frames no_names ipv4 10 (fun z => z) 0
    (mk_server_frame 1 false 8 [104; 101] :: map (fragment false) [[108; 108]] ++ [fragment true [111]]) w in
  r.1 = true /\
  k_trace (w_kernel r.2) = [EvSend 4 [0x81; 5; 104; 101; 108; 108; 111];
    EvCall OnMessage (Some 0) [104; 101; 108; 108; 111] (Some Text); EvCall OnOpen (Some 0) [] None].
Proof.
  cbv zeta. pose proof (fragments_reassembled no_names ipv4 10 (fun z => z) 0 1 8 [104; 101] [[108; 108]] [111]
    (live_world live_conn [AOk 100 []]) ltac:(by left) eq_refl eq_refl eq_refl) as [H _].
  rewrite H. by vm_compute.
Defined.

(** The client upgrades and pings; the PONG meets ECONNRESET.  The rest of the
    answers, a second client to accept, is never looked at. *)
Definition ping_script : list answer :=
  let ok := AOk 0 [] in
  [AOk 3 []; ok; ok; ok; ok; ok;
   AOk 1 [1]; AOk 4 [9; 9]; ok; ok; AErr EAGAIN; AErr EAGAIN;
   AOk 1 [0; 1]; AOk 0 example_request; AOk 1000 [];
   AOk 1 [0; 1]; AOk 0 [0x89; 0x80; 0; 0; 0; 0]; AErr 104; ok; ok;
   AOk 1 [1]; AOk 5 [9; 9]; ok; ok].

(** The same in one round of the loop, with the peer gone, and in a whole run: [run]
    returns as if [stop] had been called, and the second client is never accepted. *)
Local Abbreviation ping := [0x89; 0x80; 0; 0; 0; 0].
Local Abbreviation ping_round := (live_world live_conn [AOk 1 [0; 1]; AOk 0 ping; AErr 104]).
Local Abbreviation after_wait := (world_wait WEBSOCKET_LOOP_TIMEOUT_USEC ping_round).2.
Local Abbreviation after_clock := (now_usec after_wait).2.
Local Abbreviation after_service := (service_connection (fun z => z) 0 10000000 after_clock).2.
Local Abbreviation after_recv := (world_kernel (sys_recv WEBSOCKET_READ_CHUNK_SIZE) after_service).2.

