(* ===== verification/HandshakeSpec.v ===== *)
(** * The handshake, end to end

    A complete request is answered with the 101 response however the network cuts
    it, and an upgraded connection results. *)
From stdpp Require Import gmap.
From S2P Require Import Prelude Constants Words Utf8 Mask Protocol Http Kernel Driver SelectDriver ConnState Connection.
From S2P Require Import ConnectionFacts Options Frames FramesSpec World Runtime RuntimeFacts WorldFacts Server Scenario.
From S2P Require Import Termination ServerInvariant.
From Stdlib Require String.
Import (notations) String.

(** A send the kernel takes whole. *)
Lemma send_bytes_whole fd buffer n d rest k : k_answers k = AOk n d :: rest -> 0 < zlen buffer <= n ->
  websocket_server_send_bytes fd buffer k = (true, emit (EvSend fd buffer) (set_answers rest k)).
Proof.
  intros Ha Hn. unfold websocket_server_send_bytes. rewrite Ha. cbn [length send_bytes_loop].
  replace (0 <? zlen buffer) with true by lia. cbn [negb]. unfold sys_send, syscall. rewrite Ha. rewrite zdrop_0.
  replace (Z.min (Z.max 0 n) (zlen buffer)) with (zlen buffer) by lia. replace (0 <? zlen buffer) with true by lia.
  rewrite ztake_ge by lia. destruct (length rest); cbn [send_bytes_loop].
  - by replace (0 + zlen buffer <? zlen buffer) with false by lia.
  - by replace (0 + zlen buffer <? zlen buffer) with false by lia.
Qed.

Section HandshakeSpec.
Context {D U V : Type} `{HD : Driver D}.
Context (getnameinfo : bytes -> option (bytes * bytes)) (sa_family : bytes -> Z) (AF_INET6 : Z).
Context (sha1 base64_encode : bytes -> bytes) (base64_decode_ex : bytes -> option bytes).
Context (zval_get_long : V -> Z).
Local Abbreviation W A := (ST (world D U V) A).
Implicit Types (w : world D U V).
Local Abbreviation parse := (websocket_http_parse_upgrade sha1 base64_encode base64_decode_ex).

(** Before the request is complete the parser waits. *)
Lemma parse_prefix supported p q up : q <> [] ->
  parse supported (p ++ q) = (UPGRADE_OK, up) -> up_bytes_consumed up = zlen (p ++ q) ->
  (parse supported p).1 = UPGRADE_INCOMPLETE.
Proof.
  intros Hq Hok Hc. pose proof Hok as Hinv. apply parse_upgrade_inv in Hinv as (Hlen & _).
  destruct (parse supported p) as [r up'] eqn:Ep. cbn [fst].
  assert (r = UPGRADE_INCOMPLETE \/ r <> UPGRADE_INCOMPLETE) as [?|Hr] by (destruct r; auto); [done|].
  exfalso. pose proof (parse_upgrade_app _ _ _ _ _ q _ _ Ep Hr Hlen) as E. rewrite Hok in E. injection E as <- <-.
  apply parse_upgrade_inv in Ep as (_ & (he & Hhe & Hc') & _). apply find_header_end_bound in Hhe as [_ Hhe].
  rewrite zlen_app in Hc. apply length_nonnil in Hq. unfold zlen in *. lia.
Qed.

(** The state between two reads: [buffer] has arrived. *)
Record shaking (h fd : Z) (s : websocket_server_object U V) (buffer : bytes) (answers : list answer) (trace : list event) w : Prop := {
  sh_open : c_open (conn_of h w) = true;
  sh_upgraded : c_upgraded (conn_of h w) = false;
  sh_fd : c_fd (conn_of h w) = fd;
  sh_buffer : c_read_buffer (conn_of h w) = buffer;
  sh_capacity : 0 <= c_read_buffer_capacity (conn_of h w);
  sh_server : w_server w = s;
  sh_answers : k_answers (w_kernel w) = answers;
  sh_trace : k_trace (w_kernel w) = trace;
  sh_exception : w_exception w = None
}.

Lemma ensure_room append_len c : 0 <= append_len -> 0 <= c_read_buffer_capacity c ->
  zlen (c_read_buffer c) + append_len <= WEBSOCKET_HTTP_MAX_REQUEST_SIZE ->
  exists capacity, websocket_connection_ensure_read_capacity append_len WEBSOCKET_HTTP_MAX_REQUEST_SIZE c = Some capacity /\
    0 <= capacity.
Proof.
  intros Ha Hc Hl. pose proof (ensure_capacity_outcome append_len WEBSOCKET_HTTP_MAX_REQUEST_SIZE c Ha ltac:(by vm_compute) Hc) as S.
  cbv zeta in S. pose proof (zlen_nonneg (c_read_buffer c)).
  destruct (websocket_connection_ensure_read_capacity _ _ _) as [capacity|]; [|lia]. exists capacity. split; [done|lia].
Qed.

(** The state after the upgrade. *)
Record upgraded (h fd : Z) (s : websocket_server_object U V) (sub : option bytes) (trace : list event) (answers : list answer) w : Prop := {
  up_open : c_open (conn_of h w) = true;
  up_upgraded : c_upgraded (conn_of h w) = true;
  up_fd : c_fd (conn_of h w) = fd;
  up_buffer : c_read_buffer (conn_of h w) = [];
  up_subprotocol : c_selected_subprotocol (conn_of h w) = sub;
  up_server : w_server w = s;
  up_answers : k_answers (w_kernel w) = answers;
  up_trace : k_trace (w_kernel w) = trace;
  up_exception : w_exception w = None
}.

Lemma response_nonempty key sub : 0 < zlen (websocket_http_upgrade_response key sub).
Proof.
  unfold websocket_http_upgrade_response. rewrite zlen_app.
  match goal with |- 0 < ?a + zlen ?l => pose proof (zlen_nonneg l); assert (0 < a) by (by vm_compute); lia end.
Qed.

(** The rest of the upgrade when no handler is set. *)
Lemma finish_plain h fd s buffer n d rest trace w key sub :
  shaking h fd s buffer (AOk n d :: rest) trace w ->
  s_on_open s = None -> zlen (websocket_http_upgrade_response key sub) <= n ->
  exists w', websocket_server_finish_upgrade getnameinfo sa_family AF_INET6 zval_get_long h key sub (zlen buffer) w = (true, w') /\
    upgraded h fd s sub (EvSend fd (websocket_http_upgrade_response key sub) :: trace) rest w'.
Proof.
  intros [] Hopen Hn. unfold websocket_server_finish_upgrade.
  rewrite (st_bind_run get_server), (st_bind_run (get_connection h)). cbn [fst snd get_server get_connection st_gets].
  rewrite sh_server0, Hopen. change (bool_decide (None = None) || _) with true. cbv iota.
  rewrite (st_bind_run (send_bytes _ _)). unfold send_bytes, world_kernel. rewrite sh_fd0.
  rewrite (send_bytes_whole _ _ _ _ _ _ sh_answers0) by (split; [apply response_nonempty|done]). cbn [fst snd negb].
  set (w1 := set_w_kernel _ w).
  rewrite (st_bind_run (mod_connection h _)). set (w2 := (mod_connection h _ w1).2).
  rewrite !(st_bind_run (_ ≫= _)), (st_bind_run (mod_connection h (set_defer_close true))).
  set (w3 := (mod_connection h _ w2).2). rewrite (st_bind_run (websocket_server_call_open_handler _ _ _ _ _)).
  assert (E : websocket_server_call_open_handler getnameinfo sa_family AF_INET6 h true w3 = ((true, false), w3)).
  { unfold websocket_server_call_open_handler. rewrite (st_bind_run get_server). cbn [fst snd get_server st_gets].
    change (w_server w3) with (w_server w). by rewrite sh_server0, Hopen. }
  rewrite E. cbn [fst snd]. rewrite (st_bind_run (mod_connection h (set_defer_close false))).
  set (w4 := (mod_connection h _ w3).2). cbn [fst snd negb mret ST_ret st_bind_run].
  assert (Ec : conn_of h w4 = set_defer_close false (set_defer_close true
    (websocket_connection_discard_read_bytes (zlen buffer)
      (set_upgraded true (set_selected_subprotocol sub (conn_of h w)))))).
  { unfold w4, w3, w2. rewrite !conn_of_mod. done. }
  assert (Ed : websocket_connection_discard_read_bytes (zlen buffer)
      (set_upgraded true (set_selected_subprotocol sub (conn_of h w))) =
    set_read_buffer [] (set_upgraded true (set_selected_subprotocol sub (conn_of h w)))).
  { unfold websocket_connection_discard_read_bytes. cbn [c_read_buffer set_upgraded set_selected_subprotocol].
    rewrite sh_buffer0. by rewrite Z.leb_refl. }
  rewrite Ed in Ec.
  exists w4. split.
  - rewrite st_bind_run. cbn [mret ST_ret fst snd]. rewrite (st_bind_run (get_connection h)).
    cbn [fst snd get_connection st_gets]. rewrite Ec. cbn [c_open set_defer_close set_read_buffer set_upgraded set_selected_subprotocol].
    rewrite sh_open0. cbn [negb]. unfold websocket_server_process_buffered_frames.
    rewrite (st_bind_run get_options), (st_bind_run (get_connection h)). cbn [fst snd get_options get_connection st_gets].
    rewrite Ec. cbn [buffered_frames_loop c_read_buffer set_defer_close set_read_buffer length].
    rewrite (st_bind_run (get_connection h)). cbn [fst snd get_connection st_gets]. rewrite Ec.
    cbn [c_read_buffer set_defer_close set_read_buffer]. change (0 <? zlen []) with false. by rewrite andb_false_r.
  - constructor; rewrite ?Ec; try done. change (EvSend fd (websocket_http_upgrade_response key sub) :: k_trace (w_kernel w)
      = EvSend fd (websocket_http_upgrade_response key sub) :: trace). by rewrite sh_trace0.
Qed.

(** One read: the chunk is appended. *)
Lemma handshake_step h fd s p chunk answers trace w fuel :
  shaking h fd s p (AOk 0 chunk :: answers) trace w ->
  chunk <> [] -> zlen chunk <= WEBSOCKET_READ_CHUNK_SIZE -> zlen (p ++ chunk) <= WEBSOCKET_HTTP_MAX_REQUEST_SIZE ->
  exists w1, shaking h fd s (p ++ chunk) answers trace w1 /\
    handshake_loop getnameinfo sa_family AF_INET6 sha1 base64_encode base64_decode_ex zval_get_long (S fuel) h w =
    let '(result, parsed) := parse (s_subprotocols s) (p ++ chunk) in
    match result with
    | UPGRADE_INCOMPLETE => handshake_loop getnameinfo sa_family AF_INET6 sha1 base64_encode base64_decode_ex zval_get_long fuel h
    | UPGRADE_INVALID => bad_request h
    | UPGRADE_OK => handshake_request getnameinfo sa_family AF_INET6 zval_get_long h parsed
    end w1.
Proof.
  intros [] Hc Hl Hmax. cbn [handshake_loop].
  rewrite (st_bind_run (get_connection h)). cbn [fst snd get_connection st_gets]. rewrite sh_open0, sh_upgraded0. cbn [negb andb].
  rewrite (st_bind_run (world_kernel _)). unfold world_kernel, sys_recv, syscall. rewrite sh_answers0.
  rewrite ztake_ge by done. cbn [fst snd]. destruct chunk as [|b chunk]; [done|].
  set (w1 := set_w_kernel _ w). rewrite (st_bind_run now_usec). unfold now_usec, world_kernel.
  destruct (websocket_server_now_usec (w_kernel w1)) as [now k2] eqn:Enow. cbn [fst snd].
  assert (Ek : k_answers k2 = answers /\ k_trace k2 = trace).
  { unfold websocket_server_now_usec in Enow. destruct (k_clock (w_kernel w1)); injection Enow as _ <-; split; done. }
  destruct Ek as [Ea Et]. set (w2 := set_w_kernel k2 w1). rewrite (st_bind_run (mod_connection h _)).
  set (w3 := (mod_connection h _ w2).2).
  assert (E3 : conn_of h w3 = set_last_activity_usec now (conn_of h w)) by (unfold w3; by rewrite conn_of_mod).
  rewrite (st_bind_run (get_connection h)). cbn [fst snd get_connection st_gets]. rewrite E3.
  rewrite zlen_app in Hmax.
  destruct (ensure_room (zlen (b :: chunk)) (set_last_activity_usec now (conn_of h w))) as (capacity & -> & Hcap);
    [apply zlen_nonneg|done|cbn; by rewrite sh_buffer0|].
  rewrite (st_bind_run (mod_connection h _)). set (w4 := (mod_connection h _ w3).2).
  assert (E4 : conn_of h w4 = append_read_bytes capacity (b :: chunk) (set_last_activity_usec now (conn_of h w)))
    by (unfold w4; by rewrite conn_of_mod, E3).
  rewrite (st_bind_run (get_connection h)), (st_bind_run get_server). cbn [fst snd get_connection get_server st_gets].
  exists w4. split; [by constructor; rewrite ?E4; unfold append_read_bytes; cbn; rewrite ?sh_buffer0|].
  rewrite E4. change (w_server w4) with (w_server w). rewrite sh_server0.
  change (c_read_buffer (append_read_bytes _ _ _)) with (c_read_buffer (conn_of h w) ++ b :: chunk). rewrite sh_buffer0.
  by destruct (parse _ _) as [[| |] parsed].
Qed.

Definition readable (chunk : bytes) : Prop := chunk <> [] /\ zlen chunk <= WEBSOCKET_READ_CHUNK_SIZE.

(** The reads of a whole request. *)
Lemma handshake_reads h fd s request up answers trace chunks p w fuel :
  parse (s_subprotocols s) request = (UPGRADE_OK, up) -> up_bytes_consumed up = zlen request ->
  Forall readable chunks -> chunks <> [] -> p ++ concat chunks = request -> (length chunks <= fuel)%nat ->
  shaking h fd s p (map (AOk 0) chunks ++ answers) trace w ->
  exists w1, shaking h fd s request answers trace w1 /\
    handshake_loop getnameinfo sa_family AF_INET6 sha1 base64_encode base64_decode_ex zval_get_long fuel h w =
    handshake_request getnameinfo sa_family AF_INET6 zval_get_long h up w1.
Proof.
  intros Hok Hup. pose proof Hok as (Hlen & _)%parse_upgrade_inv. revert p w fuel.
  induction chunks as [|chunk chunks IH]; intros p w fuel Hall Hne Hcat Hfuel Hs; [done|].
  apply Forall_cons in Hall as [[Hc Hl] Hall]. cbn [concat map app length] in *. destruct fuel as [|fuel]; [lia|].
  rewrite app_assoc in Hcat. rewrite <- Hcat in Hlen. rewrite zlen_app in Hlen. pose proof (zlen_nonneg (concat chunks)).
  destruct (handshake_step _ _ _ _ _ _ _ _ fuel Hs Hc Hl ltac:(lia)) as (w1 & Hs1 & ->).
  destruct chunks as [|chunk' chunks].
  - cbn [concat map app] in *. rewrite app_nil_r in Hcat. rewrite Hcat in *. rewrite Hok. by exists w1.
  - assert (concat (chunk' :: chunks) <> []).
    { apply Forall_cons in Hall as [[? _] _]. destruct chunk'; done. }
    rewrite <- Hcat in Hok, Hup. pose proof (parse_prefix _ _ _ _ H0 Hok Hup) as Hinc.
    destruct (parse (s_subprotocols s) (p ++ chunk)) as [r up']. cbn [fst] in Hinc. subst r.
    apply (IH (p ++ chunk)); [done|done|done|cbn in *; lia|done].
Qed.

(** C7. The handshake completes.  A request the parser accepts, cut into any
    non-empty chunks of at most 4096 bytes, is read to its last byte and handed to
    the rest of the handshake once, with the same verdict; and when no handler
    interferes and the kernel takes the response, the connection is upgraded,
    open, with an empty buffer and the selected subprotocol, and exactly the 101
    response has been sent. *)
Theorem handshake_completes h fd request up chunks answers w
    (Hrequest : parse (s_subprotocols (w_server w)) request = (UPGRADE_OK, up))
    (Hwhole : up_bytes_consumed up = zlen request)
    (Hchunks : Forall readable chunks) (Hcut : concat chunks = request)
    (Hw : shaking h fd (w_server w) [] (map (AOk 0) chunks ++ answers) (k_trace (w_kernel w)) w) :
  let process := websocket_server_process_handshake getnameinfo sa_family AF_INET6 sha1 base64_encode base64_decode_ex zval_get_long h w in
  (exists w1, shaking h fd (w_server w) request answers (k_trace (w_kernel w)) w1 /\
     process = handshake_request getnameinfo sa_family AF_INET6 zval_get_long h up w1) /\
  let key := default [] (up_accept_key up) in
  let sub := up_selected_subprotocol up in
  let response := websocket_http_upgrade_response key sub in
  forall n d rest, answers = AOk n d :: rest -> zlen response <= n ->
  s_on_handshake (w_server w) = None -> s_on_open (w_server w) = None ->
  exists w', process = (true, w') /\ upgraded h fd (w_server w) sub (EvSend fd response :: k_trace (w_kernel w)) rest w'.
Proof.
  cbv zeta.
  assert (Hp : exists w1, shaking h fd (w_server w) request answers (k_trace (w_kernel w)) w1 /\
    websocket_server_process_handshake getnameinfo sa_family AF_INET6 sha1 base64_encode base64_decode_ex zval_get_long h w =
    handshake_request getnameinfo sa_family AF_INET6 zval_get_long h up w1).
  { unfold websocket_server_process_handshake. rewrite (st_bind_run (st_gets _)). cbn [fst snd st_gets].
    assert (chunks <> []).
    { intros ->. cbn in Hcut. subst request. by apply parse_upgrade_inv in Hrequest as (_ & (he & Hhe & _) & _). }
    apply (handshake_reads h fd _ request up answers _ chunks []); try done.
    rewrite (sh_answers _ _ _ _ _ _ _ Hw), length_app, length_map. lia. }
  split; [done|]. intros n d rest -> Hn Hhs Hopen. destruct Hp as (w1 & Hs & ->).
  unfold handshake_request. rewrite (st_bind_run get_server). cbn [fst snd get_server st_gets].
  rewrite (sh_server _ _ _ _ _ _ _ Hs), Hhs. change (bool_decide (None <> None)) with false. cbv iota.
  rewrite st_bind_run. cbn [fst snd mret ST_ret negb]. rewrite Hwhole. by apply (finish_plain h fd _ request n d rest).
Qed.
End HandshakeSpec.

(** A server with a message handler only, and a client that has not upgraded. *)
Definition waiting_world (answers : list answer) : world select_state unit Z :=
  set_w_server (set_on_open None (w_server (live_world live_conn [])))
    (live_world (set_upgraded false live_conn) answers).

Definition example_up : websocket_http_upgrade :=
  (websocket_http_parse_upgrade (fun x => x) (fun x => x) example_decode None example_request).2.

(** The request arrives in three pieces. *)
Lemma handshake_completes_witness :
  let chunks := [ztake 5 example_request; ztake 70 (zdrop 5 example_request); zdrop 75 example_request] in
  let w := waiting_world (map (AOk 0) chunks ++ [AOk 1000 []]) in
  let response := websocket_http_upgrade_response (default [] (up_accept_key example_up)) None in
  exists w', websocket_server_process_handshake no_names ipv4 10 (fun x => x) (fun x => x) example_decode (fun z => z) 0 w = (true, w') /\
    upgraded 0 4 (w_server w) None [EvSend 4 response; EvCall OnOpen (Some 0) [] None] [] w'.
Proof.
  cbv zeta. set (chunks := [_; _; _]). set (w := waiting_world _).
  assert (H := handshake_completes no_names ipv4 10 (fun x => x) (fun x => x) example_decode (fun z => z) 0 4
    example_request example_up chunks [AOk 1000 []] w).
  destruct H as [_ H]; [vm_compute; reflexivity|vm_compute; reflexivity| |vm_compute; reflexivity| |].
  - repeat constructor; by vm_compute.
  - constructor; by vm_compute.
  - apply (H 1000 [] []); by vm_compute.
Defined.
