(* ===== verification/Ownership.v ===== *)
(** * Who owns a connection object

    The references to a connection: one of the array (or of the step that
    accepts or closes it), those of PHP variables and those of calls under way.
    Whatever PHP code does, it gives back only references it was given, so an
    object the server owns keeps its state through it. *)
From stdpp Require Import gmap.
From S2P Require Import Prelude Constants Words Utf8 Mask Protocol Http Kernel Driver ConnState Connection.
From S2P Require Import ConnectionFacts Options Frames World Runtime RuntimeFacts WorldFacts Server Scenario Termination.
From S2P Require Import ServerInvariant.

Section Ownership.
Context {D U V : Type} `{HD : Driver D} `{!DriverLaws D}.
Context (getnameinfo : bytes -> option (bytes * bytes)) (sa_family : bytes -> Z) (AF_INET6 : Z).
Context (zval_get_long : V -> Z).
Local Abbreviation W A := (ST (world D U V) A).
Implicit Types (w : world D U V).

Definition handlers_called (h : Z) w : list handler := calls h (k_trace (w_kernel w)).

(** The references that are not PHP variables'. *)
Definition owed (h : Z) w : Z := c_refcount (conn_of h w) - occurrences h (w_kept w).
Definition held (h : Z) w : Prop := 1 <= owed h w.

(** What happens to an object that stays alive. *)
Record kept_conn (h : Z) w w' : Prop := {
  kc_upgraded : c_upgraded (conn_of h w') = c_upgraded (conn_of h w);
  kc_notified : c_close_notified (conn_of h w') = c_close_notified (conn_of h w);
  kc_open : c_open (conn_of h w') = true -> c_open (conn_of h w) = true;
  kc_owed : owed h w' = owed h w
}.

#[export] Instance kept_conn_preorder h : PreOrder (kept_conn h).
Proof. split; [by constructor|]. intros w1 w2 w3 [] []. constructor; try congruence. auto. Qed.

(** The handler called by a step, if any. *)
Definition called (ev : option (handler * Z)) (h : Z) (t : list handler) : list handler :=
  match ev with Some (a, h') => if h =? h' then a :: t else t | None => t end.

Record kframe (ev : option (handler * Z)) w w' : Prop := {
  kf_driver : driver_ok (w_driver w');
  kf_server : same_server (w_server w) (w_server w');
  kf_objects : w_objects w' = w_objects w;
  kf_kept : forall h, h ∈ w_kept w' -> h ∈ w_kept w \/ 0 <= h < w_objects w;
  kf_calls : forall h, handlers_called h w' = called ev h (handlers_called h w);
  kf_conn : forall h, held h w -> kept_conn h w w'
}.
Definition kstep ev w w' : Prop := driver_ok (w_driver w) -> kframe ev w w'.

Lemma kframe_trans_l ev w1 w2 w3 : kframe None w1 w2 -> kframe ev w2 w3 -> kframe ev w1 w3.
Proof.
  intros [] []. constructor; [done|by etrans|congruence| | |].
  - intros h Hh. destruct (kf_kept1 h Hh); [auto|right; lia].
  - intros h. by rewrite kf_calls1, kf_calls0.
  - intros h Hh. pose proof (kf_conn0 h Hh) as K. transitivity w2; [done|]. apply kf_conn1. unfold held. by rewrite (kc_owed _ _ _ K).
Qed.

Lemma kframe_trans_r ev w1 w2 w3 : kframe ev w1 w2 -> kframe None w2 w3 -> kframe ev w1 w3.
Proof.
  intros [] []. constructor; [done|by etrans|congruence| | |].
  - intros h Hh. destruct (kf_kept1 h Hh); [auto|right; lia].
  - intros h. by rewrite kf_calls1, kf_calls0.
  - intros h Hh. pose proof (kf_conn0 h Hh) as K. transitivity w2; [done|]. apply kf_conn1. unfold held. by rewrite (kc_owed _ _ _ K).
Qed.

#[export] Instance kstep_preorder : PreOrder (kstep None).
Proof.
  split.
  - intros w Hd. constructor; try done. by left.
  - intros w1 w2 w3 A B Hd. pose proof (A Hd) as F. eapply kframe_trans_l; [exact F|]. apply B, F.
Qed.

Lemma kstep_bind_r {A B} ev (m : W A) (f : A -> W B) :
  relates (kstep ev) m -> (forall x, relates (kstep None) (f x)) -> relates (kstep ev) (m ≫= f).
Proof. intros Hm Hf w Hd. rewrite st_bind_run. pose proof (Hm w Hd) as F. eapply kframe_trans_r; [exact F|]. apply Hf, F. Qed.

(** ** The primitives *)

(** A change of one object that keeps its references. *)
Lemma kept_conn_insert h c w w' h' : w_heap w' = <[h := c]> (w_heap w) -> w_kept w' = w_kept w ->
  c_upgraded c = c_upgraded (conn_of h w) -> c_close_notified c = c_close_notified (conn_of h w) ->
  (c_open c = true -> c_open (conn_of h w) = true) -> c_refcount c = c_refcount (conn_of h w) ->
  kept_conn h' w w'.
Proof.
  intros Eh Ek E1 E2 E3 E4.
  assert (E : conn_of h' w' = if decide (h' = h) then c else conn_of h' w).
  { unfold conn_of. rewrite Eh. apply (conn_of_insert h h' c w). }
  constructor; unfold owed; rewrite E, ?Ek; destruct (decide (h' = h)) as [->|]; try done. by rewrite E4.
Qed.

Lemma mod_connection_kstep h f :
  (forall c, c_upgraded (f c) = c_upgraded c /\ c_close_notified (f c) = c_close_notified c /\
     (c_open (f c) = true -> c_open c = true) /\ c_refcount (f c) = c_refcount c) ->
  relates (kstep None) (mod_connection h f : W ()).
Proof.
  intros Hf w Hd. destruct (Hf (conn_of h w)) as (E1 & E2 & E3 & E4). constructor; try done; [by left|].
  intros h' _. by eapply kept_conn_insert.
Qed.

Lemma on_conn_kstep {A} h (m : ST (cstate D) A) : relates cs_step m -> relates (kstep None) (on_conn h m : W A).
Proof.
  intros Hm w Hd. destruct (Hm (mk_cs (conn_of h w) (w_driver w) (w_kernel w)) Hd) as ([[] R] & Hd' & [Q _]).
  unfold on_conn. destruct (m _) as [x [c d k]]. cbn in *. constructor; try done; [by left|].
  intros h' _. by eapply kept_conn_insert.
Qed.

Lemma world_kernel_kstep {A} (f : kernel -> A * kernel) : (forall k, quiet k (f k).2) ->
  relates (kstep None) (world_kernel f : W A).
Proof.
  intros Hf w Hd. unfold world_kernel. destruct (Hf (w_kernel w)) as [Q _]. destruct (f (w_kernel w)) as [x k]. cbn in *.
  constructor; try done. by left.
Qed.

Lemma modify_kstep (f : world D U V -> world D U V) :
  (forall w, w_driver (f w) = w_driver w /\ same_server (w_server w) (w_server (f w)) /\ w_objects (f w) = w_objects w /\
     w_kept (f w) = w_kept w /\ w_kernel (f w) = w_kernel w /\ w_heap (f w) = w_heap w) ->
  relates (kstep None) (st_modify f).
Proof.
  intros Hf w Hd. destruct (Hf w) as (E1 & E2 & E3 & E4 & E5 & E6). cbn. constructor.
  - by rewrite E1.
  - done.
  - done.
  - intros h. rewrite E4. by left.
  - intros h. unfold handlers_called. by rewrite E5.
  - intros h _. constructor; unfold owed, conn_of; by rewrite ?E6, ?E4.
Qed.

(** A step that leaves the objects and the variables alone. *)
Lemma kstep_of_quiet {A} (m : W A) : relates quiet_step m ->
  (forall w, w_heap (m w).2 = w_heap w /\ w_kept (m w).2 = w_kept w) -> relates (kstep None) m.
Proof.
  intros Hq Hh w Hd. destruct (Hq w) as [Q _]. destruct (Q Hd) as ([] & _ & C). destruct (Hh w) as [E1 E2].
  constructor; try done.
  - rewrite E2. by left.
  - intros h _. constructor; unfold owed, conn_of; by rewrite ?E1, ?E2.
Qed.

Lemma watch_read_kstep fd : relates (kstep None) (world_watch_read fd : W _).
Proof.
  apply kstep_of_quiet; [apply world_watch_read_quiet|]. intros w. unfold world_watch_read.
  destruct (w_driver w) as [d|]; [|done]. by destruct (watch_read _ _) as [? []].
Qed.

Lemma unwatch_kstep fd : relates (kstep None) (world_unwatch fd : W _).
Proof.
  apply kstep_of_quiet; [apply world_unwatch_quiet|]. intros w. unfold world_unwatch.
  destruct (w_driver w) as [d|]; [|done]. by destruct (unwatch _ _).
Qed.

Lemma wait_kstep timeout : relates (kstep None) (world_wait timeout : W _).
Proof.
  apply kstep_of_quiet; [apply world_wait_quiet|]. intros w. unfold world_wait.
  destruct (w_driver w) as [d|]; [|done]. by destruct (wait _ _) as [? []].
Qed.

Lemma emit_kstep a h payload type :
  relates (kstep (Some (a, h))) (world_kernel (fun k => ((), emit (EvCall a (Some h) payload type) k)) : W ()).
Proof.
  intros w Hd. constructor; try done. by left.
Qed.

(** ** Taking and giving back a reference *)

(** The primitives above and what PHP code is made of. *)
Hint Resolve watch_read_kstep unwatch_kstep wait_kstep on_conn_kstep : pres.

Lemma add_reference_conn h n w h' :
  conn_of h' (mod_connection h (fun c => set_refcount (c_refcount c + n) c) w).2 =
  if decide (h' = h) then set_refcount (c_refcount (conn_of h w) + n) (conn_of h w) else conn_of h' w.
Proof. apply (conn_of_insert h h'). Qed.

Lemma release_frame h w : driver_ok (w_driver w) ->
  let w' := ((release_connection h : W _) w).2 in
  world_frame w w' /\ (forall h', handlers_called h' w' = handlers_called h' w) /\ w_exception w' = w_exception w /\
  w_kept w' = w_kept w /\ (forall h', h' <> h -> conn_of h' w' = conn_of h' w) /\
  (2 <= c_refcount (conn_of h w) -> conn_of h w' = set_refcount (c_refcount (conn_of h w) - 1) (conn_of h w)).
Proof.
  intros Hd. cbv zeta. destruct (release_step (D := D) (U := U) (V := V) h w) as [Q X]. destruct (Q Hd) as (F & _ & C).
  split; [done|]. split; [done|]. split; [done|]. clear Q F C X.
  unfold release_connection. rewrite (st_bind_run (mod_connection h _)), (st_bind_run (get_connection h)).
  cbn [fst snd get_connection st_gets].
  pose proof (add_reference_conn h (-1) w) as Ec. set (w1 := (mod_connection h _ w).2). fold w1 in Ec.
  assert (E1 : conn_of h w1 = set_refcount (c_refcount (conn_of h w) - 1) (conn_of h w)) by (by rewrite Ec, decide_True).
  rewrite E1. change (c_refcount (set_refcount ?n _)) with n.
  destruct (Z.leb_spec (c_refcount (conn_of h w) - 1) 0) as [Hle|Hgt]; cbn [snd mret ST_ret].
  - rewrite st_bind_run. destruct (on_conn_run h websocket_connection_free_object w1) as (_ & _ & _ & _ & _ & _ & E).
    assert (Ek : w_kept (on_conn h websocket_connection_free_object w1).2 = w_kept w).
    { unfold on_conn. by destruct (websocket_connection_free_object _) as [x []]. }
    destruct (on_conn h _ w1) as [x w2]. cbn [fst snd st_modify] in *. split; [done|]. split; [|lia].
    intros h' Hne. change (default websocket_connection_create_object (delete h (w_heap w2) !! h') = conn_of h' w).
    rewrite lookup_delete_ne by done. change (conn_of h' w2 = conn_of h' w). by rewrite E, decide_False, Ec, decide_False.
  - split; [done|]. split; [|done]. intros h' Hne. by rewrite Ec, decide_False.
Qed.

(** [PKeep]: one more variable, one more reference. *)
Lemma keep_kstep c : relates (kstep None)
  (exists_ ← st_gets (fun w => (0 <=? c) && (c <? w_objects w));
   (if (exists_ : bool) then
      mod_connection c (fun x => set_refcount (c_refcount x + 1) x);; st_modify (fun w => set_w_kept (c :: w_kept w) w)
    else mret ()) : W ()).
Proof.
  intros w Hd. rewrite (st_bind_run (st_gets _)). cbn [fst snd st_gets].
  destruct ((0 <=? c) && (c <? w_objects w)) eqn:Hc; [|by apply (@PreOrder_Reflexive _ _ kstep_preorder w)].
  rewrite st_bind_run. set (w1 := (mod_connection c _ w).2). pose proof (add_reference_conn c 1 w) as E. fold w1 in E.
  constructor; try done.
  - intros h Hh. apply elem_of_cons in Hh as [->|Hh]; [right; lia|by left].
  - intros h _.
    assert (E' : conn_of h (set_w_kept (c :: w_kept w1) w1) = conn_of h w1) by done.
    constructor; unfold owed; cbn [st_modify snd]; rewrite E', E;
      change (w_kept (set_w_kept ?l _)) with l; change (w_kept w1) with (w_kept w); rewrite ?occurrences_cons;
      destruct (decide (h = c)) as [->|Hne]; rewrite ?Z.eqb_refl; try done; cbn [c_refcount set_refcount]; [lia|].
    replace (c =? h) with false by lia. lia.
Qed.

(** [PDrop]: an owned object survives it. *)
Lemma drop_kstep c : relates (kstep None)
  (kept ← st_gets w_kept;
   (if bool_decide (c ∈ kept) then
      st_modify (fun w => set_w_kept (remove_one c (w_kept w)) w);; release_connection c
    else mret ()) : W ()).
Proof.
  intros w Hd. rewrite (st_bind_run (st_gets _)). cbn [fst snd st_gets].
  case_bool_decide as Hc; [|by apply (@PreOrder_Reflexive _ _ kstep_preorder w)].
  rewrite (st_bind_run (st_modify _)). cbn [fst snd st_modify]. set (w1 := set_w_kept _ w).
  destruct (release_frame c w1 Hd) as ([] & Hcalls & _ & Hkept & Ho & Hc1). set (w2 := (release_connection c w1).2) in *.
  pose proof (occurrences_pos c (w_kept w) Hc) as Hpos.
  constructor; try done.
  - intros h. rewrite Hkept. intros Hh. left. exact (elem_of_remove_one _ _ _ Hh).
  - intros h Hh.
    assert (Eo : occurrences h (w_kept w2) = occurrences h (w_kept w) - (if c =? h then 1 else 0)).
    { rewrite Hkept. by apply occurrences_remove_one. }
    destruct (decide (h = c)) as [->|Hne].
    + unfold held, owed in Hh. rewrite Z.eqb_refl in Eo. change (conn_of c w1) with (conn_of c w) in Hc1.
      specialize (Hc1 ltac:(lia)). constructor; unfold owed; rewrite Hc1, ?Eo; try done. cbn. lia.
    + replace (c =? h) with false in Eo by lia. specialize (Ho h Hne). change (conn_of h w1) with (conn_of h w) in Ho.
      constructor; unfold owed; rewrite Ho, ?Eo; done || lia.
Qed.

(** ** PHP code and the calls into it *)

Lemma set_exception_kstep e : relates (kstep None) (st_modify (set_w_exception e) : W ()).
Proof. apply modify_kstep. intros w. by split_and!. Qed.

Lemma run_program_kstep p : relates (kstep None) (run_program getnameinfo sa_family AF_INET6 p : W _).
Proof.
  assert (Hu : forall u, relates (kstep None) (st_modify (set_w_user u) : W ())).
  { intros u. apply modify_kstep. intros w. by split_and!. }
  assert (Hstop : relates (kstep None) (WebSocket_Server_stop : W ())).
  { unfold WebSocket_Server_stop. apply relates_bind; [apply _| |intros ?]; apply modify_kstep; intros w;
      split_and!; try done; by right. }
  pose proof set_exception_kstep as Hthrow.
  induction p; cbn [run_program]; unfold throw; try (solve [pres]).
  - intros w. rewrite <- (st_bind_assoc (st_gets _)). revert w. apply relates_bind; [apply _|apply keep_kstep|done].
  - intros w. rewrite <- (st_bind_assoc (st_gets _)). revert w. apply relates_bind; [apply _|apply drop_kstep|done].
Qed.

Definition referenced (h : Z) w : world D U V := (mod_connection h (fun c => set_refcount (c_refcount c + 1) c) w).2.

Lemma with_reference_kframe {A} ev h (m : W A) w :
  kframe ev (referenced h w) (m (referenced h w)).2 -> kframe ev w (with_reference h m w).2.
Proof.
  intros Hm. unfold with_reference. rewrite (st_bind_run (mod_connection h _)), (st_bind_run m), (st_bind_run (mod_connection h _)).
  pose proof (add_reference_conn h 1 w) as C1. fold (referenced h w) in C1 |- *. set (w1 := referenced h w) in *.
  destruct Hm as []. pose proof (add_reference_conn h (-1) (m w1).2) as C2. set (w2 := (m w1).2) in *.
  cbn [fst snd mret ST_ret]. set (w3 := (mod_connection h _ w2).2).
  change (forall h', conn_of h' w3 = if decide (h' = h) then set_refcount (c_refcount (conn_of h w2) + -1) (conn_of h w2) else conn_of h' w2) in C2.
  assert (O1 : forall h', owed h' w1 = owed h' w + if decide (h' = h) then 1 else 0).
  { intros h'. unfold owed. rewrite C1. change (w_kept w1) with (w_kept w). destruct (decide (h' = h)) as [->|]; cbn; lia. }
  assert (O3 : forall h', owed h' w3 = owed h' w2 - if decide (h' = h) then 1 else 0).
  { intros h'. unfold owed. rewrite C2. change (w_kept w3) with (w_kept w2). destruct (decide (h' = h)) as [->|]; cbn; lia. }
  constructor; try done. intros h' Hh'.
  assert (K : kept_conn h' w1 w2) by (apply kf_conn0; unfold held in *; rewrite O1; case_decide; lia).
  assert (F : forall f : websocket_connection_object -> bool,
    (forall c n, f (set_refcount n c) = f c) -> f (conn_of h' w1) = f (conn_of h' w) /\ f (conn_of h' w3) = f (conn_of h' w2)).
  { intros f Hf. rewrite C1, C2. by destruct (decide (h' = h)) as [->|]; rewrite ?Hf. }
  destruct K as [K1 K2 K3 K4], (F c_upgraded) as [E1 E2], (F c_close_notified) as [E3 E4], (F c_open) as [E5 E6]; try done.
  constructor; [congruence|congruence|rewrite E6, <- E5; auto|]. rewrite O3, K4, O1. lia.
Qed.

(** A call that may be skipped: PHP starts none while an exception is pending. *)
Definition kcall (a : handler) (h : Z) w w' : Prop :=
  driver_ok (w_driver w) ->
  (w_exception w <> None /\ w_exception w' <> None /\ kframe None w w') \/ kframe (Some (a, h)) w w'.

Lemma call_user_kcall a h payload type f :
  relates (kcall a h) (call_user getnameinfo sa_family AF_INET6 (EvCall a (Some h) payload type) f : W _).
Proof.
  intros w Hd. unfold call_user. rewrite (st_bind_run no_exception). unfold no_exception. cbn [fst snd st_gets].
  destruct (w_exception w) eqn:Ex; cbn [negb].
  - left. cbn [snd mret ST_ret]. rewrite Ex. split_and!; [done..|]. by apply (@PreOrder_Reflexive _ _ kstep_preorder w).
  - right. refine (kstep_bind_r (Some (a, h)) (world_kernel _) _ _ _ w Hd); [apply emit_kstep|intros ?].
    apply relates_bind; [apply _|by apply relates_gets; apply _|intros u]. apply run_program_kstep.
Qed.

Lemma with_reference_kcall {A} a h0 h (m : W A) : relates (kcall a h0) m -> relates (kcall a h0) (with_reference h m).
Proof.
  intros Hm w Hd. destruct (Hm (referenced h w) Hd) as [(E1 & E2 & F)|F]; [left; split_and!; [done| |]|right];
    try by apply with_reference_kframe. unfold with_reference.
  rewrite (st_bind_run (mod_connection h _)), (st_bind_run m), (st_bind_run (mod_connection h _)). exact E2.
Qed.
End Ownership.

#[export] Hint Resolve watch_read_kstep unwatch_kstep wait_kstep on_conn_kstep run_program_kstep set_exception_kstep : pres.
#[export] Hint Extern 2 (relates (kstep None) (mod_connection _ _)) =>
  apply mod_connection_kstep; intros ?;
  unfold websocket_connection_discard_read_bytes; repeat case_match; by split_and! : pres.
#[export] Hint Extern 2 (relates (kstep None) (world_kernel _)) => apply world_kernel_kstep; intros ? : pres.
#[export] Hint Extern 2 (relates (kstep None) (throw _)) => apply set_exception_kstep : pres.
