(* ===== verification/CloseDelivery.v ===== *)
(** * The close handler is always told

    What [onOpen] or [onMessage] was called for is closed to the application too:
    when a run ends without an exception, [onClose] has been called for it. *)
From stdpp Require Import gmap.
From S2P Require Import Prelude Constants Words Utf8 Mask Protocol Http Kernel Driver SelectDriver ConnState Connection.
From S2P Require Import ConnectionFacts Options Frames World Runtime RuntimeFacts WorldFacts Server Scenario Termination.
From S2P Require Import ServerInvariant Ownership.

Section CloseDelivery.
Context {D U V : Type} `{HD : Driver D} `{!DriverLaws D}.
Context (getnameinfo : bytes -> option (bytes * bytes)) (sa_family : bytes -> Z) (AF_INET6 : Z).
Context (getaddrinfo : bytes -> bytes -> option (list bytes)).
Context (sha1 base64_encode : bytes -> bytes) (base64_decode_ex : bytes -> option bytes).
Context (zval_get_long : V -> Z).
Local Abbreviation W A := (ST (world D U V) A).
Implicit Types (w : world D U V) (s : websocket_server_object U V).

(** ** The invariant *)

(** The connections the server owns: those of the array, and the one being
    accepted or closed. *)
Definition owned (local : option Z) (h : Z) w : Prop := h ∈ s_connections (w_server w) \/ local = Some h.

(** The application knows the connection and has not been told of its end. *)
Definition awaiting (h : Z) w : Prop :=
  (OnOpen ∈ handlers_called h w \/ OnMessage ∈ handlers_called h w) /\ OnClose ∉ handlers_called h w.

Definition conn_upgraded (h : Z) w : bool := c_upgraded (conn_of h w).
Definition conn_notified (h : Z) w : bool := c_close_notified (conn_of h w).

(** Whoever awaits a close is owned, and would be notified; but for [exempt],
    whose notification is under way. *)
Record heard (exempt local : option Z) w : Prop := {
  he_driver : driver_ok (w_driver w);
  he_close : s_on_close (w_server w) <> None;
  he_reusable : s_reusable_connection (w_server w) = None;
  he_nodup : NoDup (s_connections (w_server w));
  he_local : forall h, local = Some h -> h ∉ s_connections (w_server w);
  he_objects : 0 <= w_objects w;
  he_known : forall h, owned local h w \/ h ∈ w_kept w -> 0 <= h < w_objects w;
  he_held : forall h, owned local h w -> held h w;
  he_open : forall h, owned local h w -> c_open (conn_of h w) = true -> conn_notified h w = false;
  he_awaiting : forall h, exempt <> Some h -> awaiting h w ->
    owned local h w /\ conn_upgraded h w = true /\ conn_notified h w = false
}.

Definition same_array s s' : Prop :=
  s_connections s' = s_connections s /\ s_on_close s' = s_on_close s /\ s_reusable_connection s' = s_reusable_connection s.

Lemma same_server_array s s' : same_server s s' -> same_array s s'.
Proof. by intros [-> | ->]. Qed.

Lemma owned_frame ev local h w w' : kframe ev w w' -> owned local h w' <-> owned local h w.
Proof. intros F. destruct (same_server_array _ _ (kf_server _ _ _ F)) as (E & _). unfold owned. by rewrite E. Qed.

Lemma heard_frame ev exempt exempt' local w w' : kframe ev w w' -> heard exempt local w ->
  (forall h, exempt' <> Some h -> awaiting h w' -> (exempt <> Some h /\ awaiting h w) \/
     (owned local h w /\ conn_upgraded h w = true /\ conn_notified h w = false)) ->
  heard exempt' local w'.
Proof.
  intros F I Haw. pose proof (fun h => owned_frame ev local h w w' F) as Eo. destruct F, I.
  destruct (same_server_array _ _ kf_server) as (E1 & E2 & E3).
  constructor; unfold conn_notified, conn_upgraded in *; rewrite ?E1, ?E2, ?E3, ?kf_objects; try done.
  - intros h [Hh|Hh]; [apply he_known0; left; by apply Eo|]. destruct (kf_kept h Hh); [apply he_known0; by right|done].
  - intros h Hh%Eo. pose proof (he_held0 h Hh) as H1. unfold held. by rewrite (kc_owed _ _ _ (kf_conn h H1)).
  - intros h Hh%Eo Ho. destruct (kf_conn h (he_held0 h Hh)) as [_ -> Hopen _]. auto.
  - intros h Hne Ha. destruct (Haw h Hne Ha) as [[Hne' Ha']|Hr].
    + destruct (he_awaiting0 h Hne' Ha') as (H1 & H2 & H3). destruct (kf_conn h (he_held0 h H1)) as [-> -> _ _].
      split_and!; [by apply Eo|done..].
    + destruct Hr as (H1 & H2 & H3). destruct (kf_conn h (he_held0 h H1)) as [-> -> _ _]. split_and!; [by apply Eo|done..].
Qed.

Lemma awaiting_same w w' h : handlers_called h w' = handlers_called h w -> awaiting h w' <-> awaiting h w.
Proof. unfold awaiting. by intros ->. Qed.

Lemma heard_kframe exempt local w w' : kframe None w w' -> heard exempt local w -> heard exempt local w'.
Proof.
  intros F I. eapply heard_frame; [exact F|exact I|]. intros h Hne Ha. left. split; [done|].
  by apply (awaiting_same w w' h (kf_calls _ _ _ F h)).
Qed.

(** A call that needs no close, or for a connection that would be notified. *)
Lemma heard_call a h local w w' : kframe (Some (a, h)) w w' -> heard None local w ->
  (a = OnHandshake \/ (owned local h w /\ conn_upgraded h w = true /\ conn_notified h w = false)) -> heard None local w'.
Proof.
  intros F I Ha. eapply heard_frame; [exact F|exact I|]. intros h' _ Haw. unfold awaiting in *.
  pose proof (kf_calls _ _ _ F h') as E. cbn in E. rewrite E in Haw.
  destruct (Z.eqb_spec h' h) as [Eh|Hne]; [|by left]. rewrite Eh in *. clear Eh.
  destruct Ha as [-> |Ha]; [|by right]. left. split; [done|]. rewrite !elem_of_cons in Haw. intuition done.
Qed.

(** The close handler settles the connection's account. *)
Lemma heard_close h local w w' : kframe (Some (OnClose, h)) w w' -> heard (Some h) local w ->
  heard None local w' /\ ~ awaiting h w'.
Proof.
  intros F I. pose proof (kf_calls _ _ _ F) as E. assert (Hn : ~ awaiting h w').
  { unfold awaiting. rewrite E. cbn. rewrite Z.eqb_refl, !elem_of_cons. intuition. }
  split; [|done]. eapply heard_frame; [exact F|exact I|]. intros h' _ Haw. left.
  destruct (decide (h' = h)) as [->|Hne]; [done|]. split; [congruence|]. unfold awaiting in *. rewrite E in Haw. cbn in Haw.
  by replace (h' =? h) with false in Haw by lia.
Qed.

(** ** One connection of the array *)

(** [Q] of the connection's [upgraded] and [close_notified]. *)
Definition at_conn (Q : bool -> bool -> Prop) (h : Z) w : Prop :=
  heard None None w /\ h ∈ s_connections (w_server w) /\ Q (conn_upgraded h w) (conn_notified h w).

Definition any : bool -> bool -> Prop := fun _ _ => True.
Definition unnotified : bool -> bool -> Prop := fun _ n => n = false.
Definition talking : bool -> bool -> Prop := fun u n => u = true /\ n = false.

Lemma at_weaken (Q : bool -> bool -> Prop) h w : at_conn Q h w -> at_conn any h w.
Proof. by intros (I & Hh & _). Qed.

Lemma at_frame Q ev h w w' : kframe ev w w' -> heard None None w' -> at_conn Q h w -> at_conn Q h w'.
Proof.
  intros F I' (I & Hh & Hq). destruct (same_server_array _ _ (kf_server _ _ _ F)) as (E & _).
  unfold at_conn, conn_upgraded, conn_notified in *. rewrite E.
  destruct (kf_conn _ _ _ F h (he_held _ _ _ I h (or_introl Hh))) as [-> -> _ _]. done.
Qed.

Lemma hoare_conn {A} Q h (m : W A) : relates (kstep None) m -> hoare (at_conn Q h) m (fun _ => at_conn Q h).
Proof.
  intros H w Hw. pose proof (H w (he_driver _ _ _ (proj1 Hw))) as F. eapply at_frame; [exact F| |exact Hw].
  eapply heard_kframe; [exact F|apply Hw].
Qed.

Lemma hoare_heard {A} exempt local (m : W A) : relates (kstep None) m ->
  hoare (heard exempt local) m (fun _ => heard exempt local).
Proof. intros H w I. eapply heard_kframe; [apply H, I|exact I]. Qed.

(** A handler call other than [onClose]. *)
Lemma hoare_call {A} (Q : bool -> bool -> Prop) a h (m : W A) : relates (kcall a h) m ->
  (forall u n, Q u n -> a = OnHandshake \/ (u = true /\ n = false)) -> hoare (at_conn Q h) m (fun _ => at_conn Q h).
Proof.
  intros H Ha w Hw. pose proof Hw as (I & Hh & Hq). destruct (H w (he_driver _ _ _ I)) as [(_ & _ & F)|F].
  - eapply at_frame; [exact F| |exact Hw]. by eapply heard_kframe.
  - eapply at_frame; [exact F| |exact Hw]. eapply heard_call; [exact F|exact I|].
    destruct (Ha _ _ Hq) as [?|[? ?]]; [by left|right]. by split; [left|].
Qed.

(** The result of a step that may notify: all is well, or the handler threw. *)
Definition threw w : Prop := w_exception w <> None.
Definition still (P : world D U V -> Prop) (b : bool) w : Prop := P w \/ (b = false /\ threw w).

Lemma still_then P (m : W bool) ok : hoare P m (still P) -> hoare (still P ok) (if negb ok then mret false else m) (still P).
Proof.
  intros Hm. destruct ok; cbn [negb].
  - intros w [Hw|[? _]]; [by apply Hm|done].
  - intros w [Hw|[_ Hw]]; [by left|by right].
Qed.

Lemma still_mono (P Q : world D U V -> Prop) b w : (forall w, P w -> Q w) -> still P b w -> still Q b w.
Proof. intros H [?|?]; [left; auto|by right]. Qed.

Lemma hoare_still {A} P (m : W A) (f : A -> bool) : hoare P m (fun _ => P) -> hoare P m (fun x w => still P (f x) w).
Proof. intros H w Hw. left. by apply H. Qed.

(** ** Steps without calls *)

Hint Extern 1 (relates (kstep None) (st_gets _)) => apply relates_gets; apply _ : pres.

Lemma close_with_code_kstep h code reason : relates (kstep None) (websocket_server_close_with_code h code reason : W _).
Proof. unfold websocket_server_close_with_code. pres. Qed.
Hint Resolve close_with_code_kstep : pres.

Lemma service_kstep h now : relates (kstep None) (service_connection zval_get_long h now : W _).
Proof.
  unfold service_connection, websocket_server_close_expired_connection, websocket_server_process_heartbeat. pres.
Qed.

Lemma refuse_kstep h code reason : relates (kstep None) (refuse_frame h code reason : W _).
Proof. unfold refuse_frame, websocket_server_clear_fragment. pres. Qed.

Lemma bad_request_kstep h : relates (kstep None) (bad_request h : W _).
Proof. unfold bad_request, send_bytes. pres. Qed.

Lemma handle_exception_kstep h : relates (kstep None) (websocket_server_handle_handshake_exception h : W _).
Proof. unfold websocket_server_handle_handshake_exception, websocket_server_send_handshake_response, send_bytes. pres. Qed.
Hint Resolve service_kstep refuse_kstep bad_request_kstep handle_exception_kstep : pres.

(** ** Frames *)

Lemma call_message_at h payload opcode :
  hoare (at_conn talking h) (websocket_server_call_message_handler getnameinfo sa_family AF_INET6 h payload opcode : W _)
    (fun _ => at_conn talking h).
Proof.
  unfold websocket_server_call_message_handler. eapply hoare_bind; [apply hoare_conn; pres|intros s].
  destruct (s_on_message s) as [f|]; [|by apply hoare_ret].
  destruct (websocket_protocol_message_type_from_opcode opcode) as [type|]; [|by apply hoare_ret].
  eapply hoare_bind; [|intros ?; apply hoare_conn; pres].
  eapply hoare_call; [by apply with_reference_kcall, call_user_kcall|by intros u n []; right].
Qed.

Lemma handle_data_at h frame :
  hoare (at_conn talking h) (websocket_server_handle_data_frame getnameinfo sa_family AF_INET6 zval_get_long h frame : W _)
    (fun _ => at_conn talking h).
Proof.
  unfold websocket_server_handle_data_frame, websocket_server_clear_fragment.
  eapply hoare_bind; [apply hoare_conn; pres|intros o]. eapply hoare_bind; [apply hoare_conn; pres|intros c].
  destruct (_ =? _); [destruct (negb _); [apply hoare_conn; pres|]|].
  - destruct (websocket_server_append_fragment _ _ _) as [p|]; [|apply hoare_conn; pres].
    eapply hoare_bind; [apply hoare_conn; pres|intros ?]. destruct (negb _); [by apply hoare_ret|].
    destruct (_ && _); [apply hoare_conn; pres|].
    eapply hoare_bind; [apply call_message_at|intros ok]. apply hoare_conn. pres.
  - destruct (c_fragmented c); [apply hoare_conn; pres|]. destruct (sf_final frame); [|apply hoare_conn; pres].
    destruct (_ && _); [apply hoare_conn; pres|apply call_message_at].
Qed.

Lemma handle_frame_at h frame :
  hoare (at_conn talking h) (websocket_server_handle_frame getnameinfo sa_family AF_INET6 zval_get_long h frame : W _)
    (fun _ => at_conn talking h).
Proof.
  unfold websocket_server_handle_frame, websocket_server_clear_fragment. cbv zeta.
  eapply hoare_bind; [|intros ok; apply hoare_conn; pres].
  destruct (_ || _); [apply handle_data_at|apply hoare_conn; pres].
Qed.

(** Looking at a connection of the array. *)
Lemma hoare_look {B} Q h (m : websocket_connection_object -> W B) R :
  (forall c, hoare (fun w => at_conn Q h w /\ conn_of h w = c) (m c) R) ->
  hoare (at_conn Q h) (c ← get_connection h; m c) R.
Proof. intros H w Hw. rewrite st_bind_run. by apply H. Qed.

Lemma at_drop {B} Q h c (m : W B) R : hoare (at_conn Q h) m R -> hoare (fun w => at_conn Q h w /\ conn_of h w = c) m R.
Proof. intros H w [Hw _]. by apply H. Qed.

(** An open connection has not been notified. *)
Lemma at_open h w c : at_conn any h w /\ conn_of h w = c -> c_open c = true ->
  at_conn (fun u n => u = c_upgraded c /\ n = false) h w.
Proof. intros [(I & Hh & _) <-] Ho. split_and!; [done..|]. apply (he_open _ _ _ I); [by left|done]. Qed.

Lemma buffered_at fuel h max :
  hoare (at_conn any h) (buffered_frames_loop getnameinfo sa_family AF_INET6 zval_get_long fuel h max : W _)
    (fun _ => at_conn any h).
Proof.
  induction fuel as [|fuel IH]; cbn [buffered_frames_loop]; [by apply hoare_ret|].
  apply hoare_look. intros c. destruct (negb _) eqn:Hc; [by apply hoare_ret; intros w []|].
  apply negb_false_iff in Hc. rewrite !andb_true_iff in Hc. destruct Hc as [[[Ho _] Hu] _].
  destruct (websocket_server_parse_frame _ _) as [|frame| | |]; [by apply hoare_ret; intros w []| |by apply at_drop, hoare_conn; pres..].
  eapply hoare_conseq with (P' := at_conn talking h) (Q' := fun _ => at_conn any h); [|
    intros w Hw; destruct (at_open h w c Hw Ho) as (? & ? & ? & ?); split; [done|]; split; [done|]; split; congruence|done].
  eapply hoare_bind; [apply hoare_conn; pres|intros ?]. eapply hoare_bind; [apply handle_frame_at|intros ok].
  destruct (negb ok); [apply hoare_ret|eapply hoare_conseq; [exact IH| |done]]; intros w; apply at_weaken.
Qed.

Lemma process_buffered_at h :
  hoare (at_conn any h) (websocket_server_process_buffered_frames getnameinfo sa_family AF_INET6 zval_get_long h : W _)
    (fun _ => at_conn any h).
Proof.
  unfold websocket_server_process_buffered_frames. eapply hoare_bind; [apply hoare_conn; pres|intros o].
  eapply hoare_bind; [apply hoare_conn; pres|intros c]. apply buffered_at.
Qed.

(** ** The notification *)

Lemma mark_notified local h w : heard None local w -> c_open (conn_of h w) = false ->
  heard (Some h) local ((mod_connection h (set_close_notified true) : W ()) w).2.
Proof.
  intros [] Ho. set (w1 := (mod_connection h _ w).2).
  assert (E : forall h', conn_of h' w1 = if decide (h' = h) then set_close_notified true (conn_of h w) else conn_of h' w)
    by (intros h'; apply conn_of_insert).
  assert (Eo : forall h', owed h' w1 = owed h' w).
  { intros h'. unfold owed. rewrite E. by destruct (decide (h' = h)) as [->|]. }
  constructor; unfold held, conn_notified, conn_upgraded; try done; intros h'; rewrite ?Eo, ?E; auto.
  - apply he_held0.
  - destruct (decide (h' = h)) as [->|]; [intros _ Hc; cbn in Hc; congruence|]. apply he_open0.
  - destruct (decide (h' = h)) as [->|]; [done|]. intros _. by apply he_awaiting0.
Qed.

(** What is left after the notification. *)
Definition settled (local : option Z) (h : Z) (l : list Z) w : Prop :=
  heard None local w /\ ~ awaiting h w /\ s_connections (w_server w) = l.

Lemma settled_kframe local h l w w' : kframe None w w' -> settled local h l w -> settled local h l w'.
Proof.
  intros F (I & Hn & E). split_and!; [by eapply heard_kframe| |].
  - by rewrite (awaiting_same w w' h (kf_calls _ _ _ F h)).
  - destruct (same_server_array _ _ (kf_server _ _ _ F)) as (-> & _). done.
Qed.

Lemma hoare_settled {A} local h l (m : W A) : relates (kstep None) m -> hoare (settled local h l) m (fun _ => settled local h l).
Proof. intros H w I. eapply settled_kframe; [apply H, I|exact I]. Qed.

Lemma notify_run local h f w : heard None local w -> c_open (conn_of h w) = false ->
  let r := (mod_connection h (set_close_notified true);;
            websocket_server_call_handler getnameinfo sa_family AF_INET6 (Some f) h : W bool) w in
  still (settled local h (s_connections (w_server w))) r.1 r.2.
Proof.
  intros I Ho. cbv zeta. rewrite (st_bind_run (mod_connection h _)). pose proof (mark_notified local h w I Ho) as I1.
  set (w1 := (mod_connection h _ w).2) in *. unfold websocket_server_call_handler.
  pose proof (with_reference_kcall OnClose h h _ (call_user_kcall getnameinfo sa_family AF_INET6 OnClose h [] None (f h)) w1
    (he_driver _ _ _ I1)) as K.
  rewrite (st_bind_run (with_reference h _)). revert K. generalize (with_reference h (call_user getnameinfo sa_family AF_INET6 (EvCall OnClose (Some h) [] None) (f h)) w1).
  intros [x w2] K. cbn [fst snd] in *. destruct K as [(_ & E & _)|F].
  - right. unfold no_exception, st_gets, threw. cbn [fst snd]. by destruct (w_exception w2).
  - left. destruct (heard_close h local w1 w2 F I1) as [I2 Hn]. split_and!; [done|done|].
    destruct (same_server_array _ _ (kf_server _ _ _ F)) as (E & _). exact E.
Qed.

(** The notification of a connection the handler refused. *)
Lemma notify_at h :
  hoare (fun w => at_conn any h w /\ c_open (conn_of h w) = false)
    (websocket_server_notify_connection_closed getnameinfo sa_family AF_INET6 h : W _) (still (at_conn any h)).
Proof.
  intros w [Hw Ho]. unfold websocket_server_notify_connection_closed.
  rewrite (st_bind_run get_server), (st_bind_run (get_connection h)). cbn [fst snd get_server get_connection st_gets].
  pose proof (he_close _ _ _ (proj1 Hw)) as Hc. destruct (s_on_close (w_server w)) as [f|]; [|done].
  destruct (_ || _); [by left|].
  pose proof (notify_run None h f w (proj1 Hw) Ho) as N. cbv zeta in N. eapply still_mono; [|exact N].
  intros w' (I & _ & E). split; [done|]. rewrite E. by split; [apply Hw|].
Qed.

(** ** The handshake *)

Lemma call_open_at h b :
  hoare (at_conn talking h) (websocket_server_call_open_handler getnameinfo sa_family AF_INET6 h b : W _)
    (fun _ => at_conn talking h).
Proof.
  unfold websocket_server_call_open_handler. eapply hoare_bind; [apply hoare_conn; pres|intros s].
  destruct (s_on_open s) as [f|]; [|by apply hoare_ret]. cbv zeta.
  eapply hoare_bind; [|intros r; eapply hoare_bind; [apply hoare_conn; pres|intros ok; by apply hoare_ret]].
  destruct b; (eapply hoare_call; [|by intros u n []; right]); [apply with_reference_kcall|]; apply call_user_kcall.
Qed.

Lemma mod_at (Q Q' : bool -> bool -> Prop) h f :
  (forall c, c_close_notified (f c) = c_close_notified c /\ (c_open (f c) = true -> c_open c = true) /\
     c_refcount (f c) = c_refcount c /\
     (Q (c_upgraded c) (c_close_notified c) -> Q' (c_upgraded (f c)) (c_close_notified c)) /\
     (c_upgraded c = true -> c_upgraded (f c) = true)) ->
  hoare (at_conn Q h) (mod_connection h f : W ()) (fun _ => at_conn Q' h).
Proof.
  intros Hf w ([] & Hh & Hq). destruct (Hf (conn_of h w)) as (F1 & F2 & F3 & F4 & F5). set (w1 := (mod_connection h f w).2).
  assert (E : forall h', conn_of h' w1 = if decide (h' = h) then f (conn_of h w) else conn_of h' w)
    by (intros h'; apply conn_of_insert).
  assert (Eo : forall h', owed h' w1 = owed h' w).
  { intros h'. unfold owed. rewrite E. destruct (decide (h' = h)) as [->|]; [by rewrite F3|done]. }
  split; [|split; [done|]].
  - constructor; unfold held, conn_notified, conn_upgraded in *; try done; intros h'; rewrite ?Eo, ?E; auto.
    + destruct (decide (h' = h)) as [->|]; [|apply he_open0]. rewrite F1. auto.
    + destruct (decide (h' = h)) as [->|]; [|apply he_awaiting0]. rewrite F1. intros Hne Ha.
      destruct (he_awaiting0 h Hne Ha) as (? & ? & ?). auto.
  - unfold conn_upgraded, conn_notified in *. rewrite E, decide_True, F1 by done. auto.
Qed.

Lemma finish_upgrade_at h key sub n :
  hoare (at_conn unnotified h) (websocket_server_finish_upgrade getnameinfo sa_family AF_INET6 zval_get_long h key sub n : W _)
    (still (at_conn any h)).
Proof.
  unfold websocket_server_finish_upgrade, send_bytes. eapply hoare_bind; [apply hoare_conn; pres|intros s].
  eapply hoare_bind; [apply hoare_conn; pres|intros c0]. eapply hoare_bind; [apply hoare_conn; pres|intros ok].
  destruct (negb ok).
  { eapply hoare_bind; [apply hoare_conn; pres|intros ?]. apply hoare_ret. intros w Hw. left. by eapply at_weaken. }
  eapply hoare_bind with (R := fun _ => at_conn talking h).
  { apply mod_at. intros c. unfold websocket_connection_discard_read_bytes. destruct (_ <=? _); by split_and!. }
  intros ?. eapply hoare_bind with (R := fun _ => at_conn talking h).
  { destruct (_ || _); [|apply call_open_at]. eapply hoare_bind; [apply hoare_conn; pres|intros ?].
    eapply hoare_bind; [apply call_open_at|intros r]. eapply hoare_bind; [apply hoare_conn; pres|intros ?]. by apply hoare_ret. }
  intros [ok1 close_requested]. destruct (negb ok1).
  { eapply hoare_bind; [apply hoare_conn; pres|intros ?]. apply hoare_ret. intros w Hw. left. by eapply at_weaken. }
  eapply hoare_bind; [apply hoare_conn; pres|intros ?]. apply hoare_look. intros c. destruct (c_open c) eqn:Eo; cbn [negb].
  - apply at_drop. eapply hoare_conseq; [apply (hoare_still (at_conn any h) _ id), process_buffered_at|intros w; apply at_weaken|done].
  - eapply hoare_conseq; [apply notify_at| |done]. intros w [Hw <-]. split; [by eapply at_weaken|done].
Qed.

Lemma call_handshake_at r h :
  hoare (at_conn unnotified h) (websocket_server_call_handshake_handler getnameinfo sa_family AF_INET6 r h : W _)
    (fun _ => at_conn unnotified h).
Proof.
  unfold websocket_server_call_handshake_handler. eapply hoare_bind; [apply hoare_conn; pres|intros s].
  destruct (s_on_handshake s) as [f|]; [|by apply hoare_ret].
  eapply hoare_bind; [eapply hoare_call; [apply call_user_kcall|by left]|intros v]. apply hoare_conn. pres.
Qed.

Lemma handshake_request_at h parsed :
  hoare (at_conn unnotified h) (handshake_request getnameinfo sa_family AF_INET6 zval_get_long h parsed : W _)
    (still (at_conn any h)).
Proof.
  unfold handshake_request. eapply hoare_bind; [apply hoare_conn; pres|intros s].
  eapply hoare_bind with (R := fun _ => at_conn unnotified h); [destruct (bool_decide _); [apply call_handshake_at|by apply hoare_ret]|].
  intros [ok accepted]. destruct (negb ok); [apply hoare_ret; left; by eapply at_weaken|].
  destruct (negb accepted); [apply hoare_ret; left; by eapply at_weaken|]. apply finish_upgrade_at.
Qed.

Lemma handshake_loop_at fuel h :
  hoare (at_conn any h) (handshake_loop getnameinfo sa_family AF_INET6 sha1 base64_encode base64_decode_ex
    zval_get_long fuel h : W _) (still (at_conn any h)).
Proof.
  assert (Hplain : forall m : W bool, relates (kstep None) m -> hoare (at_conn unnotified h) m (still (at_conn any h))).
  { intros m Hm. eapply hoare_conseq; [apply (hoare_still (at_conn any h) _ id), hoare_conn, Hm|intros w; apply at_weaken|done]. }
  induction fuel as [|fuel IH]; cbn [handshake_loop]; [by apply hoare_ret; left|].
  assert (IH' : hoare (at_conn unnotified h) (handshake_loop getnameinfo sa_family AF_INET6 sha1 base64_encode base64_decode_ex
    zval_get_long fuel h : W _) (still (at_conn any h))) by (eapply hoare_conseq; [exact IH|intros w; apply at_weaken|done]).
  apply hoare_look. intros c. destruct (negb _) eqn:Hc; [by apply hoare_ret; intros w []; left|].
  apply negb_false_iff, andb_true_iff in Hc as [Ho _].
  eapply hoare_conseq with (P' := at_conn unnotified h) (Q' := still (at_conn any h)); [|
    intros w Hw; by destruct (at_open h w c Hw Ho) as (? & ? & ? & ?)|done].
  eapply hoare_bind; [apply hoare_conn; pres|intros chunk]. destruct chunk as [[|b chunk]|]; [apply Hplain; pres| |].
  - unfold now_usec. eapply hoare_bind; [apply hoare_conn; pres|intros now]. eapply hoare_bind; [apply hoare_conn; pres|intros ?].
    eapply hoare_bind; [apply hoare_conn; pres|intros c1].
    destruct (websocket_connection_ensure_read_capacity _ _ _) as [capacity|]; [|apply Hplain; pres].
    eapply hoare_bind; [apply hoare_conn; pres|intros ?]. eapply hoare_bind; [apply hoare_conn; pres|intros c2].
    eapply hoare_bind; [apply hoare_conn; pres|intros s].
    destruct (websocket_http_parse_upgrade _ _ _ _ _) as [[| |] parsed]; [exact IH'|apply handshake_request_at|apply Hplain; pres].
  - eapply hoare_bind; [apply hoare_conn; pres|intros e]. destruct (e =? EINTR); [exact IH'|]. apply Hplain. pres.
Qed.

Lemma process_handshake_at h :
  hoare (at_conn any h) (websocket_server_process_handshake getnameinfo sa_family AF_INET6 sha1 base64_encode
    base64_decode_ex zval_get_long h : W _) (still (at_conn any h)).
Proof. unfold websocket_server_process_handshake. eapply hoare_bind; [apply hoare_conn; pres|intros f]. apply handshake_loop_at. Qed.

Lemma frame_reads_at fuel h limit :
  hoare (at_conn any h) (frame_reads_loop getnameinfo sa_family AF_INET6 zval_get_long fuel h limit : W _)
    (fun _ => at_conn any h).
Proof.
  induction fuel as [|fuel IH]; cbn [frame_reads_loop]; [by apply hoare_ret|].
  eapply hoare_bind; [apply hoare_conn; pres|intros c]. destruct (negb _); [by apply hoare_ret|].
  eapply hoare_bind; [apply hoare_conn; pres|intros chunk]. destruct chunk as [[|b chunk]|]; [apply hoare_conn; pres| |].
  - unfold now_usec. eapply hoare_bind; [apply hoare_conn; pres|intros now]. eapply hoare_bind; [apply hoare_conn; pres|intros ?].
    eapply hoare_bind; [apply hoare_conn; pres|intros c1].
    destruct (websocket_connection_ensure_read_capacity _ _ _) as [capacity|]; [|apply hoare_conn; pres].
    eapply hoare_bind; [apply hoare_conn; pres|intros ?]. eapply hoare_bind; [apply process_buffered_at|intros ok].
    destruct (negb ok); [by apply hoare_ret|exact IH].
  - eapply hoare_bind; [apply hoare_conn; pres|intros e]. destruct (e =? EINTR); [exact IH|].
    destruct (_ || _); [apply process_buffered_at|apply hoare_conn; pres].
Qed.

Lemma process_frame_reads_at h :
  hoare (at_conn any h) (websocket_server_process_frame_reads getnameinfo sa_family AF_INET6 zval_get_long h : W _)
    (fun _ => at_conn any h).
Proof.
  unfold websocket_server_process_frame_reads. eapply hoare_bind; [apply hoare_conn; pres|intros o].
  eapply hoare_bind; [apply hoare_conn; pres|intros f]. apply frame_reads_at.
Qed.

(** ** The rounds over the array *)

Lemma process_connection_fd_heard fd :
  hoare (heard None None) (websocket_server_process_connection_fd getnameinfo sa_family AF_INET6 sha1 base64_encode
    base64_decode_ex zval_get_long fd : W _) (still (heard None None)).
Proof.
  unfold websocket_server_process_connection_fd, now_usec. eapply hoare_bind; [apply hoare_heard; pres|intros now].
  intros w I. rewrite (st_bind_run get_server), (st_bind_run (st_gets _)). cbn [fst snd get_server st_gets].
  destruct (find_connection fd (s_connections (w_server w)) w) as [h|] eqn:Ef; [|by left].
  apply find_connection_in in Ef. eapply (still_mono (at_conn any h)); [by intros w2 []|].
  match goal with |- still _ (?m w).1 _ => assert (Hm : hoare (at_conn any h) m (still (at_conn any h))); [|by apply Hm] end.
  eapply hoare_bind; [apply hoare_conn; pres|intros r]. destruct r as [ok|]; [by apply hoare_ret; left|].
  eapply hoare_bind; [apply hoare_conn; pres|intros c].
  destruct (negb _); [apply process_handshake_at|apply (hoare_still _ _ id), process_frame_reads_at].
Qed.

(** The array, which no step of a round changes. *)
Definition array (l : list Z) w : Prop := heard None None w /\ s_connections (w_server w) = l.

Lemma array_kframe l w w' : kframe None w w' -> array l w -> array l w'.
Proof.
  intros F [I E]. split; [by eapply heard_kframe|]. by destruct (same_server_array _ _ (kf_server _ _ _ F)) as (-> & _).
Qed.

Lemma hoare_array {A} l (m : W A) : relates (kstep None) m -> hoare (array l) m (fun _ => array l).
Proof. intros H w I. eapply array_kframe; [apply H, I|exact I]. Qed.

(** A step on one connection of the array leaves the array alone. *)
Lemma hoare_member h l (m : W bool) : relates proc_step m -> h ∈ l ->
  hoare (at_conn any h) m (still (at_conn any h)) -> hoare (array l) m (still (array l)).
Proof.
  intros Hp Hh Hm w [I E]. destruct (Hp w (he_driver _ _ _ I)) as [[S _ _ _ _ _ _] _].
  destruct (same_server_array _ _ S) as (E' & _). destruct (Hm w) as [Hw|Hw].
  - split; [done|]. by rewrite E.
  - left. split; [apply Hw|congruence].
  - by right.
Qed.

Lemma process_loop_heard l now arr : (forall h, h ∈ l -> h ∈ arr) ->
  hoare (array arr) (process_connections_loop getnameinfo sa_family AF_INET6 sha1 base64_encode base64_decode_ex
    zval_get_long l now : W _) (still (array arr)).
Proof.
  induction l as [|h l IH]; intros Hsub; cbn [process_connections_loop]; [by apply hoare_ret; left|].
  assert (Hh : h ∈ arr) by (apply Hsub; left). specialize (IH (fun h' H => Hsub h' (proj2 (elem_of_cons _ _ _) (or_intror H)))).
  eapply hoare_bind; [apply hoare_array; pres|intros r]. destruct r as [[]|]; [exact IH|by apply hoare_ret; left|].
  eapply hoare_bind; [apply hoare_array; pres|intros c].
  eapply hoare_bind with (R := still (array arr)).
  { destruct (negb _); [|by apply hoare_ret; left]. apply (hoare_member h); [pres|done|apply process_handshake_at]. }
  intros ok. apply still_then. eapply hoare_bind; [apply hoare_array; pres|intros c'].
  eapply hoare_bind with (R := still (array arr)); [|intros ok'; apply still_then, IH].
  destruct (_ && _); [|by apply hoare_ret; left].
  apply (hoare_member h); [pres|done|apply (hoare_still _ _ id), process_buffered_at].
Qed.

Lemma process_connections_heard :
  hoare (heard None None) (websocket_server_process_connections getnameinfo sa_family AF_INET6 sha1 base64_encode
    base64_decode_ex zval_get_long : W _) (still (heard None None)).
Proof.
  unfold websocket_server_process_connections, now_usec. eapply hoare_bind; [apply hoare_heard; pres|intros now].
  intros w I. rewrite (st_bind_run get_server). cbn [fst snd get_server st_gets].
  eapply (still_mono (array (s_connections (w_server w)))); [by intros w2 []|]. by apply process_loop_heard.
Qed.

(** ** Leaving the array *)

Lemma remove_heard i h w : heard None None w -> s_connections (w_server w) !! i = Some h ->
  heard None (Some h) ((mod_server (set_connections (delete i (s_connections (w_server w)))) : W ()) w).2.
Proof.
  intros [] Hi. destruct (delete_members i h _ Hi) as (Hin & Hof & _). destruct (delete_NoDup i h _ he_nodup0 Hi) as [Hn Hd].
  set (w1 := (mod_server _ w).2).
  assert (Ho : forall h', owned (Some h) h' w1 <-> owned None h' w).
  { intros h'. unfold owned. cbn. split; intros [H|H]; [left; auto| |destruct (Hin h' H) as [?| ->]; [by left|by right]|done].
    injection H as <-. left. apply list_elem_of_lookup. by exists i. }
  constructor; try done.
  - by intros h' [= <-].
  - intros h' [Hh|Hh]; apply he_known0; [left; by apply Ho|by right].
  - intros h' Hh%Ho. by apply he_held0.
  - intros h' Hh%Ho. by apply he_open0.
  - intros h' Hne Ha. destruct (he_awaiting0 h' Hne Ha) as (H1 & H2 & H3). by split; [apply Ho|].
Qed.

(** The last reference of the server is given up. *)
Lemma release_heard h l :
  hoare (settled (Some h) h l) (release_connection h : W _) (fun _ w => heard None None w /\ s_connections (w_server w) = l).
Proof.
  intros w ([] & Hn & E).
  destruct (release_frame (D := D) (U := U) (V := V) h w he_driver0) as ([S Ho _ _ _ Hd _] & Hc & _ & Hk & Hother & _).
  set (w' := (release_connection h w).2) in *. destruct (same_server_array _ _ S) as (E1 & E2 & E3).
  assert (Hne : forall h', owned None h' w' -> h' <> h /\ owned (Some h) h' w).
  { intros h'. unfold owned. rewrite E1. intros [Hh|]; [|done]. split; [|by left]. intros ->. by eapply he_local0. }
  assert (Hheld : forall h', h' <> h -> owed h' w' = owed h' w).
  { intros h' Hh. unfold owed. by rewrite Hother, Hk. }
  split; [|congruence]. constructor; unfold conn_notified, conn_upgraded in *; rewrite ?E1, ?E2, ?E3, ?Ho; try done.
  - intros h' [Hh|Hh]; apply he_known0; [left; by apply Hne|right; by rewrite <- Hk].
  - intros h' Hh%Hne. destruct Hh as [Hh Hw]. unfold held. rewrite Hheld by done. by apply he_held0.
  - intros h' Hh%Hne. destruct Hh as [Hh Hw]. rewrite Hother by done. by apply he_open0.
  - intros h' _ Ha. rewrite (awaiting_same w w' h' (Hc h')) in Ha.
    destruct (decide (h' = h)) as [->|Hh]; [done|]. rewrite Hother by done.
    destruct (he_awaiting0 h' ltac:(done) Ha) as (Hw & ? & ?). split; [|done].
    destruct Hw as [Hw|[= <-]]; [left; by rewrite E1|done].
Qed.

(** What is thrown stays thrown through what calls no handler. *)
Lemma hoare_threw {A} (m : W A) : relates quiet_step m -> hoare threw m (fun _ => threw).
Proof. intros H w Hw. destruct (H w) as [_ E]. unfold threw. by rewrite E. Qed.

Hint Resolve release_step on_conn_step : pres.

(** Closing the connection at an index, with notification. *)
Lemma close_at_heard i :
  hoare (heard None None) (websocket_server_close_connection_at getnameinfo sa_family AF_INET6 i true : W _)
    (still (heard None None)).
Proof.
  intros w I. unfold websocket_server_close_connection_at. rewrite (st_bind_run get_server). cbn [fst snd get_server st_gets].
  pose proof (he_close _ _ _ I) as Hclose. destruct (s_connections (w_server w) !! i) as [h|] eqn:Hi; [|by left].
  pose proof (remove_heard i h w I Hi) as I1. rewrite (st_bind_run (mod_server _)). set (w1 := (mod_server _ w).2) in *.
  rewrite (st_bind_run (mod_connection h _)). set (w2 := (mod_connection h (set_open false) w1).2).
  assert (I2 : heard None (Some h) w2) by (revert I1; apply hoare_heard; pres).
  assert (Ho2 : c_open (conn_of h w2) = false) by (unfold w2; by rewrite conn_of_mod).
  rewrite (st_bind_run (get_connection h)). cbn [fst snd get_connection st_gets]. rewrite st_bind_run.
  set (m3 := if 0 <=? _ then _ else _).
  assert (K3 : relates (kstep None) (m3 : W ())) by (unfold m3; pres).
  pose proof (K3 w2 (he_driver _ _ _ I2)) as F3. pose proof (heard_kframe _ _ _ _ F3 I2) as I3.
  destruct (kf_conn _ _ _ F3 h (he_held _ _ _ I2 h (or_intror eq_refl))) as [U3 N3 O3 _]. set (w3 := (m3 w2).2) in *.
  assert (Ho3 : c_open (conn_of h w3) = false) by (destruct (c_open (conn_of h w3)); [by rewrite O3 in Ho2|done]).
  rewrite st_bind_run.
  match goal with |- context [(if ?b then ?x else ?y) w3] => set (m4 := if b then x else y) end.
  assert (S4 : still (settled (Some h) h (s_connections (w_server w3))) (m4 w3).1 (m4 w3).2).
  { unfold m4. rewrite <- U3, <- N3. destruct (s_on_close (w_server w)) as [f|]; [|done]. rewrite bool_decide_true, andb_true_r by done.
    destruct (true && c_upgraded (conn_of h w3) && negb (c_close_notified (conn_of h w3))) eqn:Hn; [by apply notify_run|].
    left. split; [done|]. split; [|done]. intros Ha. destruct (he_awaiting _ _ _ I3 h ltac:(done) Ha) as (_ & Hu & Hnn).
    unfold conn_upgraded, conn_notified in *. by rewrite Hu, Hnn in Hn. }
  destruct (m4 w3) as [ok w4]. cbn [fst snd] in *. destruct S4 as [S4|[-> T]].
  - left. revert S4. generalize (s_connections (w_server w3)) as l. intros l S4. rewrite (st_bind_run (on_conn _ _)).
    pose proof (hoare_settled (Some h) h l (on_conn h websocket_connection_close_socket : W _)
      (on_conn_kstep h _ close_socket_step) w4 S4) as S5. rewrite st_bind_run. by destruct (release_heard h l _ S5).
  - right. rewrite !st_bind_run. cbn [fst snd mret ST_ret]. split; [done|].
    apply (hoare_threw (release_connection h)); [apply release_step|].
    apply (hoare_threw (on_conn h websocket_connection_close_socket)); [by apply on_conn_step, close_socket_step|done].
Qed.

Lemma close_at_threw i :
  hoare threw (websocket_server_close_connection_at getnameinfo sa_family AF_INET6 i false : W _) (fun _ => threw).
Proof.
  assert (Hs : forall f, hoare threw (mod_server f : W ()) (fun _ => threw)) by (intros f w Hw; exact Hw).
  assert (Hm : forall h f, hoare threw (mod_connection h f : W ()) (fun _ => threw)) by (intros h f w Hw; exact Hw).
  unfold websocket_server_close_connection_at. eapply hoare_bind with (R := fun _ => threw); [by intros w Hw|intros s].
  destruct (s_connections s !! i) as [h|]; [|by apply hoare_ret].
  eapply hoare_bind; [apply Hs|intros ?]. eapply hoare_bind; [apply Hm|intros ?].
  eapply hoare_bind; [apply hoare_threw; pres|intros c]. eapply hoare_bind; [apply hoare_threw; pres|intros ?].
  cbn [andb]. eapply hoare_bind with (R := fun _ => threw); [by apply hoare_ret|intros ok]. apply hoare_threw. pres.
Qed.

Lemma purge_loop_heard fuel i :
  hoare (heard None None) (purge_loop getnameinfo sa_family AF_INET6 fuel i : W _) (still (heard None None)).
Proof.
  revert i. induction fuel as [|fuel IH]; intros i; cbn [purge_loop]; [by apply hoare_ret; left|].
  eapply hoare_bind; [apply hoare_heard; pres|intros s]. destruct (s_connections s !! i) as [h|]; [|by apply hoare_ret; left].
  eapply hoare_bind; [apply hoare_heard; pres|intros c]. destruct (negb _); [|apply IH].
  eapply hoare_bind; [apply close_at_heard|intros ok]. apply still_then, IH.
Qed.

Lemma close_all_heard :
  hoare (heard None None) (websocket_server_close_all_connections getnameinfo sa_family AF_INET6 true : W _)
    (still (heard None None)).
Proof.
  unfold websocket_server_close_all_connections. eapply hoare_bind; [apply hoare_heard; pres|intros s0].
  generalize (S (length (s_connections s0))) as fuel. induction fuel as [|fuel IH]; cbn [close_all_loop]; [by apply hoare_ret; left|].
  eapply hoare_bind; [apply hoare_heard; pres|intros s]. destruct (0 <? _); [|by apply hoare_ret; left].
  eapply hoare_bind; [apply close_at_heard|intros ok]. apply still_then, IH.
Qed.

Lemma close_all_threw :
  hoare threw (websocket_server_close_all_connections getnameinfo sa_family AF_INET6 false : W _) (fun _ => threw).
Proof.
  unfold websocket_server_close_all_connections. eapply hoare_bind; [apply hoare_threw; pres|intros s0].
  generalize (S (length (s_connections s0))) as fuel. induction fuel as [|fuel IH]; cbn [close_all_loop]; [by apply hoare_ret|].
  eapply hoare_bind; [apply hoare_threw; pres|intros s]. destruct (0 <? _); [|by apply hoare_ret].
  eapply hoare_bind; [apply close_at_threw|intros ok]. destruct (negb ok); [by apply hoare_ret|exact IH].
Qed.
(** ** Entering the array *)

Lemma create_settled l :
  hoare (array l) (websocket_server_create_connection_zval : W _) (fun h => settled (Some h) h l).
Proof.
  intros w [[] E]. unfold websocket_server_create_connection_zval. rewrite (st_bind_run get_server).
  cbn [fst snd get_server st_gets]. rewrite he_reusable0, !st_bind_run. cbn [fst snd st_gets st_modify mret ST_ret].
  set (h := w_objects w). set (w2 := set_w_objects _ _).
  assert (Hc : forall h', conn_of h' w2 = if decide (h' = h) then websocket_connection_create_object else conn_of h' w)
    by (intros h'; apply (conn_of_insert h h')).
  assert (Hin : h ∉ s_connections (w_server w)) by (intros Hh; specialize (he_known0 h (or_introl (or_introl Hh))); lia).
  assert (Hk : h ∉ w_kept w) by (intros Hh; specialize (he_known0 h (or_intror Hh)); lia).
  assert (Hn : ~ awaiting h w) by (intros Ha; destruct (he_awaiting0 h ltac:(done) Ha) as ([?|?] & _); done).
  assert (Hw : forall h', owned (Some h) h' w2 -> h' <> h -> owned None h' w).
  { intros h' [Hh|[= <-]]; [by left|done]. }
  split; [|split; [exact Hn|exact E]]. constructor; unfold conn_notified, conn_upgraded; try done.
  - by intros h' [= <-].
  - cbn. lia.
  - intros h' Hh. change (w_objects w2) with (h + 1). destruct (decide (h' = h)) as [->|Hne]; [lia|].
    assert (0 <= h' < h); [|lia]. apply he_known0. destruct Hh as [Hh|Hh]; [left; auto|by right].
  - intros h' Hh. unfold held, owed. rewrite Hc. change (w_kept w2) with (w_kept w). destruct (decide (h' = h)) as [->|Hne].
    + rewrite occurrences_none by done. done.
    + apply he_held0. auto.
  - intros h' Hh. rewrite Hc. destruct (decide (h' = h)) as [->|Hne]; [done|]. apply he_open0. auto.
  - intros h' _ Ha. rewrite Hc. change (awaiting h' w) in Ha. destruct (decide (h' = h)) as [->|Hne]; [done|].
    destruct (he_awaiting0 h' ltac:(done) Ha) as ([Hh|?] & ?); [|done]. split; [by left|done].
Qed.

(** Opening: the connection keeps its references and starts without a notification. *)
Lemma open_fresh r id addr fd :
  hoare (fun x => driver_ok (cs_driver x) /\ c_refcount (cs_conn x) = r)
    (websocket_connection_open id addr fd : ST (cstate D) ())
    (fun _ x => c_refcount (cs_conn x) = r /\ c_close_notified (cs_conn x) = false).
Proof.
  unfold websocket_connection_open.
  eapply hoare_bind with (R := fun _ x => driver_ok (cs_driver x) /\ c_refcount (cs_conn x) = r); [by intros x Hd|intros ?].
  eapply hoare_bind with (R := fun _ x => driver_ok (cs_driver x) /\ c_refcount (cs_conn x) = r).
  { destruct addr as [a|]; [destruct (zlen a <=? 128)|]; by intros y Hd. }
  intros ?. eapply hoare_bind with (R := fun _ x => driver_ok (cs_driver x) /\ c_refcount (cs_conn x) = r /\
    c_close_notified (cs_conn x) = false); [by intros ? []|intros ?].
  eapply hoare_bind with (R := fun _ x => c_refcount (cs_conn x) = r /\ c_close_notified (cs_conn x) = false); [|by intros ? ? []].
  intros y (Hd & Er & En). destruct (clear_queue_step y Hd) as [[[_ F2 _ _ _ _ _] F3] _]. by rewrite F2, F3.
Qed.

Lemma open_settled h l id addr fd :
  hoare (settled (Some h) h l) (on_conn h (websocket_connection_open id addr fd) : W _) (fun _ => settled (Some h) h l).
Proof.
  intros w ([] & Hn & E). destruct (on_conn_run h (websocket_connection_open id addr fd) w) as (_ & E1 & E2 & E3 & E4 & _ & Ec).
  destruct (open_any id addr fd (mk_cs (conn_of h w) (w_driver w) (w_kernel w)) he_driver0) as [Hd [Hq _]].
  destruct (open_fresh _ id addr fd (mk_cs (conn_of h w) (w_driver w) (w_kernel w)) (conj he_driver0 eq_refl)) as [Hr Hf].
  assert (Ek : w_kept (on_conn h (websocket_connection_open id addr fd) w).2 = w_kept w).
  { unfold on_conn. by destruct (websocket_connection_open _ _ _ _) as [x []]. }
  rewrite <- E3 in Hd. rewrite <- E4 in Hq. cbn [cs_kernel cs_conn] in *. set (w' := (on_conn h _ w).2) in *.
  assert (Hw : forall h', awaiting h' w' <-> awaiting h' w) by (intros h'; apply awaiting_same, Hq).
  assert (Ho : forall h', owned (Some h) h' w' <-> owned (Some h) h' w) by (intros h'; unfold owned; by rewrite E1).
  assert (Hh : forall h', owed h' w' = owed h' w).
  { intros h'. unfold owed. rewrite Ec, Ek. by destruct (decide (h' = h)) as [->|]; [rewrite Hr|]. }
  split; [|by rewrite Hw, E1]. constructor; unfold held, conn_notified, conn_upgraded; rewrite ?E1, ?E2; try done.
  - intros h'. rewrite Ek, Ho. auto.
  - intros h' Hh'%Ho. rewrite Hh. by apply he_held0.
  - intros h' Hh'%Ho. rewrite Ec. destruct (decide (h' = h)) as [->|]; [done|]. by apply he_open0.
  - intros h' _ Ha%Hw. rewrite Ec, Ho. destruct (decide (h' = h)) as [->|]; [done|]. by apply he_awaiting0.
Qed.

(** A change of the server that leaves the array and the close handler alone. *)
Lemma mod_server_heard exempt local f : (forall s, same_array s (f s)) ->
  hoare (heard exempt local) (mod_server f : W ()) (fun _ => heard exempt local).
Proof.
  intros Hf w []. destruct (Hf (w_server w)) as (E1 & E2 & E3).
  assert (Ho : forall h, owned local h (mod_server f w).2 <-> owned local h w) by (intros h; unfold owned; cbn; by rewrite E1).
  constructor; cbn [w_server mod_server st_modify snd set_w_server]; rewrite ?E1, ?E2, ?E3; try done; intros h; rewrite Ho.
  - apply he_known0.
  - apply he_held0.
  - apply he_open0.
  - apply he_awaiting0.
Qed.

Lemma capacity_settled h l :
  hoare (settled (Some h) h l) (websocket_server_ensure_connection_capacity : W _) (fun _ => settled (Some h) h l).
Proof.
  unfold websocket_server_ensure_connection_capacity. eapply hoare_bind; [apply hoare_settled; pres|intros s].
  destruct (_ <? _); [by apply hoare_ret|]. eapply hoare_bind with (R := fun _ => settled (Some h) h l); [|intros ?; by apply hoare_ret].
  intros w (I & Hn & E). split; [|done]. apply mod_server_heard; [by intros s'|exact I].
Qed.

(** The new connection in the array. *)
Lemma append_heard h w l : settled (Some h) h l w ->
  heard None None ((mod_server (fun s => set_connections (s_connections s ++ [h]) s) : W ()) w).2.
Proof.
  intros ([] & Hn & E). set (w1 := (mod_server _ w).2).
  assert (Ho : forall h', owned None h' w1 <-> owned (Some h) h' w).
  { intros h'. unfold owned. cbn. rewrite elem_of_app, list_elem_of_singleton. split; [by intros [[?| ->]|?]; [left|right|]|intros [?|[= <-]]; auto]. }
  constructor; try done.
  - cbn. apply NoDup_app. split_and!; [done| |apply NoDup_singleton]. intros x Hx ->%list_elem_of_singleton.
    by apply (he_local0 h).
  - intros h' [Hh|Hh]; apply he_known0; [left; by apply Ho|by right].
  - intros h' Hh%Ho. by apply he_held0.
  - intros h' Hh%Ho. by apply he_open0.
  - intros h' Hne Ha. destruct (he_awaiting0 h' Hne Ha) as (H1 & H2 & H3). by split; [apply Ho|].
Qed.

Lemma accept_heard :
  hoare (heard None None) (websocket_server_accept_connection zval_get_long : W _) (fun _ => heard None None).
Proof.
  unfold websocket_server_accept_connection, send_bytes, close_fd, now_usec.
  eapply hoare_bind; [apply hoare_heard; pres|intros s]. eapply hoare_bind; [apply hoare_heard; pres|intros a].
  destruct a as [client addr|e]; [|by apply hoare_ret]. destruct (client <? 0); [by apply hoare_ret|].
  eapply hoare_bind; [apply hoare_heard; pres|intros ?]. destruct (_ <=? _); [apply hoare_heard; pres|].
  eapply hoare_bind; [apply hoare_heard; pres|intros ok]. destruct (negb ok); [apply hoare_heard; pres|].
  intros w I. assert (I' : array (s_connections (w_server w)) w) by done. revert I'.
  generalize (s_connections (w_server w)) as l. intros l I'. revert w I' I.
  match goal with |- forall w, _ -> _ -> heard _ _ (?m w).2 => enough (Hm : hoare (array l) m (fun _ => heard None None)) by auto end.
  eapply hoare_bind; [apply create_settled|intros h]. unfold next_connection_id.
  eapply hoare_bind; [apply hoare_settled|intros id].
  { apply relates_bind; [apply _|by apply relates_gets; apply _|intros n]. apply relates_bind; [apply _| |intros ?; pres].
    apply modify_kstep. intros w. by split_and!; try left. }
  eapply hoare_bind; [apply open_settled|intros ?].
  eapply hoare_bind; [apply hoare_settled; pres|intros now]. eapply hoare_bind; [apply hoare_settled; pres|intros ?].
  eapply hoare_bind; [apply capacity_settled|intros ok2].
  assert (Hgive : forall m : W (), relates (kstep None) m ->
    hoare (settled (Some h) h l) (on_conn h websocket_connection_close_socket;; release_connection h;; m;; mret false : W _)
      (fun _ => heard None None)).
  { intros m Hm. eapply hoare_bind; [apply hoare_settled, on_conn_kstep, close_socket_step|intros ?].
    eapply hoare_bind with (R := fun _ => heard None None).
    - eapply hoare_conseq; [apply release_heard|done|]. by intros ? ? [].
    - intros ?. eapply hoare_bind; [by apply hoare_heard|intros ?]. by apply hoare_ret. }
  destruct (negb ok2).
  { intros w Q. pose proof (Hgive (mret ()) ltac:(pres) w Q) as G. by rewrite !st_bind_run in G |- *. }
  eapply hoare_bind; [apply hoare_settled; pres|intros ok3]. destruct (negb ok3); [apply Hgive; pres|].
  eapply hoare_bind with (R := fun _ => heard None None); [|intros ?; by apply hoare_ret].
  intros w Q. by eapply append_heard.
Qed.
Lemma accept_pending_heard :
  hoare (heard None None) (websocket_server_accept_pending zval_get_long : W _) (fun _ => heard None None).
Proof.
  unfold websocket_server_accept_pending. eapply hoare_bind; [apply hoare_heard; pres|intros fuel].
  generalize 0. induction fuel as [|fuel IH]; intros n; cbn [accept_loop]; [by apply hoare_ret|].
  eapply hoare_bind; [apply hoare_heard; pres|intros s]. eapply hoare_bind; [apply hoare_heard; pres|intros stopped].
  destruct (negb _); [by apply hoare_ret|]. eapply hoare_bind; [apply accept_heard|intros ok].
  destruct (negb ok); [|apply IH]. eapply hoare_bind; [apply hoare_heard; pres|intros ne].
  destruct (negb ne); [by apply hoare_ret|]. eapply hoare_bind; [apply hoare_heard; pres|intros e].
  destruct (_ || _); [by apply hoare_ret|]. destruct (_ =? EINTR); [apply IH|apply hoare_heard; pres].
Qed.

(** ** The run *)

Local Abbreviation loop_iteration := (loop_iteration getnameinfo sa_family AF_INET6 sha1 base64_encode base64_decode_ex
  zval_get_long : W bool).

Lemma loop_iteration_heard : hoare (heard None None) loop_iteration (still (heard None None)).
Proof.
  unfold ServerInvariant.loop_iteration, throw.
  eapply hoare_bind; [apply hoare_heard; pres|intros s]. eapply hoare_bind; [apply hoare_heard; pres|intros stopped].
  destruct (negb _); [by apply hoare_ret; left|]. eapply hoare_bind; [apply hoare_heard; pres|intros [ready fd]].
  destruct (ready <? 0).
  - eapply hoare_bind; [apply hoare_heard; pres|intros e]. apply (hoare_still (heard None None) _ id), hoare_heard. pres.
  - eapply hoare_bind; [apply hoare_heard; pres|intros s2].
    eapply hoare_bind with (R := still (heard None None)).
    { destruct (_ && _); [apply (hoare_still (heard None None) _ id), accept_pending_heard|].
      destruct (_ && _); [apply process_connection_fd_heard|by apply hoare_ret; left]. }
    intros ok. apply still_then. eapply hoare_bind; [apply process_connections_heard|intros ok2]. apply still_then.
    unfold websocket_server_purge_closed_connections. eapply hoare_bind; [apply hoare_heard; pres|intros s3]. apply purge_loop_heard.
Qed.

Definition heard_or_threw w : Prop := heard None None w \/ threw w.

Lemma run_loop_heard fuel :
  hoare (heard None None) (run_loop getnameinfo sa_family AF_INET6 sha1 base64_encode base64_decode_ex zval_get_long fuel : W _)
    (fun _ => heard_or_threw).
Proof.
  induction fuel as [|fuel IH]; intros w I; [by left|].
  rewrite (run_loop_iteration getnameinfo sa_family AF_INET6 sha1 base64_encode base64_decode_ex zval_get_long fuel w).
  destruct (loop_iteration_heard w I) as [I2|[E T]]; [|rewrite E; by right].
  destruct (loop_iteration w).1; [by apply IH|by left].
Qed.

(** A close that fails has seen an exception. *)
Definition fails_thrown (ok : bool) w : Prop := ok = false -> threw w.

Lemma close_at_fails i b :
  hoare (fun _ => True) (websocket_server_close_connection_at getnameinfo sa_family AF_INET6 i b : W _) fails_thrown.
Proof.
  assert (Hret : forall P, hoare P (mret true : W bool) fails_thrown) by (intros P; apply hoare_ret; by intros w _ [=]).
  assert (Htrue : forall {A} P (m : W A), hoare P m (fun _ _ => True)) by done.
  unfold websocket_server_close_connection_at. eapply hoare_bind; [apply Htrue|intros s].
  destruct (s_connections s !! i) as [h|]; [|apply Hret]. do 4 (eapply hoare_bind; [apply Htrue|intros ?]).
  eapply hoare_bind with (R := fails_thrown).
  - destruct (_ && _); [|apply Hret]. eapply hoare_bind; [apply Htrue|intros ?].
    unfold websocket_server_call_handler. destruct (s_on_close s); [|apply Hret].
    eapply hoare_bind; [apply Htrue|intros ?]. apply hoare_gets. intros w _. unfold fails_thrown, threw.
    by destruct (w_exception w).
  - intros [].
    + eapply hoare_bind; [apply Htrue|intros ?]. eapply hoare_bind; [apply Htrue|intros ?]. apply Hret.
    + eapply hoare_conseq with (P' := threw) (Q' := fun _ => threw); [apply hoare_threw; pres|by intros w ?; auto|by intros ? w ? _].
Qed.

Lemma close_all_fails b :
  hoare (fun _ => True) (websocket_server_close_all_connections getnameinfo sa_family AF_INET6 b : W _) fails_thrown.
Proof.
  assert (Hret : forall P, hoare P (mret true : W bool) fails_thrown) by (intros P; apply hoare_ret; by intros w _ [=]).
  assert (Htrue : forall {A} P (m : W A), hoare P m (fun _ _ => True)) by done.
  unfold websocket_server_close_all_connections. eapply hoare_bind; [apply Htrue|intros s0].
  generalize (S (length (s_connections s0))) as fuel. induction fuel as [|fuel IH]; cbn [close_all_loop]; [by apply hoare_ret|].
  eapply hoare_bind; [apply Htrue|intros s]. destruct (0 <? _); [|apply Hret].
  eapply hoare_bind; [apply close_at_fails|intros ok]. destruct ok; cbn [negb]; [by intros w _; apply IH|].
  apply hoare_ret. intros w Hw _. by apply Hw.
Qed.

Definition closing (b : bool) w : Prop := if b then heard None None w else threw w.

Lemma hoare_closing {A} b (m : W A) : relates (kstep None) m -> relates quiet_step m ->
  hoare (closing b) m (fun _ => closing b).
Proof. intros Hk Hq. destruct b; [by apply hoare_heard|by apply hoare_threw]. Qed.

Lemma mod_server_closing b f : (forall s, same_array s (f s)) -> hoare (closing b) (mod_server f : W ()) (fun _ => closing b).
Proof. intros Hf. destruct b; [by apply mod_server_heard|by intros w Hw]. Qed.

Lemma runtime_close_heard b :
  hoare (closing b) (websocket_server_runtime_close getnameinfo sa_family AF_INET6 b : W _) (fun _ => heard_or_threw).
Proof.
  unfold websocket_server_runtime_close, close_fd. eapply hoare_bind; [apply hoare_closing; pres|intros s].
  eapply hoare_bind with (R := fun _ => closing b).
  { destruct (_ <=? _); [|by apply hoare_ret]. eapply hoare_bind; [apply hoare_closing; [pres|apply world_unwatch_quiet]|intros ?].
    eapply hoare_bind; [apply hoare_closing; pres|intros ?]. by apply mod_server_closing. }
  intros ?. eapply hoare_bind with (R := fun ok w => heard_or_threw w /\ fails_thrown ok w).
  { intros w Hw. split; [|by apply close_all_fails]. destruct b; [|by right; apply close_all_threw].
    destruct (close_all_heard w Hw) as [?|[_ ?]]; [by left|by right]. }
  intros [|]; cbn [negb]; [by apply hoare_ret; intros w []|].
  eapply hoare_conseq with (P' := threw) (Q' := fun _ => threw); [|by intros w [_ Hw]; apply Hw|by right].
  eapply hoare_bind; [apply close_all_threw|intros ok]. by apply hoare_ret.
Qed.

Lemma runtime_run_heard :
  hoare (heard None None) (websocket_server_runtime_run getnameinfo sa_family AF_INET6 getaddrinfo sha1 base64_encode
    base64_decode_ex zval_get_long : W _) (fun _ => heard_or_threw).
Proof.
  unfold websocket_server_runtime_run. eapply hoare_bind with (R := fun _ => heard None None).
  { unfold websocket_server_create_listener. pose proof listen_loop_quiet. apply hoare_heard. pres. }
  intros fd. eapply hoare_bind; [by apply mod_server_heard|intros ?]. destruct (fd <? 0); [by apply hoare_ret; left|].
  eapply hoare_bind; [apply hoare_heard; pres|intros ok]. destruct (negb ok).
  - eapply hoare_bind with (R := fun _ => threw); [by intros w _|intros ?].
    eapply hoare_bind; [apply (runtime_close_heard false)|intros ?]. by apply hoare_ret.
  - eapply hoare_bind; [apply hoare_heard; pres|intros fuel]. eapply hoare_bind; [apply run_loop_heard|intros ?].
    eapply hoare_bind with (R := closing).
    { apply hoare_gets. intros w [I|T]; unfold closing, threw in *; destruct (w_exception w) eqn:E; try done. }
    intros b. eapply hoare_bind; [apply runtime_close_heard|intros ?]. by apply hoare_gets.
Qed.
(** What the run does before the event loop and after it. *)
Lemma heard_same w w' : w_server w' = w_server w -> w_heap w' = w_heap w -> w_objects w' = w_objects w ->
  w_kept w' = w_kept w -> k_trace (w_kernel w') = k_trace (w_kernel w) -> driver_ok (w_driver w') ->
  heard None None w -> heard None None w'.
Proof.
  intros E1 E2 E3 E4 E5 Hd [].
  assert (Hc : forall h, conn_of h w' = conn_of h w) by (intros h; unfold conn_of; by rewrite E2).
  assert (Ha : forall h, awaiting h w' <-> awaiting h w) by (intros h; apply awaiting_same; unfold handlers_called; by rewrite E5).
  assert (Ho : forall h, owned None h w' <-> owned None h w) by (intros h; unfold owned; by rewrite E1).
  constructor; unfold held, owed, conn_notified, conn_upgraded in *; rewrite ?E1, ?E3, ?E4; try done;
    intros h; rewrite ?Hc, ?Ho, ?Ha; auto.
Qed.

(** C2. Whom the application has met, it sees off.  A server with a close handler,
    run from a state in which nothing is open and no connection awaits its close
    handler, leaves no connection awaiting it when the run ends without an
    exception: for every connection [onOpen] or [onMessage] has been called for,
    [onClose] has been called too, whatever the handlers, the clients and the kernel
    did. *)
Theorem close_delivered (best_driver : kernel -> option D * kernel) w
    (Hdriver : init_law best_driver) (Hshut : shut zval_get_long w)
    (Hclose : s_on_close (w_server w) <> None)
    (Hkept : forall h, h ∈ w_kept w -> 0 <= h < w_objects w) (Hcalls : forall h, ~ awaiting h w) :
  let w' := (WebSocket_Server_run getnameinfo sa_family AF_INET6 getaddrinfo sha1 base64_encode base64_decode_ex
               zval_get_long best_driver w).2 in
  w_exception w' = None ->
  forall h, OnOpen ∈ handlers_called h w' \/ OnMessage ∈ handlers_called h w' -> OnClose ∈ handlers_called h w'.
Proof.
  cbv zeta. set (w' := (WebSocket_Server_run _ _ _ _ _ _ _ _ _ w).2).
  enough (S : heard_or_threw w' /\ s_connections (w_server w') = [] \/ threw w').
  { intros E h Hh. destruct S as [[[I|T] Ec]|T]; [|by destruct T..].
    destruct (decide (OnClose ∈ handlers_called h w')) as [|Hn]; [done|].
    destruct (he_awaiting _ _ _ I h ltac:(done) (conj Hh Hn)) as ([Ho|Ho] & _); [|done].
    rewrite Ec in Ho. by apply not_elem_of_nil in Ho. }
  assert (I : heard None None w).
  { pose proof (shut_connections _ _ Hshut) as Ec.
    assert (Hno : forall h, ~ owned None h w).
    { intros h [Hh|?]; [|done]. rewrite Ec in Hh. by apply not_elem_of_nil in Hh. }
    destruct Hshut as [[] _ _ _]. constructor; try done.
    - intros h [Hh|Hh]; [by destruct (Hno h)|auto].
    - intros h Hh. by destruct (Hno h).
    - intros h Hh. by destruct (Hno h).
    - intros h _ Ha. by destruct (Hcalls h). }
  subst w'. unfold WebSocket_Server_run. rewrite (st_bind_run (st_gets w_running)), (st_bind_run get_server).
  cbn [fst snd get_server st_gets]. destruct (w_running w); [by right|]. destruct (negb _); [by right|].
  rewrite (st_bind_run (ensure_driver _)), (st_bind_run (st_gets w_driver)). cbn [fst snd st_gets].
  pose proof (ensure_driver_step best_driver w Hdriver (he_driver _ _ _ I)) as E. cbv zeta in E.
  assert (Ek : w_kept (ensure_driver best_driver w).2 = w_kept w).
  { unfold ensure_driver. destruct (w_driver w); [done|]. by destruct (best_driver _). }
  revert E Ek. generalize (ensure_driver best_driver w).2. intros w1 (E1 & E2 & E3 & E4 & E5 & E6 & E7) Ek.
  assert (H1 : shut zval_get_long w1) by (by apply (shut_same _ w)). assert (I1 : heard None None w1) by (by apply (heard_same w)).
  destruct (w_driver w1); [|by right].
  rewrite (st_bind_run (st_modify _)), (st_bind_run (mod_server _)). cbn [fst snd st_modify mod_server].
  rewrite (st_bind_run (websocket_server_runtime_run _ _ _ _ _ _ _ _)).
  match goal with |- context [websocket_server_runtime_run _ _ _ _ _ _ _ _ ?w2] =>
    assert (S2 : shut zval_get_long w2); [|assert (I2 : heard None None w2); [|
    pose proof (runtime_run_shuts getnameinfo sa_family AF_INET6 getaddrinfo sha1 base64_encode base64_decode_ex zval_get_long w2 S2) as S3;
    pose proof (runtime_run_heard w2 I2) as I3]] end.
  { destruct H1 as [[] ? ? ?]. by constructor; [constructor|..]. }
  { apply (mod_server_heard None None (set_server_running true)); [by intros s|]. apply (heard_same w1); try done. apply I1. }
  destruct (websocket_server_runtime_run _ _ _ _ _ _ _ _ _) as [ok w3]. cbn [fst snd] in *.
  destruct I3 as [I3|T]; [|by right]. left. split; [left|by destruct S3].
  apply (heard_same (mod_server (set_server_running false) w3).2); try done; [apply I3|]. by apply mod_server_heard.
Qed.
End CloseDelivery.

(** A server that stops at the first message, and its run: the client is still
    connected when it ends. *)
Definition parting_world (answers : list answer) : world select_state unit Z :=
  mk_world (WebSocket_Server_onMessage (fun _ _ _ u => PStop (PReturn u ReturnNull)) echo_server) ∅ 0 [] None
    (mk_kernel answers [] 0 []) 1 false false None tt.

Definition parting_script : list answer :=
  let ok := AOk 0 [] in
  [AOk 3 []; ok; ok; ok; ok; ok;
   AOk 1 [1]; AOk 4 [9; 9]; ok; ok; AErr EAGAIN; AErr EAGAIN;
   AOk 1 [0; 1]; AOk 0 example_request; AOk 1000 [];
   AOk 1 [0; 1]; AOk 0 [0x81; 0x82; 0; 0; 0; 0; 72; 105]; AErr EAGAIN].

Local Abbreviation parting_run :=
  ((WebSocket_Server_run no_names ipv4 10 one_address (fun x => x) (fun x => x) example_decode (fun z => z)
     select_only (parting_world parting_script)).2).

Lemma parting_shut answers : shut (fun z => z) (parting_world answers).
Proof.
  constructor; [constructor|..]; try done.
  - apply NoDup_nil_2.
  - intros h Hh. by apply not_elem_of_nil in Hh.
Qed.

Lemma close_delivered_witness :
  w_exception parting_run = None /\ OnOpen ∈ handlers_called 0 parting_run /\ OnClose ∈ handlers_called 0 parting_run.
Proof.
  assert (E : w_exception parting_run = None) by (by vm_compute).
  assert (Ho : OnOpen ∈ handlers_called 0 parting_run) by (apply list_elem_of_lookup; exists 2%nat; by vm_compute).
  split; [exact E|]. split; [exact Ho|].
  apply (close_delivered no_names ipv4 10 one_address (fun x => x) (fun x => x) example_decode (fun z => z)
    select_only (parting_world parting_script)); [apply select_only_law|apply parting_shut|discriminate| | |exact E|left; exact Ho].
  - clear E Ho. intros h Hh. by apply not_elem_of_nil in Hh.
  - clear E Ho. intros h [[Hh|Hh] _]; by apply not_elem_of_nil in Hh.
Defined.
