(* ===== verification/TimeoutSpec.v ===== *)
(** * Silent peers

    Timeouts and the heartbeat: when a connection is expired or its pong is late, how
    it is left, and what the heartbeat does on every branch. *)
From stdpp Require Import gmap.
From S2P Require Import Prelude Constants Words Utf8 Protocol Http Kernel Driver FdTable SelectDriver ConnState Connection.
From S2P Require Import ConnectionFacts ConnectionSpec Options World Runtime RuntimeFacts WorldFacts Server Scenario.
From S2P Require Import Termination ServerInvariant.
From Stdlib Require String.
Import (notations) String.

Section TimeoutSpec.
Context {D U V : Type} `{HD : Driver D} `{!DriverLaws D}.
Context (zval_get_long : V -> Z).
Local Abbreviation W A := (ST (world D U V) A).
Implicit Types (w : world D U V) (s : cstate D).

(** What the functions of [websocket_connection.c] see of the world. *)
Definition at_handle (h : Z) w : cstate D := mk_cs (conn_of h w) (w_driver w) (w_kernel w).

Lemma on_conn_at_handle {A} h (m : ST (cstate D) A) w :
  (on_conn h m w : A * world D U V).1 = (m (at_handle h w)).1 /\ at_handle h (on_conn h m w).2 = (m (at_handle h w)).2 /\
  w_server (on_conn h m w).2 = w_server w.
Proof.
  destruct (on_conn_run h m w) as (E1 & E2 & _ & E3 & E4 & _ & E). split_and!; [done| |done].
  unfold at_handle. rewrite E, decide_True, E3, E4 by done. by destruct (m _) as [x []].
Qed.

(** ** Leaving *)

(** The close frame is on its way and the connection closes behind it. *)
Record lingering (code : Z) (reason : bytes) s s' : Prop := {
  li_sendable : sendable (cs_conn s) = true;
  li_open : c_open (cs_conn s') = true;
  li_close : c_close_after_write (cs_conn s') = true;
  li_input : input_view (cs_conn s') = input_view (cs_conn s);
  li_pending : c_write_queue (cs_conn s') <> [];
  li_stream : exists payload, websocket_protocol_close_payload code reason = Ok payload /\
    wire (c_fd (cs_conn s)) s' ++ pending (cs_conn s') =
    wire (c_fd (cs_conn s)) s ++ pending (cs_conn s) ++ server_frame payload WEBSOCKET_OPCODE_CLOSE
}.

Definition leaving (code : Z) (reason : bytes) s s' : Prop :=
  conn_wf s' /\ (closed (cs_conn s') \/ lingering code reason s s').

Lemma send_close_frame_spec code reason s : conn_wf s ->
  let '(ok, s') := websocket_connection_send_close_frame code reason s in
  conn_wf s' /\ (ok = true -> sendable (cs_conn s) = true /\ c_open (cs_conn s') = true /\
    input_view (cs_conn s') = input_view (cs_conn s) /\
    exists payload, websocket_protocol_close_payload code reason = Ok payload /\
      wire (c_fd (cs_conn s)) s' ++ pending (cs_conn s') =
      wire (c_fd (cs_conn s)) s ++ pending (cs_conn s) ++ server_frame payload WEBSOCKET_OPCODE_CLOSE).
Proof.
  intros Wf. unfold websocket_connection_send_close_frame. run.
  destruct (_ || _); [done|]. destruct (websocket_protocol_close_payload code reason) as [payload|]; [|done].
  pose proof (send_frame_spec payload WEBSOCKET_OPCODE_CLOSE s Wf) as S. cbv zeta in S.
  destruct (sendable (cs_conn s)); [|rewrite S; done].
  destruct (websocket_connection_send_frame _ _ s) as [ok s']. cbn [fst snd] in S.
  destruct S as ((Ei & _) & W' & S). split; [done|]. intros ->. destruct S as [Ho Es]. split_and!; try done. by exists payload.
Qed.

(** [websocket_server_close_with_code] leaves the connection; one that is already
    lingering is closed at once. *)
Lemma close_with_code_spec h code reason w : conn_wf (at_handle h w) ->
  let '(ok, w') := (websocket_server_close_with_code h code reason : W bool) w in
  ok = true /\ w_server w' = w_server w /\ leaving code reason (at_handle h w) (at_handle h w').
Proof.
  intros Wf. unfold websocket_server_close_with_code. rewrite st_bind_run.
  pose proof (send_close_frame_spec code reason (at_handle h w) Wf) as S.
  destruct (on_conn_at_handle h (websocket_connection_send_close_frame code reason) w) as (E1 & E2 & E3).
  destruct (on_conn h (websocket_connection_send_close_frame code reason) w) as [ok w1]. cbn [fst snd] in *.
  destruct (websocket_connection_send_close_frame code reason (at_handle h w)) as [ok' s1]. cbn [fst snd] in *. subst ok' s1.
  destruct S as [W1 S]. rewrite st_bind_run.
  set (m := if ok then websocket_connection_close_after_write else websocket_connection_close_socket).
  replace (if ok then _ else _) with (on_conn (D := D) (U := U) (V := V) h m) by (unfold m; by destruct ok).
  destruct (on_conn_at_handle h m w1) as (_ & E4 & E5). destruct (on_conn h m w1) as [[] w2]. cbn [fst snd mret ST_ret] in *.
  split; [done|]. split; [congruence|]. rewrite E4. unfold leaving, m. destruct ok.
  - split; [by apply close_after_write_wf|]. destruct (S eq_refl) as (Hs & Ho & Hi & Hp). clear S.
    unfold websocket_connection_close_after_write, websocket_connection_has_pending_writes. run. rewrite Ho. run.
    destruct (Z.ltb_spec 0 (zlen (c_write_queue (cs_conn (at_handle h w1))))) as [Hq|Hq]; run.
    + right. constructor; try done. cbn in *. intros E. by rewrite E in Hq.
    + left. apply (close_socket_spec (at_handle h w1)), W1.
  - split; [by apply close_socket_wf|]. left. apply (close_socket_spec (at_handle h w1)), W1.
Qed.

(** ** Expired connections *)

Local Abbreviation expired := (websocket_server_connection_expired zval_get_long).
Local Abbreviation service := (service_connection (D := D) (U := U) zval_get_long).

(** Time goes on: without activity, an expired connection stays so. *)
Lemma expired_later options c c' now now' : input_view c' = input_view c -> 0 <= now <= now' ->
  expired options c now = true -> expired options c' now' = true.
Proof.
  intros [= _ _ _ _ _ _ _ _ Eu _ _ _ _ _ _ _ Ea El _ _]. unfold websocket_server_connection_expired.
  rewrite Eu, Ea, El. generalize (if negb (c_upgraded c) then websocket_server_handshake_timeout_usec zval_get_long options
    else websocket_server_idle_timeout_usec zval_get_long options) as timeout. intros timeout.
  generalize (if c_last_activity_usec c =? 0 then c_accepted_at_usec c else c_last_activity_usec c) as last. intros last Hn.
  destruct (Z.eqb_spec now 0); [done|]. replace (now' =? 0) with false by lia.
  destruct (Z.eqb_spec last 0); [done|]. cbn [orb]. destruct (Z.ltb_spec now last); [done|].
  replace (now' <? last) with false by lia. lia.
Qed.

(** One round with an expired connection. *)
Lemma service_expired h now w : conn_wf (at_handle h w) -> c_open (conn_of h w) = true ->
  expired (s_options (w_server w)) (conn_of h w) now = true ->
  let '(r, w') := service h now w in
  r = Some true /\ w_server w' = w_server w /\
  if c_upgraded (conn_of h w) then leaving WEBSOCKET_CLOSE_NORMAL (str "idle timeout") (at_handle h w) (at_handle h w')
  else closed (conn_of h w').
Proof.
  intros Wf Ho He. unfold service_connection. rewrite (st_bind_run get_options), (st_bind_run (get_connection h)).
  cbn [fst snd get_options get_connection st_gets]. rewrite Ho, He. cbn [negb]. rewrite st_bind_run.
  unfold websocket_server_close_expired_connection. rewrite (st_bind_run (get_connection h)).
  cbn [fst snd get_connection st_gets]. destruct (c_upgraded (conn_of h w)).
  - rewrite st_bind_run. pose proof (close_with_code_spec h WEBSOCKET_CLOSE_NORMAL (str "idle timeout") w Wf) as S.
    destruct (websocket_server_close_with_code _ _ _ w) as [ok w']. cbn [fst snd mret ST_ret]. by destruct S as (_ & ? & ?).
  - destruct (on_conn_at_handle h websocket_connection_close_socket w) as (_ & E & Es).
    destruct (on_conn h _ w) as [[] w']. cbn [fst snd mret ST_ret] in *. split_and!; [done..|].
    change (closed (cs_conn (at_handle h w'))). rewrite E. apply (close_socket_spec (at_handle h w)), Wf.
Qed.

(** C18. An expired connection leaves.  In the round that finds an open connection
    expired, nothing more is read from it; one that has not finished its handshake
    is closed at once, and an upgraded one is closed or keeps only the bytes the
    kernel has not taken, a close frame with code 1000 last among them; and the next
    round closes it even if the kernel takes none of them. *)
Theorem expired_connection_closed h now w (Hwf : conn_wf (at_handle h w)) (Hopen : c_open (conn_of h w) = true)
    (Hnow : 0 <= now) (Hexpired : expired (s_options (w_server w)) (conn_of h w) now = true) :
  let '(r, w') := service h now w in
  r = Some true /\
  (closed (conn_of h w') \/
   (c_upgraded (conn_of h w) = true /\
    lingering WEBSOCKET_CLOSE_NORMAL (str "idle timeout") (at_handle h w) (at_handle h w'))) /\
  (forall now', now <= now' -> closed (conn_of h (service h now' w').2)).
Proof.
  pose proof (service_expired h now w Hwf Hopen Hexpired) as S. destruct (service h now w) as [r w'].
  destruct S as (Hr & Es & S). split; [done|].
  assert (Hclosed : closed (conn_of h w') -> forall now', closed (conn_of h (service h now' w').2)).
  { intros C now'. unfold service_connection. rewrite (st_bind_run get_options), (st_bind_run (get_connection h)).
    cbn [fst snd get_options get_connection st_gets]. by rewrite (cl_open _ C). }
  destruct (c_upgraded (conn_of h w)) eqn:Eu; [|by split; [left|auto]].
  destruct S as [W' [C|L]]; [by split; [left|auto]|]. split; [by right|]. intros now' Hn. destruct L as [? Ho Hc Hi _ _].
  assert (He' : expired (s_options (w_server w')) (conn_of h w') now' = true).
  { rewrite Es. eapply expired_later; [exact Hi| |exact Hexpired]. lia. }
  pose proof (service_expired h now' w' W' Ho He') as S2.
  destruct (service h now' w') as [r2 w2]. destruct S2 as (_ & _ & S2). cbn [snd].
  destruct (c_upgraded (conn_of h w')); [|done]. destruct S2 as [_ [C|[Hs _ _ _ _ _]]]; [done|].
  unfold sendable in Hs. by rewrite Hc, andb_false_r in Hs.
Qed.

(** ** The heartbeat *)

Definition last_seen c : Z := if c_last_activity_usec c =? 0 then c_accepted_at_usec c else c_last_activity_usec c.

(** The heartbeat applies: an interval is set, the clock works and the connection
    talks. *)
Definition beating (options : options_zval V) c (now : Z) : Prop :=
  websocket_server_ping_interval_usec zval_get_long options <> 0 /\ now <> 0 /\
  c_open c = true /\ c_upgraded c = true /\ c_close_after_write c = false.

Definition ping_due (options : options_zval V) c (now : Z) : Prop :=
  beating options c now /\ c_awaiting_pong c = false /\
  last_seen c <> 0 /\ last_seen c <= now /\ websocket_server_ping_interval_usec zval_get_long options <= now - last_seen c.

Definition pong_late (options : options_zval V) c (now : Z) : Prop :=
  beating options c now /\ c_awaiting_pong c = true /\
  0 < c_last_ping_usec c <= now /\ websocket_server_pong_timeout_usec zval_get_long options <= now - c_last_ping_usec c.

(** A PING was accepted at [now]. *)
Definition pinged (now : Z) s s' : Prop :=
  conn_wf s' /\ c_open (cs_conn s') = true /\ c_close_after_write (cs_conn s') = false /\
  c_awaiting_pong (cs_conn s') = true /\ c_last_ping_usec (cs_conn s') = now /\
  wire (c_fd (cs_conn s)) s' ++ pending (cs_conn s') =
  wire (c_fd (cs_conn s)) s ++ pending (cs_conn s) ++ server_frame [] WEBSOCKET_OPCODE_PING.

Lemma mod_connection_at_handle h f w : at_handle h (mod_connection h f w : () * world D U V).2 = (mod_conn f (at_handle h w)).2.
Proof. unfold at_handle. by rewrite conn_of_mod. Qed.

Lemma heartbeat_ping h now w : conn_wf (at_handle h w) -> c_close_after_write (conn_of h w) = false ->
  let '(ok, w') := (ok ← on_conn h (websocket_connection_send_frame [] WEBSOCKET_OPCODE_PING);
    (if negb ok then websocket_server_close_with_code h WEBSOCKET_CLOSE_NORMAL (str "heartbeat failed") else
     mod_connection h (fun c => set_last_ping_usec now (set_awaiting_pong true c));; mret true) : W bool) w in
  ok = true /\ (pinged now (at_handle h w) (at_handle h w') \/
    exists s, leaving WEBSOCKET_CLOSE_NORMAL (str "heartbeat failed") s (at_handle h w')).
Proof.
  intros Wf Hc. rewrite st_bind_run.
  destruct (on_conn_at_handle h (websocket_connection_send_frame [] WEBSOCKET_OPCODE_PING) w) as (E1 & E2 & _).
  destruct (on_conn h _ w) as [ok w1]. cbn [fst snd] in *.
  pose proof (send_frame_wf [] WEBSOCKET_OPCODE_PING (at_handle h w) Wf) as W1.
  pose proof (send_frame_spec [] WEBSOCKET_OPCODE_PING (at_handle h w) Wf) as S. cbv zeta in S.
  rewrite <- E2 in *. destruct ok; cbn [negb].
  - rewrite st_bind_run. cbn [fst snd mret ST_ret]. split; [done|]. left.
    destruct (sendable _); [|by rewrite S in E1].
    rewrite <- E1 in S. destruct S as (F & _ & Ho & Es). pose proof F as (_ & Ef & Ec & _).
    unfold pinged. rewrite mod_connection_at_handle. split_and!; try done.
    + by apply mod_conn_wf.
    + cbn in *. congruence.
  - pose proof (close_with_code_spec h WEBSOCKET_CLOSE_NORMAL (str "heartbeat failed") w1 W1) as L.
    destruct (websocket_server_close_with_code _ _ _ w1) as [ok2 w2]. destruct L as (-> & _ & L). split; [done|]. right. by eexists.
Qed.

(** C19. The heartbeat, on every branch; it never stops the round.  When the peer has
    been silent for the interval, a PING is accepted behind what is pending and its
    time kept, or the connection leaves; when a pong is late, the connection leaves
    with 1000; otherwise, nothing at all happens. *)
Theorem heartbeat_branches h now w (Hwf : conn_wf (at_handle h w)) :
  let options := s_options (w_server w) in
  let '(ok, w') := websocket_server_process_heartbeat zval_get_long h now w in
  ok = true /\
  (ping_due options (conn_of h w) now -> pinged now (at_handle h w) (at_handle h w') \/
     exists s, leaving WEBSOCKET_CLOSE_NORMAL (str "heartbeat failed") s (at_handle h w')) /\
  (pong_late options (conn_of h w) now ->
     leaving WEBSOCKET_CLOSE_NORMAL (str "pong timeout") (at_handle h w) (at_handle h w')) /\
  (~ ping_due options (conn_of h w) now -> ~ pong_late options (conn_of h w) now -> w' = w).
Proof.
  cbv zeta. unfold websocket_server_process_heartbeat, ping_due, pong_late, beating. fold (last_seen (conn_of h w)).
  rewrite (st_bind_run get_options), (st_bind_run (get_connection h)). cbn [fst snd get_options get_connection st_gets].
  fold (last_seen (conn_of h w)).
  set (interval := websocket_server_ping_interval_usec _ _). set (timeout := websocket_server_pong_timeout_usec _ _).
  set (c := conn_of h w). destruct (Z.eqb_spec interval 0) as [Hi|Hi]; [by split_and!; [|intros ((? & _) & _)..|]|].
  destruct (Z.eqb_spec now 0) as [Hn|Hn]; [by split_and!; [|intros ((_ & ? & _) & _)..|]|].
  destruct (c_open c) eqn:Ho; cbn [negb orb]; [|by split_and!; [|intros ((_ & _ & ? & _) & _)..|]].
  destruct (c_upgraded c) eqn:Eu; cbn [negb orb]; [|by split_and!; [|intros ((_ & _ & _ & ? & _) & _)..|]].
  destruct (c_close_after_write c) eqn:Ec; cbn [orb]; [by split_and!; [|intros ((_ & _ & _ & _ & ?) & _)..|]|].
  destruct (c_awaiting_pong c) eqn:Ea.
  - destruct (_ && _) eqn:Hl.
    + pose proof (close_with_code_spec h WEBSOCKET_CLOSE_NORMAL (str "pong timeout") w Hwf) as L.
      destruct (websocket_server_close_with_code _ _ _ w) as [ok w']. destruct L as (-> & _ & L).
      split_and!; [done|by intros (_ & ? & _)|done|]. intros _ Hno. destruct Hno. split_and!; try done; slia.
    + split_and!; [done|by intros (_ & ? & _)| |done]. intros (_ & _ & ? & ?). slia.
  - destruct (_ || _) eqn:Hl.
    + split_and!; [done| |by intros (_ & ? & _)|done]. intros (_ & _ & ? & ? & ?). slia.
    + pose proof (heartbeat_ping h now w Hwf Ec) as L. match type of L with let '(_, _) := ?x in _ => destruct x as [ok w'] end.
      destruct L as [-> L]. split_and!; [done|done|by intros (_ & ? & _)|]. intros Hno. destruct Hno. split_and!; try done; slia.
Qed.

(** ** Timeouts in milliseconds *)

(** The clock works and the connection was last heard of, not in the future. *)
Definition clock_known c (now : Z) : Prop := now <> 0 /\ last_seen c <> 0 /\ last_seen c <= now.

Lemma expired_clock options c now : expired options c now = true <->
  clock_known c now /\
  0 < (if c_upgraded c then websocket_server_idle_timeout_usec zval_get_long options
       else websocket_server_handshake_timeout_usec zval_get_long options) <= now - last_seen c.
Proof.
  unfold websocket_server_connection_expired, clock_known. fold (last_seen c).
  destruct (Z.eqb_spec now 0); [split; [done|intros ((? & _) & _); done]|].
  destruct (Z.eqb_spec (last_seen c) 0); cbn [orb]; [split; [done|intros ((_ & ? & _) & _); done]|].
  destruct (Z.ltb_spec now (last_seen c)); [split; [done|lia]|].
  destruct (c_upgraded c); cbn [negb]; split; intros; slia.
Qed.

(** C40. When a server given a constructed [ServerOptions] drops a silent connection,
    in terms of the option in milliseconds (the handshake timeout, then the idle
    one).  Where it fits 64 bits in microseconds: exactly when the clock shows that
    silence.  Where it does not, which [__construct] accepts: after the silence that
    is left modulo 2^64, shorter than configured, or never when that is 0. *)
Theorem connection_expired_iff a1 a2 a3 a4 a5 a6 a7 o c now
    (Hlong : Forall (fun a => default 0 a < 2 ^ 63) [a1; a2; a3; a4; a5; a6; a7])
    (Ho : ServerOptions_construct a1 a2 a3 a4 a5 a6 a7 = Ok o) :
  let ms := if c_upgraded c then default WEBSOCKET_DEFAULT_IDLE_TIMEOUT_MS a5
            else default WEBSOCKET_DEFAULT_HANDSHAKE_TIMEOUT_MS a4 in
  (ms * 1000 < 2 ^ 64 ->
     expired (OptObject o) c now = true <-> clock_known c now /\ ms * 1000 <= now - last_seen c) /\
  (2 ^ 64 <= ms * 1000 -> exists usec, 0 <= usec < 2 ^ 64 /\ (2 ^ 64 | ms * 1000 - usec) /\
     (usec = 0 -> expired (OptObject o) c now = false) /\
     (0 < usec -> expired (OptObject o) c now = true <-> clock_known c now /\ usec <= now - last_seen c)).
Proof.
  pose proof (construct_object_ok _ _ _ _ _ _ _ _ Hlong Ho) as [Hp _]. apply construct_ok in Ho as [Heq _].
  rewrite !Forall_cons in Hp. destruct Hp as (_&_&_&P4&P5&_). cbn [map option_names] in Heq.
  injection Heq as _ _ _ E4 E5 _ _. cbn [ServerOptions_property] in *. cbv zeta. rewrite <- E4, <- E5.
  set (ms := if c_upgraded c then _ else _).
  assert (Hms : 1 <= ms < 2 ^ 63) by (subst ms; by destruct (c_upgraded c)).
  pose proof (expired_clock (OptObject o) c now) as Hc.
  assert (Hu : (if c_upgraded c then websocket_server_idle_timeout_usec zval_get_long (OptObject o)
    else websocket_server_handshake_timeout_usec zval_get_long (OptObject o)) = u64 (ms * 1000)).
  { unfold websocket_server_idle_timeout_usec, websocket_server_handshake_timeout_usec.
    rewrite !object_positive by done. subst ms. by destruct (c_upgraded c). }
  rewrite Hu in Hc. clear Hu. clearbody ms. split; intros Hfit.
  - rewrite u64_small in Hc by lia. rewrite Hc. clear Hc. split; intros [? ?]; split; try done; lia.
  - exists (u64 (ms * 1000)). pose proof (u64_range (ms * 1000)).
    assert (Hd : ms * 1000 - u64 (ms * 1000) = 2 ^ 64 * (ms * 1000 / 2 ^ 64)).
    { unfold u64. rewrite Z.mod_eq by done. lia. }
    assert (1 <= ms * 1000 / 2 ^ 64) by (apply Z.div_le_lower_bound; lia).
    split; [lia|]. split; [rewrite Hd; apply Z.divide_factor_l|]. split.
    2: { intros ?. rewrite Hc. split; intros [? ?]; split; try done; lia. }
    intros E. apply not_true_iff_false. rewrite Hc. lia.
Qed.
End TimeoutSpec.

(** ** At concrete inputs *)

(** The echo server with a timeout of 5 ms and a heartbeat of 3 ms, and its client,
    last heard of at 1. *)
Definition quick_world (upgraded : bool) (answers : list answer) : world select_state unit Z :=
  set_w_server (set_options (OptArray [(str "idleTimeoutMs", 5); (str "pingIntervalMs", 3)])
      (w_server (live_world live_conn [])))
    (live_world (set_last_activity_usec 1 (set_upgraded upgraded live_conn)) answers).

Lemma quick_wf upgraded answers : conn_wf (at_handle 0 (quick_world upgraded answers)).
Proof.
  split; [constructor; [constructor|..]|by intros _ []]; cbn; try done; try lia. apply live_driver_wf.
Qed.

(** The peer takes nothing: the close frame stays in the queue, and the connection is
    closed in the next round. *)
Lemma expired_connection_closed_witness :
  let service := service_connection (fun z => z) 0 6000 in
  let w' := (service (quick_world true [AErr EAGAIN])).2 in
  pending (conn_of 0 w') = [0x88; 14; 3; 232] ++ str "idle timeout" /\ c_close_after_write (conn_of 0 w') = true /\
  closed (conn_of 0 (service w').2).
Proof.
  cbv zeta. split; [by vm_compute|]. split; [by vm_compute|].
  pose proof (expired_connection_closed (fun z => z) 0 6000 (quick_world true [AErr EAGAIN]) (quick_wf _ _)
    eq_refl ltac:(lia) ltac:(by vm_compute)) as H.
  destruct (service_connection _ 0 6000 (quick_world true [AErr EAGAIN])) as [r w']. apply H. lia.
Defined.

(** A PING after 3 ms of silence. *)
Lemma heartbeat_branches_witness :
  let w' := (websocket_server_process_heartbeat (fun z => z) 0 4000 (quick_world true [AOk 2 []])).2 in
  wire 4 (at_handle 0 w') = [0x89; 0] /\
  (pinged 4000 (at_handle 0 (quick_world true [AOk 2 []])) (at_handle 0 w') \/
   exists s, leaving WEBSOCKET_CLOSE_NORMAL (str "heartbeat failed") s (at_handle 0 w')).
Proof.
  cbv zeta. split; [by vm_compute|].
  pose proof (heartbeat_branches (fun z => z) 0 4000 (quick_world true [AOk 2 []]) (quick_wf _ _)) as H. cbv zeta in H.
  destruct (websocket_server_process_heartbeat _ 0 4000 _) as [ok w']. apply H.
  split_and!; try done; by vm_compute.
Defined.

(** An idle timeout of 2^61 + 1 milliseconds, after one millisecond of silence. *)
Lemma connection_expired_iff_witness :
  exists o, ServerOptions_construct None None None None (Some (2 ^ 61 + 1)) None None = Ok o /\
  websocket_server_connection_expired (fun z : Z => z) (OptObject o)
    (set_last_activity_usec 1 (set_upgraded true live_conn)) 1001 = true.
Proof.
  eexists. split; [reflexivity|].
  pose proof (connection_expired_iff (fun z : Z => z) None None None None (Some (2 ^ 61 + 1)) None None _
    (set_last_activity_usec 1 (set_upgraded true live_conn)) 1001
    ltac:(repeat (apply Forall_cons; split; [by vm_compute|]); by apply Forall_nil) eq_refl) as [_ H].
  destruct (H ltac:(by vm_compute)) as (usec & Hr & [k Hk] & _ & He).
  assert (Hus : usec = 1000) by (clear He; cbn in Hr, Hk; lia).
  subst usec. apply He; [lia|]. by vm_compute.
Defined.
