(* ===== verification/RejectionSpec.v ===== *)
(** * The response of a rejected handshake

    [WebSocket\HandshakeResponse]: what the constructor accepts, and that what it
    accepts is sent as one response. *)
From stdpp Require Import gmap.
From S2P Require Import Prelude Constants Http Kernel Connection World Runtime Server.
From Stdlib Require String.
Import (notations) String.

Definition status_line (status : Z) : bytes :=
  str "HTTP/1.1 " ++ decimal status ++ str " " ++ websocket_http_reason_phrase status.

(** The headers the server adds. *)
Definition default_headers (r : HandshakeResponse) : list (bytes * bytes) :=
  (if existsb (fun h => zend_equals_ci h.1 (str "Connection")) (hr_headers r) then []
   else [(str "Connection", str "close")]) ++
  (if existsb (fun h => zend_equals_ci h.1 (str "Content-Length")) (hr_headers r) then []
   else [(str "Content-Length", decimal (zlen (hr_body r)))]).

Definition header_line (h : bytes * bytes) : bytes := h.1 ++ str ": " ++ h.2.

(** A header the constructor accepts: a token, and a value on one line. *)
Definition header_accepted (h : bytes * bytes) : Prop :=
  websocket_http_validate_subprotocol_token h.1 = true /\ websocket_header_value_is_valid h.2 = true.

Lemma header_value_no_cr v : websocket_header_value_is_valid v = true -> no_cr v.
Proof.
  unfold websocket_header_value_is_valid. destruct (memchr CR v) eqn:E; [done|]. intros _.
  apply memchr_None in E. exact E.
Qed.

Lemma header_line_text h : header_accepted h -> text_line (header_line h).
Proof.
  intros [Hn Hv]. pose proof (validate_token_safe _ Hn) as [Hc _]. apply header_value_no_cr in Hv.
  assert (Hne : h.1 <> []) by (intros E; by rewrite E in Hn).
  unfold header_line. split; [|by destruct h.1]. apply Forall_app. split; [done|]. apply Forall_app. split; [|done].
  apply (bool_decide_unpack _). by vm_compute.
Qed.

Lemma decimal_no_cr n : no_cr (decimal n).
Proof.
  unfold decimal. generalize 20%nat as fuel. intros fuel. assert (H : forall acc, no_cr acc -> no_cr (decimal_loop fuel n acc)).
  { revert n. induction fuel as [|fuel IH]; intros n acc Ha; cbn [decimal_loop]; [done|].
    assert (no_cr ((48 + n mod 10) :: acc)).
    { apply Forall_cons. split; [|done]. pose proof (Z.mod_pos_bound n 10 ltac:(lia)). unfold CR. lia. }
    destruct (n <? 10); [done|]. by apply IH. }
  by apply H, Forall_nil.
Qed.

Lemma response_headers_accepted headers normalized l :
  Forall header_accepted normalized -> response_headers_loop headers normalized = Ok l -> Forall header_accepted l.
Proof.
  revert normalized. induction headers as [|[[name|] [value|]] headers IH]; intros normalized Hn; cbn [response_headers_loop];
    try done; [by intros [= <-]|..].
  - destruct (websocket_http_validate_subprotocol_token name) eqn:E1; cbn [negb]; [|done].
    destruct (websocket_header_value_is_valid value) eqn:E2; cbn [negb]; [|done].
    apply IH, Forall_app. split; [done|]. by apply Forall_singleton.
  - by destruct (negb _).
Qed.

(** The names "Connection" and "Content-Length" are two. *)
Lemma content_length_found l :
  existsb (fun h => negb (zend_equals_ci h.1 (str "Connection")) && zend_equals_ci h.1 (str "Content-Length")) l =
  existsb (fun h : bytes * bytes => zend_equals_ci h.1 (str "Content-Length")) l.
Proof.
  induction l as [|h l IH]; cbn [existsb]; [done|]. rewrite IH. f_equal.
  unfold zend_equals_ci. repeat case_bool_decide; try done. rewrite H in H0. by vm_compute in H0.
Qed.

Lemma response_bytes_lines r :
  handshake_response_bytes r = render_line (status_line (hr_status r)) ++
    concat (map render_line (map header_line (hr_headers r ++ default_headers r))) ++ crlf ++ hr_body r.
Proof.
  unfold handshake_response_bytes, default_headers, render_line, status_line. rewrite content_length_found.
  assert (E : concat (map (fun h => h.1 ++ str ": " ++ h.2 ++ crlf) (hr_headers r)) =
    concat (map (fun l => l ++ crlf) (map header_line (hr_headers r)))).
  { rewrite map_map. apply (f_equal (@concat Z)), map_ext. intros h. unfold header_line. by rewrite <- !app_assoc. }
  rewrite map_app, map_app, concat_app, E. rewrite <- !app_assoc. do 6 f_equal.
  destruct (existsb _ _), (existsb _ _); cbn [app map concat]; rewrite ?app_nil_r, <- ?app_assoc; reflexivity.
Qed.

(** C20. A rejection is one response.  What [HandshakeResponse] accepts is sent as its
    status line, its own headers in order, a Connection and a Content-Length header
    where it has none, a blank line and the body; and the first blank line of these
    bytes is that one: whatever names and values it was given, nothing in the headers
    ends the header block or starts a line of its own. *)
Theorem rejection_one_block status headers body r
    (Hr : HandshakeResponse_construct status headers body = Ok r) :
  let head := render_line (status_line (default 403 status)) ++
    concat (map render_line (map header_line (hr_headers r ++ default_headers r))) in
  handshake_response_bytes r = head ++ crlf ++ default [] body /\
  websocket_http_find_header_end (handshake_response_bytes r) = Some (zlen head - 2) /\
  Forall header_accepted (hr_headers r) /\
  100 <= default 403 status <= 599.
Proof.
  unfold HandshakeResponse_construct in Hr. cbv zeta in Hr. destruct (_ || _) eqn:Hs; [done|].
  destruct (response_headers_loop _ _) as [l|] eqn:El; [|done]. injection Hr as <-. intros head.
  pose proof (response_headers_accepted _ _ _ (Forall_nil_2 _) El) as Hl.
  assert (E : handshake_response_bytes (mk_HandshakeResponse (default 403 status) l (default [] body)) =
    head ++ crlf ++ default [] body) by (unfold head; rewrite response_bytes_lines; by rewrite <- app_assoc).
  split; [done|]. split; [|split; [done|lia]]. rewrite E. unfold websocket_http_find_header_end.
  assert (Ht : no_cr (status_line (default 403 status))).
  { unfold status_line. repeat (apply Forall_app; split); try apply decimal_no_cr;
      try (apply (bool_decide_unpack _); by vm_compute). unfold websocket_http_reason_phrase.
    repeat case_match; apply (bool_decide_unpack _); by vm_compute. }
  assert (Htext : Forall text_line (map header_line (l ++ default_headers (mk_HandshakeResponse (default 403 status) l (default [] body))))).
  { apply Forall_map, Forall_app. split; [by eapply Forall_impl; [exact Hl|apply header_line_text]|].
    unfold default_headers. apply Forall_app. split; (destruct (existsb _ _); [constructor|]; apply Forall_singleton).
    - split; [apply (bool_decide_unpack _); by vm_compute|done].
    - split; [|done]. apply Forall_app. split; [apply (bool_decide_unpack _); by vm_compute|].
      apply Forall_app. split; [apply (bool_decide_unpack _); by vm_compute|apply decimal_no_cr]. }
  assert (Hlen : 4 <= zlen (head ++ crlf ++ default [] body)).
  { unfold head, render_line, status_line. rewrite !zlen_app. change (zlen crlf) with 2. change (zlen (str "HTTP/1.1 ")) with 9. zlia. }
  apply Z.ltb_ge in Hlen as ->. unfold head. rewrite <- app_assoc, find_from_lines by done. f_equal. rewrite zlen_app. lia.
Qed.

(** A value that tries to end the header block is refused; without it, two headers
    are sent, and the length of the body. *)
Lemma rejection_one_block_witness :
  HandshakeResponse_construct (Some 401) (Some [(Some (str "X"), Some (str "a" ++ crlf ++ crlf))]) None = Err ResponseBadValue /\
  exists r, HandshakeResponse_construct (Some 401)
      (Some [(Some (str "WWW-Authenticate"), Some (str "Basic")); (Some (str "connection"), Some (str "close"))]) (Some (str "no")) = Ok r /\
    handshake_response_bytes r = str "HTTP/1.1 401 Unauthorized" ++ crlf ++ str "WWW-Authenticate: Basic" ++ crlf ++
      str "connection: close" ++ crlf ++ str "Content-Length: 2" ++ crlf ++ crlf ++ str "no" /\
    websocket_http_find_header_end (handshake_response_bytes r) = Some 88.
Proof.
  split; [by vm_compute|]. eexists. split; [by vm_compute|]. split; [by vm_compute|].
  match goal with |- context [handshake_response_bytes ?r] =>
    destruct (rejection_one_block (Some 401)
      (Some [(Some (str "WWW-Authenticate"), Some (str "Basic")); (Some (str "connection"), Some (str "close"))]) (Some (str "no")) r)
      as (_ & H & _); [by vm_compute|rewrite H; by vm_compute] end.
Defined.
