(* ===== verification/CodecTypes.v ===== *)
(** * The types of the codec's values

    What the PHP type declarations cannot say of the frames [Protocol::decode] and
    [Protocol::unpack] return, and of the strings [Protocol::pack] and
    [Protocol::encode] return. *)
From stdpp Require Import base.
From S2P Require Import Prelude Constants Words Utf8 Mask Protocol.

(** ** Well-typed values *)

(** A [Frame] decoded from a buffer of [n] bytes. *)
Record frame_typed (n : Z) (f : Frame) : Prop := {
  ft_opcode : frame_opcode f = websocket_protocol_message_type_opcode (frame_type f);
  ft_type : frame_type f <> Close;
  ft_flags : 0 <= frame_flags f < 64 /\ has_flag (frame_flags f) WEBSOCKET_FLAG_COMPRESS = false;
  ft_final : frame_final f = has_flag (frame_flags f) WEBSOCKET_FLAG_FIN;
  ft_payload : is_bytes (frame_payload f);
  ft_control : websocket_protocol_opcode_is_control (frame_opcode f) = true ->
    frame_final f = true /\ zlen (frame_payload f) <= 125;
  ft_text : frame_type f = Text -> frame_final f = true -> websocket_protocol_is_valid_utf8 (frame_payload f) = true;
  ft_consumed : 2 + zlen (frame_payload f) <= frame_bytesConsumed f <= n
}.

(** A [CloseFrame] decoded from a buffer of [n] bytes: its code has 16 bits, and is not
    always one the constructor would accept. *)
Record close_typed (n : Z) (f : CloseFrame) : Prop := {
  ct_code : 0 <= close_code f < 2 ^ 16;
  ct_flags : 0 <= close_flags f < 64 /\ has_flag (close_flags f) WEBSOCKET_FLAG_COMPRESS = false /\
    has_flag (close_flags f) WEBSOCKET_FLAG_FIN = true;
  ct_reason : is_bytes (close_reason f) /\ zlen (close_reason f) <= WEBSOCKET_CLOSE_REASON_MAX_LEN;
  ct_utf8 : websocket_protocol_is_valid_utf8 (close_reason f) = true;
  ct_consumed : 2 <= close_bytesConsumed f <= n
}.

Definition decoded_typed (n : Z) (r : result proto_error decoded) : Prop :=
  match r with
  | Ok DNull => True
  | Ok (DFrame f) => frame_typed n f
  | Ok (DCloseFrame f) => close_typed n f
  | Err (UnsupportedOpcode op) => 0 <= op < 16 /\ websocket_protocol_opcode_is_valid op = false
  | Err e => e = InvalidControlFrame \/ e = InvalidCloseFrame \/ e = CloseReasonUtf8 \/ e = TextFrameUtf8
  end.

(** ** The decoder *)

Lemma unpack_flags_typed b0 b1 :
  0 <= unpack_flags b0 b1 < 64 /\ has_flag (unpack_flags b0 b1) WEBSOCKET_FLAG_COMPRESS = false /\
  has_flag (unpack_flags b0 b1) WEBSOCKET_FLAG_FIN = has_flag b0 0x80.
Proof.
  unfold unpack_flags. destruct (has_flag b0 0x80), (has_flag b0 0x40), (has_flag b0 0x20), (has_flag b0 0x10), (has_flag b1 0x80);
    vm_compute; by split_and!.
Qed.

Lemma unpack_payload_typed n b0 b1 opcode payload consumed :
  is_bytes payload -> 0 <= opcode < 16 -> websocket_protocol_opcode_is_valid opcode = true ->
  (websocket_protocol_opcode_is_control opcode = true -> has_flag b0 0x80 = true /\ zlen payload <= 125) ->
  2 + zlen payload <= consumed <= n ->
  decoded_typed n (unpack_payload opcode (unpack_flags b0 b1) (has_flag b0 0x80) payload consumed).
Proof.
  intros Hb Hop Hv Hc Hn. destruct (unpack_flags_typed b0 b1) as (F1 & F2 & F3). pose proof (zlen_nonneg payload).
  unfold unpack_payload. destruct (Z.eqb_spec opcode WEBSOCKET_OPCODE_CLOSE) as [->|Hne].
  - destruct (Hc eq_refl) as [Hf Hl]. destruct (Z.leb_spec 2 (zlen payload)) as [H2|H2].
    + destruct (websocket_protocol_is_valid_utf8 (zdrop 2 payload)) eqn:Hu; cbn [negb decoded_typed]; [|tauto].
      constructor; cbn; try done; [|by rewrite F3|..].
      * pose proof (zget_byte payload 0 Hb). pose proof (zget_byte payload 1 Hb). unfold is_byte in *.
        rewrite lor_shiftl_add by lia. lia.
      * split; [by apply is_bytes_zdrop|]. rewrite zlen_zdrop. unfold WEBSOCKET_CLOSE_REASON_MAX_LEN. lia.
      * lia.
    + constructor; cbn; try done; [by rewrite F3| |lia]. split; [constructor|]. by vm_compute.
  - destruct (opcode_valid_type opcode Hv) as [type Et]. rewrite Et. pose proof (message_type_from_opcode_inv _ _ Et) as Eo.
    destruct (_ && _) eqn:Hu; cbn [decoded_typed]; [tauto|].
    constructor; cbn; try done; [by intros -> |].
    intros -> Hf. rewrite <- Eo, Hf in Hu. by apply negb_false_iff in Hu.
Qed.

Lemma unpack_typed big buf : is_bytes buf -> zlen buf < 2 ^ 63 -> decoded_typed (zlen buf) (websocket_protocol_unpack big buf).
Proof.
  intros Hb Hl. unfold websocket_protocol_unpack. destruct (Z.ltb_spec (zlen buf) 2); [done|].
  pose proof (zget_byte buf 0 Hb) as B0. pose proof (zget_byte buf 1 Hb) as B1. unfold is_byte in B0, B1.
  pose proof (land_byte_range (zget buf 1) 0x7f) as L7. pose proof (land_byte_range (zget buf 0) 0x0f) as L15.
  destruct (unpack_length buf _) as [[len pos]|] eqn:El; [|done].
  apply unpack_length_range in El as [Hpos Hlen]; [|done|lia].
  set (masked := has_flag (zget buf 1) 0x80). destruct (masked && _) eqn:Em; [done|].
  set (p := if masked then pos + 4 else pos). assert (Hp : pos <= p) by (subst p; destruct masked; lia).
  destruct (_ || _) eqn:Hbound; [done|]. rewrite !orb_false_iff in Hbound. destruct Hbound as [[_ _] Hfit].
  destruct (websocket_protocol_opcode_is_valid _) eqn:Hv; cbn [negb]; [|by split; [lia|]].
  destruct (websocket_protocol_opcode_is_control _ && _) eqn:Hc; [cbn; tauto|]. destruct (_ && (_ =? 1)); [cbn; tauto|].
  set (raw := ztake len (zdrop p buf)). assert (Hraw : is_bytes raw) by (unfold raw; auto with ws).
  assert (Hrl : zlen raw = len) by (unfold raw; rewrite zlen_ztake, zlen_zdrop; lia).
  assert (Hz : zend_long (p + len) = p + len) by (unfold zend_long; by replace (_ <? _) with true by lia).
  rewrite Hz.
  set (payload := if masked then _ else raw).
  assert (Hpay : is_bytes payload /\ zlen payload = len).
  { unfold payload. destruct masked eqn:Ek; [|done].
    assert (Hm : is_bytes (ztake 4 (zdrop pos buf)) /\ length (ztake 4 (zdrop pos buf)) = 4%nat).
    { split; [by auto with ws|]. apply Nat2Z.inj. change (Z.of_nat 4) with 4. fold (zlen (ztake 4 (zdrop pos buf))).
      rewrite zlen_ztake, zlen_zdrop. cbn [andb] in Em. lia. }
    destruct Hm. split; [by apply mask_copy_bytes|by rewrite zlen_mask_copy]. }
  destruct Hpay as [Hpb Hpl]. apply unpack_payload_typed; try done; [lia| |lia].
  intros Hctl. rewrite Hctl in Hc. cbn [andb] in Hc. rewrite Hpl. destruct (has_flag (zget buf 0) 0x80); [|done]. cbn in Hc. split; [done|lia].
Qed.

(** ** The encoder *)

Lemma pack_source_len data opcode flags payload op fl : zlen (data_bytes data) < 2 ^ 63 ->
  pack_source data opcode flags = Ok (payload, op, fl) -> zlen payload < 2 ^ 64.
Proof.
  intros Hl. destruct data as [s|f|f|]; cbn in *; intros; simplify_eq; try lia.
  destruct (websocket_protocol_close_payload _ _) as [p|] eqn:E; simplify_eq.
  apply close_payload_Ok in E as (_ & Hr & _ & ->). rewrite !zlen_cons. lia.
Qed.

Lemma encode_wire big key payload type masked bs : Protocol_encode big (Some key) payload type masked = Ok bs ->
  exists op fl, 0 <= op < 16 /\ 0 <= fl < 64 /\ bs = frame_wire big op fl (frame_mask fl key) payload.
Proof.
  unfold Protocol_encode, websocket_protocol_pack_payload. destruct (_ && _); [done|].
  set (op := match type with Some _ => _ | None => _ end). set (fl := if masked then _ else _).
  intros E. exists op, fl. split; [by subst op; destruct type as [[]|]|]. split; [by subst fl; destruct masked|].
  unfold frame_wire, frame_mask. by destruct (has_flag fl WEBSOCKET_FLAG_MASK); injection E as <-.
Qed.

(** C21. The types of the codec.  Whatever bytes it is given, [Protocol::decode]
    (and [unpack], which is the same) returns null, a frame whose opcode is its
    type's, never a Close, with flags of the six known bits, FIN among them exactly
    when it is final, control frames whole and short, whole text valid UTF-8, or a
    close frame with a 16-bit code and a valid UTF-8 reason of at most 123 bytes; it
    consumes no more than it was given, and throws only the errors of a decoder.
    What [pack] and [encode] return for byte strings are byte strings. *)
Theorem codec_typed big key (Hkey : is_bytes key) (Hkey4 : length key = 4%nat) :
  (forall buf, is_bytes buf -> zlen buf < 2 ^ 63 ->
     decoded_typed (zlen buf) (Protocol_decode big buf) /\ decoded_typed (zlen buf) (Protocol_unpack big buf)) /\
  (forall data opcode flags bs, is_bytes (data_bytes data) -> zlen (data_bytes data) < 2 ^ 63 ->
     Protocol_pack big (Some key) data opcode flags = Ok bs -> is_bytes bs) /\
  (forall payload type masked bs, is_bytes payload -> zlen payload < 2 ^ 63 ->
     Protocol_encode big (Some key) payload type masked = Ok bs -> is_bytes bs).
Proof.
  split; [|split].
  - intros buf Hb Hl. by split; apply unpack_typed.
  - intros data opcode flags bs Hb Hl E. apply Protocol_pack_Ok in E as (payload & op & fl & Es & Hv & _ & _ & ->).
    apply wire_bytes; [by apply opcode_valid_range|apply flags_all_range|by apply frame_mask_ok|..].
    + by eapply pack_source_bytes.
    + by eapply pack_source_len.
  - intros payload type masked bs Hb Hl E. apply encode_wire in E as (op & fl & Hop & Hfl & ->).
    apply wire_bytes; [done|done|by apply frame_mask_ok|done|lia].
Qed.

(** A masked close frame with a code no constructor accepts, and one byte after it. *)
Lemma codec_typed_witness :
  Protocol_decode false [0x88; 0x82; 1; 2; 3; 4; 2; 239; 7] = Ok (DCloseFrame (mk_CloseFrame 1005 [] 33 8)) /\
  close_typed 9 (mk_CloseFrame 1005 [] 33 8) /\ websocket_protocol_close_code_is_valid 1005 = false.
Proof.
  assert (E : Protocol_decode false [0x88; 0x82; 1; 2; 3; 4; 2; 239; 7] = Ok (DCloseFrame (mk_CloseFrame 1005 [] 33 8)))
    by (by vm_compute).
  split; [exact E|]. split; [|done].
  destruct (codec_typed false [1; 2; 3; 4] ltac:(apply (bool_decide_unpack _); by vm_compute) eq_refl) as (H & _ & _).
  destruct (H [0x88; 0x82; 1; 2; 3; 4; 2; 239; 7]) as [H1 _];
    [apply (bool_decide_unpack _); by vm_compute|by vm_compute|]. rewrite E in H1. exact H1.
Defined.
