(* ===== verification/AcceptSpec.v ===== *)
(** * Accepting a connection

    [websocket_server_accept_connection] on every branch. *)
From stdpp Require Import gmap.
From S2P Require Import Prelude Constants Http Kernel Driver FdTable SelectDriver ConnState Connection ConnectionFacts.
From S2P Require Import Options World Runtime RuntimeFacts WorldFacts Server Scenario Termination ServerInvariant Ownership.

(** ** The response to one connection too many *)

(** The events are sends on [fd] of the bytes [x] in order. *)
Definition sends_of (fd : Z) (x : bytes) (t : list event) : Prop :=
  Forall (fun e => exists d, e = EvSend fd d) t /\ sent_rev fd t = x.

Lemma send_bytes_prefix fuel fd buffer o k : 0 <= o <= zlen buffer ->
  exists x y t, zdrop o buffer = x ++ y /\ sends_of fd x t /\
    k_trace (send_bytes_loop fuel fd buffer o k).2 = t ++ k_trace k.
Proof.
  revert o k. induction fuel as [|fuel IH]; intros o k Ho; cbn [send_bytes_loop].
  { exists [], (zdrop o buffer), []. by split_and!. }
  assert (Hnone : forall k' : kernel, k_trace k' = k_trace k -> exists x y t, zdrop o buffer = x ++ y /\ sends_of fd x t /\
    k_trace k' = t ++ k_trace k) by (intros k' E; exists [], (zdrop o buffer), []; by split_and!).
  destruct (negb _); [by apply Hnone|]. unfold sys_send. pose proof (syscall_trace k) as E.
  destruct (syscall k) as [[n d|e] k1]; cbn [snd] in E.
  - set (n' := Z.min (Z.max 0 n) (zlen (zdrop o buffer))). pose proof (zlen_zdrop o buffer) as El.
    destruct (Z.ltb_spec 0 n') as [Hn|Hn].
    + destruct (IH (o + n') (emit (EvSend fd (ztake n' (zdrop o buffer))) k1)) as (x & y & t & Ex & [Hs Hx] & ->); [lia|].
      exists (ztake n' (zdrop o buffer) ++ x), y, (t ++ [EvSend fd (ztake n' (zdrop o buffer))]). split_and!.
      * rewrite <- app_assoc, <- Ex, <- zdrop_zdrop by lia. symmetry. apply ztake_zdrop.
      * split; [apply Forall_app; split; [done|]; apply Forall_singleton; by eexists|]. rewrite <- Hx. clear -Hs. induction Hs as [|e t [d ->] _ IH]; cbn [app sent_rev].
        -- rewrite Z.eqb_refl, app_nil_r. done.
        -- rewrite Z.eqb_refl, IH. by rewrite app_assoc.
      * rewrite <- app_assoc. cbn. by rewrite E.
    + destruct ((n' <? 0) && _); [|by apply Hnone]. destruct (IH o k1 Ho) as (x & y & t & Ex & Hx & ->).
      exists x, y, t. by rewrite E.
  - change (0 <? -1) with false. cbv iota. destruct ((-1 <? 0) && _); [|by apply Hnone]. destruct (IH o k1 Ho) as (x & y & t & Ex & Hx & ->).
    exists x, y, t. by rewrite E.
Qed.

Section AcceptSpec.
Context {D U V : Type} `{HD : Driver D} `{!DriverLaws D}.
Context (zval_get_long : V -> Z).
Local Abbreviation W A := (ST (world D U V) A).
Implicit Types (w : world D U V).
Local Abbreviation accept := (websocket_server_accept_connection zval_get_long : W bool).

(** ** A new connection *)

(** What [websocket_connection_open] makes of a new object. *)
Definition opened (id : Z) (addr : bytes) (fd : Z) : websocket_connection_object :=
  let c := set_open true (set_fd fd (set_numeric_id id websocket_connection_create_object)) in
  if zlen addr <=? 128 then set_has_remote_addr true (set_remote_addr addr c) else c.

Lemma open_new id addr fd (d : option D) k :
  websocket_connection_open id (Some addr) fd (mk_cs websocket_connection_create_object d k) = ((), mk_cs (opened id addr fd) d k).
Proof. unfold websocket_connection_open, websocket_connection_clear_write_queue, opened. run. by destruct (zlen addr <=? 128). Qed.

(** A connection as [accept] leaves it in the array. *)
Definition accepted (id : Z) (addr : bytes) (fd now limit : Z) : websocket_connection_object :=
  set_max_queued_bytes limit (set_last_activity_usec now (set_accepted_at_usec now (opened id addr fd))).

(** The objects there were are as they were. *)
Definition old_kept w w' : Prop := forall h, 0 <= h < w_objects w -> conn_of h w' = conn_of h w.

(** Not accepted: the descriptor is closed, and the exception [why] is thrown. *)
Record refused (fd : Z) (why : server_error) w w' : Prop := {
  rf_exception : w_exception w' = Some (ExServer why);
  rf_trace : k_trace (w_kernel w') = EvClose fd :: EvOpen fd :: k_trace (w_kernel w);
  rf_array : s_connections (w_server w') = s_connections (w_server w);
  rf_old : old_kept w w'
}.

(** Accepted: a new open connection at the end of the array, watched for reading. *)
Record taken (fd : Z) (addr : bytes) w w' : Prop := {
  tk_array : s_connections (w_server w') = s_connections (w_server w) ++ [w_objects w];
  tk_capacity : zlen (s_connections (w_server w')) <= s_connection_capacity (w_server w');
  tk_conn : exists now, conn_of (w_objects w) w' = accepted (w_next_connection_id w) addr fd now
    (websocket_server_max_queued_bytes zval_get_long (s_options (w_server w)));
  tk_next : w_objects w' = w_objects w + 1 /\ w_next_connection_id w' = u64 (w_next_connection_id w + 1);
  tk_trace : k_trace (w_kernel w') = EvOpen fd :: k_trace (w_kernel w);
  tk_exception : w_exception w' = w_exception w;
  tk_watched : exists d, w_driver w' = Some d /\ reads d fd = true;
  tk_old : old_kept w w'
}.

(** [fcntl(F_GETFL)] and [fcntl(F_SETFL)] both succeed. *)
Definition nonblocking (answers : list answer) : bool :=
  match answers with AOk _ _ :: AOk _ _ :: _ => true | _ => false end.

Lemma set_nonblocking_run k :
  let '(ok, k') := websocket_server_set_nonblocking k in
  ok = nonblocking (k_answers k) /\ k_trace k' = k_trace k /\ (ok = true -> k' = set_answers (drop 2 (k_answers k)) k).
Proof.
  unfold websocket_server_set_nonblocking, syscall, nonblocking.
  destruct (k_answers k) as [|[n d|e] [|[n2 d2|e2] a]]; by cbn.
Qed.

Lemma now_trace k : k_trace (websocket_server_now_usec k).2 = k_trace k.
Proof. unfold websocket_server_now_usec. by destruct (k_clock k). Qed.

(** The new object, opened and given its times and its limit. *)
Definition new_connection (fd : Z) (addr : bytes) (limit : Z) : W Z :=
  connection ← websocket_server_create_connection_zval;
  id ← next_connection_id;
  on_conn connection (websocket_connection_open id (Some addr) fd);;
  now ← now_usec;
  mod_connection connection (fun c =>
    set_max_queued_bytes limit (set_last_activity_usec now (set_accepted_at_usec now c)));;
  mret connection.

Lemma new_connection_run fd addr limit w : s_reusable_connection (w_server w) = None ->
  let '(h, w') := new_connection fd addr limit w in
  h = w_objects w /\ w_server w' = w_server w /\ w_driver w' = w_driver w /\ w_exception w' = w_exception w /\
  k_trace (w_kernel w') = k_trace (w_kernel w) /\ w_objects w' = w_objects w + 1 /\
  w_next_connection_id w' = u64 (w_next_connection_id w + 1) /\ old_kept w w' /\
  w_kernel w' = (websocket_server_now_usec (w_kernel w)).2 /\
  w_heap w' = <[h := conn_of h w']> (w_heap w) /\
  exists now, conn_of h w' = accepted (w_next_connection_id w) addr fd now limit.
Proof.
  intros Hr. unfold new_connection, websocket_server_create_connection_zval, next_connection_id.
  rewrite (st_bind_run (_ ≫= _)), (st_bind_run get_server). cbn [fst snd get_server st_gets]. rewrite Hr, !st_bind_run.
  cbn [fst snd st_gets st_modify mret ST_ret]. set (h := w_objects w).
  rewrite ?st_bind_run. cbn [fst snd st_gets st_modify mret ST_ret].
  match goal with |- context [on_conn _ _ ?w0] => set (w2 := w0) end.
  assert (C2 : forall h', conn_of h' w2 = if decide (h' = h) then websocket_connection_create_object else conn_of h' w)
    by (intros h'; apply (conn_of_insert h h')).
  assert (E3 : exists w3, on_conn h (websocket_connection_open (w_next_connection_id w) (Some addr) fd) w2 = ((), w3) /\
    w3 = set_w_heap (<[h := opened (w_next_connection_id w) addr fd]> (w_heap w2)) w2).
  { unfold on_conn. rewrite C2, decide_True, open_new by done. by eexists. }
  change (w_next_connection_id (set_w_objects _ _)) with (w_next_connection_id w).
  destruct E3 as (w3 & -> & ->). cbn [fst snd]. set (w3 := set_w_heap _ w2). unfold now_usec, world_kernel.
  pose proof (now_trace (w_kernel w3)) as Et. destruct (websocket_server_now_usec (w_kernel w3)) as [now k] eqn:Enow. cbn [fst snd] in *.
  set (w4 := set_w_kernel k w3). set (w5 := (mod_connection h _ w4).2).
  assert (C5 : forall h', conn_of h' w5 = if decide (h' = h) then accepted (w_next_connection_id w) addr fd now limit else conn_of h' w).
  { intros h'. unfold w5, mod_connection, st_modify. cbn [snd]. rewrite conn_of_insert.
    assert (C4 : forall h', conn_of h' w4 = if decide (h' = h) then opened (w_next_connection_id w) addr fd else conn_of h' w2).
    { intros h2. apply (conn_of_insert h h2). }
    destruct (decide (h' = h)) as [_|Hne]; [by rewrite C4, decide_True|]. by rewrite C4, decide_False, C2, decide_False. }
  split_and!; try done.
  - intros h' Hh. rewrite C5, decide_False; [done|]. unfold h. lia.
  - change (k = (websocket_server_now_usec (w_kernel w3)).2). by rewrite Enow.
  - rewrite C5, decide_True by done. unfold w5, mod_connection, st_modify. cbn [snd w_heap set_w_heap].
    assert (C4 : conn_of h w4 = opened (w_next_connection_id w) addr fd)
      by (change (conn_of h w3 = opened (w_next_connection_id w) addr fd); unfold w3; by rewrite conn_of_insert, decide_True).
    rewrite C4. unfold w4, w3. cbn [w_heap set_w_heap set_w_kernel].
    rewrite insert_insert_eq. unfold w2. cbn [w_heap set_w_heap set_w_objects set_w_next_connection_id].
    by rewrite insert_insert_eq.
  - exists now. by rewrite C5, decide_True.
Qed.

Lemma capacity_run w : zlen (s_connections (w_server w)) <= s_connection_capacity (w_server w) ->
  exists n, (websocket_server_ensure_connection_capacity : W bool) w =
    (true, set_w_server (set_connection_capacity n (w_server w)) w) /\ zlen (s_connections (w_server w)) < n.
Proof.
  intros Hc. unfold websocket_server_ensure_connection_capacity. rewrite (st_bind_run get_server). cbn [fst snd get_server st_gets].
  pose proof (zlen_nonneg (s_connections (w_server w))).
  destruct (Z.ltb_spec (zlen (s_connections (w_server w))) (s_connection_capacity (w_server w))).
  - exists (s_connection_capacity (w_server w)). split; [|done]. by destruct w as [[]].
  - rewrite st_bind_run. eexists. split; [reflexivity|]. destruct (Z.eqb_spec (s_connection_capacity (w_server w)) 0); lia.
Qed.

(** An object without a socket is freed without a system call. *)
Lemma release_silent h w : driver_ok (w_driver w) -> c_fd (conn_of h w) < 0 ->
  k_trace (w_kernel ((release_connection h : W ()) w).2) = k_trace (w_kernel w).
Proof.
  intros Hd Hfd. unfold release_connection. rewrite (st_bind_run (mod_connection h _)), (st_bind_run (get_connection h)).
  cbn [fst snd get_connection st_gets]. set (w1 := (mod_connection h _ w).2).
  assert (E1 : conn_of h w1 = set_refcount (c_refcount (conn_of h w) - 1) (conn_of h w)) by (unfold w1; by rewrite conn_of_mod).
  destruct (_ <=? _); [|done]. rewrite st_bind_run.
  destruct (on_conn_run h websocket_connection_free_object w1) as (_ & _ & _ & _ & E & _).
  change (k_trace (w_kernel (on_conn h websocket_connection_free_object w1).2) = k_trace (w_kernel w)). rewrite E.
  destruct (close_socket_spec (mk_cs (conn_of h w1) (w_driver w1) (w_kernel w1)) Hd) as (_ & _ & _ & _ & _ & _ & Ht).
  cbn [cs_conn cs_kernel] in Ht. rewrite E1 in Ht. cbn [c_fd set_refcount] in Ht.
  replace (0 <=? c_fd (conn_of h w)) with false in Ht by lia. destruct Ht as [Ht _].
  unfold websocket_connection_free_object. rewrite st_bind_run, E1. exact Ht.
Qed.

(** Giving the new object up: its descriptor is closed. *)
Lemma give_up_run h fd w : driver_ok (w_driver w) -> c_fd (conn_of h w) = fd -> 0 <= fd ->
  let w' := ((on_conn h websocket_connection_close_socket;; release_connection h : W ()) w).2 in
  k_trace (w_kernel w') = EvClose fd :: k_trace (w_kernel w) /\
  s_connections (w_server w') = s_connections (w_server w) /\
  forall h', h' <> h -> conn_of h' w' = conn_of h' w.
Proof.
  intros Hd Hfd Hpos. cbv zeta. rewrite st_bind_run.
  destruct (on_conn_run h websocket_connection_close_socket w) as (_ & S1 & _ & D1 & K1 & _ & C1).
  destruct (close_socket_spec (mk_cs (conn_of h w) (w_driver w) (w_kernel w)) Hd) as (Hcl & Hd1 & Hk & _ & _ & _ & Ht).
  cbn [cs_conn cs_kernel] in *. rewrite Hfd in Ht. replace (0 <=? fd) with true in Ht by lia. destruct Ht as [Ht _].
  destruct (on_conn h _ w) as [[] w1]. cbn [fst snd] in *. rewrite <- K1 in Ht. rewrite <- D1 in Hd1.
  assert (Hc1 : conn_of h w1 = cs_conn (websocket_connection_close_socket (mk_cs (conn_of h w) (w_driver w) (w_kernel w))).2)
    by (by rewrite C1, decide_True). rewrite <- Hc1 in *.
  pose proof (release_silent h w1 Hd1 (cl_fd _ Hcl)) as Er.
  destruct (release_frame h w1 Hd1) as ([Es _ _ _ _ _ _] & _ & _ & _ & Ho & _).
  split_and!; [congruence|by destruct Es as [-> | ->]; cbn; rewrite S1|].
  intros h' Hne. by rewrite Ho, C1, decide_False.
Qed.


Lemma new_connection_then {A} fd addr limit (m : Z -> W A) w :
  (connection ← websocket_server_create_connection_zval;
   id ← next_connection_id;
   on_conn connection (websocket_connection_open id (Some addr) fd);;
   now ← now_usec;
   mod_connection connection (fun c => set_max_queued_bytes limit (set_last_activity_usec now (set_accepted_at_usec now c)));;
   m connection) w = (h ← new_connection fd addr limit; m h) w.
Proof. unfold new_connection. by rewrite !st_bind_run. Qed.

(** Joining the array, or being given up. *)
Definition join (fd connection : Z) : W bool :=
  ok ← websocket_server_ensure_connection_capacity;
  if negb ok then
    on_conn connection websocket_connection_close_socket;;
    release_connection connection;; mret false
  else
  ok ← world_watch_read fd;
  if negb ok then
    on_conn connection websocket_connection_close_socket;;
    release_connection connection;;
    throw (ExServer CannotWatchConnection);; mret false
  else
  mod_server (fun s => set_connections (s_connections s ++ [connection]) s);;
  mret true.

(** What the selected driver answers to watching [fd] for reading. *)
Definition can_watch (fd : Z) (d : option D) (k : kernel) : bool :=
  match d with Some d => (watch_read fd (d, k)).1 | None => false end.

Lemma world_watch_read_run fd w : driver_ok (w_driver w) -> exists d k,
  world_watch_read fd w = (can_watch fd (w_driver w) (w_kernel w), set_w_kernel k (set_w_driver d w)) /\
  k_trace k = k_trace (w_kernel w) /\ driver_ok d /\
  (can_watch fd (w_driver w) (w_kernel w) = true -> exists dr, d = Some dr /\ reads dr fd = true).
Proof.
  intros Hd. unfold world_watch_read, can_watch. destruct (w_driver w) as [dr|] eqn:Ed.
  - pose proof (watch_read_law fd dr (w_kernel w) Hd) as L. destruct (watch_read fd _) as [ok [d' k']].
    destruct L as (Hwf & (Ht & _) & Hr & _). exists (Some d'), k'. split_and!; try done. cbn [fst]. intros ->. by exists d'.
  - exists None, (w_kernel w). split_and!; try done. rewrite <- Ed. by destruct w.
Qed.

Lemma join_run fd h w : driver_ok (w_driver w) -> c_fd (conn_of h w) = fd -> 0 <= fd ->
  zlen (s_connections (w_server w)) <= s_connection_capacity (w_server w) ->
  let '(ok, w') := join fd h w in
  ok = can_watch fd (w_driver w) (w_kernel w) /\
  k_trace (w_kernel w') = (if ok then [] else [EvClose fd]) ++ k_trace (w_kernel w) /\
  s_connections (w_server w') = s_connections (w_server w) ++ (if ok then [h] else []) /\
  (forall h', h' <> h \/ ok = true -> conn_of h' w' = conn_of h' w) /\
  if ok then
    zlen (s_connections (w_server w')) <= s_connection_capacity (w_server w') /\ w_exception w' = w_exception w /\
    w_objects w' = w_objects w /\ w_next_connection_id w' = w_next_connection_id w /\
    exists d, w_driver w' = Some d /\ reads d fd = true
  else w_exception w' = Some (ExServer CannotWatchConnection).
Proof.
  intros Hd Hfd Hpos Hc. unfold join. rewrite (st_bind_run websocket_server_ensure_connection_capacity).
  destruct (capacity_run w Hc) as (n & -> & Hn). cbn [fst snd negb]. set (w1 := set_w_server _ w).
  rewrite (st_bind_run (world_watch_read fd)).
  destruct (world_watch_read_run fd w1 Hd) as (d & k & -> & Ht & Hd1 & Hr).
  change (w_driver w1) with (w_driver w) in *. change (w_kernel w1) with (w_kernel w) in *.
  destruct (can_watch fd (w_driver w) (w_kernel w)); cbn [fst snd negb]; set (w2 := set_w_kernel _ _).
  - rewrite st_bind_run. cbn [fst snd mret ST_ret]. split_and!; try done; [|by apply Hr].
    cbn. rewrite zlen_app. change (zlen [h]) with 1. lia.
  - rewrite <- (st_bind_assoc (on_conn h _)), st_bind_run. destruct (give_up_run h fd w2 Hd1 Hfd Hpos) as (G1 & G2 & G3).
    rewrite st_bind_run. cbn [fst snd throw st_modify mret ST_ret]. unfold throw. cbn [fst snd st_modify].
    split_and!; [done|by rewrite <- Ht|by rewrite app_nil_r|intros h' [?|?]; [by apply G3|done]|done].
Qed.

(** The kernel when [fcntl] has been called on the new descriptor and the clock read. *)
Definition watch_kernel (fd : Z) (rest : list answer) (k : kernel) : kernel :=
  (websocket_server_now_usec (mk_kernel (drop 2 rest) (k_clock k) 0 (EvOpen fd :: k_trace k))).2.

(** One connection too many. *)
Lemma send_503 fd (k : kernel) : 0 <= fd -> exists x y t,
  websocket_service_unavailable_response = x ++ y /\ sends_of fd x t /\
  k_trace (websocket_server_close_fd fd (websocket_server_send_bytes fd websocket_service_unavailable_response k).2)
    = EvClose fd :: t ++ k_trace k.
Proof.
  intros Hfd. destruct (send_bytes_prefix (S (length (k_answers k))) fd websocket_service_unavailable_response 0 k)
    as (x & y & t & Ex & Hs & Et); [split; [lia|apply zlen_nonneg]|].
  exists x, y, t. rewrite zdrop_0 in Ex. split_and!; try done. unfold websocket_server_close_fd.
  replace (0 <=? fd) with true by lia. destruct (close_retry_facts fd (websocket_server_send_bytes fd
    websocket_service_unavailable_response k).2) as (-> & _). unfold websocket_server_send_bytes. by rewrite Et.
Qed.

(** A descriptor that is non-blocking: it joins, or it is given up. *)
Lemma accept_new fd addr rest w w1 : 0 <= fd -> driver_ok (w_driver w) ->
  s_reusable_connection (w_server w) = None ->
  zlen (s_connections (w_server w)) <= s_connection_capacity (w_server w) ->
  w1 = set_w_kernel (mk_kernel (drop 2 rest) (k_clock (w_kernel w)) 0 (EvOpen fd :: k_trace (w_kernel w))) w ->
  let '(ok, w') := (h ← new_connection fd addr (websocket_server_max_queued_bytes zval_get_long (s_options (w_server w)));
                    join fd h) w1 in
  ok = can_watch fd (w_driver w) (watch_kernel fd rest (w_kernel w)) /\
  if ok then taken fd addr w w' else refused fd CannotWatchConnection w w'.
Proof.
  intros Hfd Hd Hr Hc ->. set (w1 := set_w_kernel _ w). rewrite (st_bind_run (new_connection _ _ _)).
  set (limit := websocket_server_max_queued_bytes _ _). pose proof (new_connection_run fd addr limit w1 Hr) as N.
  destruct (new_connection _ _ _ w1) as [h w3]. destruct N as (-> & N1 & N2 & N3 & N4 & N5 & N6 & N7 & NK & _ & now & N8).
  change (w_objects w1) with (w_objects w) in *. cbn [fst snd].
  pose proof (join_run fd (w_objects w) w3) as J. rewrite N1, N2, N8, NK in J.
  specialize (J Hd ltac:(unfold accepted, opened; by destruct (_ <=? _)) Hfd Hc).
  destruct (join fd (w_objects w) w3) as [ok w']. destruct J as (J0 & J1 & J2 & J3 & J4). split; [exact J0|].
  assert (Hold : old_kept w w').
  { intros h' Hh. rewrite J3 by (left; lia). by apply N7. }
  assert (Ht : k_trace (watch_kernel fd rest (w_kernel w)) = EvOpen fd :: k_trace (w_kernel w)) by apply now_trace.
  change (k_trace (w_kernel w') = (if ok then [] else [EvClose fd]) ++ k_trace (watch_kernel fd rest (w_kernel w))) in J1.
  rewrite Ht in J1. clear J0. destruct ok; [|rewrite app_nil_r in J2; by constructor].
  destruct J4 as (J4 & J5 & J6 & J7 & J8). constructor; try done.
  - exists now. rewrite J3 by (by right). exact N8.
  - rewrite J6, J7. by split.
  - by rewrite J5, N3.
Qed.

Lemma world_kernel_run {A} (f : kernel -> A * kernel) w :
  world_kernel f w = ((f (w_kernel w)).1, set_w_kernel (f (w_kernel w)).2 w).
Proof. unfold world_kernel. by destruct (f (w_kernel w)). Qed.

End AcceptSpec.

