(* ===== verification/Descriptors.v ===== *)
(** * The descriptors a run opens and closes

    A ledger of file descriptors.  The trace records each descriptor the kernel hands
    over ([EvOpen]: the listening socket and the accepted ones) and each [close].  The
    difference of the two is what the server holds: the sockets of its connection
    objects and the listener.  Every step keeps the books balanced, so a run that ends
    with nothing held has closed what it opened. *)
From stdpp Require Import gmap.
From S2P Require Import Prelude Constants Words Utf8 Mask Protocol Http Kernel Driver SelectDriver ConnState Connection.
From S2P Require Import ConnectionFacts Options Frames World Runtime RuntimeFacts WorldFacts Server Scenario Termination.
From S2P Require Import ServerInvariant Ownership AcceptSpec.
From Stdlib Require String.
Import (notations) String.

(** ** What is open according to the trace *)

Definition tick (fd fd' : Z) : Z := if fd' =? fd then 1 else 0.

(** How often [fd] was opened, less how often it was closed. *)
Fixpoint balance (fd : Z) (t : list event) : Z :=
  match t with
  | [] => 0
  | EvOpen fd' :: t => balance fd t + tick fd fd'
  | EvClose fd' :: t => balance fd t - tick fd fd'
  | _ :: t => balance fd t
  end.

(** Steps of the kernel that neither open nor close. *)
Definition no_books (k k' : kernel) : Prop := forall fd, balance fd (k_trace k') = balance fd (k_trace k).

#[export] Instance no_books_preorder : PreOrder no_books.
Proof. split; [by intros k|]. intros k1 k2 k3 A B fd. by rewrite B. Qed.

Lemma same_trace_books k k' : k_trace k' = k_trace k -> no_books k k'.
Proof. intros E fd. by rewrite E. Qed.

Lemma driver_step_books k k' : driver_step k k' -> no_books k k'.
Proof. intros [E _]. by apply same_trace_books. Qed.

Lemma syscall_books k : no_books k (syscall k).2.
Proof. apply same_trace_books, syscall_trace. Qed.

Lemma sys_send_books fd data k : no_books k (sys_send fd data k).2.
Proof.
  unfold sys_send. pose proof (syscall_books k) as Q. destruct (syscall k) as [[n d|e] k1]; [|done].
  cbn [snd] in *. destruct (0 <? _); exact Q.
Qed.

Lemma write_some_books fuel fd frame o n k : no_books k (write_some_loop fuel fd frame o n k).2.
Proof.
  revert o n k. induction fuel as [|fuel IH]; intros o n k; cbn [write_some_loop]; [done|].
  destruct (negb _); [done|]. pose proof (sys_send_books fd (zdrop o frame) k) as Q.
  destruct (sys_send _ _ _) as [m k1]. cbn [snd] in Q.
  repeat case_match; cbn [snd]; try done; etransitivity; try exact Q; apply IH.
Qed.

Lemma send_bytes_books fd buffer k : no_books k (websocket_server_send_bytes fd buffer k).2.
Proof.
  unfold websocket_server_send_bytes. generalize (S (length (k_answers k))) as fuel, 0 as o. intros fuel o.
  revert o k. induction fuel as [|fuel IH]; intros o k; cbn [send_bytes_loop]; [done|].
  destruct (negb _); [done|]. pose proof (sys_send_books fd (zdrop o buffer) k) as Q.
  destruct (sys_send _ _ _) as [m k1]. cbn [snd] in Q.
  repeat case_match; cbn [snd]; try done; etransitivity; try exact Q; apply IH.
Qed.

Lemma now_books k : no_books k (websocket_server_now_usec k).2.
Proof. apply same_trace_books, now_trace. Qed.

Lemma recv_books n k : no_books k (sys_recv n k).2.
Proof. unfold sys_recv. pose proof (syscall_books k) as Q. by destruct (syscall k) as [[]]. Qed.

Lemma set_errno_books e k : no_books k (set_errno e k).
Proof. by intros fd. Qed.

Lemma nonblocking_books k : no_books k (websocket_server_set_nonblocking k).2.
Proof.
  pose proof (set_nonblocking_run k) as R. destruct (websocket_server_set_nonblocking k) as [ok k'].
  destruct R as (_ & E & _). by apply same_trace_books.
Qed.

Lemma emit_call_books a c p t k : no_books k (emit (EvCall a c p t) k).
Proof. by intros fd. Qed.

Lemma close_fd_balance fd fd' k : 0 <= fd' ->
  balance fd (k_trace (websocket_server_close_fd fd' k)) = balance fd (k_trace k) - tick fd fd'.
Proof.
  intros Hp. unfold websocket_server_close_fd. replace (0 <=? fd') with true by lia.
  by destruct (close_retry_facts fd' k) as (-> & _).
Qed.

(** The kernel hands over a descriptor. *)
Lemma sys_open_balance fd k :
  balance fd (k_trace (sys_open k).2) = balance fd (k_trace k) +
    match (sys_open k).1 with AOk fd' _ => if 0 <=? fd' then tick fd fd' else 0 | AErr _ => 0 end.
Proof.
  unfold sys_open. pose proof (syscall_trace k) as E. destruct (syscall k) as [[fd' d|e] k1]; cbn [fst snd] in *.
  - destruct (0 <=? fd'); cbn [k_trace emit balance]; rewrite E; lia.
  - rewrite E. lia.
Qed.

(** One address: the listening socket is open, or whatever was opened is closed. *)
Lemma listen_on_balance fd k : 0 <= fd ->
  balance fd (k_trace (listen_on k).2) = balance fd (k_trace k) + tick fd (listen_on k).1.
Proof.
  intros Hfd. unfold listen_on. pose proof (sys_open_balance fd k) as B.
  assert (Hno : tick fd (-1) = 0) by (unfold tick; by replace (-1 =? fd) with false by lia).
  destruct (sys_open k) as [[lfd d|e] k1]; cbn [fst snd] in *; [|lia].
  destruct (Z.ltb_spec lfd 0) as [|Hp]; cbn [fst snd]; [replace (0 <=? lfd) with false in B by lia; lia|].
  replace (0 <=? lfd) with true in B by lia. cbv zeta. pose proof (syscall_books k1 fd) as B1.
  pose proof (nonblocking_books (syscall k1).2 fd) as B2. destruct (websocket_server_set_nonblocking _) as [ok k3].
  cbn [snd] in *. destruct (negb ok); cbn [fst snd]; [rewrite close_fd_balance by done; lia|].
  pose proof (syscall_books k3 fd) as B3. destruct (syscall k3) as [[] k4]; cbn [snd] in *;
    [|cbn [fst snd]; rewrite close_fd_balance by done; lia].
  pose proof (syscall_books k4 fd) as B4. destruct (syscall k4) as [[] k5]; cbn [fst snd] in *; [lia|].
  rewrite close_fd_balance by done. lia.
Qed.

Lemma listen_loop_balance fd l k : 0 <= fd ->
  balance fd (k_trace (listen_loop l k).2) = balance fd (k_trace k) + tick fd (listen_loop l k).1.
Proof.
  intros Hfd. revert k. induction l as [|a l IH]; intros k; cbn [listen_loop].
  - cbn [fst snd]. unfold tick. replace (-1 =? fd) with false by lia. lia.
  - pose proof (listen_on_balance fd k Hfd) as B. destruct (listen_on k) as [lfd k1]. cbn [fst snd] in B.
    destruct (Z.ltb_spec lfd 0); [|exact B]. rewrite IH, B.
    assert (tick fd lfd = 0) by (unfold tick; by replace (lfd =? fd) with false by lia). lia.
Qed.

(** ** What the server holds *)

Definition owns (fd : Z) (c : websocket_connection_object) : Z := tick fd (c_fd c).

Lemma owns_create fd : 0 <= fd -> owns fd websocket_connection_create_object = 0.
Proof. intros. unfold owns, tick. cbn [c_fd websocket_connection_create_object]. by replace (-1 =? fd) with false by lia. Qed.

Lemma owns_closed fd c : 0 <= fd -> c_fd c < 0 -> owns fd c = 0.
Proof. intros. unfold owns, tick. by replace (c_fd c =? fd) with false by lia. Qed.

(** The objects whose socket is [fd]. *)
Definition heap_owned (fd : Z) (m : gmap Z websocket_connection_object) : Z :=
  map_fold (fun _ c n => owns fd c + n) 0 m.

Lemma heap_owned_fresh fd h c m : m !! h = None -> heap_owned fd (<[h := c]> m) = owns fd c + heap_owned fd m.
Proof. intros Hn. unfold heap_owned. rewrite map_fold_insert_L; [done| |done]. intros. lia. Qed.

Lemma heap_owned_delete fd h m : 0 <= fd ->
  heap_owned fd m = owns fd (default websocket_connection_create_object (m !! h)) + heap_owned fd (delete h m).
Proof.
  intros Hfd. destruct (m !! h) as [c|] eqn:E; cbn [default from_option].
  - rewrite <- (insert_delete_id m h c E) at 1. rewrite heap_owned_fresh by apply lookup_delete_eq. done.
  - rewrite owns_create by done. by rewrite delete_id.
Qed.

Lemma heap_owned_insert fd h c m : 0 <= fd ->
  heap_owned fd (<[h := c]> m)
  = heap_owned fd m - owns fd (default websocket_connection_create_object (m !! h)) + owns fd c.
Proof.
  intros Hfd. rewrite (heap_owned_delete fd h m Hfd), <- (insert_delete_eq m h c), heap_owned_fresh by apply lookup_delete_eq.
  lia.
Qed.

Lemma heap_owned_none fd m : 0 <= fd -> (forall h c, m !! h = Some c -> c_fd c < 0) -> heap_owned fd m = 0.
Proof.
  intros Hfd. unfold heap_owned. induction m as [|h c m Hn IH] using map_ind; [done|].
  intros H. fold (heap_owned fd (<[h := c]> m)). rewrite heap_owned_fresh by done.
  rewrite owns_closed by (done || (apply (H h); apply lookup_insert_eq)).
  apply IH. intros h' c' Hl. apply (H h'). rewrite lookup_insert_ne by congruence. done.
Qed.

(** ** The functions of [websocket_connection.c] *)

Section ConnLedger.
Context {D : Type} `{HD : Driver D} `{!DriverLaws D}.
Context (getnameinfo : bytes -> option (bytes * bytes)) (sa_family : bytes -> Z) (AF_INET6 : Z).

(** What is closed is exactly what the connection gives up. *)
Definition cs_ledger (s s' : cstate D) : Prop :=
  driver_ok (cs_driver s) -> driver_ok (cs_driver s') /\ forall fd, 0 <= fd ->
  balance fd (k_trace (cs_kernel s')) - owns fd (cs_conn s') = balance fd (k_trace (cs_kernel s)) - owns fd (cs_conn s).

#[export] Instance cs_ledger_preorder : PreOrder cs_ledger.
Proof.
  split; [by intros s Hd; split|]. intros s1 s2 s3 A B Hd. destruct (A Hd) as [A1 A2]. destruct (B A1) as [B1 B2].
  split; [done|]. intros fd Hfd. by rewrite B2, A2.
Qed.

Lemma mod_conn_ledger f : (forall c, c_fd (f c) = c_fd c) -> relates cs_ledger (mod_conn (D := D) f).
Proof. intros Hf s Hd. split; [done|]. intros fd _. unfold owns. cbn. by rewrite Hf. Qed.

Lemma on_kernel_ledger {A} (f : kernel -> A * kernel) : (forall k, no_books k (f k).2) ->
  relates cs_ledger (on_kernel (D := D) f).
Proof.
  intros Hf [c d k] Hd. unfold on_kernel. cbn. specialize (Hf k). destruct (f k) as [x k']. cbn in *.
  split; [done|]. intros fd _. by rewrite Hf.
Qed.

Lemma mod_kernel_ledger f : (forall k, no_books k (f k)) -> relates cs_ledger (mod_kernel (D := D) f).
Proof. intros Hf [c d k] Hd. split; [done|]. intros fd _. cbn. by rewrite (Hf k). Qed.

Lemma driver_unwatch_write_ledger fd : relates cs_ledger (driver_do (D := D) unwatch_write fd).
Proof.
  intros [c [d|] k] Hd; unfold driver_do; cbn [cs_driver cs_kernel cs_conn] in *; [|by split].
  pose proof (unwatch_write_law fd d k Hd) as L. destruct (unwatch_write _ _) as [d' k']; cbn.
  destruct L as (? & S & _). split; [done|]. intros fd' _. by rewrite (driver_step_books _ _ S).
Qed.

Lemma driver_watch_write_ledger fd : relates cs_ledger (driver_watch_write (D := D) fd).
Proof.
  intros [c [d|] k] Hd; unfold driver_watch_write; cbn [cs_driver cs_kernel cs_conn] in *; [|by split].
  pose proof (watch_write_law fd d k Hd) as L. destruct (watch_write _ _) as [ok [d' k']]; cbn.
  destruct L as (? & S & _). split; [done|]. intros fd' _. by rewrite (driver_step_books _ _ S).
Qed.

Lemma close_socket_ledger : relates cs_ledger (websocket_connection_close_socket (D := D)).
Proof.
  intros s Hd. destruct (close_socket_spec s Hd) as (Hc & Hd' & _ & _ & _ & _ & Ht). split; [done|].
  intros fd Hfd. rewrite (owns_closed _ _ Hfd (cl_fd _ Hc)). unfold owns.
  destruct (Z.leb_spec 0 (c_fd (cs_conn s))); destruct Ht as [-> _]; cbn [balance]; [lia|].
  unfold tick. replace (c_fd (cs_conn s) =? fd) with false by lia. lia.
Qed.

#[local] Hint Extern 2 (relates cs_ledger (mod_conn _)) => apply mod_conn_ledger; intros ?; reflexivity : pres.
#[local] Hint Extern 2 (relates cs_ledger (on_kernel _)) => apply on_kernel_ledger; intros ? : pres.
#[local] Hint Extern 2 (relates cs_ledger (mod_kernel _)) => apply mod_kernel_ledger; intros ? : pres.
#[local] Hint Resolve driver_unwatch_write_ledger driver_watch_write_ledger close_socket_ledger syscall_books
  set_errno_books : pres.
#[local] Hint Extern 3 (relates _ get_conn) => apply relates_gets; apply _ : pres.
#[local] Hint Extern 3 (relates _ get_errno) => apply relates_gets; apply _ : pres.
#[local] Hint Extern 3 (no_books _ (websocket_connection_write_some _ _ _ _).2) => apply write_some_books : pres.

Lemma read_property_ledger p :
  relates cs_ledger (websocket_connection_read_property (D := D) getnameinfo sa_family AF_INET6 p).
Proof.
  unfold websocket_connection_read_property, websocket_connection_make_id, websocket_connection_make_remote_address,
    websocket_connection_cache_remote_address. pres.
Qed.

Lemma flush_loop_ledger fuel : relates cs_ledger (flush_loop (D := D) fuel).
Proof. induction fuel; cbn [flush_loop]; unfold websocket_connection_clear_write_queue; pres. Qed.
#[local] Hint Resolve flush_loop_ledger : pres.

Lemma flush_ledger : relates cs_ledger (websocket_connection_flush (D := D)).
Proof. unfold websocket_connection_flush, websocket_connection_clear_write_queue. pres. Qed.

Lemma has_pending_ledger : relates cs_ledger (websocket_connection_has_pending_writes (D := D)).
Proof. unfold websocket_connection_has_pending_writes. pres. Qed.
#[local] Hint Resolve has_pending_ledger : pres.

Lemma close_after_write_ledger : relates cs_ledger (websocket_connection_close_after_write (D := D)).
Proof. unfold websocket_connection_close_after_write. pres. Qed.

Lemma send_frame_ledger p op : relates cs_ledger (websocket_connection_send_frame (D := D) p op).
Proof.
  unfold websocket_connection_send_frame, websocket_connection_queue_frame, websocket_connection_ensure_write_capacity. pres.
Qed.
#[local] Hint Resolve send_frame_ledger close_after_write_ledger : pres.

Lemma send_close_frame_ledger code reason : relates cs_ledger (websocket_connection_send_close_frame (D := D) code reason).
Proof. unfold websocket_connection_send_close_frame. pres. Qed.
#[local] Hint Resolve send_close_frame_ledger : pres.

Lemma Connection_send_ledger p t : relates cs_ledger (Connection_send (D := D) p t).
Proof. unfold Connection_send. pres. Qed.

Lemma Connection_close_ledger code reason : relates cs_ledger (Connection_close (D := D) code reason).
Proof. unfold Connection_close. pres. Qed.

Lemma Connection_isOpen_ledger : relates cs_ledger (Connection_isOpen (D := D)).
Proof. unfold Connection_isOpen. pres. Qed.

Lemma free_object_ledger : relates cs_ledger (websocket_connection_free_object (D := D)).
Proof. unfold websocket_connection_free_object. pres. Qed.
End ConnLedger.

#[export] Hint Resolve read_property_ledger close_socket_ledger flush_ledger has_pending_ledger close_after_write_ledger
  send_frame_ledger send_close_frame_ledger Connection_send_ledger Connection_close_ledger Connection_isOpen_ledger
  free_object_ledger : pres.
#[export] Hint Resolve syscall_books set_errno_books now_books recv_books send_bytes_books nonblocking_books
  emit_call_books sys_send_books : pres.

(** ** The world *)

Section Ledger.
Context {D U V : Type} `{HD : Driver D} `{!DriverLaws D}.
Context (getnameinfo : bytes -> option (bytes * bytes)) (sa_family : bytes -> Z) (AF_INET6 : Z).
Context (getaddrinfo : bytes -> bytes -> option (list bytes)).
Context (sha1 base64_encode : bytes -> bytes) (base64_decode_ex : bytes -> option bytes).
Context (zval_get_long : V -> Z).
Local Abbreviation W A := (ST (world D U V) A).
Implicit Types (w : world D U V).

(** What is open according to the trace and not held by an object or the server. *)
Definition account (fd : Z) w : Z :=
  balance fd (k_trace (w_kernel w)) - heap_owned fd (w_heap w) - tick fd (s_listener_fd (w_server w)).

Definition ledger w w' : Prop :=
  driver_ok (w_driver w) -> driver_ok (w_driver w') /\ forall fd, 0 <= fd -> account fd w' = account fd w.

#[export] Instance ledger_preorder : PreOrder ledger.
Proof.
  split; [by intros w Hd; split|]. intros w1 w2 w3 A B Hd. destruct (A Hd) as [A1 A2]. destruct (B A1) as [B1 B2].
  split; [done|]. intros fd Hfd. by rewrite B2, A2.
Qed.

Lemma account_insert fd h c w : 0 <= fd ->
  account fd (set_w_heap (<[h := c]> (w_heap w)) w) = account fd w + owns fd (conn_of h w) - owns fd c.
Proof.
  intros Hfd. unfold account. cbn [w_kernel w_heap w_server set_w_heap]. rewrite heap_owned_insert by done.
  unfold conn_of. lia.
Qed.

Lemma on_conn_ledger {A} h (m : ST (cstate D) A) : relates cs_ledger m -> relates ledger (on_conn h m : W A).
Proof.
  intros Hm w Hd. unfold on_conn. specialize (Hm (mk_cs (conn_of h w) (w_driver w) (w_kernel w)) Hd).
  destruct (m _) as [x [c d k]]. cbn [snd cs_conn cs_driver cs_kernel] in *. destruct Hm as [Hd' Hm]. split; [done|].
  intros fd Hfd. specialize (Hm fd Hfd). pose proof (account_insert fd h c w Hfd) as A1.
  unfold account in *. cbn [w_kernel w_heap w_server set_w_heap set_w_kernel set_w_driver] in *. lia.
Qed.

Lemma mod_connection_ledger h f : (forall c, c_fd (f c) = c_fd c) -> relates ledger (mod_connection h f : W ()).
Proof.
  intros Hf w Hd. split; [done|]. intros fd Hfd. unfold mod_connection, st_modify. cbn [snd].
  rewrite account_insert by done. unfold owns. rewrite Hf. lia.
Qed.

Lemma world_kernel_ledger {A} (f : kernel -> A * kernel) : (forall k, no_books k (f k).2) ->
  relates ledger (world_kernel f : W A).
Proof.
  intros Hf w Hd. rewrite world_kernel_run. split; [done|]. intros fd _. unfold account. cbn. by rewrite (Hf (w_kernel w)).
Qed.

(** Everything of a step that the books look at. *)
Lemma ledger_same w w' : (driver_ok (w_driver w) -> driver_ok (w_driver w')) ->
  k_trace (w_kernel w') = k_trace (w_kernel w) -> w_heap w' = w_heap w ->
  s_listener_fd (w_server w') = s_listener_fd (w_server w) -> ledger w w'.
Proof. intros Hd E1 E2 E3 H. split; [by apply Hd|]. intros fd _. unfold account. by rewrite E1, E2, E3. Qed.

Lemma mod_server_ledger f : (forall s, s_listener_fd (f s) = s_listener_fd s) -> relates ledger (mod_server f : W ()).
Proof. intros Hf w. apply ledger_same; try done. apply Hf. Qed.

Lemma modify_ledger (f : world D U V -> world D U V) :
  (forall w, w_driver (f w) = w_driver w /\ w_kernel (f w) = w_kernel w /\ w_heap (f w) = w_heap w /\ w_server (f w) = w_server w) ->
  relates ledger (st_modify f).
Proof. intros Hf w. destruct (Hf w) as (E1 & E2 & E3 & E4). cbn. apply ledger_same; [by rewrite E1|by rewrite E2|done|by rewrite E4]. Qed.

Lemma world_unwatch_ledger fd : relates ledger (world_unwatch fd : W _).
Proof.
  intros w. unfold world_unwatch. destruct (w_driver w) as [d|] eqn:Ed; cbn; [|reflexivity]. intros Hd. rewrite Ed in Hd.
  pose proof (unwatch_law fd d (w_kernel w) Hd) as L. destruct (unwatch _ _) as [d' k'].
  destruct L as (? & S & _). split; [done|]. intros fd' _. unfold account. cbn. by rewrite (driver_step_books _ _ S).
Qed.

Lemma world_watch_read_ledger fd : relates ledger (world_watch_read fd : W _).
Proof.
  intros w Hd. destruct (world_watch_read_run fd w Hd) as (d & k & -> & Ht & Hd' & _). cbn [snd].
  by apply (ledger_same w); try done.
Qed.

Lemma world_wait_ledger timeout : relates ledger (world_wait timeout : W _).
Proof.
  intros w. unfold world_wait. destruct (w_driver w) as [d|] eqn:Ed; cbn.
  - intros Hd. rewrite Ed in Hd. pose proof (wait_law timeout d (w_kernel w) Hd) as L. destruct (wait _ _) as [r [d' k']].
    destruct r, L as (? & S & _). split; [done|]. intros fd' _. unfold account. cbn. by rewrite (driver_step_books _ _ S).
  - by apply ledger_same.
Qed.

#[local] Hint Resolve on_conn_ledger world_unwatch_ledger world_watch_read_ledger world_wait_ledger : pres.
#[local] Hint Extern 2 (relates ledger (mod_connection _ _)) => apply mod_connection_ledger; intros ?;
  unfold websocket_connection_discard_read_bytes; repeat case_match; reflexivity : pres.
#[local] Hint Extern 2 (relates ledger (world_kernel _)) => apply world_kernel_ledger; intros ? : pres.
#[local] Hint Extern 2 (relates ledger (mod_server _)) => apply mod_server_ledger; intros ?; reflexivity : pres.
#[local] Hint Extern 2 (relates ledger (st_modify _)) => apply modify_ledger; intros ?; by split_and! : pres.
#[local] Hint Extern 2 (relates ledger (throw _)) => apply modify_ledger; intros ?; by split_and! : pres.
#[local] Hint Extern 1 (relates ledger WebSocket_Server_stop) => unfold WebSocket_Server_stop; by intros ?; apply ledger_same : pres.

(** The last reference: the object goes, and its socket with it. *)
Lemma release_ledger h : relates ledger (release_connection h : W ()).
Proof.
  unfold release_connection. apply relates_bind; [apply _|pres|intros []].
  apply relates_bind; [apply _|pres|intros c]. apply relates_if; [|pres].
  intros w Hd. rewrite st_bind_run.
  destruct (on_conn_ledger h _ free_object_ledger w Hd) as [Hd1 Hl].
  destruct (on_conn_run h websocket_connection_free_object w) as (_ & _ & _ & _ & _ & _ & Hc).
  destruct (close_socket_spec (mk_cs (conn_of h w) (w_driver w) (w_kernel w)) Hd) as (Hcl & _).
  destruct (on_conn h websocket_connection_free_object w) as [[] w1] eqn:E. cbn [fst snd] in *.
  assert (Hfd1 : c_fd (conn_of h w1) < 0).
  { rewrite Hc, decide_True by done. unfold websocket_connection_free_object. rewrite st_bind_run. apply (cl_fd _ Hcl). }
  split; [done|]. intros fd Hfd. rewrite <- Hl by done. unfold account, st_modify. cbn [snd w_kernel w_heap w_server set_w_heap].
  rewrite (heap_owned_delete fd h (w_heap w1)) by done. fold (conn_of h w1). rewrite owns_closed by done. lia.
Qed.
#[local] Hint Resolve release_ledger : pres.

Lemma run_program_ledger p : relates ledger (run_program getnameinfo sa_family AF_INET6 p : W _).
Proof. induction p; cbn [run_program]; pres; eauto 4 with pres. Qed.
#[local] Hint Resolve run_program_ledger : pres.

(** ** One connection *)

Lemma call_user_ledger ev f : (exists a c p t, ev = EvCall a c p t) ->
  relates ledger (call_user getnameinfo sa_family AF_INET6 ev f : W _).
Proof. intros (a & c & p & t & ->). unfold call_user. pres. Qed.
#[local] Hint Extern 2 (relates ledger (call_user _ _ _ (EvCall _ _ _ _) _)) => apply call_user_ledger; by do 4 eexists : pres.

Lemma with_reference_ledger {A} h (m : W A) : relates ledger m -> relates ledger (with_reference h m).
Proof. intros. unfold with_reference. pres. Qed.
#[local] Hint Resolve with_reference_ledger : pres.

Lemma call_handler_ledger f h : relates ledger (websocket_server_call_handler getnameinfo sa_family AF_INET6 f h : W _).
Proof. unfold websocket_server_call_handler. pres. Qed.
#[local] Hint Resolve call_handler_ledger : pres.

Lemma call_open_ledger h b : relates ledger (websocket_server_call_open_handler getnameinfo sa_family AF_INET6 h b : W _).
Proof. unfold websocket_server_call_open_handler. pres. Qed.
#[local] Hint Resolve call_open_ledger : pres.

Lemma call_handshake_ledger r h :
  relates ledger (websocket_server_call_handshake_handler getnameinfo sa_family AF_INET6 r h : W _).
Proof.
  unfold websocket_server_call_handshake_handler, websocket_server_handle_handshake_exception,
    websocket_server_send_handshake_response, send_bytes. pres.
Qed.
#[local] Hint Resolve call_handshake_ledger : pres.

Lemma notify_closed_ledger h :
  relates ledger (websocket_server_notify_connection_closed getnameinfo sa_family AF_INET6 h : W _).
Proof. unfold websocket_server_notify_connection_closed. pres. Qed.
#[local] Hint Resolve notify_closed_ledger : pres.

Lemma close_with_code_ledger h code reason : relates ledger (websocket_server_close_with_code h code reason : W _).
Proof. unfold websocket_server_close_with_code. pres. Qed.
#[local] Hint Resolve close_with_code_ledger : pres.

Lemma service_connection_ledger h now : relates ledger (service_connection zval_get_long h now : W _).
Proof.
  unfold service_connection, websocket_server_close_expired_connection, websocket_server_process_heartbeat. pres.
Qed.
#[local] Hint Resolve service_connection_ledger : pres.

Lemma call_message_ledger h payload op :
  relates ledger (websocket_server_call_message_handler getnameinfo sa_family AF_INET6 h payload op : W _).
Proof. unfold websocket_server_call_message_handler. pres. Qed.
#[local] Hint Resolve call_message_ledger : pres.

Lemma handle_frame_ledger h frame :
  relates ledger (websocket_server_handle_frame getnameinfo sa_family AF_INET6 zval_get_long h frame : W _).
Proof. unfold websocket_server_handle_frame, websocket_server_handle_data_frame. pres. Qed.
#[local] Hint Resolve handle_frame_ledger : pres.

Lemma buffered_frames_ledger fuel h max :
  relates ledger (buffered_frames_loop getnameinfo sa_family AF_INET6 zval_get_long fuel h max : W _).
Proof. induction fuel; cbn [buffered_frames_loop]; unfold refuse_frame; pres. Qed.
#[local] Hint Resolve buffered_frames_ledger : pres.

Lemma process_buffered_ledger h :
  relates ledger (websocket_server_process_buffered_frames getnameinfo sa_family AF_INET6 zval_get_long h : W _).
Proof. unfold websocket_server_process_buffered_frames. pres. Qed.
#[local] Hint Resolve process_buffered_ledger : pres.

Lemma finish_upgrade_ledger h key sel consumed :
  relates ledger (websocket_server_finish_upgrade getnameinfo sa_family AF_INET6 zval_get_long h key sel consumed : W _).
Proof. unfold websocket_server_finish_upgrade, send_bytes. pres. Qed.
#[local] Hint Resolve finish_upgrade_ledger : pres.

Lemma handshake_loop_ledger fuel h :
  relates ledger (handshake_loop getnameinfo sa_family AF_INET6 sha1 base64_encode base64_decode_ex
    zval_get_long fuel h : W _).
Proof. induction fuel; cbn [handshake_loop]; unfold handshake_request, bad_request, send_bytes, now_usec; pres. Qed.
#[local] Hint Resolve handshake_loop_ledger : pres.

Lemma process_handshake_ledger h :
  relates ledger (websocket_server_process_handshake getnameinfo sa_family AF_INET6 sha1 base64_encode
    base64_decode_ex zval_get_long h : W _).
Proof. unfold websocket_server_process_handshake. pres. Qed.
#[local] Hint Resolve process_handshake_ledger : pres.

Lemma frame_reads_ledger fuel h limit :
  relates ledger (frame_reads_loop getnameinfo sa_family AF_INET6 zval_get_long fuel h limit : W _).
Proof. induction fuel; cbn [frame_reads_loop]; unfold now_usec; pres. Qed.
#[local] Hint Resolve frame_reads_ledger : pres.

Lemma process_connection_fd_ledger fd :
  relates ledger (websocket_server_process_connection_fd getnameinfo sa_family AF_INET6 sha1 base64_encode
    base64_decode_ex zval_get_long fd : W _).
Proof. unfold websocket_server_process_connection_fd, websocket_server_process_frame_reads, now_usec. pres. Qed.

Lemma process_connections_ledger :
  relates ledger (websocket_server_process_connections getnameinfo sa_family AF_INET6 sha1 base64_encode
    base64_decode_ex zval_get_long : W _).
Proof.
  unfold websocket_server_process_connections, now_usec. pres.
  match goal with |- relates _ (process_connections_loop _ _ _ _ _ _ _ ?l _) => induction l end;
    cbn [process_connections_loop]; pres.
Qed.

(** ** Leaving the array *)

Lemma close_at_ledger i b :
  relates ledger (websocket_server_close_connection_at getnameinfo sa_family AF_INET6 i b : W _).
Proof. unfold websocket_server_close_connection_at. pres. Qed.
#[local] Hint Resolve close_at_ledger : pres.

Lemma purge_ledger :
  relates ledger (websocket_server_purge_closed_connections getnameinfo sa_family AF_INET6 : W _).
Proof.
  unfold websocket_server_purge_closed_connections. pres.
  match goal with |- relates _ (purge_loop _ _ _ ?f _) => generalize f as fuel end.
  generalize 0%nat as i. intros i fuel. revert i. induction fuel; intros i; cbn [purge_loop]; pres.
Qed.

Lemma close_all_ledger b :
  relates ledger (websocket_server_close_all_connections getnameinfo sa_family AF_INET6 b : W _).
Proof.
  unfold websocket_server_close_all_connections. pres.
  match goal with |- relates _ (close_all_loop _ _ _ ?f _) => induction f end; cbn [close_all_loop]; pres.
Qed.
#[local] Hint Resolve close_all_ledger : pres.

(** ** Accepting *)

Lemma account_close_fd fd fd' w : 0 <= fd' -> account fd (close_fd fd' w : () * world D U V).2 = account fd w - tick fd fd'.
Proof.
  intros Hp. unfold close_fd. rewrite world_kernel_run. unfold account. cbn [snd w_kernel w_heap w_server set_w_kernel].
  rewrite close_fd_balance by done. lia.
Qed.

Lemma new_connection_account fd fd' addr limit w : 0 <= fd -> s_reusable_connection (w_server w) = None ->
  c_fd (conn_of (w_objects w) w) < 0 ->
  account fd (new_connection fd' addr limit w).2 = account fd w - tick fd fd' /\
  w_driver (new_connection fd' addr limit w).2 = w_driver w.
Proof.
  intros Hfd Hr Hfree. pose proof (new_connection_run fd' addr limit w Hr) as N.
  destruct (new_connection fd' addr limit w) as [h w']. cbn [snd].
  destruct N as (-> & Es & Ed & _ & Et & _ & _ & _ & _ & Eh & now & Ec). split; [|done].
  unfold account. rewrite Et, Eh, Es, heap_owned_insert by done. fold (conn_of (w_objects w) w).
  rewrite (owns_closed _ (conn_of (w_objects w) w)), Ec by done. unfold owns, accepted, opened.
  destruct (zlen addr <=? 128); cbn [c_fd set_max_queued_bytes set_last_activity_usec set_accepted_at_usec set_open
    set_fd set_numeric_id set_has_remote_addr set_remote_addr]; lia.
Qed.

Lemma join_ledger fd h : relates ledger (join fd h : W bool).
Proof. unfold join, websocket_server_ensure_connection_capacity. pres. Qed.

(** However accepting ends, a descriptor that was handed over is an object's or is
    closed. *)
Lemma accept_ledger w : driver_ok (w_driver w) -> s_reusable_connection (w_server w) = None ->
  c_fd (conn_of (w_objects w) w) < 0 -> ledger w (websocket_server_accept_connection zval_get_long w).2.
Proof.
  intros Hd Hr Hfree _. unfold websocket_server_accept_connection.
  rewrite (st_bind_run get_server), (st_bind_run (world_kernel sys_open)), world_kernel_run.
  cbn [fst snd get_server st_gets]. pose proof (fun fd => sys_open_balance fd (w_kernel w)) as B.
  destruct (sys_open (w_kernel w)) as [a k1]. cbn [fst snd] in *. set (w1 := set_w_kernel k1 w).
  assert (A1 : forall fd, account fd w1 = account fd w +
    match a with AOk fd' _ => if 0 <=? fd' then tick fd fd' else 0 | AErr _ => 0 end).
  { intros fd. unfold account. cbn. rewrite B. lia. }
  destruct a as [fd' addr|e]; [|split; [done|]; intros fd _; cbn; rewrite A1; lia].
  destruct (Z.ltb_spec fd' 0) as [Hn|Hp].
  { split; [done|]. intros fd _. cbn. rewrite A1. replace (0 <=? fd') with false by lia. lia. }
  replace (0 <=? fd') with true in A1 by lia.
  rewrite (st_bind_run (world_kernel (fun k => ((), set_errno 0 k)))). set (w2 := (world_kernel _ w1).2).
  assert (A2 : forall fd, account fd w2 = account fd w + tick fd fd') by (intros fd; rewrite <- A1; done).
  assert (Hd2 : driver_ok (w_driver w2)) by done.
  assert (Hend : forall (w3 w4 : world D U V), ledger w3 w4 -> driver_ok (w_driver w3) ->
    (forall fd, 0 <= fd -> account fd w3 = account fd w) ->
    driver_ok (w_driver w4) /\ forall fd, 0 <= fd -> account fd w4 = account fd w).
  { intros w3 w4 L H3 E. destruct (L H3) as [H4 L4]. split; [done|]. intros fd Hfd. by rewrite L4, E. }
  destruct (websocket_server_max_connections _ _ <=? _).
  - rewrite (st_bind_run (send_bytes _ _)).
    pose proof (world_kernel_ledger _ (send_bytes_books fd' websocket_service_unavailable_response) w2 Hd2) as [H3 L3].
    fold (send_bytes (D := D) (U := U) (V := V) fd' websocket_service_unavailable_response) in H3, L3.
    destruct (send_bytes _ _ w2) as [ok w3]. cbn [fst snd] in *. rewrite st_bind_run. cbn [snd mret ST_ret].
    split; [exact H3|]. intros fd Hfd. rewrite account_close_fd, L3, A2 by done. lia.
  - rewrite (st_bind_run (world_kernel websocket_server_set_nonblocking)).
    pose proof (world_kernel_ledger _ nonblocking_books w2 Hd2) as [H3 L3]. rewrite world_kernel_run in *.
    cbn [fst snd] in *. set (w3 := set_w_kernel _ w2) in *. destruct (negb _).
    + rewrite (st_bind_run (close_fd _)), st_bind_run. cbn [snd mret ST_ret throw st_modify].
      eapply (Hend (close_fd fd' w3).2); [by apply ledger_same|done|].
      intros fd Hfd. rewrite account_close_fd, L3, A2 by done. lia.
    + rewrite new_connection_then, (st_bind_run (new_connection _ _ _)).
      set (limit := websocket_server_max_queued_bytes _ _).
      pose proof (fun fd Hfd => new_connection_account fd fd' addr limit w3 Hfd Hr Hfree) as N.
      eapply (Hend (new_connection fd' addr limit w3).2); [apply join_ledger| |].
      * destruct (N 0 ltac:(lia)) as [_ ->]. exact H3.
      * intros fd Hfd. destruct (N fd Hfd) as [-> _]. rewrite L3, A2 by done. lia.
Qed.

(** ** The event loop *)

(** Between two steps of the loop: the invariant, and the books as they were. *)
Definition balanced (j : Z -> Z) w : Prop :=
  server_inv zval_get_long None w /\ forall fd, 0 <= fd -> account fd w = j fd.

Lemma hoare_balanced {A} j (m : W A) :
  hoare (server_inv zval_get_long None) m (fun _ => server_inv zval_get_long None) -> relates ledger m ->
  hoare (balanced j) m (fun _ => balanced j).
Proof.
  intros Hi Hl w [I J]. split; [by apply Hi|]. intros fd Hfd. destruct (Hl w (si_driver _ _ _ I)) as [_ L]. by rewrite L, J.
Qed.

Lemma balanced_proc {A} j (m : W A) : relates proc_step m -> relates ledger m -> hoare (balanced j) m (fun _ => balanced j).
Proof. intros. apply hoare_balanced; [by apply hoare_proc|done]. Qed.

Lemma accept_balanced j : hoare (balanced j) (websocket_server_accept_connection zval_get_long : W _) (fun _ => balanced j).
Proof.
  intros w [I J]. split; [by apply accept_inv|]. intros fd Hfd.
  assert (Hfree : c_fd (conn_of (w_objects w) w) < 0).
  { destruct (Z.le_gt_cases 0 (c_fd (conn_of (w_objects w) w))) as [Hh|]; [|lia].
    destruct (si_fds _ _ _ I _ Hh) as [H|H]; [|done]. pose proof (si_handles _ _ _ I _ H). lia. }
  destruct (accept_ledger w (si_driver _ _ _ I) (si_reusable _ _ _ I) Hfree (si_driver _ _ _ I)) as [_ L]. by rewrite L, J.
Qed.

Lemma accept_loop_balanced j fuel n : hoare (balanced j) (accept_loop zval_get_long fuel n : W _) (fun _ => balanced j).
Proof.
  revert n. induction fuel as [|fuel IH]; intros n; cbn [accept_loop]; [by apply hoare_ret|].
  eapply hoare_bind; [apply balanced_proc; pres|intros s]. eapply hoare_bind; [apply balanced_proc; pres|intros stopped].
  destruct (negb _); [by apply hoare_ret|]. eapply hoare_bind; [apply accept_balanced|intros ok].
  destruct (negb ok); [|apply IH]. eapply hoare_bind; [apply balanced_proc; pres|intros ne].
  destruct (negb ne); [by apply hoare_ret|]. eapply hoare_bind; [apply balanced_proc; pres|intros e].
  destruct (_ || _); [by apply hoare_ret|]. destruct (e =? EINTR); [apply IH|]. apply balanced_proc; pres.
Qed.

Lemma loop_iteration_balanced j :
  hoare (balanced j) (loop_iteration getnameinfo sa_family AF_INET6 sha1 base64_encode base64_decode_ex zval_get_long)
    (fun _ => balanced j).
Proof.
  unfold loop_iteration.
  eapply hoare_bind; [apply balanced_proc; pres|intros s]. eapply hoare_bind; [apply balanced_proc; pres|intros stopped].
  destruct (negb _); [by apply hoare_ret|].
  eapply hoare_bind; [apply balanced_proc; [apply quiet_proc, world_wait_quiet|pres]|intros [ready fd]]. destruct (ready <? 0).
  - eapply hoare_bind; [apply balanced_proc; pres|intros e]. destruct (e =? EINTR); [by apply hoare_ret|].
    apply balanced_proc; pres.
  - eapply hoare_bind; [apply balanced_proc; pres|intros s2].
    eapply hoare_bind with (R := fun _ => balanced j); [|intros ok].
    { destruct (_ && _).
      - unfold websocket_server_accept_pending. eapply hoare_bind; [apply balanced_proc; pres|intros f]. apply accept_loop_balanced.
      - destruct (_ && _); [|by apply hoare_ret]. apply balanced_proc; [pres|apply process_connection_fd_ledger]. }
    destruct (negb ok); [by apply hoare_ret|].
    eapply hoare_bind; [apply balanced_proc; [pres|apply process_connections_ledger]|intros ok2].
    destruct (negb ok2); [by apply hoare_ret|]. apply hoare_balanced; [apply purge_inv|apply purge_ledger].
Qed.

Lemma run_loop_balanced j fuel :
  hoare (balanced j) (run_loop getnameinfo sa_family AF_INET6 sha1 base64_encode base64_decode_ex zval_get_long fuel)
    (fun _ => balanced j).
Proof.
  intros w J. destruct (run_loop_reachable getnameinfo sa_family AF_INET6 sha1 base64_encode base64_decode_ex zval_get_long
    fuel w w (reachable_refl _ _ _ _ _ _ _ w)) as (w2 & R & E).
  assert (J2 : balanced j w2) by (clear E; induction R; [done|by apply loop_iteration_balanced]).
  destruct E as [-> | ->]; [done|]. by apply loop_iteration_balanced.
Qed.

(** ** Opening and closing the listener *)

Lemma set_listener_account fd lfd w :
  account fd (mod_server (set_listener_fd lfd) w : () * world D U V).2
  = account fd w + tick fd (s_listener_fd (w_server w)) - tick fd lfd.
Proof. unfold account. cbn. lia. Qed.

Lemma create_listener_account fd w : 0 <= fd ->
  let r := (websocket_server_create_listener getaddrinfo : W _) w in
  account fd r.2 = account fd w + tick fd r.1 /\ s_listener_fd (w_server r.2) = s_listener_fd (w_server w).
Proof.
  intros Hfd. cbv zeta. unfold websocket_server_create_listener. rewrite (st_bind_run get_server).
  cbn [fst snd get_server st_gets]. destruct (getaddrinfo _ _) as [l|].
  - rewrite st_bind_run, world_kernel_run. cbn [fst snd]. pose proof (listen_loop_balance fd l (w_kernel w) Hfd) as B.
    destruct (listen_loop l (w_kernel w)) as [lfd k]. cbn [fst snd] in *. rewrite st_bind_run.
    assert (E : account fd (set_w_kernel k w) = account fd w + tick fd lfd) by (unfold account; cbn; lia).
    destruct (lfd <? 0); by split.
  - rewrite st_bind_run. cbn [fst snd mret ST_ret]. split; [|done]. unfold account. cbn. unfold tick at 3.
    replace (-1 =? fd) with false by lia. lia.
Qed.

(** Shutting down. *)
Lemma runtime_close_ledger b :
  relates ledger (websocket_server_runtime_close getnameinfo sa_family AF_INET6 b : W _).
Proof.
  intros w. unfold websocket_server_runtime_close. rewrite (st_bind_run get_server), st_bind_run.
  cbn [fst snd get_server st_gets]. intros Hd.
  match goal with |- context [(?m w).2] => assert (L : ledger w (m w).2) end.
  { destruct (Z.leb_spec 0 (s_listener_fd (w_server w))) as [Hp|]; [|reflexivity]. clear Hd. intros Hd.
    rewrite !st_bind_run. destruct (world_unwatch_ledger (s_listener_fd (w_server w)) w Hd) as [Hd1 L1].
    assert (Es : s_listener_fd (w_server (world_unwatch (s_listener_fd (w_server w)) w : () * world D U V).2)
      = s_listener_fd (w_server w)).
    { unfold world_unwatch. destruct (w_driver w); [|done]. by destruct (unwatch _ _). }
    destruct (world_unwatch _ w) as [[] w1]. cbn [fst snd] in *. split; [exact Hd1|]. intros fd Hfd.
    rewrite set_listener_account, account_close_fd, L1 by done.
    change (w_server (close_fd (s_listener_fd (w_server w)) w1 : () * world D U V).2) with (w_server w1). rewrite Es.
    unfold tick at 3. replace (-1 =? fd) with false by lia. lia. }
  match goal with |- context [(?m w).2] => generalize dependent (m w).2 end. intros w1 L.
  destruct (L Hd) as [Hd1 L1]. revert Hd1 L1. clear L.
  assert (L2 : relates ledger (ok ← websocket_server_close_all_connections getnameinfo sa_family AF_INET6 b;
    if negb ok then websocket_server_close_all_connections getnameinfo sa_family AF_INET6 false;; mret () else mret () : W ())) by pres.
  intros Hd1 L1. destruct (L2 w1 Hd1) as [Hd2 L2']. split; [exact Hd2|]. intros fd Hfd. rewrite <- L1 by done. by apply L2'.
Qed.

(** ** A whole run *)

Lemma runtime_run_account w : shut zval_get_long w ->
  forall fd, 0 <= fd -> account fd (websocket_server_runtime_run getnameinfo sa_family AF_INET6 getaddrinfo sha1
    base64_encode base64_decode_ex zval_get_long w).2 = account fd w.
Proof.
  intros [I E _ Hl] fd Hfd. unfold websocket_server_runtime_run.
  rewrite (st_bind_run (websocket_server_create_listener _)).
  pose proof (create_listener_proc getaddrinfo w (si_driver _ _ _ I)) as P.
  pose proof (hoare_proc zval_get_long None _ (create_listener_proc getaddrinfo) w I) as I1.
  pose proof (fun fd Hfd => create_listener_account fd w Hfd) as A. cbv zeta in A.
  destruct (websocket_server_create_listener _ w) as [lfd w1]. cbn [fst snd] in *. rewrite (st_bind_run (mod_server _)).
  set (w2 := (mod_server (set_listener_fd lfd) w1).2).
  assert (A2 : forall fd, 0 <= fd -> account fd w2 = account fd w).
  { intros fd' Hfd'. unfold w2. rewrite set_listener_account. destruct (A fd' Hfd') as [-> ->].
    unfold tick at 2. replace (s_listener_fd (w_server w) =? fd') with false by lia. lia. }
  cbn [fst]. destruct (lfd <? 0); [by apply A2|].
  assert (S2 : balanced (fun fd => account fd w) w2) by (split; [by destruct I1|exact A2]).
  pose proof (balanced_proc (fun fd => account fd w) _ (quiet_proc _ (world_watch_read_quiet lfd)) (world_watch_read_ledger lfd) w2 S2) as S3.
  rewrite (st_bind_run (world_watch_read _)). destruct (world_watch_read lfd w2) as [ok w3]. cbn [fst snd] in *.
  assert (Hclose : forall b (w4 : world D U V), balanced (fun fd => account fd w) w4 ->
    account fd (websocket_server_runtime_close getnameinfo sa_family AF_INET6 b w4).2 = account fd w).
  { intros b w4 [I4 J4]. destruct (runtime_close_ledger b w4 (si_driver _ _ _ I4)) as [_ L]. by rewrite L, J4. }
  destruct (negb ok).
  - rewrite (st_bind_run (throw _)), st_bind_run. cbn [snd mret ST_ret]. apply Hclose.
    destruct S3 as [[] J3]. by split.
  - rewrite (st_bind_run (st_gets _)), (st_bind_run (run_loop _ _ _ _ _ _ _ _)). cbn [fst snd st_gets].
    rewrite (st_bind_run no_exception), st_bind_run. cbn [fst snd no_exception st_gets]. apply Hclose.
    by apply run_loop_balanced.
Qed.

(** Nothing is held before and after: the books are the trace's. *)
Lemma shut_account fd w : 0 <= fd -> shut zval_get_long w -> account fd w = balance fd (k_trace (w_kernel w)).
Proof.
  intros Hfd [_ _ Hs Hl]. unfold account. rewrite heap_owned_none; [|done|].
  - unfold tick. replace (s_listener_fd (w_server w) =? fd) with false by lia. lia.
  - intros h c Hc. specialize (Hs h). unfold conn_of in Hs. by rewrite Hc in Hs.
Qed.

(** C3. [Server::run] releases everything.  Started with nothing open, it ends with
    nothing open: however it ends (stopped, an error, an exception of a handler, a
    failure to listen), no connection is left in the array, no object has a socket,
    there is no listener and the server can be run again; and every descriptor the
    kernel handed over during the run, for listening or by accepting, was closed as
    often as it was handed over. *)
Theorem run_releases (best_driver : kernel -> option D * kernel) w
    (Hdriver : init_law best_driver) (Hshut : shut zval_get_long w) (Hrun : w_running w = false)
    (Hs : s_running (w_server w) = false) :
  let w' := (WebSocket_Server_run getnameinfo sa_family AF_INET6 getaddrinfo sha1 base64_encode base64_decode_ex
               zval_get_long best_driver w).2 in
  (shut zval_get_long w' /\ w_running w' = false /\ s_running (w_server w') = false) /\
  forall fd, 0 <= fd -> balance fd (k_trace (w_kernel w')) = balance fd (k_trace (w_kernel w)).
Proof.
  cbv zeta. split; [by apply run_shuts|]. intros fd Hfd.
  unfold WebSocket_Server_run. rewrite (st_bind_run (st_gets w_running)), (st_bind_run get_server).
  cbn [fst snd get_server st_gets]. rewrite Hrun. destruct (negb (s_listening (w_server w))); [done|].
  rewrite (st_bind_run (ensure_driver _)), (st_bind_run (st_gets w_driver)). cbn [fst snd st_gets].
  pose proof (ensure_driver_step best_driver w Hdriver (si_driver _ _ _ (shut_inv _ _ Hshut))) as E. cbv zeta in E.
  revert E. generalize (ensure_driver best_driver w).2. intros w1 (E1 & E2 & E3 & E4 & E5 & E6 & E7).
  assert (H1 : shut zval_get_long w1) by (by apply (shut_same zval_get_long w)).
  destruct (w_driver w1) eqn:Ed; [|cbn; by rewrite E6].
  rewrite (st_bind_run (st_modify _)), (st_bind_run (mod_server _)). cbn [fst snd st_modify mod_server].
  rewrite (st_bind_run (websocket_server_runtime_run _ _ _ _ _ _ _ _)).
  match goal with |- context [websocket_server_runtime_run _ _ _ _ _ _ _ _ ?w2] =>
    assert (S2 : shut zval_get_long w2); [|pose proof (runtime_run_account w2 S2 fd Hfd) as A;
      pose proof (runtime_run_shuts getnameinfo sa_family AF_INET6 getaddrinfo sha1 base64_encode base64_decode_ex
        zval_get_long w2 S2) as S3; rewrite (shut_account _ w2 Hfd S2) in A] end.
  { destruct H1 as [[] ? ? ?]. by constructor; [constructor|..]. }
  destruct (websocket_server_runtime_run _ _ _ _ _ _ _ _ _) as [ok w3]. cbn [fst snd] in *.
  rewrite shut_account in A by done. transitivity (balance fd (k_trace (w_kernel w3))); [done|].
  rewrite A. rewrite <- E6. done.
Qed.
End Ledger.

(** The echo server's run: the listener and one client, opened and closed once. *)
Lemma run_releases_witness :
  List.filter (fun e => match e with EvOpen _ | EvClose _ => true | _ => false end)
    (rev (k_trace (w_kernel (echo_run echo_script)))) = [EvOpen 3; EvOpen 4; EvClose 4; EvClose 3] /\
  shut (fun z => z) (echo_run echo_script) /\
  forall fd, 0 <= fd -> balance fd (k_trace (w_kernel (echo_run echo_script))) = 0.
Proof.
  split; [by vm_compute|].
  assert (H : shut (fun z => z) (echo_world echo_script)).
  { constructor; [constructor|..]; try done.
    - apply NoDup_nil_2.
    - intros h Hh. by apply not_elem_of_nil in Hh. }
  destruct (run_releases no_names ipv4 10 one_address (fun x => x) (fun x => x) example_decode (fun z => z)
    select_only (echo_world echo_script) select_only_law H eq_refl eq_refl) as [[H1 _] H2].
  split; [exact H1|]. exact H2.
Defined.

(** What the script shows the outside: the handlers in order, the echo, and both
    descriptors closed. *)
Example echo_trace :
  map (fun e => match e with EvSend fd d => EvSend fd (ztake 4 d) | _ => e end)
    (rev (k_trace (w_kernel (echo_run echo_script)))) =
  [EvOpen 3; EvOpen 4; EvSend 4 (str "HTTP"); EvCall OnOpen (Some 0) [] None;
   EvCall OnMessage (Some 0) [72; 105] (Some Text); EvSend 4 [0x81; 2; 72; 105];
   EvSend 4 [0x88; 0]; EvClose 4; EvCall OnClose (Some 0) [] None; EvClose 3].
Proof. vm_compute. reflexivity. Qed.
